(** * A shallow embedding of the ASN.1 BER library [limecodeswe/asn1]

    The development follows the Go sources file by file:
    - the TLV codec (tag, length, whole TLV, batch decode),
    - the typed value objects and their [Encode] methods,
    - the conversion of raw TLVs into typed objects,
    - the struct-tag driven marshaler and unmarshaler.

    Conventions.
    - A Go [byte] is a [Byte.byte]; a [[]byte] and a Go [string] are
      [list byte].
    - A Go [int] is a [Z], for a platform whose [int] has 64 bits: the
      decoders guard every number they accumulate (tag numbers, lengths,
      subidentifiers) so that it stays below [2^32], and nothing in the
      codec wraps.  Every place where the source narrows a value to a
      [byte] goes through [byte_of_Z], which keeps the low eight bits; the
      sized integers of marshaled structs wrap through [wrapSigned] and
      [wrapUnsigned].
    - A [*big.Int] is a [Z].
    - A Go function returning [(T, error)] returns a [result T]; a [panic]
      is the third outcome [Panic].  An error text abbreviates the format
      string of the source: its arguments, and what only introduces them,
      are left out; wrapping with [%w] prepends the outer text.
    - Loops whose Go termination argument is not structural carry a fuel
      argument.  The batch decoder and the conversion of raw TLVs into
      typed objects are shown never to run out of it; the digit loops take
      a fuel that the number of digits cannot exceed.
    - The [time] package is a parameter ([GoTimeLib]); [civilTime] is a
      concrete one for closed examples.
    - The marshaler works on a reflection model of host values ([goType],
      [goValue]).  The hooks [ASN1Marshaler] and [ASN1Unmarshaler] of user
      types are outside the model, and so is the content of a target that
      [Unmarshal] has partly written when it fails. *)

From Stdlib Require Import ZArith List Lia String Ascii Bool.
From Stdlib Require Import Strings.Byte.
Import ListNotations.
Local Open Scope string_scope.
Local Open Scope list_scope.
Local Open Scope Z_scope.
Set Warnings "-register-all".

(* ================================================================== *)
(** * Bytes and outcomes *)
(* ================================================================== *)

(** [byte(x)] for an integer [x]: the low eight bits. *)
Definition byte_of_Z (z : Z) : byte :=
  match Byte.of_N (Z.to_N (z mod 256)) with
  | Some b => b
  | None => x00
  end.

(** [int(b)] for a byte [b]. *)
Definition Z_of_byte (b : byte) : Z := Z.of_N (Byte.to_N b).

(** [a | b] and [a & b] on bytes. *)
Definition bor (a b : byte) : byte :=
  byte_of_Z (Z.lor (Z_of_byte a) (Z_of_byte b)).
Definition band (a b : byte) : byte :=
  byte_of_Z (Z.land (Z_of_byte a) (Z_of_byte b)).

(** [len(data)] as a Go [int]. *)
Definition len {A} (l : list A) : Z := Z.of_nat (List.length l).

(** [data[i:]] and [data[i:j]] for in-range indices. *)
Definition slice_from {A} (data : list A) (i : Z) : list A :=
  skipn (Z.to_nat i) data.
Definition slice {A} (data : list A) (i j : Z) : list A :=
  firstn (Z.to_nat (j - i)) (skipn (Z.to_nat i) data).

Inductive result (A : Type) : Type :=
| Ok (a : A)
| Err (msg : string)
| Panic (msg : string).
Arguments Ok {A} a.
Arguments Err {A} msg.
Arguments Panic {A} msg.

Definition bind {A B} (r : result A) (k : A -> result B) : result B :=
  match r with
  | Ok a => k a
  | Err e => Err e
  | Panic p => Panic p
  end.

Notation "x <- c1 ;; c2" := (bind c1 (fun x => c2))
  (at level 61, c1 at next level, right associativity).
Notation "' pat <- c1 ;; c2" :=
  (bind c1 (fun x => match x with pat => c2 end))
  (at level 61, pat pattern, c1 at next level, right associativity).

(** [fmt.Errorf("prefix: %w", err)]: the error is kept, with a prefix. *)
Definition wrapErr {A} (prefix : string) (r : result A) : result A :=
  match r with
  | Err e => Err (prefix ++ e)%string
  | other => other
  end.

Definition is_ok {A} (r : result A) : bool :=
  match r with Ok _ => true | _ => false end.
Definition is_err {A} (r : result A) : bool :=
  match r with Err _ => true | _ => false end.
Definition is_panic {A} (r : result A) : bool :=
  match r with Panic _ => true | _ => false end.

(** The loop [for x > 0 { out = append([]byte{byte(x & mask)}, out...);
    x >>= shift }] shared by [EncodeTag], [EncodeLength],
    [encodeSubidentifier] and [big.Int.Bytes]. *)
Fixpoint prependLoop (shift mask : Z) (fuel : nat) (x : Z)
    (out : list byte) : list byte :=
  match fuel with
  | O => out
  | S fuel' =>
      if x >? 0
      then prependLoop shift mask fuel' (Z.shiftr x shift)
             (byte_of_Z (Z.land x mask) :: out)
      else out
  end.

(** Enough iterations for [prependLoop] on [x]: one per bit. *)
Definition loopFuel (x : Z) : nat := S (Z.to_nat (Z.log2 x)).

(* ================================================================== *)
(** * Tags (types.go) *)
(* ================================================================== *)

Definition TagBoolean : Z := 1.
Definition TagInteger : Z := 2.
Definition TagBitString : Z := 3.
Definition TagOctetString : Z := 4.
Definition TagNull : Z := 5.
Definition TagOID : Z := 6.
Definition TagEnumerated : Z := 10.
Definition TagUTF8String : Z := 12.
Definition TagSequence : Z := 16.
Definition TagSet : Z := 17.
Definition TagPrintableString : Z := 19.
Definition TagIA5String : Z := 22.
Definition TagUTCTime : Z := 23.
Definition TagGeneralizedTime : Z := 24.

(** [type Tag struct { Class int; Constructed bool; Number int }];
    the constructor is the source's [NewTag]. *)
Record Tag : Type := NewTag {
  Class : Z;
  Constructed : bool;
  Number : Z
}.

Definition NewUniversalTag (number : Z) (constructed : bool) : Tag :=
  NewTag 0 constructed number.

Definition NewContextSpecificTag (number : Z) (constructed : bool) : Tag :=
  NewTag 2 constructed number.

Definition Tag_eqb (a b : Tag) : bool :=
  (Class a =? Class b) && Bool.eqb (Constructed a) (Constructed b)
  && (Number a =? Number b).

(** [type ASN1Value struct { tag Tag; value []byte }]; the projections are
    the accessor methods [Tag()] and [Value()]. *)
Record ASN1Value : Type := NewASN1Value {
  ASN1Value_Tag : Tag;
  ASN1Value_Value : list byte
}.

(* ================================================================== *)
(** * The TLV codec (encoding.go) *)
(* ================================================================== *)

(** [numberBytes[i] |= 0x80] for every index but the last. *)
Fixpoint setContinuation (numberBytes : list byte) : list byte :=
  match numberBytes with
  | [] => []
  | [b] => [b]
  | b :: rest => bor b x80 :: setContinuation rest
  end.

Definition EncodeTag (tag : Tag) : result (list byte) :=
  if Number tag <? 0 then Err "tag number cannot be negative"
  else if Number tag <=? 30 then
    let b := byte_of_Z (Z.shiftl (Class tag) 6) in
    let b := if Constructed tag then bor b x20 else b in
    let b := bor b (byte_of_Z (Number tag)) in
    Ok [b]
  else
    let firstByte := byte_of_Z (Z.shiftl (Class tag) 6) in
    let firstByte := if Constructed tag then bor firstByte x20 else firstByte in
    let firstByte := bor firstByte x1f in
    let number := Number tag in
    let numberBytes :=
      if number =? 0 then [x00]
      else prependLoop 7 127 (loopFuel number) number [] in
    Ok ([firstByte] ++ setContinuation numberBytes).

Definition EncodeLength (length : Z) : result (list byte) :=
  if length <? 0 then Err "length cannot be negative"
  else if length <? 128 then Ok [byte_of_Z length]
  else
    let lengthBytes := prependLoop 8 255 (loopFuel length) length [] in
    Ok ([bor x80 (byte_of_Z (len lengthBytes))] ++ lengthBytes).

Definition EncodeTLV (tag : Tag) (value : list byte) : result (list byte) :=
  tagBytes <- wrapErr "failed to encode tag: " (EncodeTag tag) ;;
  lengthBytes <- wrapErr "failed to encode length: " (EncodeLength (len value)) ;;
  Ok (tagBytes ++ lengthBytes ++ value).

(** The [for] loop of [DecodeTag]; [data] is [data[offset:]]. *)
Fixpoint DecodeTag_loop (data : list byte) (tagNumber offset : Z)
    : result (Z * Z) :=
  match data with
  | [] => Err "incomplete multi-byte tag"
  | b :: rest =>
      let offset := offset + 1 in
      if tagNumber >? Z.shiftl 1 (32 - 7) - 1 then Err "tag number too large"
      else
        let tagNumber :=
          Z.lor (Z.shiftl tagNumber 7) (Z_of_byte (band b x7f)) in
        if Z_of_byte (band b x80) =? 0 then Ok (tagNumber, offset)
        else DecodeTag_loop rest tagNumber offset
  end.

Definition DecodeTag (data : list byte) : result (Tag * Z) :=
  match data with
  | [] => Err "empty data"
  | firstByte :: _ =>
      let class := Z.shiftr (Z_of_byte (band firstByte xc0)) 6 in
      let constructed := negb (Z_of_byte (band firstByte x20) =? 0) in
      let tagNumber := Z_of_byte (band firstByte x1f) in
      if negb (tagNumber =? 31) then Ok (NewTag class constructed tagNumber, 1)
      else if len data <? 2 then Err "insufficient data for multi-byte tag"
      else
        '(tagNumber, offset) <- DecodeTag_loop (slice_from data 1) 0 1 ;;
        Ok (NewTag class constructed tagNumber, offset)
  end.

Definition DecodeLength (data : list byte) : result (Z * Z) :=
  match data with
  | [] => Err "empty data"
  | firstByte :: _ =>
      if Z_of_byte (band firstByte x80) =? 0 then Ok (Z_of_byte firstByte, 1)
      else
        let numLengthBytes := Z_of_byte (band firstByte x7f) in
        if numLengthBytes =? 0 then Err "indefinite length not supported"
        else if numLengthBytes >? 4 then Err "length too large"
        else if len data <? 1 + numLengthBytes
        then Err "insufficient data for length"
        else
          let length :=
            fold_left (fun length b => Z.lor (Z.shiftl length 8) (Z_of_byte b))
                      (slice data 1 (1 + numLengthBytes)) 0 in
          Ok (length, 1 + numLengthBytes)
  end.

Definition DecodeTLV (data : list byte) : result (ASN1Value * Z) :=
  if len data =? 0 then Err "empty data"
  else
    let offset := 0 in
    '(tag, tagLen) <- wrapErr "failed to decode tag: "
                        (DecodeTag (slice_from data offset)) ;;
    let offset := offset + tagLen in
    if offset >=? len data then Err "insufficient data for length"
    else
      '(length, lengthLen) <- wrapErr "failed to decode length: "
                                (DecodeLength (slice_from data offset)) ;;
      let offset := offset + lengthLen in
      if offset + length >? len data then Err "insufficient data for value"
      else
        let value := slice data offset (offset + length) in
        let offset := offset + length in
        Ok (NewASN1Value tag value, offset).

(* ================================================================== *)
(** * Library functions the sources call *)
(* ================================================================== *)

(** ** [unicode/utf8] *)

Definition RuneError : Z := 65533.

Definition between (lo hi : Z) (b : byte) : bool :=
  (lo <=? Z_of_byte b) && (Z_of_byte b <=? hi).

(** The low six bits of a continuation byte. *)
Definition contBits (b : byte) : Z := Z.land (Z_of_byte b) 63.

(** [utf8.DecodeRuneInString]: the first rune of [s] and the number of bytes
    it occupies; a byte that starts no well-formed sequence decodes to
    [(RuneError, 1)].  [None] on the empty string. *)
Definition DecodeRune (s : list byte) : option (Z * nat) :=
  match s with
  | [] => None
  | b0 :: rest =>
      let z0 := Z_of_byte b0 in
      if z0 <? 128 then Some (z0, 1%nat)
      else if between 194 223 b0 then
        match rest with
        | b1 :: _ =>
            if between 128 191 b1
            then Some (Z.land z0 31 * 64 + contBits b1, 2%nat)
            else Some (RuneError, 1%nat)
        | _ => Some (RuneError, 1%nat)
        end
      else if between 224 239 b0 then
        match rest with
        | b1 :: b2 :: _ =>
            let lo := if z0 =? 224 then 160 else 128 in
            let hi := if z0 =? 237 then 159 else 191 in
            if between lo hi b1 && between 128 191 b2
            then Some ((Z.land z0 15 * 64 + contBits b1) * 64 + contBits b2,
                       3%nat)
            else Some (RuneError, 1%nat)
        | _ => Some (RuneError, 1%nat)
        end
      else if between 240 244 b0 then
        match rest with
        | b1 :: b2 :: b3 :: _ =>
            let lo := if z0 =? 240 then 144 else 128 in
            let hi := if z0 =? 244 then 143 else 191 in
            if between lo hi b1 && between 128 191 b2 && between 128 191 b3
            then Some (((Z.land z0 7 * 64 + contBits b1) * 64 + contBits b2)
                         * 64 + contBits b3, 4%nat)
            else Some (RuneError, 1%nat)
        | _ => Some (RuneError, 1%nat)
        end
      else Some (RuneError, 1%nat)
  end.

(** The runes [for _, r := range s] yields. *)
Fixpoint runes_loop (fuel : nat) (s : list byte) : list Z :=
  match fuel with
  | O => []
  | S fuel' =>
      match DecodeRune s with
      | None => []
      | Some (r, size) => r :: runes_loop fuel' (skipn size s)
      end
  end.
Definition runes (s : list byte) : list Z := runes_loop (List.length s) s.

(** [utf8.ValidString]: no position decodes to a one-byte [RuneError]. *)
Fixpoint ValidString_loop (fuel : nat) (s : list byte) : bool :=
  match fuel with
  | O => true
  | S fuel' =>
      match DecodeRune s with
      | None => true
      | Some (r, size) =>
          if (r =? RuneError) && Nat.eqb size 1 then false
          else ValidString_loop fuel' (skipn size s)
      end
  end.
Definition ValidString (s : list byte) : bool :=
  ValidString_loop (List.length s) s.

(** ** [strings] and [strconv] *)

(** Length of the white-space rune at the head of [s] ([unicode.IsSpace]),
    [0] when [s] does not start with one. *)
Definition spaceAtHead (s : list byte) : nat :=
  match DecodeRune s with
  | Some (r, size) =>
      if ((9 <=? r) && (r <=? 13)) || (r =? 32) || (r =? 133) || (r =? 160)
         || (r =? 5760) || ((8192 <=? r) && (r <=? 8202)) || (r =? 8232)
         || (r =? 8233) || (r =? 8239) || (r =? 8287) || (r =? 12288)
      then size else 0%nat
  | None => 0%nat
  end.

Fixpoint trimLeft_loop (fuel : nat) (s : list byte) : list byte :=
  match fuel with
  | O => s
  | S fuel' =>
      match spaceAtHead s with
      | O => s
      | n => trimLeft_loop fuel' (skipn n s)
      end
  end.

(** Length of the white-space rune at the end of [s]. *)
Definition spaceAtEnd (s : list byte) : nat :=
  let n := List.length s in
  let try (k : nat) :=
    if Nat.leb k n && Nat.eqb (spaceAtHead (skipn (n - k) s)) k
    then true else false in
  if try 1%nat then 1%nat
  else if try 2%nat then 2%nat
  else if try 3%nat then 3%nat
  else 0%nat.

Fixpoint trimRight_loop (fuel : nat) (s : list byte) : list byte :=
  match fuel with
  | O => s
  | S fuel' =>
      match spaceAtEnd s with
      | O => s
      | n => trimRight_loop fuel' (firstn (List.length s - n) s)
      end
  end.

(** [strings.TrimSpace]. *)
Definition TrimSpace (s : list byte) : list byte :=
  let s := trimLeft_loop (List.length s) s in
  trimRight_loop (List.length s) s.

Definition isDigit (b : byte) : bool := between 48 57 b.

(** [strconv.Atoi]: an optional sign and at least one decimal digit, the
    value within the range of a 64-bit [int]; [None] is the error. *)
Definition Atoi (s : list byte) : option Z :=
  let '(neg, ds) :=
    match s with
    | b :: r =>
        if Z_of_byte b =? 43 then (false, r)
        else if Z_of_byte b =? 45 then (true, r)
        else (false, s)
    | [] => (false, [])
    end in
  match ds with
  | [] => None
  | _ =>
      if forallb isDigit ds then
        let n := fold_left (fun a d => a * 10 + (Z_of_byte d - 48)) ds 0 in
        let v := if neg then - n else n in
        if (v <? - 2 ^ 63) || (v >? 2 ^ 63 - 1) then None else Some v
      else None
  end.

(** ** [math/big] *)

(** [x.Bytes()]: the absolute value, big-endian, without leading zeros. *)
Definition big_Bytes (x : Z) : list byte :=
  prependLoop 8 255 (loopFuel (Z.abs x)) (Z.abs x) [].

(** [new(big.Int).SetBytes(data)]. *)
Definition big_SetBytes (data : list byte) : Z :=
  fold_left (fun a b => a * 256 + Z_of_byte b) data 0.

(** [x.BitLen()]: the length of the absolute value in bits. *)
Definition big_BitLen (x : Z) : Z :=
  if x =? 0 then 0 else Z.log2 (Z.abs x) + 1.

(** ** [time]

    The [time] package is not part of the repository: a time value, its
    conversion to UTC, its [Format] method and [time.Date] are taken as an
    interface ([time_Zero] is [time.Time{}]). *)
Class GoTimeLib : Type := {
  GoTime : Type;
  time_UTC : GoTime -> GoTime;
  time_Format : GoTime -> string -> list byte;
  time_Date : Z -> Z -> Z -> Z -> Z -> Z -> GoTime;
  time_Zero : GoTime
}.

(* ================================================================== *)
(** * Value objects *)
(* ================================================================== *)

(** The types that implement the [ASN1Object] interface, one constructor
    per Go struct, with the struct's fields as arguments. *)
Inductive ASN1Object `{GoTimeLib} : Type :=
| OValue (v : ASN1Value)
| OStructured (tag : Tag) (elements : list ASN1Object)
| OBoolean (value : bool)
| OInteger (value : Z)
| OEnumerated (value : Z) (name : list byte)
| OOctetString (value : list byte)
| ONull
| OObjectIdentifier (components : list Z)
| OBitString (value : list byte) (unusedBits : Z)
| OUTF8String (value : list byte)
| OPrintableString (value : list byte)
| OIA5String (value : list byte)
| OUTCTime (time : GoTime)
| OGeneralizedTime (time : GoTime)
| OChoice (value : option ASN1Object) (choiceID : list byte).

Section Objects.
Context `{GoTimeLib}.

(** ** Constructors (the ones that do more than fill the struct) *)

Definition NewSequence : ASN1Object :=
  OStructured (NewUniversalTag TagSequence true) [].
Definition NewSet : ASN1Object :=
  OStructured (NewUniversalTag TagSet true) [].
Definition NewStructured (tag : Tag) : ASN1Object := OStructured tag [].

(** [s.Add(element)]; the receiver is always an [*ASN1Structured]. *)
Definition Add (s : ASN1Object) (element : ASN1Object) : ASN1Object :=
  match s with
  | OStructured tag elements => OStructured tag (elements ++ [element])
  | other => other
  end.

Definition NewBoolean (value : bool) : ASN1Object := OBoolean value.
Definition NewInteger (value : Z) : ASN1Object := OInteger value.
Definition NewIntegerFromBigInt (value : Z) : ASN1Object := OInteger value.
Definition NewEnumerated (value : Z) : ASN1Object := OEnumerated value [].
Definition NewEnumeratedFromBigInt (value : Z) : ASN1Object :=
  OEnumerated value [].
Definition NewOctetString (value : list byte) : ASN1Object :=
  OOctetString value.
Definition NewNull : ASN1Object := ONull.
Definition NewUTCTime (t : GoTime) : ASN1Object := OUTCTime (time_UTC t).
Definition NewGeneralizedTime (t : GoTime) : ASN1Object :=
  OGeneralizedTime (time_UTC t).
Definition NewChoice (value : ASN1Object) : ASN1Object :=
  OChoice (Some value) [].

(** strings.go *)
Definition isPrintableChar (r : Z) : bool :=
  if ((65 <=? r) && (r <=? 90)) || ((97 <=? r) && (r <=? 122))
     || ((48 <=? r) && (r <=? 57))
  then true
  else if (r =? 32) || (r =? 39) || (r =? 40) || (r =? 41) || (r =? 43)
          || (r =? 44) || (r =? 45) || (r =? 46) || (r =? 47) || (r =? 58)
          || (r =? 61) || (r =? 63)
  then true
  else false.

Definition isPrintableString (s : list byte) : bool :=
  forallb isPrintableChar (runes s).

Definition isIA5String (s : list byte) : bool :=
  forallb (fun r => negb ((r <? 0) || (r >? 127))) (runes s).

Definition NewUTF8String (value : list byte) : result ASN1Object :=
  if negb (ValidString value) then Panic "invalid UTF-8 string"
  else Ok (OUTF8String value).

Definition NewPrintableString (value : list byte) : result ASN1Object :=
  if negb (isPrintableString value)
  then Panic "string contains non-printable characters"
  else Ok (OPrintableString value).

Definition NewIA5String (value : list byte) : result ASN1Object :=
  if negb (isIA5String value) then Panic "string contains non-IA5 characters"
  else Ok (OIA5String value).

(** bitstring.go *)
Definition NewBitString (value : list byte) (unusedBits : Z)
    : result ASN1Object :=
  if (unusedBits <? 0) || (unusedBits >? 7)
  then Panic "unused bits must be between 0 and 7"
  else Ok (OBitString value unusedBits).

(** oid.go *)
Definition NewObjectIdentifier (components : list Z) : result ASN1Object :=
  if len components <? 2
  then Panic "object identifier must have at least 2 components"
  else
    let c0 := nth 0 components 0 in
    let c1 := nth 1 components 0 in
    if (c0 <? 0) || (c0 >? 2) then Panic "first component must be 0, 1, or 2"
    else if (c0 <? 2) && ((c1 <? 0) || (c1 >? 39))
    then Panic
           "second component must be 0-39 when first component is 0 or 1"
    else Ok (OObjectIdentifier components).

(** ** The [Tag()] methods *)

Fixpoint ObjectTag (o : ASN1Object) : Tag :=
  match o with
  | OValue v => ASN1Value_Tag v
  | OStructured tag _ => tag
  | OBoolean _ => NewUniversalTag TagBoolean false
  | OInteger _ => NewUniversalTag TagInteger false
  | OEnumerated _ _ => NewUniversalTag TagEnumerated false
  | OOctetString _ => NewUniversalTag TagOctetString false
  | ONull => NewUniversalTag TagNull false
  | OObjectIdentifier _ => NewUniversalTag TagOID false
  | OBitString _ _ => NewUniversalTag TagBitString false
  | OUTF8String _ => NewUniversalTag TagUTF8String false
  | OPrintableString _ => NewUniversalTag TagPrintableString false
  | OIA5String _ => NewUniversalTag TagIA5String false
  | OUTCTime _ => NewUniversalTag TagUTCTime false
  | OGeneralizedTime _ => NewUniversalTag TagGeneralizedTime false
  | OChoice None _ => NewTag 0 false 0
  | OChoice (Some value) _ => ObjectTag value
  end.

(** ** The value octets of each primitive *)

Definition ASN1Boolean_content (value : bool) : list byte :=
  if value then [xff] else [x00].

(** [for len(bytes) < byteLen { bytes = append([]byte{0xFF}, bytes...) }] *)
Definition padFF (byteLen : Z) (bytes : list byte) : list byte :=
  repeat xff (Z.to_nat (byteLen - len bytes)) ++ bytes.

(** integer.go, [(i *ASN1Integer) encodeIntegerValue]. *)
Definition ASN1Integer_encodeIntegerValue (value : Z) : list byte :=
  if Z.sgn value =? 0 then [x00]
  else
    let bytes := big_Bytes value in
    let bytes :=
      if (Z.sgn value >? 0) && (len bytes >? 0)
         && negb (Z_of_byte (band (hd x00 bytes) x80) =? 0)
      then [x00] ++ bytes else bytes in
    if Z.sgn value <? 0 then
      if (value >=? -128) && (value <? 0) then [byte_of_Z value]
      else
        let abs := Z.abs value in
        let bitLen := big_BitLen abs in
        let bitLen :=
          if bitLen mod 8 =? 0 then bitLen + 8 else (bitLen / 8 + 1) * 8 in
        let byteLen := bitLen / 8 in
        let modulus := Z.shiftl 1 (byteLen * 8) in
        let twosComp := modulus + value in
        padFF byteLen (big_Bytes twosComp)
    else bytes.

(** enumerated.go, the package-level [encodeIntegerValue]. *)
Definition encodeIntegerValue (value : Z) : list byte :=
  if Z.sgn value =? 0 then [x00]
  else
    let bytes := big_Bytes value in
    if Z.sgn value <? 0 then
      let bitLen := big_BitLen value + 1 in
      let byteLen := (bitLen + 7) / 8 in
      let maxVal := Z.shiftl 1 (byteLen * 8) in
      let result := maxVal + value in
      padFF byteLen (big_Bytes result)
    else
      if (len bytes >? 0) && negb (Z_of_byte (band (hd x00 bytes) x80) =? 0)
      then [x00] ++ bytes else bytes.

(** integer.go, [DecodeIntegerValue]. *)
Definition DecodeIntegerValue (data : list byte) : result Z :=
  match data with
  | [] => Err "integer value cannot be empty"
  | b0 :: _ =>
      let value := big_SetBytes data in
      if negb (Z_of_byte (band b0 x80) =? 0)
      then Ok (value - Z.shiftl 1 (len data * 8))
      else Ok value
  end.

(** oid.go, [encodeSubidentifier]. *)
Definition encodeSubidentifier (value : Z) : list byte :=
  if value =? 0 then [x00]
  else setContinuation (prependLoop 7 127 (loopFuel value) value []).

Definition ASN1ObjectIdentifier_content (components : list Z) : list byte :=
  let firstSubid := nth 0 components 0 * 40 + nth 1 components 0 in
  encodeSubidentifier firstSubid
  ++ flat_map encodeSubidentifier (skipn 2 components).

Definition ASN1BitString_content (value : list byte) (unusedBits : Z)
    : list byte :=
  byte_of_Z unusedBits :: value.

(** ** The [Encode()] methods *)

Fixpoint Encode (o : ASN1Object) : result (list byte) :=
  match o with
  | OValue v => EncodeTLV (ASN1Value_Tag v) (ASN1Value_Value v)
  | OStructured tag elements =>
      let fix range (elements : list ASN1Object) (content : list byte)
          : result (list byte) :=
        match elements with
        | [] => Ok content
        | element :: rest =>
            match Encode element with
            | Ok encoded => range rest (content ++ encoded)
            | Err e => Err ("failed to encode element: " ++ e)%string
            | Panic p => Panic p
            end
        end in
      match range elements [] with
      | Ok content => EncodeTLV tag content
      | Err e => Err e
      | Panic p => Panic p
      end
  | OBoolean value =>
      EncodeTLV (NewUniversalTag TagBoolean false) (ASN1Boolean_content value)
  | OInteger value =>
      EncodeTLV (NewUniversalTag TagInteger false)
        (ASN1Integer_encodeIntegerValue value)
  | OEnumerated value _ =>
      EncodeTLV (NewUniversalTag TagEnumerated false)
        (encodeIntegerValue value)
  | OOctetString value => EncodeTLV (NewUniversalTag TagOctetString false) value
  | ONull => EncodeTLV (NewUniversalTag TagNull false) []
  | OObjectIdentifier components =>
      if len components <? 2
      then Err "object identifier must have at least 2 components"
      else EncodeTLV (NewUniversalTag TagOID false)
             (ASN1ObjectIdentifier_content components)
  | OBitString value unusedBits =>
      EncodeTLV (NewUniversalTag TagBitString false)
        (ASN1BitString_content value unusedBits)
  | OUTF8String value => EncodeTLV (NewUniversalTag TagUTF8String false) value
  | OPrintableString value =>
      EncodeTLV (NewUniversalTag TagPrintableString false) value
  | OIA5String value => EncodeTLV (NewUniversalTag TagIA5String false) value
  | OUTCTime t =>
      EncodeTLV (NewUniversalTag TagUTCTime false)
        (time_Format t "060102150405Z")
  | OGeneralizedTime t =>
      EncodeTLV (NewUniversalTag TagGeneralizedTime false)
        (time_Format t "20060102150405Z")
  | OChoice None _ => Err "choice has no value set"
  | OChoice (Some value) _ => Encode value
  end.

End Objects.

(* ================================================================== *)
(** * Decoders of the typed values *)
(* ================================================================== *)

Section Decoders.
Context `{GoTimeLib}.

(** boolean.go *)
Definition DecodeBooleanValue (data : list byte) : result bool :=
  match data with
  | [b] => Ok (negb (Z_of_byte b =? 0))
  | _ => Err "boolean value must be exactly 1 byte"
  end.

Definition DecodeBoolean (data : list byte) : result (ASN1Object * Z) :=
  '(asn1Value, consumed) <- DecodeTLV data ;;
  let tag := ASN1Value_Tag asn1Value in
  if negb (Class tag =? 0) || negb (Number tag =? TagBoolean)
  then Err "expected BOOLEAN tag"
  else
    value <- DecodeBooleanValue (ASN1Value_Value asn1Value) ;;
    Ok (NewBoolean value, consumed).

(** integer.go *)
Definition DecodeInteger (data : list byte) : result (ASN1Object * Z) :=
  '(asn1Value, consumed) <- DecodeTLV data ;;
  let tag := ASN1Value_Tag asn1Value in
  if negb (Class tag =? 0) || negb (Number tag =? TagInteger)
  then Err "expected INTEGER tag"
  else
    value <- DecodeIntegerValue (ASN1Value_Value asn1Value) ;;
    Ok (NewIntegerFromBigInt value, consumed).

(** strings.go *)
Definition DecodeUTF8String (data : list byte) : result (ASN1Object * Z) :=
  '(asn1Value, consumed) <- DecodeTLV data ;;
  let tag := ASN1Value_Tag asn1Value in
  if negb (Class tag =? 0) || negb (Number tag =? TagUTF8String)
  then Err "expected UTF8String tag"
  else
    let value := ASN1Value_Value asn1Value in
    if negb (ValidString value) then Err "invalid UTF-8 string"
    else
      s <- NewUTF8String value ;;
      Ok (s, consumed).

Definition DecodePrintableString (data : list byte)
    : result (ASN1Object * Z) :=
  '(asn1Value, consumed) <- DecodeTLV data ;;
  let tag := ASN1Value_Tag asn1Value in
  if negb (Class tag =? 0) || negb (Number tag =? TagPrintableString)
  then Err "expected PrintableString tag"
  else
    let value := ASN1Value_Value asn1Value in
    if negb (isPrintableString value)
    then Err "string contains non-printable characters"
    else
      s <- NewPrintableString value ;;
      Ok (s, consumed).

Definition DecodeIA5String (data : list byte) : result (ASN1Object * Z) :=
  '(asn1Value, consumed) <- DecodeTLV data ;;
  let tag := ASN1Value_Tag asn1Value in
  if negb (Class tag =? 0) || negb (Number tag =? TagIA5String)
  then Err "expected IA5String tag"
  else
    let value := ASN1Value_Value asn1Value in
    if negb (isIA5String value) then Err "string contains non-IA5 characters"
    else
      s <- NewIA5String value ;;
      Ok (s, consumed).

(** bitstring.go *)
Definition DecodeBitStringValue (data : list byte)
    : result (list byte * Z) :=
  match data with
  | [] => Err "bit string value cannot be empty"
  | b0 :: rest =>
      let unusedBits := Z_of_byte b0 in
      if unusedBits >? 7 then Err "unused bits count cannot exceed 7"
      else if len data =? 1 then
        if negb (unusedBits =? 0)
        then Err "unused bits must be 0 when no data bytes present"
        else Ok ([], 0)
      else Ok (rest, unusedBits)
  end.

Definition DecodeBitString (data : list byte) : result (ASN1Object * Z) :=
  '(asn1Value, consumed) <- DecodeTLV data ;;
  let tag := ASN1Value_Tag asn1Value in
  if negb (Class tag =? 0) || negb (Number tag =? TagBitString)
  then Err "expected BIT STRING tag"
  else
    '(value, unusedBits) <- DecodeBitStringValue (ASN1Value_Value asn1Value) ;;
    b <- NewBitString value unusedBits ;;
    Ok (b, consumed).

(** oid.go: the [for] loop of [decodeSubidentifier]. *)
Fixpoint decodeSubidentifier_loop (data : list byte) (value offset : Z)
    : result (Z * Z) :=
  match data with
  | [] => Err "incomplete subidentifier"
  | b :: rest =>
      let offset := offset + 1 in
      if value >? Z.shiftl 1 (32 - 7) - 1 then Err "subidentifier too large"
      else
        let value := Z.lor (Z.shiftl value 7) (Z_of_byte (band b x7f)) in
        if Z_of_byte (band b x80) =? 0 then Ok (value, offset)
        else decodeSubidentifier_loop rest value offset
  end.

Definition decodeSubidentifier (data : list byte) : result (Z * Z) :=
  if len data =? 0 then Err "empty data"
  else decodeSubidentifier_loop data 0 0.

(** The loop [for offset < len(data)] of [DecodeObjectIdentifierValue]. *)
Fixpoint DecodeObjectIdentifierValue_loop (fuel : nat) (data : list byte)
    (offset : Z) (components : list Z) : option (result (list Z)) :=
  if offset <? len data then
    match fuel with
    | O => None
    | S fuel' =>
        match decodeSubidentifier (slice_from data offset) with
        | Ok (subid, consumed) =>
            DecodeObjectIdentifierValue_loop fuel' data (offset + consumed)
              (components ++ [subid])
        | Err e =>
            Some (Err ("failed to decode subidentifier: " ++ e)%string)
        | Panic p => Some (Panic p)
        end
    end
  else Some (Ok components).

Definition DecodeObjectIdentifierValue (data : list byte)
    : result (list Z) :=
  if len data =? 0 then Err "object identifier value cannot be empty"
  else
    let offset := 0 in
    '(firstSubid, consumed) <-
       wrapErr "failed to decode first subidentifier: "
         (decodeSubidentifier (slice_from data offset)) ;;
    let offset := offset + consumed in
    let components :=
      if firstSubid <? 40 then [0; firstSubid]
      else if firstSubid <? 80 then [1; firstSubid - 40]
      else [2; firstSubid - 80] in
    match DecodeObjectIdentifierValue_loop (List.length data) data offset
            components with
    | Some r => r
    | None => Ok components
    end.

Definition DecodeObjectIdentifier (data : list byte)
    : result (ASN1Object * Z) :=
  '(asn1Value, consumed) <- DecodeTLV data ;;
  let tag := ASN1Value_Tag asn1Value in
  if negb (Class tag =? 0) || negb (Number tag =? TagOID)
  then Err "expected OBJECT IDENTIFIER tag"
  else
    components <- DecodeObjectIdentifierValue (ASN1Value_Value asn1Value) ;;
    o <- NewObjectIdentifier components ;;
    Ok (o, consumed).

(** time.go.  [timeStr[a:b]] panics when [b] exceeds the length. *)
Definition substr (timeStr : list byte) (a b : Z) : list byte :=
  slice timeStr a b.

Definition parseUTCTime (timeStr : list byte) : result GoTime :=
  let timeStr := TrimSpace timeStr in
  if len timeStr <? 11 then Err "UTCTime string too short"
  else if len timeStr <? 12 then Panic "slice bounds out of range"
  else
    match Atoi (substr timeStr 0 2) with
    | None => Err "invalid year"
    | Some year =>
        let year := if year >=? 50 then year + 1900 else year + 2000 in
        match Atoi (substr timeStr 2 4) with
        | None => Err "invalid month"
        | Some month =>
        match Atoi (substr timeStr 4 6) with
        | None => Err "invalid day"
        | Some day =>
        match Atoi (substr timeStr 6 8) with
        | None => Err "invalid hour"
        | Some hour =>
        match Atoi (substr timeStr 8 10) with
        | None => Err "invalid minute"
        | Some min =>
        match Atoi (substr timeStr 10 12) with
        | None => Err "invalid second"
        | Some sec => Ok (time_Date year month day hour min sec)
        end end end end end
    end.

Definition parseGeneralizedTime (timeStr : list byte) : result GoTime :=
  let timeStr := TrimSpace timeStr in
  if len timeStr <? 15 then Err "GeneralizedTime string too short"
  else
    match Atoi (substr timeStr 0 4) with
    | None => Err "invalid year"
    | Some year =>
        match Atoi (substr timeStr 4 6) with
        | None => Err "invalid month"
        | Some month =>
        match Atoi (substr timeStr 6 8) with
        | None => Err "invalid day"
        | Some day =>
        match Atoi (substr timeStr 8 10) with
        | None => Err "invalid hour"
        | Some hour =>
        match Atoi (substr timeStr 10 12) with
        | None => Err "invalid minute"
        | Some min =>
        match Atoi (substr timeStr 12 14) with
        | None => Err "invalid second"
        | Some sec => Ok (time_Date year month day hour min sec)
        end end end end end
    end.

Definition DecodeUTCTime (data : list byte) : result (ASN1Object * Z) :=
  '(value, consumed) <- wrapErr "failed to decode TLV: " (DecodeTLV data) ;;
  let expectedTag := NewUniversalTag TagUTCTime false in
  if negb (Tag_eqb (ASN1Value_Tag value) expectedTag)
  then Err "expected UTCTime tag"
  else
    timeValue <- wrapErr "failed to parse UTCTime: "
                   (parseUTCTime (ASN1Value_Value value)) ;;
    Ok (NewUTCTime timeValue, consumed).

Definition DecodeGeneralizedTime (data : list byte)
    : result (ASN1Object * Z) :=
  '(value, consumed) <- wrapErr "failed to decode TLV: " (DecodeTLV data) ;;
  let expectedTag := NewUniversalTag TagGeneralizedTime false in
  if negb (Tag_eqb (ASN1Value_Tag value) expectedTag)
  then Err "expected GeneralizedTime tag"
  else
    timeValue <- wrapErr "failed to parse GeneralizedTime: "
                   (parseGeneralizedTime (ASN1Value_Value value)) ;;
    Ok (NewGeneralizedTime timeValue, consumed).

(** encoding.go: the loop [for offset < len(data)] of [DecodeAll]. *)
Fixpoint DecodeAll_loop (fuel : nat) (data : list byte) (offset : Z)
    (objects : list ASN1Object) : option (result (list ASN1Object)) :=
  if offset <? len data then
    match fuel with
    | O => None
    | S fuel' =>
        match DecodeTLV (slice_from data offset) with
        | Ok (obj, consumed) =>
            DecodeAll_loop fuel' data (offset + consumed)
              (objects ++ [OValue obj])
        | Err e => Some (Err ("failed to decode object: " ++ e)%string)
        | Panic p => Some (Panic p)
        end
    end
  else Some (Ok objects).

Definition DecodeAll (data : list byte) : result (list ASN1Object) :=
  match DecodeAll_loop (List.length data) data 0 [] with
  | Some r => r
  | None => Err "unreachable"
  end.

(** [Decode]: the first object of [DecodeAll]. *)
Definition Decode (data : list byte) : result ASN1Object :=
  objects <- DecodeAll data ;;
  match objects with
  | [] => Err "no objects found in data"
  | first :: _ => Ok first
  end.

End Decoders.

(* ================================================================== *)
(** * From raw TLVs to typed objects (marshal.go) *)
(* ================================================================== *)

Section Convert.
Context `{GoTimeLib}.

Definition convertPrimitiveValue (val : ASN1Value) : result ASN1Object :=
  let tag := ASN1Value_Tag val in
  let value := ASN1Value_Value val in
  if Class tag =? 2 then Ok (OValue val)
  else if negb (Class tag =? 0) then Ok (OValue val)
  else if Number tag =? TagBoolean then
    if len value =? 1
    then Ok (NewBoolean (negb (Z_of_byte (hd x00 value) =? 0)))
    else Ok (OValue val)
  else if Number tag =? TagInteger then
    match DecodeIntegerValue value with
    | Ok integer => Ok (NewIntegerFromBigInt integer)
    | Err _ => Ok (OValue val)
    | Panic p => Panic p
    end
  else if Number tag =? TagOctetString then Ok (NewOctetString value)
  else if Number tag =? TagUTF8String then NewUTF8String value
  else if Number tag =? TagPrintableString then NewPrintableString value
  else if Number tag =? TagIA5String then NewIA5String value
  else if Number tag =? TagUTCTime then
    match EncodeTLV tag value with
    | Ok tlvData =>
        match DecodeUTCTime tlvData with
        | Ok (utcTime, _) => Ok utcTime
        | Err _ => Ok (OValue val)
        | Panic p => Panic p
        end
    | Err _ => Ok (OValue val)
    | Panic p => Panic p
    end
  else if Number tag =? TagGeneralizedTime then
    match EncodeTLV tag value with
    | Ok tlvData =>
        match DecodeGeneralizedTime tlvData with
        | Ok (genTime, _) => Ok genTime
        | Err _ => Ok (OValue val)
        | Panic p => Panic p
        end
    | Err _ => Ok (OValue val)
    | Panic p => Panic p
    end
  else Ok (OValue val).

(** The loop

      for offset < len(content) {
        elementValue, consumed, err := DecodeTLV(content[offset:])
        if err != nil { ... }
        element := convertToHighLevelObject(elementValue)
        structured.Add(element)
        offset += consumed
      }

    which [UnmarshalWithOptions], [convertToHighLevelObject], [replaceTag]
    and [restoreTag] each contain.  It yields the elements added and, when a
    [DecodeTLV] failed, that error; what happens then differs per caller. *)
Fixpoint elements_loop (convert : ASN1Value -> option (result ASN1Object))
    (fuel : nat) (content : list byte) (offset : Z)
    (elements : list ASN1Object)
    : option (result (list ASN1Object * option string)) :=
  if offset <? len content then
    match fuel with
    | O => None
    | S fuel' =>
        match DecodeTLV (slice_from content offset) with
        | Ok (elementValue, consumed) =>
            match convert elementValue with
            | None => None
            | Some (Ok element) =>
                elements_loop convert fuel' content (offset + consumed)
                  (elements ++ [element])
            | Some (Err e) => Some (Err e)
            | Some (Panic p) => Some (Panic p)
            end
        | Err e => Some (Ok (elements, Some e))
        | Panic p => Some (Panic p)
        end
    end
  else Some (Ok (elements, None)).

(** [convertToHighLevelObject], with the recursion depth as fuel. *)
Fixpoint convertToHighLevelObject_fuel (fuel : nat) (val : ASN1Value)
    : option (result ASN1Object) :=
  match fuel with
  | O => None
  | S fuel' =>
      let tag := ASN1Value_Tag val in
      if Constructed tag then
        let content := ASN1Value_Value val in
        match elements_loop (convertToHighLevelObject_fuel fuel')
                (List.length content) content 0 [] with
        | None => None
        | Some (Ok (elements, None)) => Some (Ok (OStructured tag elements))
        | Some (Ok (_, Some _)) => Some (Ok (OValue val))
        | Some (Err e) => Some (Err e)
        | Some (Panic p) => Some (Panic p)
        end
      else Some (convertPrimitiveValue val)
  end.

(** Every level of nesting takes at least two octets of its parent's
    content, so the length of the value bounds the depth. *)
Definition convertFuel (val : ASN1Value) : nat :=
  S (List.length (ASN1Value_Value val)).

Definition convertToHighLevelObject (val : ASN1Value) : result ASN1Object :=
  match convertToHighLevelObject_fuel (convertFuel val) val with
  | Some r => r
  | None => Ok (OValue val)
  end.

(** The elements of [content], as the four callers compute them. *)
Definition decodeElements (content : list byte)
    : result (list ASN1Object * option string) :=
  match elements_loop
          (fun v => Some (convertToHighLevelObject v))
          (List.length content) content 0 [] with
  | Some r => r
  | None => Ok ([], None)
  end.

End Convert.

(* ================================================================== *)
(** * Vocabulary of the statements *)
(* ================================================================== *)

(** The value of a digit string in base [2^k], continuing from [a]. *)
Definition beValue (k : Z) (l : list byte) (a : Z) : Z :=
  fold_left (fun a b => a * 2 ^ k + Z_of_byte b) l a.

(** The digits of [x] in base [2^k], most significant first: what the
    loop [prependLoop] produces from the empty slice. *)
Definition digits (k : Z) (x : Z) : list byte :=
  prependLoop k (2 ^ k - 1) (loopFuel x) x [].

(** The leading octet of an encoded tag whose low five bits are [low5]. *)
Definition tagLead (class : Z) (constructed : bool) (low5 : Z) : byte :=
  let b := byte_of_Z (Z.shiftl class 6) in
  let b := if constructed then bor b x20 else b in
  bor b (byte_of_Z low5).

(** What [DecodeTag] reads back from a leading octet agrees with what
    went into it. *)
Definition tagLead_ok (class : Z) (constructed : bool) (low5 : Z) : bool :=
  let b := tagLead class constructed low5 in
  (Z.shiftr (Z_of_byte (band b xc0)) 6 =? class)
  && Bool.eqb (negb (Z_of_byte (band b x20) =? 0)) constructed
  && (Z_of_byte (band b x1f) =? low5).

(** The bound [(1<<(32-7))-1] that [DecodeTag] checks before each shift. *)
Definition tagLimit : Z := Z.shiftl 1 (32 - 7) - 1.

(** [TLVsFrom data offset objs]: starting at [offset], [data] is a
    succession of TLVs that [DecodeTLV] accepts one after the other, ending
    exactly at the end of the buffer, and [objs] are the decoded values. *)
Inductive TLVsFrom `{GoTimeLib} (data : list byte)
    : Z -> list ASN1Object -> Prop :=
| TLVsFrom_end : TLVsFrom data (len data) []
| TLVsFrom_next offset v consumed objs :
    0 <= offset < len data ->
    DecodeTLV (slice_from data offset) = Ok (v, consumed) ->
    0 < consumed ->
    TLVsFrom data (offset + consumed) objs ->
    TLVsFrom data offset (OValue v :: objs).

(** The tag octets at the head of [data] are in the form [EncodeTag]
    emits: the high-tag-number form only for a number above 30, and then
    without a leading zero digit. *)
Definition minimalTagForm (data : list byte) : bool :=
  match data with
  | b0 :: b1 :: _ =>
      if Z_of_byte (band b0 x1f) =? 31
      then (30 <? Z_of_byte b1) && negb (Z_of_byte b1 =? 128)
      else true
  | _ => true
  end.

(** The length octets at the head of [data] are in the form [EncodeLength]
    emits: the long form only for a length of 128 or more, and then without
    a leading zero octet. *)
Definition minimalLengthForm (data : list byte) : bool :=
  match data with
  | b0 :: b1 :: _ =>
      if Z_of_byte b0 <? 128 then true
      else negb (Z_of_byte b1 =? 0)
           && ((2 <=? Z_of_byte b0 - 128) || (128 <=? Z_of_byte b1))
  | _ => true
  end.

(** Both, the length octets being those that follow the tag. *)
Definition minimalHeader (data : list byte) : bool :=
  minimalTagForm data
  && match DecodeTag data with
     | Ok (_, tagLen) => minimalLengthForm (slice_from data tagLen)
     | _ => false
     end.

Section RoundTripVocabulary.
Context `{GoTimeLib}.

(** The [range] loop of [ASN1Structured.Encode], on its own. *)
Fixpoint encodeElements (elements : list ASN1Object) (content : list byte)
    : result (list byte) :=
  match elements with
  | [] => Ok content
  | element :: rest =>
      match Encode element with
      | Ok encoded => encodeElements rest (content ++ encoded)
      | Err e => Err ("failed to encode element: " ++ e)%string
      | Panic p => Panic p
      end
  end.

(** A tag the decoder can read back: class in [0..3], number below
    [2^32]. *)
Definition tagInRange (t : Tag) : Prop :=
  0 <= Class t <= 3 /\ 0 <= Number t < 2 ^ 32.

(** The universal tags that [convertPrimitiveValue] turns into a typed
    object. *)
Definition promotedTag (t : Tag) : bool :=
  (Class t =? 0)
  && ((Number t =? TagBoolean) || (Number t =? TagInteger)
      || (Number t =? TagOctetString) || (Number t =? TagUTF8String)
      || (Number t =? TagPrintableString) || (Number t =? TagIA5String)
      || (Number t =? TagUTCTime) || (Number t =? TagGeneralizedTime)).

(** The objects that [replaceTag] reads again as it finds them: tags in
    range; a structured object carries a constructed tag; a raw [ASN1Value]
    is primitive and its tag is not one the decoder promotes; the three
    string types hold what their constructors accept; no time value; no
    empty CHOICE. *)
Fixpoint wfObject (o : ASN1Object) : Prop :=
  match o with
  | OValue v =>
      tagInRange (ASN1Value_Tag v)
      /\ Constructed (ASN1Value_Tag v) = false
      /\ promotedTag (ASN1Value_Tag v) = false
  | OStructured tag elements =>
      tagInRange tag /\ Constructed tag = true
      /\ (fix all (es : list ASN1Object) : Prop :=
            match es with
            | [] => True
            | e :: es' => wfObject e /\ all es'
            end) elements
  | OUTF8String value => ValidString value = true
  | OPrintableString value => isPrintableString value = true
  | OIA5String value => isIA5String value = true
  | OUTCTime _ => False
  | OGeneralizedTime _ => False
  | OChoice None _ => False
  | OChoice (Some value) _ => wfObject value
  | _ => True
  end.

(** [sameValue v d]: the decoded object [d] is semantically the value [v].
    For a structured [v], [d] is structured with the same tag and its
    elements are, one by one and in order, the elements of [v]; a CHOICE
    stands for its chosen value; for any other [v], [d] has the same tag
    and the same value octets (the same encoding). *)
Fixpoint sameValue (v d : ASN1Object) : Prop :=
  match v with
  | OStructured tag elements =>
      match d with
      | OStructured tag' elements' =>
          tag' = tag
          /\ (fix all2 (es ds : list ASN1Object) : Prop :=
                match es, ds with
                | [], [] => True
                | e :: es', d :: ds' => sameValue e d /\ all2 es' ds'
                | _, _ => False
                end) elements elements'
      | _ => False
      end
  | OChoice (Some value) _ => sameValue value d
  | OChoice None _ => False
  | _ => ObjectTag d = ObjectTag v /\ Encode d = Encode v
  end.

(** The octets [value] of a time are kept by [parse]: the time it reads
    from them has [value] as its [layout] again.  Octets it rejects are
    kept too, since the converter then leaves the raw value as it is; octets
    it panics on are not. *)
Definition timeKept (parse : list byte -> result GoTime) (layout : string)
    (value : list byte) : Prop :=
  match parse value with
  | Ok t => time_Format (time_UTC t) layout = value
  | Err _ => True
  | Panic _ => False
  end.

(** The value octets of a primitive universal type [number] that
    [convertPrimitiveValue] keeps: a BOOLEAN octet is [00] or [FF] (other
    lengths stay raw), the octets of an INTEGER are those its encoder
    emits for the number they denote (none stay raw), a string holds what
    its constructor accepts, the octets of a time are kept by its parser;
    the octets of every other type are kept as they are. *)
Definition keptContent (number : Z) (value : list byte) : Prop :=
  if number =? TagBoolean then
    len value <> 1 \/ value = [x00] \/ value = [xff]
  else if number =? TagInteger then
    match DecodeIntegerValue value with
    | Ok integer => ASN1Integer_encodeIntegerValue integer = value
    | Err _ => True
    | Panic _ => False
    end
  else if number =? TagUTF8String then ValidString value = true
  else if number =? TagPrintableString then isPrintableString value = true
  else if number =? TagIA5String then isIA5String value = true
  else if number =? TagUTCTime then
    timeKept parseUTCTime "060102150405Z" value
  else if number =? TagGeneralizedTime then
    timeKept parseGeneralizedTime "20060102150405Z" value
  else True.

(** The value octets of a constructed raw value that the converter keeps:
    the elements it reads from them encode to them again; octets that are
    no succession of TLVs stay raw. *)
Definition keptElements (content : list byte) : Prop :=
  match decodeElements content with
  | Ok (elements, None) => encodeElements elements [] = Ok content
  | Ok (_, Some _) => True
  | Err _ => False
  | Panic _ => False
  end.

(** The objects of the round-trip statement: tags in range; a structured
    object carries a constructed tag; the octets of a raw [ASN1Value] are
    kept by the converter; the three string types hold what their
    constructors accept; the formatted octets of a time are kept by its
    parser. *)
Fixpoint roundTrips (o : ASN1Object) : Prop :=
  match o with
  | OValue v =>
      tagInRange (ASN1Value_Tag v)
      /\ if Constructed (ASN1Value_Tag v)
         then keptElements (ASN1Value_Value v)
         else Class (ASN1Value_Tag v) = 0 ->
              keptContent (Number (ASN1Value_Tag v)) (ASN1Value_Value v)
  | OStructured tag elements =>
      tagInRange tag /\ Constructed tag = true
      /\ (fix all (es : list ASN1Object) : Prop :=
            match es with
            | [] => True
            | e :: es' => roundTrips e /\ all es'
            end) elements
  | OUTF8String value => ValidString value = true
  | OPrintableString value => isPrintableString value = true
  | OIA5String value => isIA5String value = true
  | OUTCTime t =>
      timeKept parseUTCTime "060102150405Z" (time_Format t "060102150405Z")
  | OGeneralizedTime t =>
      timeKept parseGeneralizedTime "20060102150405Z"
        (time_Format t "20060102150405Z")
  | OChoice (Some value) _ => roundTrips value
  | _ => True
  end.

(** The object the decoder builds for [v]: the types it does not promote
    (ENUMERATED, NULL, OBJECT IDENTIFIER, BIT STRING) come back as raw
    values, a CHOICE as its chosen value. *)
Fixpoint asDecoded (v : ASN1Object) : ASN1Object :=
  match v with
  | OStructured tag elements => OStructured tag (map asDecoded elements)
  | OEnumerated value _ =>
      OValue (NewASN1Value (NewUniversalTag TagEnumerated false)
                (encodeIntegerValue value))
  | ONull => OValue (NewASN1Value (NewUniversalTag TagNull false) [])
  | OObjectIdentifier components =>
      OValue (NewASN1Value (NewUniversalTag TagOID false)
                (ASN1ObjectIdentifier_content components))
  | OBitString value unusedBits =>
      OValue (NewASN1Value (NewUniversalTag TagBitString false)
                (ASN1BitString_content value unusedBits))
  | OChoice (Some value) _ => asDecoded value
  | other => other
  end.

(** The number of structured levels of an object. *)
Fixpoint depth (o : ASN1Object) : nat :=
  match o with
  | OStructured _ elements =>
      S (fold_right (fun e m => Nat.max (depth e) m) 0%nat elements)
  | OChoice (Some value) _ => depth value
  | _ => 0%nat
  end.

(** [n] SEQUENCEs, each inside the other. *)
Fixpoint nested (n : nat) : ASN1Object :=
  match n with
  | O => OStructured (NewUniversalTag TagSequence true) []
  | S n' => OStructured (NewUniversalTag TagSequence true) [nested n']
  end.

End RoundTripVocabulary.

(** A two's-complement octet string is minimal when its first nine bits
    are not all equal (X.690, 8.3.2). *)
Definition minimalTwosComplement (bytes : list byte) : bool :=
  match bytes with
  | b0 :: b1 :: _ =>
      negb ((Z_of_byte b0 =? 0) && (Z_of_byte b1 <? 128))
      && negb ((Z_of_byte b0 =? 255) && (128 <=? Z_of_byte b1))
  | _ => true
  end.

(** The arcs [NewObjectIdentifier] accepts. *)
Definition validArcs (components : list Z) : bool :=
  (2 <=? len components)
  && (0 <=? nth 0 components 0) && (nth 0 components 0 <=? 2)
  && ((2 <=? nth 0 components 0)
      || ((0 <=? nth 1 components 0) && (nth 1 components 0 <=? 39))).

(* ================================================================== *)
(** * Tag rewriting (marshal.go) *)
(* ================================================================== *)

Section TagRewriting.
Context `{GoTimeLib}.

Definition isConstructedType (obj : ASN1Object) : bool :=
  match obj with
  | OStructured _ _ => true
  | _ => false
  end.

(** [replaceTag]: IMPLICIT tagging.  When the element loop hits a TLV it
    cannot decode it breaks and keeps the elements read so far. *)
Definition replaceTag (obj : ASN1Object) (tagNum : Z) : result ASN1Object :=
  match Encode obj with
  | Ok encoded =>
      match DecodeTLV encoded with
      | Ok (origValue, _) =>
          let newTag :=
            NewTag 2 (Constructed (ASN1Value_Tag origValue)) tagNum in
          let newValue := NewASN1Value newTag (ASN1Value_Value origValue) in
          if Constructed newTag then
            '(elements, _) <- decodeElements (ASN1Value_Value newValue) ;;
            Ok (OStructured newTag elements)
          else Ok (OValue newValue)
      | Err _ => Ok obj
      | Panic p => Panic p
      end
  | Err _ => Ok obj
  | Panic p => Panic p
  end.

(** The [switch] of [restoreTag]: the universal tag number and constructed
    bit a descriptor type stands for. *)
Definition B (s : string) : list byte := list_byte_of_string s.

Fixpoint bytes_eqb (a b : list byte) : bool :=
  match a, b with
  | [], [] => true
  | x :: a', y :: b' => Byte.eqb x y && bytes_eqb a' b'
  | _, _ => false
  end.

(** [strings.ToLower], on ASCII letters (descriptors are ASCII). *)
Definition ToLower (s : list byte) : list byte :=
  map (fun c => if between 65 90 c then byte_of_Z (Z_of_byte c + 32) else c) s.

Definition universalOf (asn1Type : list byte) : option (Z * bool) :=
  let t := ToLower asn1Type in
  if bytes_eqb t (B "boolean") then Some (TagBoolean, false)
  else if bytes_eqb t (B "integer") then Some (TagInteger, false)
  else if bytes_eqb t (B "octetstring") then Some (TagOctetString, false)
  else if bytes_eqb t (B "utf8string") then Some (TagUTF8String, false)
  else if bytes_eqb t (B "printablestring") then Some (TagPrintableString, false)
  else if bytes_eqb t (B "ia5string") then Some (TagIA5String, false)
  else if bytes_eqb t (B "utctime") then Some (TagUTCTime, false)
  else if bytes_eqb t (B "generalizedtime") then Some (TagGeneralizedTime, false)
  else if bytes_eqb t (B "sequence") then Some (TagSequence, true)
  else if bytes_eqb t (B "set") then Some (TagSet, true)
  else if bytes_eqb t (B "choice") then Some (TagSequence, true)
  else None.

(** [restoreTag]: back from a context-specific tag to the universal tag of
    the descriptor's type. *)
Definition restoreTag (obj : ASN1Object) (asn1Type : list byte)
    : result ASN1Object :=
  match Encode obj with
  | Ok encoded =>
      match DecodeTLV encoded with
      | Ok (currentValue, _) =>
          match universalOf asn1Type with
          | None => Ok obj
          | Some (tagNum, constructed) =>
              let newTag := NewTag 0 constructed tagNum in
              let newValue :=
                NewASN1Value newTag (ASN1Value_Value currentValue) in
              if constructed then
                '(elements, _) <- decodeElements (ASN1Value_Value newValue) ;;
                Ok (OStructured newTag elements)
              else convertPrimitiveValue newValue
          end
      | Err _ => Ok obj
      | Panic p => Panic p
      end
  | Err _ => Ok obj
  | Panic p => Panic p
  end.

End TagRewriting.

(* ================================================================== *)
(** * Descriptors (marshal.go) *)
(* ================================================================== *)

Record MarshalOptions : Type := {
  UseContextTags : bool
}.

Definition DefaultMarshalOptions : MarshalOptions :=
  {| UseContextTags := true |}.

(** [type fieldInfo struct]; the fields [Type] and [Tag] are [fiType] and
    [fiTag] here, the others keep their names. *)
Record fieldInfo : Type := {
  fiName : list byte;
  fiType : list byte;
  Optional : bool;
  fiTag : Z;
  HasTag : bool;
  Omitempty : bool;
  Explicit : bool
}.

(** [&fieldInfo{Type: t}]. *)
Definition fieldInfoOfType (t : list byte) : fieldInfo :=
  {| fiName := []; fiType := t; Optional := false; fiTag := 0;
     HasTag := false; Omitempty := false; Explicit := false |}.

(** [strings.Split(s, ",")]. *)
Fixpoint Split_loop (s cur : list byte) : list (list byte) :=
  match s with
  | [] => [cur]
  | c :: rest =>
      if Z_of_byte c =? 44 then cur :: Split_loop rest []
      else Split_loop rest (cur ++ [c])
  end.
Definition Split (s : list byte) : list (list byte) := Split_loop s [].

Fixpoint HasPrefix (s prefix : list byte) : bool :=
  match prefix, s with
  | [], _ => true
  | p :: prefix', c :: s' => Byte.eqb p c && HasPrefix s' prefix'
  | _ :: _, [] => false
  end.

Definition TrimPrefix (s prefix : list byte) : list byte :=
  if HasPrefix s prefix then skipn (List.length prefix) s else s.

(** The option loop of [parseASN1Tag]. *)
Fixpoint parseASN1Tag_options (parts : list (list byte)) (info : fieldInfo)
    : result fieldInfo :=
  match parts with
  | [] => Ok info
  | part :: rest =>
      let part := TrimSpace part in
      if bytes_eqb part (B "optional") then
        parseASN1Tag_options rest
          {| fiName := fiName info; fiType := fiType info; Optional := true;
             fiTag := fiTag info; HasTag := HasTag info;
             Omitempty := Omitempty info; Explicit := Explicit info |}
      else if bytes_eqb part (B "omitempty") then
        parseASN1Tag_options rest
          {| fiName := fiName info; fiType := fiType info;
             Optional := Optional info; fiTag := fiTag info;
             HasTag := HasTag info; Omitempty := true;
             Explicit := Explicit info |}
      else if bytes_eqb part (B "explicit") then
        parseASN1Tag_options rest
          {| fiName := fiName info; fiType := fiType info;
             Optional := Optional info; fiTag := fiTag info;
             HasTag := HasTag info; Omitempty := Omitempty info;
             Explicit := true |}
      else if HasPrefix part (B "tag:") then
        match Atoi (TrimPrefix part (B "tag:")) with
        | None => Err "invalid tag number"
        | Some tagNum =>
            parseASN1Tag_options rest
              {| fiName := fiName info; fiType := fiType info;
                 Optional := Optional info; fiTag := tagNum; HasTag := true;
                 Omitempty := Omitempty info; Explicit := Explicit info |}
        end
      else parseASN1Tag_options rest info
  end.

Definition parseASN1Tag (tag : list byte) : result fieldInfo :=
  if bytes_eqb tag [] then Err "empty ASN.1 tag"
  else
    match Split tag with
    | [] => Err "invalid ASN.1 tag format"
    | first :: parts =>
        parseASN1Tag_options parts
          (fieldInfoOfType (ToLower (TrimSpace first)))
    end.

(* ================================================================== *)
(** * Host values (what [reflect] shows of them) *)
(* ================================================================== *)

(** A struct field as [reflect.StructField] gives it: its name, whether it
    is exported, and [Tag.Get("asn1")]. *)
Record structField : Type := {
  Name : list byte;
  IsExported : bool;
  asn1Tag : list byte
}.

(** The host types of the embedding.  [TBytes] is [[]byte] (a slice whose
    element kind is [uint8]); [TBigInt] is the struct [big.Int] (no exported
    field), a pointer to which [unmarshalInterface] may store; [TTime] is
    [time.Time].  No type here implements [ASN1Marshaler] or
    [ASN1Unmarshaler], so [tryCustomMarshal] finds nothing and the custom
    branch of [unmarshalValue] is not taken; and no struct type contains
    itself. *)
Inductive goType : Type :=
| TBool
| TInt (bits : Z)
| TUint (bits : Z)
| TString
| TBytes
| TSlice (elem : goType)
| TPtr (elem : goType)
| TStruct (fields : list (structField * goType))
| TInterface
| TTime
| TBigInt.

Inductive goValue `{GoTimeLib} : Type :=
| VBool (b : bool)
| VInt (bits : Z) (i : Z)
| VUint (bits : Z) (u : Z)
| VString (s : list byte)
| VBytes (bs : list byte)
| VSlice (elem : goType) (xs : list goValue)
| VPtr (elem : goType) (target : option goValue)
| VStruct (fields : list (structField * goValue))
| VInterface (dynamic : option goValue)
| VTime (t : GoTime)
| VBigInt (z : Z).

(** [int64(u)], and the narrowing [reflect.Value.SetInt] and [SetUint]
    perform on a field of [bits] bits. *)
Definition wrapSigned (bits z : Z) : Z :=
  let m := z mod 2 ^ bits in
  if m <? 2 ^ (bits - 1) then m else m - 2 ^ bits.
Definition wrapUnsigned (bits z : Z) : Z := z mod 2 ^ bits.

Section Marshaler.
Context `{GoTimeLib}.

Fixpoint typeOf (v : goValue) : goType :=
  match v with
  | VBool _ => TBool
  | VInt bits _ => TInt bits
  | VUint bits _ => TUint bits
  | VString _ => TString
  | VBytes _ => TBytes
  | VSlice elem _ => TSlice elem
  | VPtr elem _ => TPtr elem
  | VStruct fields => TStruct (map (fun f => (fst f, typeOf (snd f))) fields)
  | VInterface _ => TInterface
  | VTime _ => TTime
  | VBigInt _ => TBigInt
  end.

(** [reflect.Zero]/[reflect.New]: the zero value of a type. *)
Fixpoint zeroValue (t : goType) : goValue :=
  match t with
  | TBool => VBool false
  | TInt bits => VInt bits 0
  | TUint bits => VUint bits 0
  | TString => VString []
  | TBytes => VBytes []
  | TSlice elem => VSlice elem []
  | TPtr elem => VPtr elem None
  | TStruct fields => VStruct (map (fun f => (fst f, zeroValue (snd f))) fields)
  | TInterface => VInterface None
  | TTime => VTime time_Zero
  | TBigInt => VBigInt 0
  end.

(** [field.Kind() == reflect.Ptr && field.IsNil()]. *)
Definition isNilPtr (v : goValue) : bool :=
  match v with
  | VPtr _ None => true
  | _ => false
  end.

Definition isPtr (v : goValue) : bool :=
  match v with
  | VPtr _ _ => true
  | _ => false
  end.

(** The descriptor of a field: parsed from its tag, or ["auto"]. *)
Definition fieldDescriptor (fieldType : structField) : result fieldInfo :=
  if negb (bytes_eqb (asn1Tag fieldType) [])
  then wrapErr "field: " (parseASN1Tag (asn1Tag fieldType))
  else Ok (fieldInfoOfType (B "auto")).

(** "Apply context-specific tag if specified", in [marshalStruct]. *)
Definition applyContextTag (opts : MarshalOptions) (info : fieldInfo)
    (obj : ASN1Object) : result ASN1Object :=
  if HasTag info && UseContextTags opts then
    if Explicit info then
      let contextTag := NewContextSpecificTag (fiTag info) true in
      let wrapped := NewStructured contextTag in
      Ok (Add wrapped obj)
    else replaceTag obj (fiTag info)
  else Ok obj.

Section Loops.
Variable opts : MarshalOptions.
Variable marshalValue : goValue -> result ASN1Object.
Variable marshalTypedValue : goValue -> fieldInfo -> result ASN1Object.

(** The field loop of [marshalStruct]. *)
Fixpoint marshalStruct_fields (fields : list (structField * goValue))
    (seq : ASN1Object) : result ASN1Object :=
  match fields with
  | [] => Ok seq
  | (fieldType, field) :: rest =>
      if negb (IsExported fieldType) then marshalStruct_fields rest seq
      else if bytes_eqb (asn1Tag fieldType) (B "-")
      then marshalStruct_fields rest seq
      else
        match fieldDescriptor fieldType with
        | Ok info =>
            if isNilPtr field then
              if Optional info then marshalStruct_fields rest seq
              else Err "required field is nil"
            else
              match
                wrapErr "field: "
                  (if bytes_eqb (fiType info) (B "auto")
                   then marshalValue field
                   else marshalTypedValue field info)
              with
              | Ok obj =>
                  match applyContextTag opts info obj with
                  | Ok obj => marshalStruct_fields rest (Add seq obj)
                  | Err e => Err e
                  | Panic p => Panic p
                  end
              | Err e => Err e
              | Panic p => Panic p
              end
        | Err e => Err e
        | Panic p => Panic p
        end
  end.

(** The element loop of [marshalSlice]. *)
Fixpoint marshalSlice_elems (xs : list goValue) (seq : ASN1Object)
    : result ASN1Object :=
  match xs with
  | [] => Ok seq
  | elem :: rest =>
      match wrapErr "slice element: " (marshalValue elem) with
      | Ok obj => marshalSlice_elems rest (Add seq obj)
      | Err e => Err e
      | Panic p => Panic p
      end
  end.

(** The field loop of [marshalChoiceStruct] and what follows it: the
    descriptor of the one non-nil pointer field, and that field marshaled.
    [chosen] is what the loop has found so far. *)
Fixpoint marshalChoiceStruct_fields (fields : list (structField * goValue))
    (chosen : option (fieldInfo * result ASN1Object))
    : result (fieldInfo * result ASN1Object) :=
  match fields with
  | [] =>
      match chosen with
      | None => Err "choice struct has no non-nil fields"
      | Some c => Ok c
      end
  | (fieldType, field) :: rest =>
      if negb (IsExported fieldType)
      then marshalChoiceStruct_fields rest chosen
      else if bytes_eqb (asn1Tag fieldType) (B "-")
      then marshalChoiceStruct_fields rest chosen
      else if negb (isPtr field) then marshalChoiceStruct_fields rest chosen
      else if isNilPtr field then marshalChoiceStruct_fields rest chosen
      else
        match chosen with
        | Some _ => Err "choice struct has multiple non-nil fields"
        | None =>
            match fieldDescriptor fieldType with
            | Ok chosenInfo =>
                marshalChoiceStruct_fields rest
                  (Some (chosenInfo,
                         wrapErr "field: "
                           (if bytes_eqb (fiType chosenInfo) (B "auto")
                            then marshalValue field
                            else marshalTypedValue field chosenInfo)))
            | Err e => Err e
            | Panic p => Panic p
            end
        end
  end.

Definition marshalChoiceStruct_of (fields : list (structField * goValue))
    : result ASN1Object :=
  match marshalChoiceStruct_fields fields None with
  | Ok (chosenInfo, marshaled) =>
      match marshaled with
      | Ok obj =>
          if HasTag chosenInfo && UseContextTags opts then
            let contextTag :=
              NewContextSpecificTag (fiTag chosenInfo)
                (isConstructedType obj) in
            Ok (Add (NewStructured contextTag) obj)
          else Ok obj
      | Err e => Err e
      | Panic p => Panic p
      end
  | Err e => Err e
  | Panic p => Panic p
  end.

End Loops.

(** [marshalValue] and [marshalTypedValue]; [marshalStruct],
    [marshalSlice] and [marshalChoiceStruct] are the loops above applied to
    the fields or elements of the value. *)
Fixpoint marshalValue (opts : MarshalOptions) (v : goValue) {struct v}
    : result ASN1Object :=
  match v with
  | VPtr _ None => Err "nil pointer cannot be marshaled"
  | VPtr _ (Some elem) => marshalValue opts elem
  | VStruct fields =>
      marshalStruct_fields opts (marshalValue opts) (marshalTypedValue opts)
        fields NewSequence
  | VTime t => Ok (NewUTCTime t)
  | VBigInt _ => Ok NewSequence
  | VBytes bs => Ok (NewOctetString bs)
  | VSlice _ xs => marshalSlice_elems (marshalValue opts) xs NewSequence
  | VString s => NewUTF8String s
  | VInt _ i => Ok (NewInteger i)
  | VUint _ u => Ok (NewInteger (wrapSigned 64 u))
  | VBool b => Ok (NewBoolean b)
  | VInterface None => Err "nil interface cannot be marshaled"
  | VInterface (Some elem) => marshalValue opts elem
  end
with marshalTypedValue (opts : MarshalOptions) (v : goValue)
    (info : fieldInfo) {struct v} : result ASN1Object :=
  match v with
  | VPtr _ None => Err "cannot marshal nil pointer"
  | VPtr _ (Some elem) => marshalTypedValue opts elem info
  | _ =>
      let t := fiType info in
      if bytes_eqb t (B "boolean") then
        match v with
        | VBool b => Ok (NewBoolean b)
        | _ => Err "expected bool for boolean type"
        end
      else if bytes_eqb t (B "integer") then
        match v with
        | VInt _ i => Ok (NewInteger i)
        | VUint _ u => Ok (NewInteger (wrapSigned 64 u))
        | _ => Err "expected integer type for integer"
        end
      else if bytes_eqb t (B "octetstring") then
        match v with
        | VBytes bs => Ok (NewOctetString bs)
        | _ => Err "expected []byte for octetstring"
        end
      else if bytes_eqb t (B "utf8string") then
        match v with
        | VString s => NewUTF8String s
        | _ => Err "expected string for utf8string"
        end
      else if bytes_eqb t (B "printablestring") then
        match v with
        | VString s => NewPrintableString s
        | _ => Err "expected string for printablestring"
        end
      else if bytes_eqb t (B "ia5string") then
        match v with
        | VString s => NewIA5String s
        | _ => Err "expected string for ia5string"
        end
      else if bytes_eqb t (B "utctime") then
        match v with
        | VTime tm => Ok (NewUTCTime tm)
        | _ => Err "expected time.Time for utctime"
        end
      else if bytes_eqb t (B "generalizedtime") then
        match v with
        | VTime tm => Ok (NewGeneralizedTime tm)
        | _ => Err "expected time.Time for generalizedtime"
        end
      else if bytes_eqb t (B "sequence") then
        match v with
        | VStruct fields =>
            marshalStruct_fields opts (marshalValue opts)
              (marshalTypedValue opts) fields NewSequence
        | VTime tm => Ok (NewUTCTime tm)
        | VBigInt _ => Ok NewSequence
        | VSlice _ xs => marshalSlice_elems (marshalValue opts) xs NewSequence
        | VBytes bs =>
            Ok (fold_left (fun seq b => Add seq (NewInteger (Z_of_byte b)))
                  bs NewSequence)
        | _ => Err "expected struct or slice for sequence"
        end
      else if bytes_eqb t (B "choice") then
        match v with
        | VInterface None => Err "choice field is nil"
        | VInterface (Some elem) => marshalValue opts elem
        | VStruct fields =>
            marshalChoiceStruct_of opts (marshalValue opts)
              (marshalTypedValue opts) fields
        | VTime _ => Err "choice struct has no non-nil fields"
        | VBigInt _ => Err "choice struct has no non-nil fields"
        | _ => Err "expected interface{} or struct for choice"
        end
      else Err "unsupported ASN.1 type"
  end.

Definition marshalStruct (opts : MarshalOptions) (v : goValue)
    : result ASN1Object :=
  match v with
  | VTime t => Ok (NewUTCTime t)
  | VStruct fields =>
      marshalStruct_fields opts (marshalValue opts) (marshalTypedValue opts)
        fields NewSequence
  | VBigInt _ => Ok NewSequence
  | _ => Panic "reflect: call of NumField on a value that is not a struct"
  end.

Definition MarshalWithOptions (v : goValue) (opts : MarshalOptions)
    : result (list byte) :=
  obj <- marshalValue opts v ;;
  Encode obj.

Definition Marshal (v : goValue) : result (list byte) :=
  MarshalWithOptions v DefaultMarshalOptions.

(** ** Unmarshaling *)

Definition IsInt64 (z : Z) : bool := (- 2 ^ 63 <=? z) && (z <? 2 ^ 63).
Definition IsUint64 (z : Z) : bool := (0 <=? z) && (z <? 2 ^ 64).

Definition unmarshalString (obj : ASN1Object) : result goValue :=
  match obj with
  | OUTF8String s => Ok (VString s)
  | OPrintableString s => Ok (VString s)
  | OIA5String s => Ok (VString s)
  | _ => Err "expected string type"
  end.

Definition unmarshalInt (obj : ASN1Object) (bits : Z) : result goValue :=
  match obj with
  | OInteger val =>
      if negb (IsInt64 val) then Err "integer value too large for int64"
      else Ok (VInt bits (wrapSigned bits val))
  | _ => Err "expected ASN1Integer"
  end.

Definition unmarshalUint (obj : ASN1Object) (bits : Z) : result goValue :=
  match obj with
  | OInteger val =>
      if Z.sgn val <? 0 then Err "cannot convert negative integer to unsigned"
      else if negb (IsUint64 val) then Err "integer value too large for uint64"
      else Ok (VUint bits (wrapUnsigned bits val))
  | _ => Err "expected ASN1Integer"
  end.

Definition unmarshalBool (obj : ASN1Object) : result goValue :=
  match obj with
  | OBoolean b => Ok (VBool b)
  | _ => Err "expected ASN1Boolean"
  end.

Definition unmarshalTime (obj : ASN1Object) : result goValue :=
  match obj with
  | OUTCTime t => Ok (VTime t)
  | OGeneralizedTime t => Ok (VTime t)
  | _ => Err "expected time type"
  end.

Definition unmarshalInterface (obj : ASN1Object) : result goValue :=
  match obj with
  | OBoolean b => Ok (VInterface (Some (VBool b)))
  | OInteger val =>
      if IsInt64 val then Ok (VInterface (Some (VInt 64 val)))
      else Ok (VInterface (Some (VPtr TBigInt (Some (VBigInt val)))))
  | OUTF8String s => Ok (VInterface (Some (VString s)))
  | OPrintableString s => Ok (VInterface (Some (VString s)))
  | OIA5String s => Ok (VInterface (Some (VString s)))
  | OOctetString bs => Ok (VInterface (Some (VBytes bs)))
  | OUTCTime t => Ok (VInterface (Some (VTime t)))
  | OGeneralizedTime t => Ok (VInterface (Some (VTime t)))
  | _ => Err "cannot unmarshal to interface{}"
  end.

(** What the body of the field loop of [unmarshalStruct] decides for one
    field before it unmarshals: to leave the field alone and go on
    ([continue]), or to feed it an element, the cursor moving on. *)
Inductive fieldStep : Type :=
| LeaveField
| FeedField (element : ASN1Object) (elementIndex : Z).

(** The body of that loop, up to the call of [unmarshalValue]. *)
Definition selectElement (opts : MarshalOptions)
    (elements : list ASN1Object) (elementIndex : Z)
    (fieldType : structField) : result fieldStep :=
  if negb (IsExported fieldType) then Ok LeaveField
  else if bytes_eqb (asn1Tag fieldType) (B "-") then Ok LeaveField
  else
    info <- fieldDescriptor fieldType ;;
    if elementIndex >=? len elements then
      if Optional info then Ok LeaveField
      else Err "not enough elements for required field"
    else
      let element := nth (Z.to_nat elementIndex) elements ONull in
      if HasTag info && UseContextTags opts then
        if (Class (ObjectTag element) =? 2)
           && (Number (ObjectTag element) =? fiTag info)
        then
          let elementIndex := elementIndex + 1 in
          if Explicit info then
            match element with
            | OStructured _ [inner] => Ok (FeedField inner elementIndex)
            | _ => Ok (FeedField element elementIndex)
            end
          else
            element <- restoreTag element (fiType info) ;;
            Ok (FeedField element elementIndex)
        else
          if Optional info then Ok LeaveField
          else Err "field: expected tag [CONTEXT], got another"
      else Ok (FeedField element (elementIndex + 1)).

Section UnmarshalLoops.
Variable opts : MarshalOptions.
Variable unmarshalValue : goType -> ASN1Object -> goValue -> result goValue.

(** The field loop of [unmarshalStruct]: [current] are the values the
    fields hold, [done] the fields already gone through. *)
Fixpoint unmarshalStruct_fields (elements : list ASN1Object)
    (fields : list (structField * goType))
    (current : list (structField * goValue)) (elementIndex : Z)
    (done : list (structField * goValue))
    : result (list (structField * goValue)) :=
  match fields with
  | [] => Ok done
  | (fieldType, t) :: rest =>
      let field :=
        match current with
        | (_, field) :: _ => field
        | [] => zeroValue t
        end in
      match selectElement opts elements elementIndex fieldType with
      | Ok LeaveField =>
          unmarshalStruct_fields elements rest (tl current) elementIndex
            (done ++ [(fieldType, field)])
      | Ok (FeedField element elementIndex) =>
          match wrapErr "field: " (unmarshalValue t element field) with
          | Ok field =>
              unmarshalStruct_fields elements rest (tl current) elementIndex
                (done ++ [(fieldType, field)])
          | Err e => Err e
          | Panic p => Panic p
          end
      | Err e => Err e
      | Panic p => Panic p
      end
  end.

(** The element loop of [unmarshalSlice]. *)
Fixpoint unmarshalSlice_elems (elem : goType) (elements : list ASN1Object)
    (slice : list goValue) : result (list goValue) :=
  match elements with
  | [] => Ok slice
  | element :: rest =>
      match wrapErr "slice element: "
              (unmarshalValue elem element (zeroValue elem)) with
      | Ok x => unmarshalSlice_elems elem rest (slice ++ [x])
      | Err e => Err e
      | Panic p => Panic p
      end
  end.

End UnmarshalLoops.

(** [unmarshalValue], by the type of the target; it returns the target
    after the assignment ([v] is the value the target holds before).  On an
    error the embedding gives the error only, not the target as far as it
    was written. *)
Fixpoint unmarshalValue (opts : MarshalOptions) (t : goType)
    (obj : ASN1Object) (v : goValue) {struct t} : result goValue :=
  match t with
  | TPtr elem =>
      let target :=
        match v with
        | VPtr _ (Some x) => x
        | _ => zeroValue elem
        end in
      match unmarshalValue opts elem obj target with
      | Ok x => Ok (VPtr elem (Some x))
      | Err e => Err e
      | Panic p => Panic p
      end
  | TStruct fields =>
      match obj with
      | OStructured _ elements =>
          let current :=
            match v with
            | VStruct current => current
            | _ => []
            end in
          match unmarshalStruct_fields opts (unmarshalValue opts) elements
                  fields current 0 [] with
          | Ok done => Ok (VStruct done)
          | Err e => Err e
          | Panic p => Panic p
          end
      | _ => Err "expected ASN1Structured for struct"
      end
  | TTime => unmarshalTime obj
  | TBigInt =>
      match obj with
      | OStructured _ _ => Ok v
      | _ => Err "expected ASN1Structured for struct"
      end
  | TBytes =>
      match obj with
      | OOctetString octets => Ok (VBytes octets)
      | _ => Err "expected ASN1OctetString for []byte"
      end
  | TSlice elem =>
      match obj with
      | OStructured _ elements =>
          match unmarshalSlice_elems (unmarshalValue opts) elem elements []
          with
          | Ok slice => Ok (VSlice elem slice)
          | Err e => Err e
          | Panic p => Panic p
          end
      | _ => Err "expected ASN1Structured for slice"
      end
  | TString => unmarshalString obj
  | TInt bits => unmarshalInt obj bits
  | TUint bits => unmarshalUint obj bits
  | TBool => unmarshalBool obj
  | TInterface => unmarshalInterface obj
  end.

(** [UnmarshalWithOptions(data, v, opts)]; [v] is the value [v] points to,
    the result is that value after the call. *)
Definition UnmarshalWithOptions (data : list byte) (v : goValue)
    (opts : MarshalOptions) : result goValue :=
  '(asn1Value, _) <- wrapErr "failed to decode ASN.1 data: " (DecodeTLV data) ;;
  obj <-
    (if Constructed (ASN1Value_Tag asn1Value) then
       '(elements, failure) <- decodeElements (ASN1Value_Value asn1Value) ;;
       match failure with
       | Some e => Err ("failed to decode element: " ++ e)%string
       | None => Ok (OStructured (ASN1Value_Tag asn1Value) elements)
       end
     else convertToHighLevelObject asn1Value) ;;
  unmarshalValue opts (typeOf v) obj v.

Definition Unmarshal (data : list byte) (v : goValue) : result goValue :=
  UnmarshalWithOptions data v DefaultMarshalOptions.

End Marshaler.

(* ================================================================== *)
(** * A concrete [time] for closed examples *)
(* ================================================================== *)

(** A time given by its UTC calendar fields, all in range, so that
    [time.Date] has nothing to normalise; [Format] knows the two layouts the
    library uses. *)
Record CivilTime : Type := {
  year : Z; month : Z; day : Z; hour : Z; minute : Z; second : Z
}.

Definition twoDigits (n : Z) : list byte :=
  [byte_of_Z (48 + (n / 10) mod 10); byte_of_Z (48 + n mod 10)].

Definition civilFormat (t : CivilTime) (layout : string) : list byte :=
  let rest :=
    twoDigits (month t) ++ twoDigits (day t) ++ twoDigits (hour t)
    ++ twoDigits (minute t) ++ twoDigits (second t) ++ [x5a] in
  if String.eqb layout "060102150405Z"
  then twoDigits (year t mod 100) ++ rest
  else if String.eqb layout "20060102150405Z"
  then twoDigits (year t / 100) ++ twoDigits (year t mod 100) ++ rest
  else [].

Definition civilTime : GoTimeLib := {|
  GoTime := CivilTime;
  time_UTC := fun t => t;
  time_Format := civilFormat;
  time_Date := Build_CivilTime;
  time_Zero := {| year := 1; month := 1; day := 1;
                  hour := 0; minute := 0; second := 0 |}
|}.

(** A struct field named [name] with the tag [asn1:"tag"]. *)
Definition field `{GoTimeLib} (name tag : string) (v : goValue)
    : structField * goValue :=
  ({| Name := B name; IsExported := true; asn1Tag := B tag |}, v).

(** The records of scenario S6: [struct { ID int64 `asn1:"integer,tag:0"` }]
    and its explicit variant, holding 42. *)
Definition msgImplicit `{GoTimeLib} : goValue :=
  VStruct [field "ID" "integer,tag:0" (VInt 64 42)].
Definition msgExplicit `{GoTimeLib} : goValue :=
  VStruct [field "ID" "integer,tag:0,explicit" (VInt 64 42)].

(** The record of scenario S7: an optional [*string] with [tag:0], nil,
    followed by an [int] with [tag:1], 7. *)
Definition msgOptional `{GoTimeLib} : goValue :=
  VStruct [field "Note" "utf8string,optional,tag:0" (VPtr TString None);
           field "Count" "integer,tag:1" (VInt 64 7)].

(* ================================================================== *)
(** * The remaining decoders (null.go, octet_string.go, enumerated.go,
      choice.go) *)
(* ================================================================== *)

(** [strconv.Itoa] on a non-negative number, for [fmt.Sprintf("%d", i)]. *)
Fixpoint Itoa_loop (fuel : nat) (n : Z) (out : list byte) : list byte :=
  match fuel with
  | O => out
  | S fuel' =>
      let out := byte_of_Z (48 + n mod 10) :: out in
      if n <? 10 then out else Itoa_loop fuel' (n / 10) out
  end.
Definition Itoa (n : Z) : list byte := Itoa_loop (loopFuel n) n [].

Section MoreDecoders.
Context `{GoTimeLib}.

(** null.go *)
Definition DecodeNull (data : list byte) : result (ASN1Object * Z) :=
  '(asn1Value, consumed) <- DecodeTLV data ;;
  let tag := ASN1Value_Tag asn1Value in
  if negb (Class tag =? 0) || negb (Number tag =? TagNull)
  then Err "expected NULL tag"
  else if negb (len (ASN1Value_Value asn1Value) =? 0)
  then Err "NULL value must be empty"
  else Ok (NewNull, consumed).

(** octet_string.go *)
Definition DecodeOctetString (data : list byte) : result (ASN1Object * Z) :=
  '(asn1Value, consumed) <- DecodeTLV data ;;
  let tag := ASN1Value_Tag asn1Value in
  if negb (Class tag =? 0) || negb (Number tag =? TagOctetString)
  then Err "expected OCTET STRING tag"
  else Ok (NewOctetString (ASN1Value_Value asn1Value), consumed).

(** [(o *ASN1OctetString) isPrintable]. *)
Definition ASN1OctetString_isPrintable (value : list byte) : bool :=
  forallb (fun b => negb ((Z_of_byte b <? 32) || (Z_of_byte b >? 126))) value.

(** enumerated.go *)
Definition DecodeEnumeratedValue (data : list byte) : result Z :=
  DecodeIntegerValue data.

Definition DecodeEnumerated (data : list byte) : result (ASN1Object * Z) :=
  '(value, consumed) <- wrapErr "failed to decode TLV: " (DecodeTLV data) ;;
  let expectedTag := NewUniversalTag TagEnumerated false in
  if negb (Tag_eqb (ASN1Value_Tag value) expectedTag)
  then Err "expected ENUMERATED tag"
  else
    intValue <- wrapErr "failed to decode enumerated value: "
                  (DecodeEnumeratedValue (ASN1Value_Value value)) ;;
    Ok (NewEnumeratedFromBigInt intValue, consumed).

(** integer.go: [NewIntegerFromBytes] and [(i *ASN1Integer) Int64]. *)
Definition NewIntegerFromBytes (data : list byte) : ASN1Object :=
  let value := big_SetBytes data in
  if (len data >? 0) && negb (Z_of_byte (band (hd x00 data) x80) =? 0)
  then OInteger (value - Z.shiftl 1 (len data * 8))
  else OInteger value.

Definition ASN1Integer_Int64 (value : Z) : result Z :=
  if negb (IsInt64 value) then Err "integer value too large for int64"
  else Ok value.

(** choice.go *)
Definition NewChoiceWithID (value : ASN1Object) (choiceID : list byte)
    : ASN1Object :=
  OChoice (Some value) choiceID.

(** [fmt.Sprintf("alternative_%d", i)]. *)
Definition alternativeID (i : Z) : list byte := B "alternative_" ++ Itoa i.

(** The loop of [DecodeChoice]: [i] is the index of the first of
    [alternatives], [lastErr] the error of the alternative before it. *)
Fixpoint DecodeChoice_loop (data : list byte)
    (alternatives : list (list byte -> result (ASN1Object * Z)))
    (i : Z) (lastErr : option string) : result (ASN1Object * Z) :=
  match alternatives with
  | [] =>
      Err ("no alternative matched: "
           ++ match lastErr with
              | Some e => e
              | None => "%!w(<nil>)"
              end)%string
  | decoder :: rest =>
      match decoder data with
      | Ok (obj, consumed) =>
          Ok (NewChoiceWithID obj (alternativeID i), consumed)
      | Err e => DecodeChoice_loop data rest (i + 1) (Some e)
      | Panic p => Panic p
      end
  end.

Definition DecodeChoice (data : list byte)
    (alternatives : list (list byte -> result (ASN1Object * Z)))
    : result (ASN1Object * Z) :=
  if len data =? 0 then Err "empty data"
  else DecodeChoice_loop data alternatives 0 None.

(** The loop of [DecodeChoiceWithTags] over the expected tags, together
    with the decoders from the same index on. *)
Fixpoint DecodeChoiceWithTags_loop (data : list byte) (tag : Tag)
    (expectedTags : list Tag)
    (decoders : list (list byte -> result (ASN1Object * Z)))
    (i : Z) : result (ASN1Object * Z) :=
  match expectedTags, decoders with
  | expectedTag :: tags, decoder :: rest =>
      if (Class tag =? Class expectedTag)
         && Bool.eqb (Constructed tag) (Constructed expectedTag)
         && (Number tag =? Number expectedTag)
      then
        '(obj, consumed) <- wrapErr "failed to decode alternative: "
                              (decoder data) ;;
        Ok (NewChoiceWithID obj (alternativeID i), consumed)
      else DecodeChoiceWithTags_loop data tag tags rest (i + 1)
  | _, _ => Err "no matching tag found for choice"
  end.

Definition DecodeChoiceWithTags (data : list byte) (expectedTags : list Tag)
    (decoders : list (list byte -> result (ASN1Object * Z)))
    : result (ASN1Object * Z) :=
  if len data =? 0 then Err "empty data"
  else if negb (len expectedTags =? len decoders)
  then Err "number of expected tags must match number of decoders"
  else
    '(tag, _) <- wrapErr "failed to decode tag: " (DecodeTag data) ;;
    DecodeChoiceWithTags_loop data tag expectedTags decoders 0.

End MoreDecoders.

(* ================================================================== *)
(** * Vocabulary of the further statements *)
(* ================================================================== *)

(** A visible ASCII character: neither a space nor a control character. *)
Definition visible (b : byte) : bool :=
  (33 <=? Z_of_byte b) && (Z_of_byte b <=? 126).

(** The pivot of [parseUTCTime]: the year a two-digit year stands for. *)
Definition utcYear (yy : Z) : Z := if yy >=? 50 then yy + 1900 else yy + 2000.

(** The twelve characters [YYMMDDhhmmss] of six numbers below 100. *)
Definition twelveDigits (yy mo d h mi s : Z) : list byte :=
  twoDigits yy ++ twoDigits mo ++ twoDigits d ++ twoDigits h
  ++ twoDigits mi ++ twoDigits s.

(** The fourteen characters [YYYYMMDDhhmmss]. *)
Definition fourteenDigits (year mo d h mi s : Z) : list byte :=
  twoDigits (year / 100) ++ twelveDigits (year mod 100) mo d h mi s.

Section MarshalVocabulary.
Context `{GoTimeLib}.

(** The typed primitives that hold what their constructors accept, and are
    recognised by their universal tag alone. *)
Definition plainPrimitive (obj : ASN1Object) : bool :=
  match obj with
  | OBoolean _ => true
  | OInteger _ => true
  | OOctetString _ => true
  | OUTF8String s => ValidString s
  | OPrintableString s => isPrintableString s
  | OIA5String s => isIA5String s
  | _ => false
  end.

(** A host value of a basic kind, within the range of its type; an
    unsigned one below [2^63] as well. *)
Definition plainValue (v : goValue) : bool :=
  match v with
  | VBool _ => true
  | VInt bits i =>
      (0 <? bits) && (bits <=? 64)
      && (- 2 ^ (bits - 1) <=? i) && (i <? 2 ^ (bits - 1))
  | VUint bits u =>
      (0 <? bits) && (bits <=? 64) && (0 <=? u) && (u <? 2 ^ bits)
      && (u <? 2 ^ 63)
  | VString s => ValidString s
  | VBytes _ => true
  | _ => false
  end.

(** An exported field without an [asn1] tag that holds such a value. *)
Definition plainField (f : structField * goValue) : bool :=
  IsExported (fst f) && bytes_eqb (asn1Tag (fst f)) [] && plainValue (snd f).

(** The object [marshalValue] makes of a plain value. *)
Definition objectOf (v : goValue) : ASN1Object :=
  match v with
  | VBool b => OBoolean b
  | VInt _ i => OInteger i
  | VUint _ u => OInteger u
  | VString s => OUTF8String s
  | VBytes bs => OOctetString bs
  | _ => ONull
  end.

End MarshalVocabulary.

(** ** Options of a struct tag *)

(** The option [part], trimmed, is the word [name]. *)
Definition optionIs (name : string) (part : list byte) : bool :=
  bytes_eqb (TrimSpace part) (B name).

(** The option [part] is a [tag:] option, and the number it gives. *)
Definition tagOption (part : list byte) : bool :=
  HasPrefix (TrimSpace part) (B "tag:").
Definition tagNumberOf (part : list byte) : option Z :=
  Atoi (TrimPrefix (TrimSpace part) (B "tag:")).

(** A [tag:] option whose number does not parse. *)
Definition badTagOption (part : list byte) : bool :=
  tagOption part
  && match tagNumberOf part with
     | Some _ => false
     | None => true
     end.

(** The number of the last [tag:] option of [parts], [d] when there is
    none. *)
Definition lastTag (parts : list (list byte)) (d : Z) : Z :=
  fold_left (fun acc part =>
               if tagOption part
               then match tagNumberOf part with
                    | Some n => n
                    | None => acc
                    end
               else acc) parts d.

(** The descriptor [info] with its [Omitempty] flag set. *)
Definition withOmitempty (info : fieldInfo) : fieldInfo :=
  {| fiName := fiName info; fiType := fiType info; Optional := Optional info;
     fiTag := fiTag info; HasTag := HasTag info; Omitempty := true;
     Explicit := Explicit info |}.

(** The field [fieldType] with [,omitempty] added to its tag. *)
Definition addOmitempty (fieldType : structField) : structField :=
  {| Name := Name fieldType; IsExported := IsExported fieldType;
     asn1Tag := asn1Tag fieldType ++ B ",omitempty" |}.

(* ================================================================== *)
(** * Properties *)
(* ================================================================== *)

(** ** Bytes *)

Lemma Z_of_byte_range (b : byte) : 0 <= Z_of_byte b < 256.
Proof.
  unfold Z_of_byte. pose proof (Byte.to_N_bounded b). lia.
Qed.

Lemma byte_of_Z_of_byte (b : byte) : byte_of_Z (Z_of_byte b) = b.
Proof.
  unfold byte_of_Z, Z_of_byte.
  rewrite Z.mod_small by (pose proof (Byte.to_N_bounded b); lia).
  rewrite N2Z.id, Byte.of_to_N. reflexivity.
Qed.

Lemma Z_of_byte_of_Z_mod (z : Z) : Z_of_byte (byte_of_Z z) = z mod 256.
Proof.
  unfold byte_of_Z, Z_of_byte.
  pose proof (Z.mod_pos_bound z 256 ltac:(lia)) as Hb.
  destruct (Byte.of_N (Z.to_N (z mod 256))) as [b|] eqn:E.
  - apply Byte.to_of_N in E. rewrite E. lia.
  - apply Byte.of_N_None_iff in E. lia.
Qed.

Lemma Z_of_byte_of_Z (z : Z) : 0 <= z < 256 -> Z_of_byte (byte_of_Z z) = z.
Proof.
  intros Hz. rewrite Z_of_byte_of_Z_mod. apply Z.mod_small. exact Hz.
Qed.

Lemma Z_of_byte_inj (a b : byte) : Z_of_byte a = Z_of_byte b -> a = b.
Proof.
  intros E. rewrite <- (byte_of_Z_of_byte a), <- (byte_of_Z_of_byte b).
  now rewrite E.
Qed.

(** The masks the codec applies to a single octet. *)
Lemma band_x7f (b : byte) : Z_of_byte (band b x7f) = Z_of_byte b mod 128.
Proof. destruct b; reflexivity. Qed.

Lemma band_x80_zero (b : byte) :
  (Z_of_byte (band b x80) =? 0) = (Z_of_byte b <? 128).
Proof. destruct b; reflexivity. Qed.

Lemma bor_x80_low (b : byte) :
  Z_of_byte b < 128 -> Z_of_byte (bor b x80) = Z_of_byte b + 128.
Proof. destruct b; vm_compute; intros E; try reflexivity; discriminate E. Qed.

Lemma len_app {A} (l1 l2 : list A) : len (l1 ++ l2) = len l1 + len l2.
Proof. unfold len. rewrite length_app. lia. Qed.

Lemma len_cons {A} (a : A) (l : list A) : len (a :: l) = 1 + len l.
Proof. unfold len. simpl List.length. lia. Qed.

Lemma len_nonneg {A} (l : list A) : 0 <= len l.
Proof. unfold len. lia. Qed.

Lemma slice_from_0 {A} (l : list A) : slice_from l 0 = l.
Proof. reflexivity. Qed.

Lemma slice_from_app {A} (l1 l2 : list A) :
  slice_from (l1 ++ l2) (len l1) = l2.
Proof.
  unfold slice_from, len. rewrite Nat2Z.id.
  rewrite skipn_app, skipn_all, Nat.sub_diag. reflexivity.
Qed.

Lemma slice_app {A} (l1 l2 l3 : list A) :
  slice (l1 ++ l2 ++ l3) (len l1) (len l1 + len l2) = l2.
Proof.
  unfold slice. fold (slice_from (l1 ++ l2 ++ l3) (len l1)).
  rewrite slice_from_app.
  replace (len l1 + len l2 - len l1) with (len l2) by lia.
  unfold len. rewrite Nat2Z.id, firstn_app, firstn_all, Nat.sub_diag.
  simpl. apply app_nil_r.
Qed.

(** ** Big-endian digits: the loop [prependLoop] *)

Lemma beValue_app k l1 l2 a :
  beValue k (l1 ++ l2) a = beValue k l2 (beValue k l1 a).
Proof. unfold beValue. apply fold_left_app. Qed.

Lemma beValue_mono k l a : 0 <= k -> 0 <= a -> a <= beValue k l a.
Proof.
  intros Hk. revert a. induction l as [|b l IH]; intros a Ha; simpl.
  - lia.
  - pose proof (Z_of_byte_range b).
    assert (1 <= 2 ^ k) by (apply Z.pow_pos_nonneg with (a := 2) in Hk; lia).
    specialize (IH (a * 2 ^ k + Z_of_byte b) ltac:(nia)). nia.
Qed.

Lemma prependLoop_app shift mask fuel x out :
  prependLoop shift mask fuel x out = prependLoop shift mask fuel x [] ++ out.
Proof.
  revert x out. induction fuel as [|fuel IH]; intros x out; simpl.
  - reflexivity.
  - destruct (x >? 0); [|reflexivity].
    rewrite IH. rewrite (IH _ [_]). rewrite <- app_assoc. reflexivity.
Qed.

Lemma prependLoop_fuel shift mask f1 f2 x out :
  0 < shift -> 0 <= x < 2 ^ Z.of_nat f1 -> x < 2 ^ Z.of_nat f2 ->
  prependLoop shift mask f1 x out = prependLoop shift mask f2 x out.
Proof.
  intros Hs. revert f2 x out.
  induction f1 as [|f1 IH]; intros f2 x out H1 H2.
  - simpl in H1. assert (x = 0) by lia. subst x.
    destruct f2; reflexivity.
  - destruct f2 as [|f2].
    + simpl in H2. assert (x = 0) by lia. subst x. reflexivity.
    + simpl. destruct (x >? 0) eqn:E; [|reflexivity].
      assert (Hhalf : forall n : nat, x < 2 ^ Z.of_nat (S n) ->
                      Z.shiftr x shift < 2 ^ Z.of_nat n).
      { intros n Hn. rewrite Z.shiftr_div_pow2 by lia.
        rewrite Nat2Z.inj_succ, Z.pow_succ_r in Hn by lia.
        assert (2 <= 2 ^ shift).
        { change 2 with (2 ^ 1) at 1. apply Z.pow_le_mono_r; lia. }
        assert (0 < 2 ^ Z.of_nat n) by (apply Z.pow_pos_nonneg; lia).
        apply Z.div_lt_upper_bound; nia. }
      apply IH.
      * split; [apply Z.shiftr_nonneg; lia | apply Hhalf; lia].
      * apply Hhalf; lia.
Qed.

Lemma loopFuel_enough x : 0 <= x -> x < 2 ^ Z.of_nat (loopFuel x).
Proof.
  intros Hx. unfold loopFuel.
  rewrite Nat2Z.inj_succ, Z2Nat.id by apply Z.log2_nonneg.
  destruct (Z.eq_dec x 0) as [->|Hn]; [reflexivity|].
  apply Z.log2_spec. lia.
Qed.

Lemma digits_0 k : digits k 0 = [].
Proof. reflexivity. Qed.

Lemma digits_step k x :
  0 < k -> 0 < x ->
  digits k x = digits k (x / 2 ^ k) ++ [byte_of_Z (x mod 2 ^ k)].
Proof.
  intros Hk Hx. unfold digits at 1. unfold loopFuel. simpl.
  assert (E : (x >? 0) = true) by lia. rewrite E.
  rewrite prependLoop_app. f_equal.
  - rewrite Z.shiftr_div_pow2 by lia.
    assert (0 <= x / 2 ^ k) by (apply Z.div_pos; [lia | apply Z.pow_pos_nonneg; lia]).
    unfold digits. apply prependLoop_fuel; [lia | | apply loopFuel_enough; lia].
    split; [lia|].
    rewrite Z2Nat.id by apply Z.log2_nonneg.
    pose proof (Z.log2_spec x Hx) as [_ Hu].
    rewrite Z.pow_succ_r in Hu by apply Z.log2_nonneg.
    assert (2 <= 2 ^ k).
    { change 2 with (2 ^ 1) at 1. apply Z.pow_le_mono_r; lia. }
    assert (0 < 2 ^ Z.log2 x) by (apply Z.pow_pos_nonneg; [lia|apply Z.log2_nonneg]).
    apply Z.div_lt_upper_bound; nia.
  - f_equal. f_equal.
    replace (2 ^ k - 1) with (Z.ones k).
    + apply Z.land_ones. lia.
    + rewrite Z.ones_equiv. lia.
Qed.

(** Induction on a non-negative number along its digits. *)
Lemma digits_ind (k : Z) (P : Z -> Prop) :
  0 < k -> P 0 -> (forall x, 0 < x -> P (x / 2 ^ k) -> P x) ->
  forall x, 0 <= x -> P x.
Proof.
  intros Hk H0 Hstep x Hx.
  assert (Hall : forall n : nat, forall y, 0 <= y < Z.of_nat n -> P y).
  { induction n as [|n IH]; intros y Hy; [lia|].
    destruct (Z.eq_dec y 0) as [->|Hn]; [exact H0|].
    apply Hstep; [lia|]. apply IH.
    assert (2 <= 2 ^ k).
    { change 2 with (2 ^ 1) at 1. apply Z.pow_le_mono_r; lia. }
    split; [apply Z.div_pos; lia|].
    apply Z.div_lt_upper_bound; nia. }
  apply (Hall (S (Z.to_nat x))). lia.
Qed.

Lemma digits_small k x :
  0 < k <= 8 -> 0 <= x -> Forall (fun d => Z_of_byte d < 2 ^ k) (digits k x).
Proof.
  intros Hk Hx. pattern x. apply (digits_ind k); [lia | constructor | | exact Hx].
  intros y Hy IH. rewrite digits_step by lia.
  apply Forall_app. split; [exact IH|]. constructor; [|constructor].
  assert (0 < 2 ^ k) by (apply Z.pow_pos_nonneg; lia).
  assert (2 ^ k <= 2 ^ 8) by (apply Z.pow_le_mono_r; lia).
  pose proof (Z.mod_pos_bound y (2 ^ k) ltac:(lia)).
  rewrite Z_of_byte_of_Z; [lia|]. change (2 ^ 8) with 256 in *. lia.
Qed.

Lemma beValue_digits k x a :
  0 < k <= 8 -> 0 <= x ->
  beValue k (digits k x) a = a * 2 ^ (k * len (digits k x)) + x.
Proof.
  intros Hk Hx. revert a. pattern x. apply (digits_ind k); [lia | | | exact Hx].
  - intros a. rewrite digits_0. simpl. unfold len. simpl.
    rewrite Z.mul_0_r. simpl. lia.
  - intros y Hy IH a. rewrite digits_step by lia.
    rewrite beValue_app, IH, len_app. simpl.
    assert (0 < 2 ^ k) by (apply Z.pow_pos_nonneg; lia).
    assert (2 ^ k <= 2 ^ 8) by (apply Z.pow_le_mono_r; lia).
    pose proof (Z.mod_pos_bound y (2 ^ k) ltac:(lia)).
    rewrite Z_of_byte_of_Z by (change (2 ^ 8) with 256 in *; lia).
    change (len [byte_of_Z (y mod 2 ^ k)]) with 1.
    pose proof (len_nonneg (digits k (y / 2 ^ k))) as Hl.
    set (n := len (digits k (y / 2 ^ k))) in *.
    replace (k * (n + 1)) with (k * n + k) by lia.
    rewrite Z.pow_add_r by nia.
    pose proof (Z.div_mod y (2 ^ k) ltac:(lia)). nia.
Qed.

Lemma digits_value k x :
  0 < k <= 8 -> 0 <= x -> beValue k (digits k x) 0 = x.
Proof. intros Hk Hx. rewrite beValue_digits by assumption. lia. Qed.

(** The number of digits is the least that holds [x]. *)
Lemma digits_len k x :
  0 < k -> 0 < x ->
  2 ^ (k * (len (digits k x) - 1)) <= x < 2 ^ (k * len (digits k x)).
Proof.
  intros Hk Hx. assert (Hx0 : 0 <= x) by lia. revert Hx. pattern x.
  apply (digits_ind k); [lia | lia | | exact Hx0].
  intros y Hy IH _. rewrite digits_step by lia. rewrite len_app.
  change (len [byte_of_Z (y mod 2 ^ k)]) with 1.
  assert (Hp : 0 < 2 ^ k) by (apply Z.pow_pos_nonneg; lia).
  pose proof (Z.div_mod y (2 ^ k) ltac:(lia)) as Hdm.
  pose proof (Z.mod_pos_bound y (2 ^ k) ltac:(lia)) as Hm.
  destruct (Z.eq_dec (y / 2 ^ k) 0) as [E|E].
  - rewrite E, digits_0. change (len (@nil byte)) with 0.
    replace (k * (0 + 1 - 1)) with 0 by lia.
    replace (k * (0 + 1)) with k by lia. simpl. lia.
  - assert (Hq : 0 < y / 2 ^ k).
    { assert (0 <= y / 2 ^ k) by (apply Z.div_pos; lia). lia. }
    specialize (IH Hq). set (n := len (digits k (y / 2 ^ k))) in *.
    assert (Hn : 1 <= n).
    { destruct (Z_lt_le_dec n 1) as [Hlt|]; [|assumption].
      assert (n <= 0) by lia.
      assert (2 ^ (k * n) <= 2 ^ 0) by (apply Z.pow_le_mono_r; nia).
      simpl in *. lia. }
    replace (k * (n + 1 - 1)) with (k * (n - 1) + k) by lia.
    replace (k * (n + 1)) with (k * n + k) by lia.
    rewrite !Z.pow_add_r by nia. nia.
Qed.

Lemma digits_nonempty k x : 0 < k -> 0 < x -> digits k x <> [].
Proof.
  intros Hk Hx. rewrite digits_step by lia. intros E.
  apply app_eq_nil in E. destruct E as [_ E]. discriminate E.
Qed.

Lemma digits_len_le k x n :
  0 < k -> 0 <= x < 2 ^ (k * n) -> 0 <= n -> len (digits k x) <= n.
Proof.
  intros Hk Hx Hn. destruct (Z.eq_dec x 0) as [->|Hx0].
  - rewrite digits_0. unfold len. simpl. lia.
  - pose proof (digits_len k x Hk ltac:(lia)) as [Hlo _].
    destruct (Z_le_gt_dec (len (digits k x)) n) as [|Hgt]; [assumption|].
    assert (2 ^ (k * n) <= 2 ^ (k * (len (digits k x) - 1))).
    { apply Z.pow_le_mono_r; nia. }
    lia.
Qed.

(** The leading digit is not zero. *)
Lemma digits_hd k x :
  0 < k <= 8 -> 0 < x -> Z_of_byte (hd x00 (digits k x)) <> 0.
Proof.
  intros Hk Hx. assert (Hx0 : 0 <= x) by lia. revert Hx. pattern x.
  apply (digits_ind k); [lia | lia | | exact Hx0].
  intros y Hy IH _. rewrite digits_step by lia.
  assert (Hp : 0 < 2 ^ k) by (apply Z.pow_pos_nonneg; lia).
  assert (2 ^ k <= 2 ^ 8) by (apply Z.pow_le_mono_r; lia).
  pose proof (Z.div_mod y (2 ^ k) ltac:(lia)) as Hdm.
  pose proof (Z.mod_pos_bound y (2 ^ k) ltac:(lia)) as Hm.
  destruct (Z.eq_dec (y / 2 ^ k) 0) as [E|E].
  - rewrite E, digits_0. simpl.
    rewrite Z_of_byte_of_Z by (change (2 ^ 8) with 256 in *; lia). lia.
  - assert (Hq : 0 < y / 2 ^ k).
    { assert (0 <= y / 2 ^ k) by (apply Z.div_pos; lia). lia. }
    specialize (IH Hq).
    destruct (digits k (y / 2 ^ k)) as [|d ds] eqn:Ed.
    + exfalso. apply (digits_nonempty k (y / 2 ^ k)); [lia | lia | exact Ed].
    + simpl. exact IH.
Qed.

Lemma Ok_inj {A} (a b : A) : Ok a = Ok b -> a = b.
Proof. congruence. Qed.

Lemma Ok_pair_inj {A B} (a c : A) (b d : B) :
  Ok (a, b) = Ok (c, d) -> a = c /\ b = d.
Proof. intros E. split; congruence. Qed.

(** ** Tags *)

Lemma lor_shiftl_add a k d :
  0 <= k -> 0 <= d < 2 ^ k -> Z.lor (Z.shiftl a k) d = a * 2 ^ k + d.
Proof.
  intros Hk Hd. rewrite Z.shiftl_mul_pow2 by exact Hk.
  assert (E : Z.land (a * 2 ^ k) d = 0).
  { apply Z.bits_inj'. intros i Hi. rewrite Z.land_spec, Z.bits_0.
    destruct (Z_lt_le_dec i k) as [Hlt|Hge].
    - rewrite Z.mul_pow2_bits_low by exact Hlt. reflexivity.
    - replace d with (d mod 2 ^ k) by (apply Z.mod_small; exact Hd).
      rewrite Z.mod_pow2_bits_high by lia. apply andb_false_r. }
  rewrite <- (Z.lxor_lor _ _ E). symmetry. apply Z.add_nocarry_lxor. exact E.
Qed.

Lemma tagLead_ok_all (class : Z) (constructed : bool) (low5 : Z) :
  0 <= class <= 3 -> 0 <= low5 <= 31 ->
  tagLead_ok class constructed low5 = true.
Proof.
  intros Hc Hn.
  assert (Hall : forallb (fun c => forallb (fun n =>
            tagLead_ok (Z.of_nat c) true (Z.of_nat n)
            && tagLead_ok (Z.of_nat c) false (Z.of_nat n))
            (seq 0 32)) (seq 0 4) = true) by (vm_compute; reflexivity).
  rewrite forallb_forall in Hall.
  specialize (Hall (Z.to_nat class)).
  rewrite in_seq in Hall. specialize (Hall ltac:(lia)).
  rewrite forallb_forall in Hall.
  specialize (Hall (Z.to_nat low5)).
  rewrite in_seq in Hall. specialize (Hall ltac:(lia)).
  rewrite !Z2Nat.id in Hall by lia.
  apply andb_prop in Hall. destruct Hall as [Ht Hf].
  destruct constructed; assumption.
Qed.

Lemma tagLead_decode class constructed low5 :
  0 <= class <= 3 -> 0 <= low5 <= 31 ->
  Z.shiftr (Z_of_byte (band (tagLead class constructed low5) xc0)) 6 = class
  /\ negb (Z_of_byte (band (tagLead class constructed low5) x20) =? 0)
     = constructed
  /\ Z_of_byte (band (tagLead class constructed low5) x1f) = low5.
Proof.
  intros Hc Hn. pose proof (tagLead_ok_all class constructed low5 Hc Hn) as H.
  unfold tagLead_ok in H.
  apply andb_prop in H. destruct H as [H H3].
  apply andb_prop in H. destruct H as [H1 H2].
  apply Z.eqb_eq in H1. apply Z.eqb_eq in H3. apply Bool.eqb_prop in H2.
  auto.
Qed.

Lemma EncodeTag_short t :
  0 <= Number t <= 30 ->
  EncodeTag t = Ok [tagLead (Class t) (Constructed t) (Number t)].
Proof.
  intros Hn. unfold EncodeTag, tagLead.
  assert (E1 : (Number t <? 0) = false) by lia.
  assert (E2 : (Number t <=? 30) = true) by lia.
  rewrite E1, E2. reflexivity.
Qed.

Lemma EncodeTag_long t :
  30 < Number t ->
  EncodeTag t = Ok (tagLead (Class t) (Constructed t) 31
                    :: setContinuation (digits 7 (Number t))).
Proof.
  intros Hn. unfold EncodeTag, tagLead.
  assert (E1 : (Number t <? 0) = false) by lia.
  assert (E2 : (Number t <=? 30) = false) by lia.
  assert (E3 : (Number t =? 0) = false) by lia.
  rewrite E1, E2, E3. reflexivity.
Qed.

Lemma setContinuation_snoc L d :
  setContinuation (L ++ [d]) = map (fun b => bor b x80) L ++ [d].
Proof.
  induction L as [|a L IH]; [reflexivity|].
  simpl app. simpl map. rewrite <- IH.
  destruct L as [|b L]; reflexivity.
Qed.

Lemma setContinuation_length l :
  List.length (setContinuation l) = List.length l.
Proof.
  induction l as [|a l IH]; [reflexivity|].
  destruct l as [|b l]; [reflexivity|].
  change (setContinuation (a :: b :: l))
    with (bor a x80 :: setContinuation (b :: l)).
  simpl List.length in *. now rewrite IH.
Qed.

Lemma DecodeTag_loop_cons b rest a off :
  DecodeTag_loop (b :: rest) a off
  = if a >? tagLimit then Err "tag number too large"
    else if Z_of_byte (band b x80) =? 0
         then Ok (Z.lor (Z.shiftl a 7) (Z_of_byte (band b x7f)), off + 1)
         else DecodeTag_loop rest
                (Z.lor (Z.shiftl a 7) (Z_of_byte (band b x7f))) (off + 1).
Proof. reflexivity. Qed.

Lemma DecodeTag_loop_prefix L tail a off :
  Forall (fun d => Z_of_byte d < 128) L -> 0 <= a ->
  beValue 7 L a <= tagLimit ->
  DecodeTag_loop (map (fun d => bor d x80) L ++ tail) a off
  = DecodeTag_loop tail (beValue 7 L a) (off + len L).
Proof.
  intros HL. revert a off. induction HL as [|d L Hd HL IH]; intros a off Ha Hb.
  - simpl. unfold len. simpl. now rewrite Z.add_0_r.
  - simpl map. simpl app. rewrite DecodeTag_loop_cons.
    pose proof (Z_of_byte_range d) as Hr.
    assert (Ha' : 0 <= a * 2 ^ 7 + Z_of_byte d) by lia.
    pose proof (beValue_mono 7 L _ ltac:(lia) Ha') as Hm.
    change (beValue 7 (d :: L) a) with (beValue 7 L (a * 2 ^ 7 + Z_of_byte d)) in *.
    assert (E1 : (a >? tagLimit) = false) by lia. rewrite E1.
    rewrite band_x80_zero, band_x7f, bor_x80_low by exact Hd.
    assert (E2 : (Z_of_byte d + 128 <? 128) = false) by lia. rewrite E2.
    replace ((Z_of_byte d + 128) mod 128) with (Z_of_byte d)
      by (rewrite <- Z.add_mod_idemp_r, Z.mod_same, Z.add_0_r, Z.mod_small; lia).
    rewrite lor_shiftl_add by (change (2 ^ 7) with 128; lia).
    rewrite IH by assumption. f_equal. rewrite len_cons. lia.
Qed.

Lemma DecodeTag_loop_last d tail a off :
  Z_of_byte d < 128 -> 0 <= a <= tagLimit ->
  DecodeTag_loop (d :: tail) a off = Ok (a * 2 ^ 7 + Z_of_byte d, off + 1).
Proof.
  intros Hd Ha. rewrite DecodeTag_loop_cons.
  pose proof (Z_of_byte_range d) as Hr.
  assert (E1 : (a >? tagLimit) = false) by lia. rewrite E1.
  rewrite band_x80_zero, band_x7f.
  assert (E2 : (Z_of_byte d <? 128) = true) by lia. rewrite E2.
  rewrite Z.mod_small by lia.
  rewrite lor_shiftl_add by (change (2 ^ 7) with 128; lia). reflexivity.
Qed.

Lemma DecodeTag_loop_overflow L d tail a off :
  Forall (fun d => Z_of_byte d < 128) L ->
  0 <= a -> tagLimit < beValue 7 L a ->
  DecodeTag_loop (map (fun b => bor b x80) L ++ d :: tail) a off
  = Err "tag number too large".
Proof.
  intros HL. revert a off.
  induction HL as [|x L Hx HL IH]; intros a off Ha Hb.
  - simpl in Hb. simpl app. rewrite DecodeTag_loop_cons.
    assert (E1 : (a >? tagLimit) = true) by lia. now rewrite E1.
  - simpl map. simpl app. rewrite DecodeTag_loop_cons.
    destruct (a >? tagLimit) eqn:E1; [reflexivity|].
    change (beValue 7 (x :: L) a)
      with (beValue 7 L (a * 2 ^ 7 + Z_of_byte x)) in Hb.
    pose proof (Z_of_byte_range x) as Hr.
    rewrite band_x80_zero, band_x7f, bor_x80_low by exact Hx.
    assert (E2 : (Z_of_byte x + 128 <? 128) = false) by lia. rewrite E2.
    replace ((Z_of_byte x + 128) mod 128) with (Z_of_byte x)
      by (rewrite <- Z.add_mod_idemp_r, Z.mod_same, Z.add_0_r, Z.mod_small; lia).
    rewrite lor_shiftl_add by (change (2 ^ 7) with 128; lia).
    apply IH; [lia | exact Hb].
Qed.

Lemma DecodeTag_lead class constructed rest :
  0 <= class <= 3 -> rest <> [] ->
  DecodeTag (tagLead class constructed 31 :: rest)
  = match DecodeTag_loop rest 0 1 with
    | Ok (tagNumber, offset) =>
        Ok (NewTag class constructed tagNumber, offset)
    | Err e => Err e
    | Panic p => Panic p
    end.
Proof.
  intros Hc Hr. unfold DecodeTag.
  destruct (tagLead_decode class constructed 31 Hc ltac:(lia)) as (E1 & E2 & E3).
  rewrite E1, E2, E3. simpl negb. cbv iota.
  destruct rest as [|b rest]; [congruence|].
  assert (E : (len (tagLead class constructed 31 :: b :: rest) <? 2) = false).
  { rewrite !len_cons. pose proof (len_nonneg rest). lia. }
  rewrite E.
  change (slice_from (tagLead class constructed 31 :: b :: rest) 1)
    with (b :: rest).
  destruct (DecodeTag_loop (b :: rest) 0 1) as [[n o]| |]; reflexivity.
Qed.

Lemma snoc_app_nonnil {A} (l1 : list A) (d : A) (l2 : list A) :
  (l1 ++ [d]) ++ l2 <> [].
Proof. destruct l1; discriminate. Qed.

(** Decoding undoes encoding for every tag number below [2^32], whatever
    follows the tag octets. *)
Lemma DecodeTag_EncodeTag t rest :
  0 <= Class t <= 3 -> 0 <= Number t < 2 ^ 32 ->
  exists bs, EncodeTag t = Ok bs /\ DecodeTag (bs ++ rest) = Ok (t, len bs).
Proof.
  intros Hc Hn. destruct t as [class constructed number]. simpl in *.
  destruct (Z_le_gt_dec number 30) as [Hs|Hl].
  - exists [tagLead class constructed number]. split.
    + apply EncodeTag_short. simpl. lia.
    + simpl app. unfold DecodeTag.
      destruct (tagLead_decode class constructed number Hc ltac:(lia))
        as (E1 & E2 & E3).
      rewrite E1, E2, E3.
      assert (E : (number =? 31) = false) by lia. rewrite E. reflexivity.
  - eexists. split; [apply EncodeTag_long; simpl; lia|]. simpl Number.
    rewrite digits_step by lia. rewrite setContinuation_snoc.
    rewrite <- app_comm_cons, DecodeTag_lead
      by (try exact Hc; apply snoc_app_nonnil).
    set (L := digits 7 (number / 2 ^ 7)).
    set (d := byte_of_Z (number mod 2 ^ 7)).
    assert (Hq : 0 <= number / 2 ^ 7) by (apply Z.div_pos; lia).
    assert (HL : Forall (fun d => Z_of_byte d < 128) L).
    { apply (digits_small 7); lia. }
    assert (Hv : beValue 7 L 0 = number / 2 ^ 7) by (apply digits_value; lia).
    assert (Hlim : number / 2 ^ 7 <= tagLimit).
    { unfold tagLimit. change (Z.shiftl 1 (32 - 7) - 1) with (2 ^ 25 - 1).
      assert (number / 2 ^ 7 < 2 ^ 25); [|lia].
      apply Z.div_lt_upper_bound; [lia|].
      change (2 ^ 7 * 2 ^ 25) with (2 ^ 32). lia. }
    assert (Hd : Z_of_byte d = number mod 2 ^ 7).
    { unfold d. apply Z_of_byte_of_Z.
      pose proof (Z.mod_pos_bound number (2 ^ 7) ltac:(lia)).
      change (2 ^ 7) with 128 in *. lia. }
    pose proof (Z.mod_pos_bound number (2 ^ 7) ltac:(lia)) as Hm.
    rewrite <- app_assoc.
    rewrite DecodeTag_loop_prefix by (try assumption; lia).
    simpl app. rewrite DecodeTag_loop_last.
    + rewrite Hv, Hd. f_equal. f_equal.
      * f_equal. pose proof (Z.div_mod number (2 ^ 7) ltac:(lia)). lia.
      * rewrite len_cons, len_app. change (len [d]) with 1.
        unfold len at 2. rewrite length_map. fold (len L). lia.
    + rewrite Hd. change (2 ^ 7) with 128 in *. lia.
    + rewrite Hv. lia.
Qed.

(** From [2^32] on, the decoder rejects what the encoder emits. *)
Lemma DecodeTag_EncodeTag_overflow t rest :
  0 <= Class t <= 3 -> 2 ^ 32 <= Number t ->
  exists bs, EncodeTag t = Ok bs
             /\ DecodeTag (bs ++ rest) = Err "tag number too large".
Proof.
  intros Hc Hn. destruct t as [class constructed number]. simpl in *.
  eexists. split; [apply EncodeTag_long; simpl; lia|]. simpl Number.
  rewrite digits_step by lia. rewrite setContinuation_snoc.
  rewrite <- app_comm_cons, DecodeTag_lead
    by (try exact Hc; apply snoc_app_nonnil).
  set (L := digits 7 (number / 2 ^ 7)).
  set (d := byte_of_Z (number mod 2 ^ 7)).
  assert (Hq : 0 <= number / 2 ^ 7) by (apply Z.div_pos; lia).
  assert (HL : Forall (fun d => Z_of_byte d < 128) L).
  { apply (digits_small 7); lia. }
  assert (Hv : beValue 7 L 0 = number / 2 ^ 7) by (apply digits_value; lia).
  assert (Hlim : tagLimit < number / 2 ^ 7).
  { unfold tagLimit. change (Z.shiftl 1 (32 - 7) - 1) with (2 ^ 25 - 1).
    assert (2 ^ 25 <= number / 2 ^ 7); [|lia].
    apply Z.div_le_lower_bound; [lia|].
    change (2 ^ 7 * 2 ^ 25) with (2 ^ 32). lia. }
  rewrite <- app_assoc. simpl app.
  rewrite DecodeTag_loop_overflow; [reflexivity | exact HL | lia | lia].
Qed.

(** ** Lengths *)

Lemma EncodeLength_short n :
  0 <= n < 128 -> EncodeLength n = Ok [byte_of_Z n].
Proof.
  intros Hn. unfold EncodeLength.
  assert (E1 : (n <? 0) = false) by lia.
  assert (E2 : (n <? 128) = true) by lia.
  now rewrite E1, E2.
Qed.

Lemma EncodeLength_long n :
  128 <= n ->
  EncodeLength n
  = Ok (bor x80 (byte_of_Z (len (digits 8 n))) :: digits 8 n).
Proof.
  intros Hn. unfold EncodeLength.
  assert (E1 : (n <? 0) = false) by lia.
  assert (E2 : (n <? 128) = false) by lia.
  now rewrite E1, E2.
Qed.

Lemma fold_lor_beValue l a :
  0 <= a ->
  fold_left (fun length b => Z.lor (Z.shiftl length 8) (Z_of_byte b)) l a
  = beValue 8 l a.
Proof.
  revert a. induction l as [|b l IH]; intros a Ha; [reflexivity|].
  unfold beValue. cbn [fold_left]. pose proof (Z_of_byte_range b).
  rewrite lor_shiftl_add by (change (2 ^ 8) with 256; lia).
  apply IH. lia.
Qed.

Lemma DecodeLength_short b rest :
  Z_of_byte b < 128 -> DecodeLength (b :: rest) = Ok (Z_of_byte b, 1).
Proof.
  intros Hb. unfold DecodeLength. rewrite band_x80_zero.
  assert (E : (Z_of_byte b <? 128) = true) by lia. now rewrite E.
Qed.

Lemma DecodeLength_long b rest :
  128 <= Z_of_byte b ->
  DecodeLength (b :: rest)
  = let numLengthBytes := Z_of_byte b - 128 in
    if numLengthBytes =? 0 then Err "indefinite length not supported"
    else if numLengthBytes >? 4 then Err "length too large"
    else if len (b :: rest) <? 1 + numLengthBytes
    then Err "insufficient data for length"
    else Ok (beValue 8 (slice (b :: rest) 1 (1 + numLengthBytes)) 0,
             1 + numLengthBytes).
Proof.
  intros Hb. unfold DecodeLength. rewrite band_x80_zero, band_x7f.
  assert (E : (Z_of_byte b <? 128) = false) by lia. rewrite E.
  pose proof (Z_of_byte_range b) as Hr.
  replace (Z_of_byte b mod 128) with (Z_of_byte b - 128).
  - cbv zeta. rewrite fold_lor_beValue by lia. reflexivity.
  - replace (Z_of_byte b) with ((Z_of_byte b - 128) + 1 * 128) at 2 by lia.
    rewrite Z.mod_add, Z.mod_small by lia. reflexivity.
Qed.

Lemma DecodeLength_EncodeLength n rest :
  0 <= n < 2 ^ 32 ->
  exists bs, EncodeLength n = Ok bs
             /\ DecodeLength (bs ++ rest) = Ok (n, len bs).
Proof.
  intros Hn. destruct (Z_lt_le_dec n 128) as [Hs|Hl].
  - exists [byte_of_Z n]. split; [apply EncodeLength_short; lia|].
    simpl app. rewrite DecodeLength_short; rewrite Z_of_byte_of_Z by lia.
    + reflexivity.
    + lia.
  - eexists. split; [apply EncodeLength_long; exact Hl|].
    set (L := digits 8 n).
    assert (Hk : 1 <= len L <= 4).
    { split.
      - pose proof (digits_nonempty 8 n ltac:(lia) ltac:(lia)) as Hne.
        fold L in Hne. destruct L; [congruence|]. rewrite len_cons.
        pose proof (len_nonneg L). lia.
      - apply digits_len_le; [lia | | lia]. change (2 ^ (8 * 4)) with (2 ^ 32).
        lia. }
    assert (Hfb : Z_of_byte (bor x80 (byte_of_Z (len L))) = 128 + len L).
    { assert (H4 : len L = 1 \/ len L = 2 \/ len L = 3 \/ len L = 4) by lia.
      destruct H4 as [E|[E|[E|E]]]; rewrite E; reflexivity. }
    rewrite <- app_comm_cons. rewrite DecodeLength_long by lia.
    cbv zeta. rewrite Hfb.
    replace (128 + len L - 128) with (len L) by lia.
    assert (E1 : (len L =? 0) = false) by lia.
    assert (E2 : (len L >? 4) = false) by lia.
    rewrite E1, E2.
    assert (E3 : (len (bor x80 (byte_of_Z (len L)) :: L ++ rest)
                  <? 1 + len L) = false).
    { rewrite len_cons, len_app. pose proof (len_nonneg rest). lia. }
    rewrite E3.
    change (bor x80 (byte_of_Z (len L)) :: L ++ rest)
      with ([bor x80 (byte_of_Z (len L))] ++ L ++ rest).
    change 1 with (len [bor x80 (byte_of_Z (len L))]) at 1 2.
    rewrite slice_app.
    unfold L. rewrite digits_value by lia. fold L.
    rewrite len_cons. reflexivity.
Qed.

(** ** Whole TLVs *)

Lemma DecodeTag_consumed data t n :
  DecodeTag data = Ok (t, n) -> 1 <= n.
Proof.
  unfold DecodeTag. destruct data as [|b rest]; [discriminate|].
  destruct (negb (Z_of_byte (band b x1f) =? 31)).
  - intros E. inversion E. lia.
  - destruct (len (b :: rest) <? 2); [discriminate|].
    assert (Hloop : forall l a off r o,
               DecodeTag_loop l a off = Ok (r, o) -> off < o).
    { induction l as [|x l IH]; intros a off r o; [discriminate|].
      rewrite DecodeTag_loop_cons.
      destruct (a >? tagLimit); [discriminate|].
      destruct (Z_of_byte (band x x80) =? 0).
      - intros E. inversion E. lia.
      - intros E. apply IH in E. lia. }
    destruct (DecodeTag_loop (slice_from (b :: rest) 1) 0 1) as [[r o]| |] eqn:E;
      simpl; try discriminate.
    intros E'. inversion E'. subst. apply Hloop in E. lia.
Qed.

Lemma DecodeLength_consumed data l n :
  DecodeLength data = Ok (l, n) -> 1 <= n /\ 0 <= l.
Proof.
  destruct data as [|b rest]; [discriminate|].
  pose proof (Z_of_byte_range b) as Hr.
  destruct (Z_lt_le_dec (Z_of_byte b) 128) as [Hs|Hl].
  - rewrite DecodeLength_short by exact Hs. intros E. inversion E. lia.
  - rewrite DecodeLength_long by exact Hl. cbv zeta.
    destruct (Z_of_byte b - 128 =? 0) eqn:E0; [discriminate|].
    destruct (Z_of_byte b - 128 >? 4); [discriminate|].
    destruct (len (b :: rest) <? 1 + (Z_of_byte b - 128)); [discriminate|].
    intros E. apply Ok_pair_inj in E. destruct E as [<- <-]. split; [lia|].
    apply (beValue_mono 8); lia.
Qed.

Lemma DecodeTLV_unfold data :
  DecodeTLV data
  = if len data =? 0 then Err "empty data"
    else
      match DecodeTag data with
      | Ok (tag, tagLen) =>
          if tagLen >=? len data then Err "insufficient data for length"
          else
            match DecodeLength (slice_from data tagLen) with
            | Ok (length, lengthLen) =>
                if tagLen + lengthLen + length >? len data
                then Err "insufficient data for value"
                else Ok (NewASN1Value tag
                           (slice data (tagLen + lengthLen)
                              (tagLen + lengthLen + length)),
                         tagLen + lengthLen + length)
            | Err e => Err ("failed to decode length: " ++ e)%string
            | Panic p => Panic p
            end
      | Err e => Err ("failed to decode tag: " ++ e)%string
      | Panic p => Panic p
      end.
Proof.
  unfold DecodeTLV. destruct (len data =? 0); [reflexivity|].
  rewrite slice_from_0.
  destruct (DecodeTag data) as [[tag tagLen]| |]; try reflexivity.
  unfold wrapErr, bind. rewrite Z.add_0_l.
  destruct (tagLen >=? len data); [reflexivity|].
  destruct (DecodeLength (slice_from data tagLen)) as [[length lengthLen]| |];
    reflexivity.
Qed.

(** What a successful [DecodeTLV] has done. *)
Lemma DecodeTLV_inv data v n :
  DecodeTLV data = Ok (v, n) ->
  exists tag tagLen length lengthLen,
    DecodeTag data = Ok (tag, tagLen)
    /\ DecodeLength (slice_from data tagLen) = Ok (length, lengthLen)
    /\ 1 <= tagLen /\ 1 <= lengthLen /\ 0 <= length
    /\ tagLen + lengthLen + length <= len data
    /\ v = NewASN1Value tag
             (slice data (tagLen + lengthLen) (tagLen + lengthLen + length))
    /\ n = tagLen + lengthLen + length.
Proof.
  rewrite DecodeTLV_unfold. destruct (len data =? 0); [discriminate|].
  destruct (DecodeTag data) as [[tag tagLen]| |] eqn:Et; try discriminate.
  destruct (tagLen >=? len data); [discriminate|].
  destruct (DecodeLength (slice_from data tagLen))
    as [[length lengthLen]| |] eqn:El; try discriminate.
  destruct (tagLen + lengthLen + length >? len data) eqn:Eb;
    [discriminate|].
  intros E. apply Ok_pair_inj in E. destruct E as [<- <-].
  pose proof (DecodeTag_consumed _ _ _ Et).
  pose proof (DecodeLength_consumed _ _ _ El) as [? ?].
  exists tag, tagLen, length, lengthLen.
  repeat split; try assumption; try lia.
Qed.

Lemma DecodeTLV_consumed data v n :
  DecodeTLV data = Ok (v, n) -> 2 <= n <= len data.
Proof.
  intros E. apply DecodeTLV_inv in E.
  destruct E as (tag & tagLen & length & lengthLen & _ & _ & ? & ? & ? & ? & _ & ->).
  lia.
Qed.

Lemma DecodeTag_no_panic d q : DecodeTag d <> Panic q.
Proof.
  unfold DecodeTag. destruct d as [|b r]; [discriminate|].
  destruct (negb _); [discriminate|]. destruct (_ <? _); [discriminate|].
  assert (Hloop : forall l a off m, DecodeTag_loop l a off <> Panic m).
  { induction l as [|x l IH]; intros a off m; [discriminate|].
    rewrite DecodeTag_loop_cons.
    destruct (a >? tagLimit); [discriminate|].
    destruct (_ =? 0); [discriminate|apply IH]. }
  destruct (DecodeTag_loop _ 0 1) as [[? ?]| |] eqn:E; simpl; try discriminate.
  exfalso. eapply Hloop. exact E.
Qed.

Lemma DecodeLength_no_panic d q : DecodeLength d <> Panic q.
Proof.
  unfold DecodeLength. destruct d as [|b r]; [discriminate|].
  repeat (match goal with |- context [if ?c then _ else _] => destruct c end;
          try discriminate).
Qed.

(** [DecodeTLV] never panics. *)
Lemma DecodeTLV_no_panic data p : DecodeTLV data <> Panic p.
Proof.
  rewrite DecodeTLV_unfold. destruct (len data =? 0); [discriminate|].
  destruct (DecodeTag _) as [[tag tagLen]| |] eqn:Et; try discriminate.
  - destruct (_ >=? _); [discriminate|].
    destruct (DecodeLength _) as [[length lengthLen]| |] eqn:El;
      try discriminate.
    + destruct (_ >? _); discriminate.
    + exfalso. eapply DecodeLength_no_panic. exact El.
  - exfalso. eapply DecodeTag_no_panic. exact Et.
Qed.

(** Decoding an encoded TLV gives back its tag and value, and consumes
    exactly the encoding, whatever follows. *)
Lemma DecodeTLV_EncodeTLV t value rest :
  0 <= Class t <= 3 -> 0 <= Number t < 2 ^ 32 -> len value < 2 ^ 32 ->
  exists bs, EncodeTLV t value = Ok bs
             /\ DecodeTLV (bs ++ rest) = Ok (NewASN1Value t value, len bs).
Proof.
  intros Hc Hn Hv.
  destruct (DecodeTag_EncodeTag t (nil ++ nil) Hc Hn) as (bt & Et & _).
  destruct (DecodeLength_EncodeLength (len value) nil
              ltac:(pose proof (len_nonneg value); lia)) as (bl & El & _).
  exists (bt ++ bl ++ value). split.
  - unfold EncodeTLV. rewrite Et, El. reflexivity.
  - destruct (DecodeTag_EncodeTag t ((bl ++ value) ++ rest) Hc Hn)
      as (bt' & Et' & Dt).
    rewrite Et in Et'. inversion Et'. subst bt'. clear Et'.
    destruct (DecodeLength_EncodeLength (len value) (value ++ rest)
                ltac:(pose proof (len_nonneg value); lia)) as (bl' & El' & Dl).
    rewrite El in El'. inversion El'. subst bl'. clear El'.
    pose proof (DecodeTag_consumed _ _ _ Dt) as Hbt.
    pose proof (DecodeLength_consumed _ _ _ Dl) as [Hbl _].
    rewrite DecodeTLV_unfold.
    assert (E0 : (len ((bt ++ bl ++ value) ++ rest) =? 0) = false).
    { rewrite !len_app. pose proof (len_nonneg value).
      pose proof (len_nonneg rest). lia. }
    rewrite E0.
    replace ((bt ++ bl ++ value) ++ rest) with (bt ++ (bl ++ value) ++ rest)
      by (now rewrite <- !app_assoc).
    rewrite Dt.
    assert (E1 : (len bt >=? len (bt ++ (bl ++ value) ++ rest)) = false).
    { rewrite !len_app. pose proof (len_nonneg value).
      pose proof (len_nonneg rest). lia. }
    rewrite E1. rewrite slice_from_app.
    rewrite <- app_assoc. rewrite Dl.
    assert (E2 : (len bt + len bl + len value
                  >? len (bt ++ bl ++ value ++ rest)) = false).
    { rewrite !len_app. pose proof (len_nonneg rest). lia. }
    rewrite E2. f_equal. f_equal.
    + f_equal.
      replace (bt ++ bl ++ value ++ rest) with ((bt ++ bl) ++ value ++ rest)
        by (now rewrite <- app_assoc).
      rewrite <- len_app. apply slice_app.
    + rewrite !len_app. lia.
Qed.

(** ** Length decoding *)

(** C7.  [DecodeLength] accepts the one-octet short form for lengths below
    [0x80]; it rejects the indefinite form (first octet exactly [0x80]) and
    every long form that announces more than four length octets; and
    [DecodeTLV] fails when the decoded length exceeds the octets that remain
    in the buffer. *)
Theorem length_decoding_limits :
  (forall b rest,
      Z_of_byte b < 128 -> DecodeLength (b :: rest) = Ok (Z_of_byte b, 1))
  /\ (forall rest,
         DecodeLength (x80 :: rest) = Err "indefinite length not supported")
  /\ (forall b rest,
         128 + 4 < Z_of_byte b ->
         DecodeLength (b :: rest) = Err "length too large")
  /\ (forall data tag tagLen length lengthLen,
         DecodeTag data = Ok (tag, tagLen) ->
         DecodeLength (slice_from data tagLen) = Ok (length, lengthLen) ->
         len data < tagLen + lengthLen + length ->
         DecodeTLV data = Err "insufficient data for value").
Proof.
  split; [|split; [|split]].
  - intros b rest Hb. apply DecodeLength_short. exact Hb.
  - intros rest. reflexivity.
  - intros b rest Hb. rewrite DecodeLength_long by lia. cbv zeta.
    assert (E1 : (Z_of_byte b - 128 =? 0) = false) by lia.
    assert (E2 : (Z_of_byte b - 128 >? 4) = true) by lia.
    now rewrite E1, E2.
  - intros data tag tagLen length lengthLen Et El Hlong.
    rewrite DecodeTLV_unfold, Et, El.
    destruct (len data =? 0) eqn:E0.
    + destruct data; [discriminate Et | discriminate E0].
    + destruct (tagLen >=? len data) eqn:E1.
      * exfalso. unfold slice_from in El.
        rewrite skipn_all2 in El; [discriminate El|].
        unfold len in E1. lia.
      * assert (E2 : (tagLen + lengthLen + length >? len data) = true) by lia.
        now rewrite E2.
Qed.

(** ** Tag encoding and decoding *)

(** C8 (as the code has it).  For every tag with class in [0..3] and a
    non-negative number: a number up to 30 is encoded in a single octet; a
    larger one as the [0x1F] leader followed by the base-128 digits of the
    number, most significant first and without a leading zero digit, with
    the continuation bit on all but the last.  [DecodeTag] returns the tag
    and consumes exactly the emitted octets for every number below [2^32];
    from [2^32] on it fails with "tag number too large". *)
Theorem tag_roundtrip (t : Tag) :
  0 <= Class t <= 3 -> 0 <= Number t ->
  (Number t <= 30 ->
   EncodeTag t = Ok [tagLead (Class t) (Constructed t) (Number t)])
  /\ (30 < Number t ->
      let ds := digits 7 (Number t) in
      EncodeTag t
      = Ok (tagLead (Class t) (Constructed t) 31
            :: map (fun b => bor b x80) (removelast ds) ++ [last ds x00])
      /\ Z_of_byte (band (tagLead (Class t) (Constructed t) 31) x1f) = 31
      /\ beValue 7 ds 0 = Number t
      /\ Forall (fun d => Z_of_byte d < 128) ds
      /\ Z_of_byte (hd x00 ds) <> 0)
  /\ (Number t < 2 ^ 32 ->
      exists bs, EncodeTag t = Ok bs
                 /\ forall rest, DecodeTag (bs ++ rest) = Ok (t, len bs))
  /\ (2 ^ 32 <= Number t ->
      exists bs, EncodeTag t = Ok bs
                 /\ forall rest,
                      DecodeTag (bs ++ rest) = Err "tag number too large").
Proof.
  intros Hc Hn. split; [|split; [|split]].
  - intros Hs. apply EncodeTag_short. lia.
  - intros Hl ds. split; [|split; [|split; [|split]]].
    + rewrite EncodeTag_long by exact Hl. fold ds.
      assert (Hne : ds <> []) by (apply digits_nonempty; lia).
      rewrite (app_removelast_last x00 Hne) at 1.
      rewrite setContinuation_snoc. reflexivity.
    + apply (tagLead_decode (Class t) (Constructed t) 31); lia.
    + apply digits_value; lia.
    + apply (digits_small 7); lia.
    + apply digits_hd; lia.
  - intros Hb.
    destruct (DecodeTag_EncodeTag t [] Hc ltac:(lia)) as (bs & Eb & _).
    exists bs. split; [exact Eb|]. intros rest.
    destruct (DecodeTag_EncodeTag t rest Hc ltac:(lia)) as (bs' & Eb' & D).
    rewrite Eb in Eb'. apply Ok_inj in Eb'. subst bs'. exact D.
  - intros Hb.
    destruct (DecodeTag_EncodeTag_overflow t [] Hc Hb) as (bs & Eb & _).
    exists bs. split; [exact Eb|]. intros rest.
    destruct (DecodeTag_EncodeTag_overflow t rest Hc Hb) as (bs' & Eb' & D).
    rewrite Eb in Eb'. apply Ok_inj in Eb'. subst bs'. exact D.
Qed.

(** ** Batch decoding *)

Section BatchDecoding.
Context `{GoTimeLib}.

Lemma len_slice_from {A} (data : list A) offset :
  0 <= offset <= len data -> len (slice_from data offset) = len data - offset.
Proof.
  intros Ho. unfold len, slice_from in *. rewrite length_skipn. lia.
Qed.

Lemma DecodeAll_loop_spec fuel data offset objs :
  0 <= offset <= len data -> len data - offset <= Z.of_nat fuel ->
  (exists e, DecodeAll_loop fuel data offset objs = Some (Err e))
  \/ (exists more,
         DecodeAll_loop fuel data offset objs = Some (Ok (objs ++ more))
         /\ TLVsFrom data offset more).
Proof.
  revert offset objs. induction fuel as [|fuel IH]; intros offset objs Ho Hf.
  - right. exists []. simpl.
    assert (E : (offset <? len data) = false) by lia. rewrite E.
    rewrite app_nil_r. split; [reflexivity|].
    replace offset with (len data) by lia. constructor.
  - simpl. destruct (offset <? len data) eqn:E.
    + destruct (DecodeTLV (slice_from data offset)) as [[v c]|e|p] eqn:D.
      * pose proof (DecodeTLV_consumed _ _ _ D) as Hc.
        rewrite len_slice_from in Hc by lia.
        destruct (IH (offset + c) (objs ++ [OValue v]) ltac:(lia) ltac:(lia))
          as [[e He]|[more [Hm Ht]]].
        -- left. exists e. exact He.
        -- right. exists (OValue v :: more). split.
           ++ rewrite Hm, <- app_assoc. reflexivity.
           ++ apply TLVsFrom_next with (consumed := c); try assumption; lia.
      * left. eexists. reflexivity.
      * exfalso. eapply DecodeTLV_no_panic. exact D.
    + right. exists []. rewrite app_nil_r. split; [reflexivity|].
      replace offset with (len data) by lia. constructor.
Qed.

(** C10.  [DecodeAll] of the empty slice is the empty list of objects and
    no error, whereas [Decode] of the empty slice is an error; on any input,
    [DecodeAll] either fails as a whole or returns objects that account for
    the entire buffer, TLV after TLV (and at least one when the input is
    not empty). *)
Theorem DecodeAll_whole_buffer :
  DecodeAll [] = Ok []
  /\ Decode [] = Err "no objects found in data"
  /\ forall data,
       (exists e, DecodeAll data = Err e)
       \/ (exists objs,
              DecodeAll data = Ok objs
              /\ TLVsFrom data 0 objs
              /\ (objs = [] <-> data = [])).
Proof.
  split; [reflexivity|]. split; [reflexivity|].
  intros data. unfold DecodeAll.
  destruct (DecodeAll_loop_spec (List.length data) data 0 []
              ltac:(pose proof (len_nonneg data); lia)
              ltac:(unfold len; lia)) as [[e He]|[more [Hm Ht]]].
  - left. exists e. now rewrite He.
  - right. exists more. rewrite Hm. simpl. split; [reflexivity|].
    split; [exact Ht|]. split.
    + intros ->. inversion Ht as [E|]. destruct data; [reflexivity|].
      rewrite len_cons in E. pose proof (len_nonneg data). lia.
    + intros ->. inversion Ht as [|o v c objs Ho]; [reflexivity|].
      change (len (@nil byte)) with 0 in Ho. lia.
Qed.

End BatchDecoding.

(** ** Re-encoding what was decoded *)

Lemma beValue_snoc k l d a :
  beValue k (l ++ [d]) a = beValue k l a * 2 ^ k + Z_of_byte d.
Proof. rewrite beValue_app. reflexivity. Qed.

Lemma beValue_nonneg k l a : 0 <= k -> 0 <= a -> 0 <= beValue k l a.
Proof. intros Hk Ha. pose proof (beValue_mono k l a Hk Ha). lia. Qed.

Lemma beValue_grows k l a :
  0 <= k -> 0 <= a -> l <> [] -> a * 2 ^ k <= beValue k l a.
Proof.
  intros Hk Ha Hl. destruct l as [|b l]; [congruence|].
  change (beValue k (b :: l) a) with (beValue k l (a * 2 ^ k + Z_of_byte b)).
  pose proof (Z_of_byte_range b).
  assert (0 < 2 ^ k) by (apply Z.pow_pos_nonneg; lia).
  pose proof (beValue_mono k l (a * 2 ^ k + Z_of_byte b) Hk ltac:(nia)). lia.
Qed.

(** The digits of the value of a digit string without a leading zero are
    that string. *)
Lemma digits_beValue k L :
  0 < k <= 8 -> Forall (fun d => Z_of_byte d < 2 ^ k) L ->
  Z_of_byte (hd x01 L) <> 0 ->
  digits k (beValue k L 0) = L.
Proof.
  intros Hk. induction L as [|d L IH] using rev_ind; intros HL Hhd.
  - reflexivity.
  - apply Forall_app in HL. destruct HL as [HL Hd].
    inversion Hd as [|? ? Hd' _]. subst.
    pose proof (Z_of_byte_range d) as Hr.
    assert (Hp : 0 < 2 ^ k) by (apply Z.pow_pos_nonneg; lia).
    rewrite beValue_snoc.
    pose proof (beValue_nonneg k L 0 ltac:(lia) ltac:(lia)) as Hv.
    assert (Hx : 0 < beValue k L 0 * 2 ^ k + Z_of_byte d).
    { destruct L as [|b L].
      - simpl in Hhd. unfold beValue. simpl. lia.
      - assert (E : digits k (beValue k (b :: L) 0) = b :: L).
        { apply IH; [exact HL | exact Hhd]. }
        destruct (Z.eq_dec (beValue k (b :: L) 0) 0) as [E0|E0].
        + rewrite E0, digits_0 in E. discriminate E.
        + nia. }
    rewrite digits_step by lia.
    replace ((beValue k L 0 * 2 ^ k + Z_of_byte d) / 2 ^ k)
      with (beValue k L 0).
    + replace ((beValue k L 0 * 2 ^ k + Z_of_byte d) mod 2 ^ k)
        with (Z_of_byte d).
      * rewrite byte_of_Z_of_byte. f_equal.
        destruct L as [|b L]; [reflexivity|].
        apply IH; [exact HL | exact Hhd].
      * rewrite Z.add_comm, Z.mod_add, Z.mod_small by lia. reflexivity.
    + rewrite Z.add_comm, Z.div_add, Z.div_small by lia. reflexivity.
Qed.

Lemma tagLead_of_byte (b : byte) :
  tagLead (Z.shiftr (Z_of_byte (band b xc0)) 6)
          (negb (Z_of_byte (band b x20) =? 0))
          (Z_of_byte (band b x1f)) = b.
Proof. destruct b; reflexivity. Qed.

Lemma band_x1f_range (b : byte) : 0 <= Z_of_byte (band b x1f) <= 31.
Proof. destruct b; vm_compute; split; discriminate. Qed.

Lemma bor_x80_high (b : byte) :
  128 <= Z_of_byte b ->
  bor (byte_of_Z (Z_of_byte b - 128)) x80 = b
  /\ Z_of_byte (byte_of_Z (Z_of_byte b - 128)) = Z_of_byte b - 128.
Proof.
  destruct b; vm_compute; intros E; try (exfalso; apply E; reflexivity);
    split; reflexivity.
Qed.

Lemma bor_x80_comm (b : byte) : bor x80 b = bor b x80.
Proof. destruct b; reflexivity. Qed.

(** What a successful run of the loop of [DecodeTag] has read. *)
Lemma DecodeTag_loop_inv l a off r o :
  0 <= a -> DecodeTag_loop l a off = Ok (r, o) ->
  exists L d tail,
    l = map (fun b => bor b x80) L ++ d :: tail
    /\ Forall (fun d => Z_of_byte d < 128) L
    /\ Z_of_byte d < 128
    /\ r = beValue 7 (L ++ [d]) a
    /\ o = off + len L + 1.
Proof.
  revert a off. induction l as [|b l IH]; intros a off Ha; [discriminate|].
  rewrite DecodeTag_loop_cons.
  destruct (a >? tagLimit); [discriminate|].
  pose proof (Z_of_byte_range b) as Hr.
  rewrite band_x80_zero, band_x7f.
  destruct (Z_of_byte b <? 128) eqn:Eb.
  - intros E. apply Ok_pair_inj in E. destruct E as [<- <-].
    exists [], b, l. repeat split; try constructor; try lia.
    + rewrite Z.mod_small, lor_shiftl_add by (change (2 ^ 7) with 128; lia).
      reflexivity.
    + change (len (@nil byte)) with 0. lia.
  - intros E.
    assert (Hm : Z_of_byte b mod 128 = Z_of_byte b - 128).
    { replace (Z_of_byte b) with ((Z_of_byte b - 128) + 1 * 128) at 1 by lia.
      rewrite Z.mod_add, Z.mod_small by lia. reflexivity. }
    rewrite Hm, lor_shiftl_add in E by (change (2 ^ 7) with 128; lia).
    apply IH in E; [|lia].
    destruct E as (L & d & tail & -> & HL & Hd & -> & ->).
    destruct (bor_x80_high b ltac:(lia)) as [Hb1 Hb2].
    exists (byte_of_Z (Z_of_byte b - 128) :: L), d, tail.
    repeat split.
    + simpl map. rewrite Hb1. reflexivity.
    + constructor; [lia | exact HL].
    + exact Hd.
    + simpl app.
      change (beValue 7 (byte_of_Z (Z_of_byte b - 128) :: L ++ [d]) a)
        with (beValue 7 (L ++ [d])
                (a * 2 ^ 7 + Z_of_byte (byte_of_Z (Z_of_byte b - 128)))).
      rewrite Hb2. reflexivity.
    + rewrite len_cons. lia.
Qed.

Lemma firstn_add {A} (a b : nat) (l : list A) :
  firstn (a + b) l = firstn a l ++ firstn b (skipn a l).
Proof.
  revert l. induction a as [|a IH]; intros l; [reflexivity|].
  destruct l as [|x l]; simpl.
  - now rewrite firstn_nil.
  - now rewrite IH.
Qed.

Lemma firstn_app_exact {A} (l1 l2 : list A) n :
  n = List.length l1 -> firstn n (l1 ++ l2) = l1.
Proof.
  intros ->. rewrite firstn_app, firstn_all, Nat.sub_diag. simpl.
  apply app_nil_r.
Qed.

(** Encoding the tag read from octets in the encoder's form gives those
    octets back. *)
Lemma EncodeTag_DecodeTag data t n :
  DecodeTag data = Ok (t, n) -> minimalTagForm data = true ->
  EncodeTag t = Ok (firstn (Z.to_nat n) data).
Proof.
  unfold DecodeTag. destruct data as [|b0 rest]; [discriminate|].
  pose proof (band_x1f_range b0) as Hlow.
  destruct (Z_of_byte (band b0 x1f) =? 31) eqn:E31; simpl negb; cbv iota.
  - destruct (len (b0 :: rest) <? 2) eqn:El; [discriminate|].
    change (slice_from (b0 :: rest) 1) with rest.
    destruct (DecodeTag_loop rest 0 1) as [[r o]| |] eqn:D; try discriminate.
    simpl bind. intros E. apply Ok_pair_inj in E. destruct E as [<- <-].
    apply DecodeTag_loop_inv in D; [|lia].
    destruct D as (L & d & tail & -> & HL & Hd & -> & ->).
    intros Hmin.
    assert (Hdig : digits 7 (beValue 7 (L ++ [d]) 0) = L ++ [d]
                   /\ 30 < beValue 7 (L ++ [d]) 0).
    { unfold minimalTagForm in Hmin. rewrite E31 in Hmin.
      destruct L as [|x L].
      - simpl in Hmin. apply andb_prop in Hmin. destruct Hmin as [H1 H2].
        split.
        + apply digits_beValue; [lia | | simpl; lia].
          constructor; [change (2 ^ 7) with 128; lia | constructor].
        + unfold beValue. simpl. lia.
      - simpl in Hmin. apply andb_prop in Hmin. destruct Hmin as [H1 H2].
        inversion HL as [|? ? Hx HL']. subst.
        rewrite bor_x80_low in H2 by exact Hx.
        pose proof (Z_of_byte_range x).
        split.
        + apply digits_beValue; [lia | | simpl; lia].
          apply Forall_app. split; [exact HL|].
          constructor; [change (2 ^ 7) with 128; lia | constructor].
        + simpl app.
          change (beValue 7 (x :: L ++ [d]) 0)
            with (beValue 7 (L ++ [d]) (0 * 2 ^ 7 + Z_of_byte x)).
          pose proof (beValue_grows 7 (L ++ [d]) (0 * 2 ^ 7 + Z_of_byte x)
                        ltac:(lia) ltac:(lia)
                        ltac:(destruct L; discriminate)).
          change (2 ^ 7) with 128 in *. lia. }
    destruct Hdig as [Hdig Hbig].
    rewrite EncodeTag_long by (simpl; lia). simpl Class. simpl Constructed.
    simpl Number. rewrite Hdig, setContinuation_snoc.
    apply Z.eqb_eq in E31. rewrite <- E31, tagLead_of_byte.
    f_equal. symmetry.
    change (b0 :: map (fun b => bor b x80) L ++ d :: tail)
      with ((b0 :: map (fun b => bor b x80) L ++ [d]) ++ tail)
      || replace (b0 :: map (fun b => bor b x80) L ++ d :: tail)
           with ((b0 :: map (fun b => bor b x80) L ++ [d]) ++ tail)
           by (simpl; now rewrite <- app_assoc).
    apply firstn_app_exact. cbn [List.length].
    rewrite length_app, length_map. cbn [List.length]. unfold len. lia.
  - intros E. apply Ok_pair_inj in E. destruct E as [<- <-]. intros _.
    rewrite EncodeTag_short by (simpl; lia). simpl.
    now rewrite tagLead_of_byte.
Qed.

(** The same for lengths. *)
Lemma EncodeLength_DecodeLength data l n :
  DecodeLength data = Ok (l, n) -> minimalLengthForm data = true ->
  EncodeLength l = Ok (firstn (Z.to_nat n) data).
Proof.
  destruct data as [|b0 rest]; [discriminate|].
  pose proof (Z_of_byte_range b0) as Hr.
  destruct (Z_lt_le_dec (Z_of_byte b0) 128) as [Hs|Hl].
  - rewrite DecodeLength_short by exact Hs. intros E.
    apply Ok_pair_inj in E. destruct E as [<- <-]. intros _.
    rewrite EncodeLength_short by lia. simpl.
    now rewrite byte_of_Z_of_byte.
  - rewrite DecodeLength_long by exact Hl. cbv zeta.
    set (k := Z_of_byte b0 - 128).
    assert (Hk : 0 <= k) by (unfold k; lia).
    assert (Ek : k = Z_of_byte b0 - 128) by reflexivity.
    clearbody k.
    destruct (k =? 0) eqn:E0; [discriminate|].
    destruct (k >? 4) eqn:E4; [discriminate|].
    destruct (len (b0 :: rest) <? 1 + k) eqn:El; [discriminate|].
    intros E. apply Ok_pair_inj in E. destruct E as [<- <-]. intros Hmin.
    rewrite len_cons in El.
    assert (Hslice : slice (b0 :: rest) 1 (1 + k) = firstn (Z.to_nat k) rest).
    { unfold slice. replace (1 + k - 1) with k by lia. reflexivity. }
    rewrite Hslice.
    set (L := firstn (Z.to_nat k) rest).
    assert (HlenL : len L = k).
    { unfold L, len. rewrite length_firstn. unfold len in El.
      rewrite Nat.min_l by lia. lia. }
    assert (Hdig : digits 8 (beValue 8 L 0) = L /\ 128 <= beValue 8 L 0).
    { unfold minimalLengthForm in Hmin.
      destruct rest as [|b1 rest];
        [change (len (@nil byte)) with 0 in El; lia|].
      assert (E : (Z_of_byte b0 <? 128) = false) by lia.
      rewrite E in Hmin. rewrite <- Ek in Hmin.
      apply andb_prop in Hmin. destruct Hmin as [H1 H2].
      assert (HL : L = b1 :: firstn (Z.to_nat k - 1) rest).
      { unfold L. destruct (Z.to_nat k) eqn:Ekn; [lia|].
        simpl. now rewrite Nat.sub_0_r. }
      pose proof (Z_of_byte_range b1).
      split.
      - apply digits_beValue; [lia| |rewrite HL; simpl; lia].
        apply Forall_forall. intros x _. pose proof (Z_of_byte_range x).
        change (2 ^ 8) with 256. lia.
      - rewrite HL.
        change (beValue 8 (b1 :: firstn (Z.to_nat k - 1) rest) 0)
          with (beValue 8 (firstn (Z.to_nat k - 1) rest)
                  (0 * 2 ^ 8 + Z_of_byte b1)).
        apply orb_prop in H2. destruct H2 as [H2|H2].
        + assert (Hne : firstn (Z.to_nat k - 1) rest <> []).
          { intros Hnil. rewrite HL, Hnil in HlenL.
            change (len [b1]) with 1 in HlenL. lia. }
          pose proof (beValue_grows 8 _ (0 * 2 ^ 8 + Z_of_byte b1)
                        ltac:(lia) ltac:(lia) Hne).
          change (2 ^ 8) with 256 in *. lia.
        + pose proof (beValue_mono 8 (firstn (Z.to_nat k - 1) rest)
                        (0 * 2 ^ 8 + Z_of_byte b1) ltac:(lia) ltac:(lia)).
          lia. }
    destruct Hdig as [Hdig Hbig].
    rewrite EncodeLength_long by exact Hbig. rewrite Hdig, HlenL.
    f_equal.
    replace (Z.to_nat (1 + k)) with (S (Z.to_nat k)) by lia.
    unfold L. rewrite Ek, bor_x80_comm.
    rewrite (proj1 (bor_x80_high b0 Hl)). reflexivity.
Qed.

(** C3 (as the code has it).  When [DecodeTLV] accepts [data] and the tag
    and length octets at its head are in the form the encoder emits,
    encoding the decoded value gives back exactly the octets that
    [DecodeTLV] consumed. *)
Theorem reencode_minimal_header `{GoTimeLib} (data : list byte)
    (v : ASN1Value) (n : Z) :
  DecodeTLV data = Ok (v, n) ->
  minimalHeader data = true ->
  Encode (OValue v) = Ok (firstn (Z.to_nat n) data).
Proof.
  intros D Hmin. simpl Encode.
  apply DecodeTLV_inv in D.
  destruct D as (tag & tagLen & length & lengthLen & Dt & Dl & Ht & Hl & Hn
                 & Hfit & -> & ->).
  unfold minimalHeader in Hmin. rewrite Dt in Hmin.
  apply andb_prop in Hmin. destruct Hmin as [Hmt Hml].
  pose proof (EncodeTag_DecodeTag _ _ _ Dt Hmt) as Et.
  pose proof (EncodeLength_DecodeLength _ _ _ Dl Hml) as El.
  simpl ASN1Value_Tag. simpl ASN1Value_Value.
  assert (Hlen : len (slice data (tagLen + lengthLen)
                        (tagLen + lengthLen + length)) = length).
  { unfold slice, len in *. rewrite length_firstn, length_skipn.
    rewrite Nat.min_l by lia. lia. }
  unfold EncodeTLV. rewrite Et. simpl bind. rewrite Hlen, El. simpl bind.
  f_equal.
  replace (Z.to_nat (tagLen + lengthLen + length))
    with (Z.to_nat tagLen + (Z.to_nat lengthLen + Z.to_nat length))%nat by lia.
  rewrite firstn_add. f_equal.
  rewrite firstn_add. unfold slice_from. f_equal.
  unfold slice. rewrite skipn_skipn.
  replace (Z.to_nat (tagLen + lengthLen + length - (tagLen + lengthLen)))
    with (Z.to_nat length) by lia.
  replace (Z.to_nat (tagLen + lengthLen))
    with (Z.to_nat lengthLen + Z.to_nat tagLen)%nat by lia.
  reflexivity.
Qed.

(** ** INTEGER values *)

Lemma big_Bytes_digits x : big_Bytes x = digits 8 (Z.abs x).
Proof. reflexivity. Qed.

Lemma big_SetBytes_beValue data : big_SetBytes data = beValue 8 data 0.
Proof. reflexivity. Qed.

Lemma beValue_linear k l a :
  0 <= k ->
  beValue k l a = a * 2 ^ (k * len l) + beValue k l 0.
Proof.
  intros Hk. revert a. induction l as [|b l IH]; intros a.
  - change (len (@nil byte)) with 0. rewrite Z.mul_0_r. simpl. unfold beValue.
    simpl. lia.
  - change (beValue k (b :: l) a) with (beValue k l (a * 2 ^ k + Z_of_byte b)).
    change (beValue k (b :: l) 0) with (beValue k l (0 * 2 ^ k + Z_of_byte b)).
    rewrite IH. rewrite (IH (0 * 2 ^ k + Z_of_byte b)).
    rewrite len_cons. pose proof (len_nonneg l).
    replace (k * (1 + len l)) with (k + k * len l) by lia.
    rewrite Z.pow_add_r by nia. nia.
Qed.

Lemma beValue_bound k l :
  0 < k -> Forall (fun d => Z_of_byte d < 2 ^ k) l ->
  0 <= beValue k l 0 < 2 ^ (k * len l).
Proof.
  intros Hk HL. induction l as [|d l IH] using rev_ind.
  - change (len (@nil byte)) with 0. rewrite Z.mul_0_r. unfold beValue.
    simpl. lia.
  - apply Forall_app in HL. destruct HL as [HL Hd].
    inversion Hd as [|? ? Hd' _]. subst. specialize (IH HL).
    rewrite beValue_snoc, len_app. change (len [d]) with 1.
    pose proof (Z_of_byte_range d). pose proof (len_nonneg l).
    replace (k * (len l + 1)) with (k * len l + k) by lia.
    rewrite Z.pow_add_r by nia.
    assert (0 < 2 ^ k) by (apply Z.pow_pos_nonneg; lia). nia.
Qed.

(** The leading octet of a big-endian string carries the top eight bits. *)
Lemma beValue_hd_high d l :
  2 ^ (8 * len (d :: l) - 1) <= beValue 8 (d :: l) 0 ->
  128 <= Z_of_byte d.
Proof.
  intros Hx.
  change (beValue 8 (d :: l) 0) with (beValue 8 l (0 * 2 ^ 8 + Z_of_byte d)) in Hx.
  rewrite beValue_linear in Hx by lia.
  assert (HL : Forall (fun d => Z_of_byte d < 2 ^ 8) l).
  { apply Forall_forall. intros x _. pose proof (Z_of_byte_range x).
    change (2 ^ 8) with 256. lia. }
  pose proof (beValue_bound 8 l ltac:(lia) HL) as Hb.
  rewrite len_cons in Hx. pose proof (len_nonneg l).
  replace (8 * (1 + len l) - 1) with (7 + 8 * len l) in Hx by lia.
  rewrite Z.pow_add_r in Hx by lia.
  assert (0 < 2 ^ (8 * len l)) by (apply Z.pow_pos_nonneg; lia).
  change (2 ^ 7) with 128 in Hx. change (2 ^ 8) with 256 in Hx.
  destruct (Z_lt_le_dec (Z_of_byte d) 128) as [Hlt|]; [|assumption].
  exfalso. nia.
Qed.

Lemma beValue_hd_low d l :
  beValue 8 (d :: l) 0 < 2 ^ (8 * len (d :: l) - 1) ->
  Z_of_byte d < 128.
Proof.
  intros Hx.
  change (beValue 8 (d :: l) 0) with (beValue 8 l (0 * 2 ^ 8 + Z_of_byte d)) in Hx.
  rewrite beValue_linear in Hx by lia.
  pose proof (beValue_nonneg 8 l 0 ltac:(lia) ltac:(lia)) as Hb.
  rewrite len_cons in Hx. pose proof (len_nonneg l).
  replace (8 * (1 + len l) - 1) with (7 + 8 * len l) in Hx by lia.
  rewrite Z.pow_add_r in Hx by lia.
  assert (0 < 2 ^ (8 * len l)) by (apply Z.pow_pos_nonneg; lia).
  change (2 ^ 7) with 128 in Hx. change (2 ^ 8) with 256 in Hx.
  destruct (Z_lt_le_dec (Z_of_byte d) 128) as [|Hge]; [assumption|].
  exfalso. nia.
Qed.

(** The number of octets of [x] is determined by the power-of-256 interval
    that contains it. *)
Lemma digits_len_exact x n :
  0 < n -> 2 ^ (8 * (n - 1)) <= x < 2 ^ (8 * n) -> len (digits 8 x) = n.
Proof.
  intros Hn Hx.
  assert (0 < 2 ^ (8 * (n - 1))) by (apply Z.pow_pos_nonneg; lia).
  pose proof (digits_len 8 x ltac:(lia) ltac:(lia)) as Hd.
  pose proof (len_nonneg (digits 8 x)).
  set (m := len (digits 8 x)) in *.
  assert (8 * (m - 1) < 8 * n).
  { apply (Z.pow_lt_mono_r_iff 2 (8 * (m - 1)) (8 * n)) ; lia. }
  assert (8 * (n - 1) < 8 * m).
  { apply (Z.pow_lt_mono_r_iff 2 (8 * (n - 1)) (8 * m)) ; lia. }
  lia.
Qed.

Lemma DecodeIntegerValue_cons b0 rest :
  DecodeIntegerValue (b0 :: rest)
  = if Z_of_byte b0 <? 128
    then Ok (beValue 8 (b0 :: rest) 0)
    else Ok (beValue 8 (b0 :: rest) 0 - 2 ^ (8 * len (b0 :: rest))).
Proof.
  unfold DecodeIntegerValue. rewrite band_x80_zero, big_SetBytes_beValue.
  destruct (Z_of_byte b0 <? 128); [reflexivity|]. simpl negb. cbv iota.
  rewrite Z.shiftl_1_l. do 3 f_equal. lia.
Qed.

(** Two's complement octets of a negative number, once the number of octets
    is large enough, decode to the number. *)
Lemma DecodeIntegerValue_twosComp value byteLen :
  value < 0 -> 0 < byteLen -> - value <= 2 ^ (8 * byteLen - 1) ->
  let bytes := padFF byteLen (big_Bytes (Z.shiftl 1 (byteLen * 8) + value)) in
  len bytes = byteLen /\ DecodeIntegerValue bytes = Ok value.
Proof.
  intros Hv Hb Hfit. rewrite Z.shiftl_1_l.
  replace (byteLen * 8) with (8 * byteLen) by lia.
  set (x := 2 ^ (8 * byteLen) + value).
  assert (Hpow : 2 ^ (8 * byteLen) = 2 * 2 ^ (8 * byteLen - 1)).
  { rewrite <- Z.pow_succ_r by lia. f_equal. lia. }
  assert (Hx : 2 ^ (8 * byteLen - 1) <= x < 2 ^ (8 * byteLen)) by (unfold x; lia).
  assert (Hxpos : 0 < x).
  { assert (0 < 2 ^ (8 * byteLen - 1)) by (apply Z.pow_pos_nonneg; lia). lia. }
  assert (Hlen : len (digits 8 x) = byteLen).
  { apply digits_len_exact; [lia|]. split; [|lia].
    apply Z.le_trans with (2 ^ (8 * byteLen - 1)); [|lia].
    apply Z.pow_le_mono_r; lia. }
  cbv zeta. rewrite big_Bytes_digits, Z.abs_eq by lia.
  unfold padFF. rewrite Hlen, Z.sub_diag. simpl repeat. simpl app.
  split; [exact Hlen|].
  pose proof (digits_value 8 x ltac:(lia) ltac:(lia)) as Hval.
  destruct (digits 8 x) as [|d l] eqn:Ed.
  - change (len (@nil byte)) with 0 in Hlen. lia.
  - rewrite DecodeIntegerValue_cons.
    assert (Hd : 128 <= Z_of_byte d).
    { apply (beValue_hd_high d l). rewrite Hval, Hlen. lia. }
    assert (E : (Z_of_byte d <? 128) = false) by lia.
    rewrite E, Hval, Hlen. f_equal. unfold x. lia.
Qed.

(** Every integer is decoded back from the octets [ASN1Integer] emits. *)
Lemma DecodeIntegerValue_encode value :
  DecodeIntegerValue (ASN1Integer_encodeIntegerValue value) = Ok value.
Proof.
  unfold ASN1Integer_encodeIntegerValue.
  destruct (Z.sgn value =? 0) eqn:E0.
  - assert (value = 0) by lia. subst. reflexivity.
  - destruct (Z.sgn value <? 0) eqn:En.
    + assert (Hv : value < 0) by lia.
      destruct ((value >=? -128) && (value <? 0)) eqn:Es.
      * apply andb_prop in Es. destruct Es as [Es _].
        assert (Hm : value mod 256 = value + 256).
        { symmetry. apply Z.mod_unique with (q := -1); lia. }
        rewrite DecodeIntegerValue_cons, Z_of_byte_of_Z_mod, Hm.
        assert (E : (value + 256 <? 128) = false) by lia. rewrite E.
        unfold beValue. cbn [fold_left]. rewrite Z_of_byte_of_Z_mod, Hm.
        f_equal. change (2 ^ (8 * len [byte_of_Z value])) with 256. lia.
      * cbv zeta.
        set (bitLen := big_BitLen (Z.abs value)).
        set (bitLen' := if bitLen mod 8 =? 0 then bitLen + 8
                        else (bitLen / 8 + 1) * 8).
        assert (Hbl : 0 < bitLen /\ Z.abs value < 2 ^ bitLen).
        { unfold bitLen, big_BitLen.
          assert (E : (Z.abs value =? 0) = false) by lia. rewrite E.
          rewrite Z.abs_idemp.
          pose proof (Z.log2_nonneg (Z.abs value)).
          pose proof (Z.log2_spec (Z.abs value) ltac:(lia)) as [_ Hu].
          replace (Z.log2 (Z.abs value) + 1) with (Z.succ (Z.log2 (Z.abs value)))
            by lia.
          split; [lia | exact Hu]. }
        destruct Hbl as [Hbl1 Hbl2].
        assert (Hb' : bitLen < bitLen' /\ bitLen' mod 8 = 0).
        { unfold bitLen'. destruct (bitLen mod 8 =? 0) eqn:Em.
          - apply Z.eqb_eq in Em. split; [lia|].
            rewrite <- Z.add_mod_idemp_l, Em by lia. reflexivity.
          - split.
            + pose proof (Z.div_mod bitLen 8 ltac:(lia)).
              pose proof (Z.mod_pos_bound bitLen 8 ltac:(lia)). lia.
            + apply Z.mod_mul. lia. }
        destruct Hb' as [Hb1 Hb2].
        assert (Hbyte : 8 * (bitLen' / 8) = bitLen').
        { pose proof (Z.div_mod bitLen' 8 ltac:(lia)). lia. }
        apply DecodeIntegerValue_twosComp.
        -- exact Hv.
        -- lia.
        -- rewrite Hbyte. apply Z.le_trans with (2 ^ bitLen); [lia|].
           apply Z.pow_le_mono_r; lia.
    + assert (Hv : 0 < value) by lia.
      rewrite big_Bytes_digits, Z.abs_eq by lia.
      pose proof (digits_value 8 value ltac:(lia) ltac:(lia)) as Hval.
      pose proof (digits_nonempty 8 value ltac:(lia) Hv) as Hne.
      destruct (digits 8 value) as [|d l] eqn:Ed; [congruence|].
      simpl hd. rewrite band_x80_zero.
      assert (Hs : (Z.sgn value >? 0) = true) by lia.
      assert (Hlen : (len (d :: l) >? 0) = true).
      { rewrite len_cons. pose proof (len_nonneg l). lia. }
      rewrite Hs, Hlen. simpl andb.
      destruct (Z_of_byte d <? 128) eqn:Ed'.
      * simpl negb. cbv iota. rewrite DecodeIntegerValue_cons, Ed', Hval.
        reflexivity.
      * simpl negb. cbv iota. simpl app. rewrite DecodeIntegerValue_cons.
        change (Z_of_byte x00 <? 128) with true. cbv iota.
        change (beValue 8 (x00 :: d :: l) 0) with (beValue 8 (d :: l) 0).
        now rewrite Hval.
Qed.

(** ** The conversion to typed objects terminates *)

Section ConvertTotal.
Context `{GoTimeLib}.

(** Induction on objects, through the lists and options they nest. *)
Lemma ASN1Object_induction (P : ASN1Object -> Prop) :
  (forall v, P (OValue v)) ->
  (forall tag elements, Forall P elements -> P (OStructured tag elements)) ->
  (forall b, P (OBoolean b)) ->
  (forall z, P (OInteger z)) ->
  (forall z name, P (OEnumerated z name)) ->
  (forall value, P (OOctetString value)) ->
  P ONull ->
  (forall components, P (OObjectIdentifier components)) ->
  (forall value unused, P (OBitString value unused)) ->
  (forall value, P (OUTF8String value)) ->
  (forall value, P (OPrintableString value)) ->
  (forall value, P (OIA5String value)) ->
  (forall t, P (OUTCTime t)) ->
  (forall t, P (OGeneralizedTime t)) ->
  (forall id, P (OChoice None id)) ->
  (forall value id, P value -> P (OChoice (Some value) id)) ->
  forall o, P o.
Proof.
  intros HV HS HB HI HE HO HN HOid HBit HU HP HIA HUT HGT HC0 HC1.
  fix IH 1. intros o. destruct o as [v|tag elements| | | | | | | | | | | | |value id].
  - apply HV.
  - apply HS. induction elements as [|e es IHes]; constructor.
    + apply IH.
    + exact IHes.
  - apply HB.
  - apply HI.
  - apply HE.
  - apply HO.
  - apply HN.
  - apply HOid.
  - apply HBit.
  - apply HU.
  - apply HP.
  - apply HIA.
  - apply HUT.
  - apply HGT.
  - destruct value as [value|]; [apply HC1, IH | apply HC0].
Qed.

Lemma elements_loop_mono conv1 conv2 n n' content off els r :
  (forall v r, conv1 v = Some r -> conv2 v = Some r) ->
  (n <= n')%nat ->
  elements_loop conv1 n content off els = Some r ->
  elements_loop conv2 n' content off els = Some r.
Proof.
  intros Hconv. revert n' off els.
  induction n as [|n IH]; intros n' off els Hn.
  - simpl. destruct (off <? len content) eqn:E; [discriminate|].
    intros E'. destruct n'; simpl; rewrite E; exact E'.
  - destruct n' as [|n']; [lia|]. simpl.
    destruct (off <? len content); [|auto].
    destruct (DecodeTLV (slice_from content off)) as [[ev c]| |]; try auto.
    destruct (conv1 ev) as [[e| |]|] eqn:Ec; try discriminate;
      rewrite (Hconv _ _ Ec); try auto.
    apply IH. lia.
Qed.

Lemma convert_fuel_mono f f' val r :
  (f <= f')%nat ->
  convertToHighLevelObject_fuel f val = Some r ->
  convertToHighLevelObject_fuel f' val = Some r.
Proof.
  revert f' val r. induction f as [|f IH]; intros f' val r Hf; [discriminate|].
  destruct f' as [|f']; [lia|]. simpl.
  destruct (Constructed (ASN1Value_Tag val)); [|auto].
  destruct (elements_loop (convertToHighLevelObject_fuel f) _ _ 0 [])
    as [rl|] eqn:El; [|discriminate].
  rewrite (elements_loop_mono _ (convertToHighLevelObject_fuel f') _ _ _ _ _ _
             (fun v r E => IH f' v r ltac:(lia) E) (le_n _) El).
  auto.
Qed.

Lemma len_slice {A} (data : list A) a b :
  0 <= a -> a <= b -> b <= len data -> len (slice data a b) = b - a.
Proof.
  intros Ha Hab Hb. unfold slice, len in *.
  rewrite length_firstn, length_skipn. lia.
Qed.

Lemma DecodeTLV_value_length data v n :
  DecodeTLV data = Ok (v, n) ->
  len (ASN1Value_Value v) + 2 <= n.
Proof.
  intros D. apply DecodeTLV_inv in D.
  destruct D as (tag & tagLen & length & lengthLen & _ & _ & ? & ? & ? & ?
                 & -> & ->).
  simpl. rewrite len_slice by lia. lia.
Qed.

Lemma elements_loop_total conv n content off els :
  (forall v, len (ASN1Value_Value v) + 2 <= len content ->
             exists r, conv v = Some r) ->
  0 <= off -> len content - off <= Z.of_nat n ->
  exists r, elements_loop conv n content off els = Some r.
Proof.
  intros Hconv. revert off els. induction n as [|n IH]; intros off els Ho Hn.
  - simpl. assert (E : (off <? len content) = false) by lia. rewrite E.
    eexists. reflexivity.
  - simpl. destruct (off <? len content) eqn:E; [|eexists; reflexivity].
    destruct (DecodeTLV (slice_from content off)) as [[ev c]| |] eqn:D;
      try (eexists; reflexivity).
    pose proof (DecodeTLV_consumed _ _ _ D) as Hc.
    pose proof (DecodeTLV_value_length _ _ _ D) as Hv.
    rewrite len_slice_from in Hc by lia.
    destruct (Hconv ev ltac:(lia)) as [[e| |] Ec]; rewrite Ec;
      try (eexists; reflexivity).
    apply IH; lia.
Qed.

Lemma convert_fuel_total n val :
  (List.length (ASN1Value_Value val) < n)%nat ->
  exists r, convertToHighLevelObject_fuel n val = Some r.
Proof.
  revert val. induction n as [|n IH]; intros val Hn; [lia|].
  simpl. destruct (Constructed (ASN1Value_Tag val)); [|eexists; reflexivity].
  destruct (elements_loop_total (convertToHighLevelObject_fuel n)
              (List.length (ASN1Value_Value val)) (ASN1Value_Value val) 0 [])
    as [rl El].
  - intros v Hv. apply IH. unfold len in Hv. lia.
  - lia.
  - unfold len. lia.
  - rewrite El. destruct rl as [[els [e|]]| |]; eexists; reflexivity.
Qed.

(** [convertToHighLevelObject] is the result at any sufficient depth. *)
Lemma convert_fuel_result f val r :
  convertToHighLevelObject_fuel f val = Some r ->
  convertToHighLevelObject val = r.
Proof.
  intros E. unfold convertToHighLevelObject.
  destruct (convert_fuel_total (convertFuel val) val ltac:(unfold convertFuel; lia))
    as [r' E'].
  rewrite E'.
  destruct (Nat.le_ge_cases f (convertFuel val)) as [Hle|Hge].
  - rewrite (convert_fuel_mono _ _ _ _ Hle E) in E'. congruence.
  - rewrite (convert_fuel_mono _ _ _ _ Hge E') in E. congruence.
Qed.

Lemma decodeElements_total content :
  exists r,
    elements_loop (fun v => Some (convertToHighLevelObject v))
      (List.length content) content 0 [] = Some r
    /\ decodeElements content = r.
Proof.
  destruct (elements_loop_total (fun v => Some (convertToHighLevelObject v))
              (List.length content) content 0 [])
    as [r E].
  - intros v _. eexists. reflexivity.
  - lia.
  - unfold len. lia.
  - exists r. split; [exact E|]. unfold decodeElements. now rewrite E.
Qed.

(** The equation of [convertToHighLevelObject], as the source reads. *)
Lemma convertToHighLevelObject_eq val :
  convertToHighLevelObject val
  = if Constructed (ASN1Value_Tag val) then
      match decodeElements (ASN1Value_Value val) with
      | Ok (elements, None) =>
          Ok (OStructured (ASN1Value_Tag val) elements)
      | Ok (_, Some _) => Ok (OValue val)
      | Err e => Err e
      | Panic p => Panic p
      end
    else convertPrimitiveValue val.
Proof.
  destruct (convert_fuel_total (convertFuel val) val
              ltac:(unfold convertFuel; lia)) as [r E].
  rewrite (convert_fuel_result _ _ _ E).
  unfold convertFuel in E. simpl in E.
  destruct (Constructed (ASN1Value_Tag val)); [|congruence].
  destruct (elements_loop _ _ _ 0 []) as [rl|] eqn:El; [|discriminate].
  assert (El' : elements_loop (fun v => Some (convertToHighLevelObject v))
                  (List.length (ASN1Value_Value val)) (ASN1Value_Value val)
                  0 [] = Some rl).
  { refine (elements_loop_mono _ _ _ _ _ _ _ _ _ (le_n _) El).
    intros v r' Ev. f_equal. exact (convert_fuel_result _ _ _ Ev). }
  unfold decodeElements. rewrite El'.
  destruct rl as [[els [e|]]| |]; congruence.
Qed.

End ConvertTotal.

(** ** Round trip of value objects *)

Lemma tagInRange_universal number constructed :
  0 <= number < 2 ^ 32 -> tagInRange (NewUniversalTag number constructed).
Proof. intros Hn. unfold tagInRange. simpl. lia. Qed.

Ltac universal_tag :=
  apply tagInRange_universal;
  unfold TagBoolean, TagInteger, TagBitString, TagOctetString, TagNull,
    TagOID, TagEnumerated, TagUTF8String, TagSequence, TagSet,
    TagPrintableString, TagIA5String, TagUTCTime, TagGeneralizedTime;
  lia.


Section RoundTrip.
Context `{GoTimeLib}.

Lemma EncodeTag_nonempty t bs : EncodeTag t = Ok bs -> 1 <= len bs.
Proof.
  unfold EncodeTag. destruct (Number t <? 0); [discriminate|].
  destruct (Number t <=? 30); intros E; apply Ok_inj in E; subst bs.
  - change 1 with (len [x00]). reflexivity.
  - rewrite len_app. change (len [_]) with 1.
    pose proof (len_nonneg (setContinuation
      (if Number t =? 0 then [x00]
       else prependLoop 7 127 (loopFuel (Number t)) (Number t) []))). lia.
Qed.

Lemma EncodeLength_nonempty n bs : EncodeLength n = Ok bs -> 1 <= len bs.
Proof.
  unfold EncodeLength. destruct (n <? 0); [discriminate|].
  destruct (n <? 128); intros E; apply Ok_inj in E; subst bs.
  - change 1 with (len [x00]). reflexivity.
  - rewrite len_app. change (len [_]) with 1.
    pose proof (len_nonneg (prependLoop 8 255 (loopFuel n) n [])). lia.
Qed.

Lemma EncodeTLV_inv t v bs :
  EncodeTLV t v = Ok bs ->
  exists tb lb, EncodeTag t = Ok tb /\ EncodeLength (len v) = Ok lb
                /\ bs = tb ++ lb ++ v.
Proof.
  unfold EncodeTLV.
  destruct (EncodeTag t) as [tb| |]; simpl; try discriminate.
  destruct (EncodeLength (len v)) as [lb| |]; simpl; try discriminate.
  intros E. apply Ok_inj in E. exists tb, lb. auto.
Qed.

Lemma EncodeTLV_len t v bs : EncodeTLV t v = Ok bs -> len v + 2 <= len bs.
Proof.
  intros E. apply EncodeTLV_inv in E. destruct E as (tb & lb & Et & El & ->).
  apply EncodeTag_nonempty in Et. apply EncodeLength_nonempty in El.
  rewrite !len_app. lia.
Qed.

(** Decoding an encoded TLV, stated on the encoder's result. *)
Lemma TLV_roundtrip t content bs rest :
  tagInRange t -> EncodeTLV t content = Ok bs -> len bs < 2 ^ 32 ->
  DecodeTLV (bs ++ rest) = Ok (NewASN1Value t content, len bs).
Proof.
  intros [Hc Hn] E Hlen. pose proof (EncodeTLV_len _ _ _ E) as Hl.
  destruct (DecodeTLV_EncodeTLV t content rest Hc Hn ltac:(lia))
    as (bs' & E' & D).
  rewrite E in E'. apply Ok_inj in E'. subst bs'. exact D.
Qed.

Lemma Encode_structured tag elements :
  Encode (OStructured tag elements)
  = match encodeElements elements [] with
    | Ok content => EncodeTLV tag content
    | Err e => Err e
    | Panic p => Panic p
    end.
Proof. reflexivity. Qed.

Lemma encodeElements_inv elements : forall acc content,
  encodeElements elements acc = Ok content ->
  exists encs,
    Forall2 (fun e b => Encode e = Ok b) elements encs
    /\ content = acc ++ List.concat encs.
Proof.
  induction elements as [|e es IH]; intros acc content E.
  - simpl in E. apply Ok_inj in E. exists []. split; [constructor|].
    simpl. now rewrite app_nil_r.
  - simpl in E. destruct (Encode e) as [b| |] eqn:Ee; try discriminate.
    apply IH in E. destruct E as (encs & HF & ->).
    exists (b :: encs). split; [constructor; assumption|].
    simpl. now rewrite app_assoc.
Qed.

Lemma encodeElements_ok elements encs acc :
  Forall2 (fun e b => Encode e = Ok b) elements encs ->
  encodeElements elements acc = Ok (acc ++ List.concat encs).
Proof.
  intros HF. revert acc. induction HF as [|e b es encs He HF IH]; intros acc.
  - simpl. now rewrite app_nil_r.
  - simpl. rewrite He, IH. simpl. now rewrite app_assoc.
Qed.

Lemma len_concat_le (encs : list (list byte)) b :
  In b encs -> len b <= len (List.concat encs).
Proof.
  induction encs as [|x encs IH]; [contradiction|].
  intros [->|Hin]; simpl; rewrite len_app.
  - pose proof (len_nonneg (List.concat encs)). lia.
  - specialize (IH Hin). pose proof (len_nonneg x). lia.
Qed.

(** The element loop over a succession of encodings that decode. *)
Lemma elements_loop_encoded (encs : list (list byte)) (ds : list ASN1Object) :
  Forall2 (fun b d => forall rest, exists val,
               DecodeTLV (b ++ rest) = Ok (val, len b)
               /\ convertToHighLevelObject val = Ok d) encs ds ->
  forall fuel prefix acc,
    (List.length encs <= fuel)%nat ->
    elements_loop (fun v => Some (convertToHighLevelObject v)) fuel
      (prefix ++ List.concat encs) (len prefix) acc
    = Some (Ok (acc ++ ds, None)).
Proof.
  intros HF. induction HF as [|b d encs ds Hb HF IH]; intros fuel prefix acc Hf.
  - simpl List.concat. rewrite app_nil_r. rewrite app_nil_r.
    destruct fuel; simpl; rewrite Z.ltb_irrefl; reflexivity.
  - destruct fuel as [|fuel]; [simpl in Hf; lia|].
    simpl List.concat. destruct (Hb (List.concat encs)) as (val & D & C).
    pose proof (DecodeTLV_consumed _ _ _ D) as Hc.
    simpl elements_loop.
    assert (E : (len prefix <? len (prefix ++ b ++ List.concat encs)) = true).
    { rewrite !len_app. pose proof (len_nonneg (List.concat encs)). lia. }
    rewrite E, slice_from_app, D, C.
    replace (prefix ++ b ++ List.concat encs) with ((prefix ++ b) ++ List.concat encs)
      by (now rewrite app_assoc).
    rewrite <- len_app. rewrite IH by (simpl in Hf; lia).
    now rewrite <- app_assoc.
Qed.

Lemma concat_length_ge (encs : list (list byte)) :
  Forall (fun b => 1 <= len b) encs ->
  Z.of_nat (List.length encs) <= len (List.concat encs).
Proof.
  induction 1 as [|b encs Hb HF IH]; simpl.
  - change (len (@nil byte)) with 0. lia.
  - rewrite len_app. lia.
Qed.

Lemma decodeElements_encoded (encs : list (list byte)) (ds : list ASN1Object) :
  Forall2 (fun b d => forall rest, exists val,
               DecodeTLV (b ++ rest) = Ok (val, len b)
               /\ convertToHighLevelObject val = Ok d) encs ds ->
  decodeElements (List.concat encs) = Ok (ds, None).
Proof.
  intros HF. unfold decodeElements.
  pose proof (elements_loop_encoded encs ds HF
                (List.length (List.concat encs)) [] []) as E.
  change (len (@nil byte)) with 0 in E. cbn [app] in E.
  rewrite E; [reflexivity|].
  assert (Hall : Forall (fun b => 1 <= len b) encs).
  { clear E. induction HF as [|b d encs ds Hb HF IH]; constructor; auto.
    destruct (Hb []) as (val & D & _).
    apply DecodeTLV_consumed in D. rewrite app_nil_r in D. lia. }
  apply concat_length_ge in Hall. unfold len in Hall. lia.
Qed.

Lemma convertPrimitiveValue_other t content :
  promotedTag t = false ->
  convertPrimitiveValue (NewASN1Value t content)
  = Ok (OValue (NewASN1Value t content)).
Proof.
  unfold promotedTag, convertPrimitiveValue. cbn [ASN1Value_Tag ASN1Value_Value].
  intros Hp. destruct (Class t =? 2); [reflexivity|].
  destruct (Class t =? 0); [|reflexivity]. simpl in Hp. simpl negb. cbv iota.
  destruct (Number t =? TagBoolean); [discriminate|].
  destruct (Number t =? TagInteger); [discriminate|].
  destruct (Number t =? TagOctetString); [discriminate|].
  destruct (Number t =? TagUTF8String); [discriminate|].
  destruct (Number t =? TagPrintableString); [discriminate|].
  destruct (Number t =? TagIA5String); [discriminate|].
  destruct (Number t =? TagUTCTime); [discriminate|].
  destruct (Number t =? TagGeneralizedTime); [discriminate|].
  reflexivity.
Qed.

Lemma sameValue_all2_map (es : list ASN1Object) :
  Forall (fun e => sameValue e (asDecoded e)) es ->
  (fix all2 (es ds : list ASN1Object) : Prop :=
     match es, ds with
     | [], [] => True
     | e :: es', d :: ds' => sameValue e d /\ all2 es' ds'
     | _, _ => False
     end) es (map asDecoded es).
Proof.
  induction 1 as [|e es He HF IH]; simpl; auto.
Qed.

(** The round trip, by induction on the object. *)
Lemma roundtrip_main (v : ASN1Object) :
  wfObject v -> forall bs, Encode v = Ok bs -> len bs < 2 ^ 32 ->
  Encode (asDecoded v) = Ok bs
  /\ ObjectTag (asDecoded v) = ObjectTag v
  /\ sameValue v (asDecoded v)
  /\ forall rest, exists val,
       DecodeTLV (bs ++ rest) = Ok (val, len bs)
       /\ ASN1Value_Tag val = ObjectTag v
       /\ convertToHighLevelObject val = Ok (asDecoded v).
Proof.
  pattern v. apply ASN1Object_induction; clear v.
  - (* ASN1Value *)
    intros [t content] (Ht & Hc & Hp) bs E Hlen. simpl in *.
    repeat split; try assumption; try reflexivity.
    intros rest. exists (NewASN1Value t content).
    split; [apply TLV_roundtrip; assumption|]. split; [reflexivity|].
    rewrite convertToHighLevelObject_eq. simpl. rewrite Hc.
    apply convertPrimitiveValue_other. exact Hp.
  - (* ASN1Structured *)
    intros tag elements IH (Ht & Hc & Hall) bs E Hlen.
    rewrite Encode_structured in E.
    destruct (encodeElements elements []) as [content| |] eqn:Ee;
      try discriminate.
    apply encodeElements_inv in Ee. destruct Ee as (encs & HF & Hcontent).
    simpl in Hcontent. subst content.
    pose proof (EncodeTLV_len _ _ _ E) as Hcl.
    assert (Hels : Forall2 (fun e b =>
               Encode e = Ok b
               /\ Encode (asDecoded e) = Ok b
               /\ sameValue e (asDecoded e)
               /\ forall rest, exists val,
                    DecodeTLV (b ++ rest) = Ok (val, len b)
                    /\ convertToHighLevelObject val = Ok (asDecoded e))
             elements encs).
    { assert (Hin : forall b, In b encs -> len b < 2 ^ 32).
      { intros b Hb. pose proof (len_concat_le encs b Hb). lia. }
      clear E Hcl Hlen. revert Hin Hall IH.
      induction HF as [|e b es encs He HF IHF]; intros Hin Hall IH;
        constructor.
      - destruct Hall as [Hwe _]. inversion IH as [|? ? IHe _]. subst.
        destruct (IHe Hwe b He (Hin b (or_introl eq_refl)))
          as (H1 & _ & H3 & H4).
        repeat split; try assumption.
        intros rest. destruct (H4 rest) as (val & D & _ & C). eauto.
      - destruct Hall as [_ Hall]. inversion IH as [|? ? _ IHes]. subst.
        apply IHF; try assumption.
        intros b' Hb'. apply Hin. now right. }
    assert (Henc : encodeElements (map asDecoded elements) []
                   = Ok (List.concat encs)).
    { rewrite (encodeElements_ok (map asDecoded elements) encs []);
        [reflexivity|].
      clear -Hels. induction Hels as [|e b es encs (_ & He & _) _ IHe];
        simpl; constructor; assumption. }
    split; [|split; [|split]].
    + change (asDecoded (OStructured tag elements))
        with (OStructured tag (map asDecoded elements)).
      rewrite Encode_structured, Henc. exact E.
    + reflexivity.
    + change (asDecoded (OStructured tag elements))
        with (OStructured tag (map asDecoded elements)).
      cbn [sameValue]. split; [reflexivity|].
      apply sameValue_all2_map.
      clear -Hels. induction Hels as [|e b es encs (_ & _ & He & _) _ IHe];
        constructor; assumption.
    + intros rest. exists (NewASN1Value tag (List.concat encs)).
      split; [apply TLV_roundtrip; assumption|]. split; [reflexivity|].
      rewrite convertToHighLevelObject_eq. simpl ASN1Value_Tag.
      simpl ASN1Value_Value. rewrite Hc.
      rewrite (decodeElements_encoded encs (map asDecoded elements));
        [reflexivity|].
      clear -Hels. induction Hels as [|e b es encs (_ & _ & _ & He) _ IHe];
        simpl; constructor; assumption.
  - (* ASN1Boolean *)
    intros b _ bs E Hlen. simpl in E.
    repeat split; try assumption; try reflexivity.
    intros rest. eexists.
    split; [refine (TLV_roundtrip _ _ _ _ _ E Hlen); universal_tag|].
    split; [reflexivity|].
    rewrite convertToHighLevelObject_eq. destruct b; reflexivity.
  - (* ASN1Integer *)
    intros z _ bs E Hlen. simpl in E.
    repeat split; try assumption; try reflexivity.
    intros rest. eexists.
    split; [refine (TLV_roundtrip _ _ _ _ _ E Hlen); universal_tag|].
    split; [reflexivity|].
    rewrite convertToHighLevelObject_eq.
    unfold convertPrimitiveValue. cbn [ASN1Value_Tag ASN1Value_Value].
    simpl. rewrite DecodeIntegerValue_encode. reflexivity.
  - (* ASN1Enumerated *)
    intros z name _ bs E Hlen. simpl in E.
    repeat split; try assumption; try reflexivity.
    intros rest. eexists.
    split; [refine (TLV_roundtrip _ _ _ _ _ E Hlen); universal_tag|].
    split; [reflexivity|].
    rewrite convertToHighLevelObject_eq. reflexivity.
  - (* ASN1OctetString *)
    intros value _ bs E Hlen. simpl in E.
    repeat split; try assumption; try reflexivity.
    intros rest. eexists.
    split; [refine (TLV_roundtrip _ _ _ _ _ E Hlen); universal_tag|].
    split; [reflexivity|].
    rewrite convertToHighLevelObject_eq. reflexivity.
  - (* ASN1Null *)
    intros _ bs E Hlen. simpl in E.
    repeat split; try assumption; try reflexivity.
    intros rest. eexists.
    split; [refine (TLV_roundtrip _ _ _ _ _ E Hlen); universal_tag|].
    split; [reflexivity|].
    rewrite convertToHighLevelObject_eq. reflexivity.
  - (* ASN1ObjectIdentifier *)
    intros components _ bs E Hlen. simpl in E.
    destruct (len components <? 2) eqn:E2; [discriminate|].
    assert (Es : Encode (asDecoded (OObjectIdentifier components))
                 = Encode (OObjectIdentifier components)).
    { simpl. now rewrite E2. }
    split; [simpl; exact E|]. split; [reflexivity|].
    split; [split; [reflexivity | exact Es]|].
    intros rest. eexists.
    split; [refine (TLV_roundtrip _ _ _ _ _ E Hlen); universal_tag|].
    split; [reflexivity|].
    rewrite convertToHighLevelObject_eq. reflexivity.
  - (* ASN1BitString *)
    intros value unused _ bs E Hlen. simpl in E.
    repeat split; try assumption; try reflexivity.
    intros rest. eexists.
    split; [refine (TLV_roundtrip _ _ _ _ _ E Hlen); universal_tag|].
    split; [reflexivity|].
    rewrite convertToHighLevelObject_eq. reflexivity.
  - (* ASN1UTF8String *)
    intros value Hw bs E Hlen. simpl in E, Hw.
    repeat split; try assumption; try reflexivity.
    intros rest. eexists.
    split; [refine (TLV_roundtrip _ _ _ _ _ E Hlen); universal_tag|].
    split; [reflexivity|].
    rewrite convertToHighLevelObject_eq.
    unfold convertPrimitiveValue. cbn [ASN1Value_Tag ASN1Value_Value].
    simpl. unfold NewUTF8String. now rewrite Hw.
  - (* ASN1PrintableString *)
    intros value Hw bs E Hlen. simpl in E, Hw.
    repeat split; try assumption; try reflexivity.
    intros rest. eexists.
    split; [refine (TLV_roundtrip _ _ _ _ _ E Hlen); universal_tag|].
    split; [reflexivity|].
    rewrite convertToHighLevelObject_eq.
    unfold convertPrimitiveValue. cbn [ASN1Value_Tag ASN1Value_Value].
    simpl. unfold NewPrintableString. now rewrite Hw.
  - (* ASN1IA5String *)
    intros value Hw bs E Hlen. simpl in E, Hw.
    repeat split; try assumption; try reflexivity.
    intros rest. eexists.
    split; [refine (TLV_roundtrip _ _ _ _ _ E Hlen); universal_tag|].
    split; [reflexivity|].
    rewrite convertToHighLevelObject_eq.
    unfold convertPrimitiveValue. cbn [ASN1Value_Tag ASN1Value_Value].
    simpl. unfold NewIA5String. now rewrite Hw.
  - intros t [].
  - intros t [].
  - intros id [].
  - (* ASN1Choice *)
    intros value id IH Hw bs E Hlen. simpl in *.
    destruct (IH Hw bs E Hlen) as (H1 & H2 & H3 & H4). auto.
Qed.

(** ** The round trip on the whole family *)


(** The family of [wfObject] is part of the family of [roundTrips]. *)
Lemma wfObject_roundTrips (v : ASN1Object) : wfObject v -> roundTrips v.
Proof.
  pattern v. apply ASN1Object_induction; clear v;
    try (intros; assumption); try (intros; exact I).
  - intros [t content] (Ht & Hc & Hp).
    cbn [ASN1Value_Tag ASN1Value_Value] in Ht, Hc, Hp.
    cbn [roundTrips ASN1Value_Tag ASN1Value_Value].
    split; [exact Ht|]. rewrite Hc. intros Hcl.
    unfold promotedTag in Hp. rewrite Hcl in Hp.
    change (0 =? 0) with true in Hp. cbn [andb] in Hp.
    unfold keptContent.
    destruct (Number t =? TagBoolean); [discriminate|].
    destruct (Number t =? TagInteger); [discriminate|].
    destruct (Number t =? TagOctetString) eqn:E3; [discriminate|].
    destruct (Number t =? TagUTF8String); [discriminate|].
    destruct (Number t =? TagPrintableString); [discriminate|].
    destruct (Number t =? TagIA5String); [discriminate|].
    destruct (Number t =? TagUTCTime); [discriminate|].
    destruct (Number t =? TagGeneralizedTime); [discriminate|].
    exact I.
  - intros tag elements IH (Ht & Hc & Hall).
    cbn [roundTrips]. split; [exact Ht|]. split; [exact Hc|].
    induction IH as [|e es IHe _ IHes]; [exact I|].
    destruct Hall as [He Hes]. split; [exact (IHe He) | exact (IHes Hes)].
  - intros t [].
  - intros t [].
  - intros value id IH Hw. exact (IH Hw).
Qed.


End RoundTrip.

Section RoundTripTheorems.
Context `{GoTimeLib}.



(** ** Depth of nesting *)

Lemma nested_wf n : wfObject (nested n).
Proof.
  assert (Ht : tagInRange (NewUniversalTag TagSequence true)).
  { apply tagInRange_universal. unfold TagSequence. lia. }
  induction n as [|n IH]; simpl.
  - split; [exact Ht|]. split; [reflexivity | exact I].
  - split; [exact Ht|]. split; [reflexivity|]. split; [exact IH | exact I].
Qed.

Lemma nested_asDecoded n : asDecoded (nested n) = nested n.
Proof. induction n as [|n IH]; simpl; [reflexivity | now rewrite IH]. Qed.

Lemma nested_depth n : depth (nested n) = S n.
Proof.
  induction n as [|n IH]; [reflexivity|].
  change (depth (nested (S n))) with (S (Nat.max (depth (nested n)) 0)).
  rewrite IH. now rewrite Nat.max_0_r.
Qed.

(** C6 (as the code has it).  The decoder has no depth limit and no
    depth-exceeded error.  The conversion of any decoded TLV finishes within
    a recursion depth of one more than the length of its value; and input
    nested to any depth is accepted: for every [n], the encoding of [n + 1]
    SEQUENCEs one inside the other, when shorter than [2^32] octets, is
    decoded and converted, without error, into those [n + 1] nested
    levels. *)
Theorem depth_is_unbounded :
  (forall val, exists r,
      convertToHighLevelObject_fuel (S (List.length (ASN1Value_Value val))) val
      = Some r
      /\ convertToHighLevelObject val = r)
  /\ (forall n bs,
         Encode (nested n) = Ok bs -> len bs < 2 ^ 32 ->
         exists val,
           DecodeTLV bs = Ok (val, len bs)
           /\ convertToHighLevelObject val = Ok (nested n)
           /\ depth (nested n) = S n).
Proof.
  split.
  - intros val.
    destruct (convert_fuel_total (S (List.length (ASN1Value_Value val))) val
                ltac:(lia)) as [r E].
    exists r. split; [exact E|]. exact (convert_fuel_result _ _ _ E).
  - intros n bs E Hlen.
    destruct (roundtrip_main (nested n) (nested_wf n) bs E Hlen)
      as (_ & _ & _ & Hd).
    destruct (Hd []) as (val & D & _ & C). rewrite app_nil_r in D.
    rewrite nested_asDecoded in C.
    exists val. repeat split; try assumption. apply nested_depth.
Qed.

End RoundTripTheorems.

(** ** INTEGER and ENUMERATED octets *)

(** C2.  The encodings the specification lists are the ones the code
    produces; but the INTEGER encoder emits [FF 80 00] for [-32768], whose
    minimal form [80 00] decodes to the same number, and the ENUMERATED
    encoder emits [FF 80] for [-128], whose minimal form is [80]. *)
Theorem integer_encoding_examples `{GoTimeLib} :
  Encode (NewInteger 0) = Ok [x02; x01; x00]
  /\ Encode (NewInteger 127) = Ok [x02; x01; x7f]
  /\ Encode (NewInteger 128) = Ok [x02; x02; x00; x80]
  /\ Encode (NewInteger (-1)) = Ok [x02; x01; xff]
  /\ Encode (NewInteger (-128)) = Ok [x02; x01; x80]
  /\ Encode (NewInteger (-32768)) = Ok [x02; x03; xff; x80; x00]
  /\ minimalTwosComplement (ASN1Integer_encodeIntegerValue (-32768)) = false
  /\ DecodeIntegerValue [x80; x00] = Ok (-32768)
  /\ Encode (NewEnumerated (-128)) = Ok [x0a; x02; xff; x80]
  /\ minimalTwosComplement (encodeIntegerValue (-128)) = false
  /\ DecodeIntegerValue [x80] = Ok (-128).
Proof. repeat split; vm_compute; reflexivity. Qed.

(** ** Validation failures *)

Section Validation.
Context `{GoTimeLib}.

Lemma decodeSubidentifier_loop_nonneg data : forall value offset s c,
  0 <= value ->
  decodeSubidentifier_loop data value offset = Ok (s, c) -> 0 <= s.
Proof.
  induction data as [|b rest IH]; intros value offset s c Hv; [discriminate|].
  cbn [decodeSubidentifier_loop].
  destruct (value >? Z.shiftl 1 (32 - 7) - 1); [discriminate|].
  assert (Hn : 0 <= Z.lor (Z.shiftl value 7) (Z_of_byte (band b x7f))).
  { apply Z.lor_nonneg. split.
    - apply Z.shiftl_nonneg. exact Hv.
    - apply Z_of_byte_range. }
  destruct (Z_of_byte (band b x80) =? 0).
  - intros E. apply Ok_pair_inj in E. destruct E as [<- _]. exact Hn.
  - apply IH. exact Hn.
Qed.

Lemma decodeSubidentifier_loop_no_panic data : forall value offset p,
  decodeSubidentifier_loop data value offset <> Panic p.
Proof.
  induction data as [|b rest IH]; intros value offset p; [discriminate|].
  cbn [decodeSubidentifier_loop].
  destruct (value >? Z.shiftl 1 (32 - 7) - 1); [discriminate|].
  destruct (Z_of_byte (band b x80) =? 0); [discriminate | apply IH].
Qed.

Lemma decodeSubidentifier_no_panic data p : decodeSubidentifier data <> Panic p.
Proof.
  unfold decodeSubidentifier. destruct (len data =? 0); [discriminate|].
  apply decodeSubidentifier_loop_no_panic.
Qed.

Lemma DecodeObjectIdentifierValue_loop_inv fuel data :
  forall offset components r,
    DecodeObjectIdentifierValue_loop fuel data offset components = Some r ->
    (exists e, r = Err e) \/ (exists more, r = Ok (components ++ more)).
Proof.
  induction fuel as [|fuel IH]; intros offset components r; simpl.
  - destruct (offset <? len data); [discriminate|].
    intros E. injection E as <-. right. exists []. now rewrite app_nil_r.
  - destruct (offset <? len data).
    + destruct (decodeSubidentifier (slice_from data offset))
        as [[subid consumed]|e|p] eqn:D.
      * intros E. apply IH in E. destruct E as [E|[more ->]]; [now left|].
        right. exists (subid :: more). now rewrite <- app_assoc.
      * intros E. injection E as <-. left. eexists. reflexivity.
      * exfalso. eapply decodeSubidentifier_no_panic. exact D.
    + intros E. injection E as <-. right. exists []. now rewrite app_nil_r.
Qed.

(** What [DecodeObjectIdentifierValue] returns satisfies the arc
    constraints. *)
Lemma DecodeObjectIdentifierValue_valid data :
  (exists e, DecodeObjectIdentifierValue data = Err e)
  \/ (exists components,
         DecodeObjectIdentifierValue data = Ok components
         /\ validArcs components = true).
Proof.
  unfold DecodeObjectIdentifierValue.
  destruct (len data =? 0); [left; eexists; reflexivity|].
  rewrite slice_from_0.
  destruct (decodeSubidentifier data) as [[firstSubid consumed]|e|p] eqn:D;
    simpl.
  - assert (Hs : 0 <= firstSubid).
    { unfold decodeSubidentifier in D.
      destruct (len data =? 0); [discriminate|].
      eapply decodeSubidentifier_loop_nonneg; [|exact D]. lia. }
    set (components := if firstSubid <? 40 then [0; firstSubid]
                       else if firstSubid <? 80 then [1; firstSubid - 40]
                       else [2; firstSubid - 80]).
    assert (Hv : forall more, validArcs (components ++ more) = true).
    { intros more. unfold components, validArcs.
      destruct (firstSubid <? 40) eqn:E1;
        [|destruct (firstSubid <? 80) eqn:E2];
        simpl app; rewrite !len_cons; cbn [nth];
        pose proof (len_nonneg more);
        repeat (apply andb_true_intro; split); try lia;
        apply orb_true_iff; (left; lia) || (right; lia). }
    match goal with
    | |- context [DecodeObjectIdentifierValue_loop ?f ?d ?o ?c] =>
        destruct (DecodeObjectIdentifierValue_loop f d o c) as [r|] eqn:L
    end.
    + apply DecodeObjectIdentifierValue_loop_inv in L.
      destruct L as [[e ->]|[more ->]].
      * left. eexists. reflexivity.
      * right. eexists. split; [reflexivity | apply Hv].
    + right. eexists. split; [reflexivity|].
      rewrite <- (app_nil_r components). apply Hv.
  - left. eexists. reflexivity.
  - exfalso. eapply decodeSubidentifier_no_panic. exact D.
Qed.

Lemma NewObjectIdentifier_valid components :
  NewObjectIdentifier components
  = if validArcs components then Ok (OObjectIdentifier components)
    else NewObjectIdentifier components.
Proof.
  destruct (validArcs components) eqn:Hv; [|reflexivity].
  unfold validArcs in Hv. unfold NewObjectIdentifier.
  apply andb_prop in Hv. destruct Hv as [Hv H4].
  apply andb_prop in Hv. destruct Hv as [Hv H3].
  apply andb_prop in Hv. destruct Hv as [H1 H2].
  assert (E1 : (len components <? 2) = false) by lia. rewrite E1.
  assert (E2 : ((nth 0 components 0 <? 0) || (nth 0 components 0 >? 2))
               = false) by lia.
  rewrite E2.
  assert (E3 : ((nth 0 components 0 <? 2)
                && ((nth 1 components 0 <? 0) || (nth 1 components 0 >? 39)))
               = false).
  { apply orb_prop in H4. destruct H4 as [H4|H4]; lia. }
  now rewrite E3.
Qed.

(** C9 (as the code has it).  The constructors of the value objects
    [NewUTF8String], [NewPrintableString], [NewIA5String], [NewBitString]
    and [NewObjectIdentifier] panic on content they do not accept; the
    decoders [DecodeUTF8String], [DecodePrintableString], [DecodeIA5String]
    and [DecodeBitString] return an error for such content, and none of
    them, nor [DecodeObjectIdentifier], panics on any input. *)
Theorem validation_outcomes :
  (forall s, ValidString s = false ->
             NewUTF8String s = Panic "invalid UTF-8 string")
  /\ (forall s, isPrintableString s = false ->
                NewPrintableString s
                = Panic "string contains non-printable characters")
  /\ (forall s, isIA5String s = false ->
                NewIA5String s = Panic "string contains non-IA5 characters")
  /\ (forall value unusedBits,
         unusedBits < 0 \/ 7 < unusedBits ->
         NewBitString value unusedBits
         = Panic "unused bits must be between 0 and 7")
  /\ (forall components,
         validArcs components = false ->
         is_panic (NewObjectIdentifier components) = true)
  /\ (forall data val n,
         DecodeTLV data = Ok (val, n) ->
         ASN1Value_Tag val = NewUniversalTag TagUTF8String false ->
         ValidString (ASN1Value_Value val) = false ->
         DecodeUTF8String data = Err "invalid UTF-8 string")
  /\ (forall data val n,
         DecodeTLV data = Ok (val, n) ->
         ASN1Value_Tag val = NewUniversalTag TagPrintableString false ->
         isPrintableString (ASN1Value_Value val) = false ->
         DecodePrintableString data
         = Err "string contains non-printable characters")
  /\ (forall data val n,
         DecodeTLV data = Ok (val, n) ->
         ASN1Value_Tag val = NewUniversalTag TagIA5String false ->
         isIA5String (ASN1Value_Value val) = false ->
         DecodeIA5String data = Err "string contains non-IA5 characters")
  /\ (forall data val n b0 rest,
         DecodeTLV data = Ok (val, n) ->
         ASN1Value_Tag val = NewUniversalTag TagBitString false ->
         ASN1Value_Value val = b0 :: rest -> 7 < Z_of_byte b0 ->
         DecodeBitString data = Err "unused bits count cannot exceed 7")
  /\ (forall data,
         is_panic (DecodeUTF8String data) = false
         /\ is_panic (DecodePrintableString data) = false
         /\ is_panic (DecodeIA5String data) = false
         /\ is_panic (DecodeBitString data) = false
         /\ is_panic (DecodeObjectIdentifier data) = false).
Proof.
  split; [|split; [|split; [|split; [|split; [|split; [|split; [|split;
    [|split]]]]]]]].
  - intros s Hs. unfold NewUTF8String. now rewrite Hs.
  - intros s Hs. unfold NewPrintableString. now rewrite Hs.
  - intros s Hs. unfold NewIA5String. now rewrite Hs.
  - intros value u Hu. unfold NewBitString.
    assert (E : ((u <? 0) || (u >? 7)) = true) by lia. now rewrite E.
  - intros components Hv. unfold validArcs in Hv. unfold NewObjectIdentifier.
    destruct (len components <? 2) eqn:E1; [reflexivity|].
    destruct ((nth 0 components 0 <? 0) || (nth 0 components 0 >? 2)) eqn:E2;
      [reflexivity|].
    destruct ((nth 0 components 0 <? 2)
              && ((nth 1 components 0 <? 0) || (nth 1 components 0 >? 39)))
      eqn:E3; [reflexivity|].
    exfalso.
    assert (H1 : (2 <=? len components) = true) by lia.
    assert (H2 : (0 <=? nth 0 components 0) = true) by lia.
    assert (H3 : (nth 0 components 0 <=? 2) = true) by lia.
    rewrite H1, H2, H3 in Hv. simpl in Hv.
    apply orb_false_iff in Hv. destruct Hv as [H4 H5].
    assert (E4 : (nth 0 components 0 <? 2) = true) by lia.
    rewrite E4 in E3. simpl in E3. lia.
  - intros data val n D Ht Hs. unfold DecodeUTF8String.
    rewrite D. simpl bind. rewrite Ht. simpl. now rewrite Hs.
  - intros data val n D Ht Hs. unfold DecodePrintableString.
    rewrite D. simpl bind. rewrite Ht. simpl. now rewrite Hs.
  - intros data val n D Ht Hs. unfold DecodeIA5String.
    rewrite D. simpl bind. rewrite Ht. simpl. now rewrite Hs.
  - intros data val n b0 rest D Ht Hv Hb. unfold DecodeBitString.
    rewrite D. simpl bind. rewrite Ht, Hv. simpl.
    assert (E : (Z_of_byte b0 >? 7) = true) by lia. now rewrite E.
  - intros data. repeat split.
    + unfold DecodeUTF8String.
      destruct (DecodeTLV data) as [[val n]|e|p] eqn:D; simpl;
        [|reflexivity|exfalso; eapply DecodeTLV_no_panic; exact D].
      destruct (_ || _); [reflexivity|].
      unfold NewUTF8String.
      destruct (ValidString (ASN1Value_Value val)); reflexivity.
    + unfold DecodePrintableString.
      destruct (DecodeTLV data) as [[val n]|e|p] eqn:D; simpl;
        [|reflexivity|exfalso; eapply DecodeTLV_no_panic; exact D].
      destruct (_ || _); [reflexivity|].
      unfold NewPrintableString.
      destruct (isPrintableString (ASN1Value_Value val)); reflexivity.
    + unfold DecodeIA5String.
      destruct (DecodeTLV data) as [[val n]|e|p] eqn:D; simpl;
        [|reflexivity|exfalso; eapply DecodeTLV_no_panic; exact D].
      destruct (_ || _); [reflexivity|].
      unfold NewIA5String.
      destruct (isIA5String (ASN1Value_Value val)); reflexivity.
    + unfold DecodeBitString.
      destruct (DecodeTLV data) as [[val n]|e|p] eqn:D; simpl;
        [|reflexivity|exfalso; eapply DecodeTLV_no_panic; exact D].
      destruct (_ || _); [reflexivity|].
      unfold DecodeBitStringValue.
      destruct (ASN1Value_Value val) as [|b0 rest]; [reflexivity|].
      destruct (Z_of_byte b0 >? 7) eqn:E7; [reflexivity|].
      destruct (len (b0 :: rest) =? 1).
      * destruct (negb (Z_of_byte b0 =? 0)); reflexivity.
      * simpl bind. unfold NewBitString.
        pose proof (Z_of_byte_range b0).
        assert (E : ((Z_of_byte b0 <? 0) || (Z_of_byte b0 >? 7)) = false)
          by lia.
        now rewrite E.
    + unfold DecodeObjectIdentifier.
      destruct (DecodeTLV data) as [[val n]|e|p] eqn:D; simpl;
        [|reflexivity|exfalso; eapply DecodeTLV_no_panic; exact D].
      destruct (_ || _); [reflexivity|].
      destruct (DecodeObjectIdentifierValue_valid (ASN1Value_Value val))
        as [[e ->]|[components [-> Hv]]]; [reflexivity|].
      simpl bind. rewrite NewObjectIdentifier_valid, Hv. reflexivity.
Qed.

End Validation.

(** ** Context tagging *)

Section ContextTagging.
Context `{GoTimeLib}.

(** Every encoding is the TLV of the object's tag over some content. *)
Lemma Encode_is_TLV (obj : ASN1Object) :
  forall bs, Encode obj = Ok bs ->
  exists content, EncodeTLV (ObjectTag obj) content = Ok bs.
Proof.
  pattern obj. apply ASN1Object_induction; clear obj;
    try (intros; simpl in *; eexists; eassumption).
  - intros tag elements _ bs E. rewrite Encode_structured in E.
    destruct (encodeElements elements []) as [content| |]; try discriminate.
    exists content. exact E.
  - intros components bs E. simpl in E.
    destruct (len components <? 2); [discriminate|]. eexists. exact E.
  - intros id bs E. discriminate E.
  - intros value id IH bs E. simpl in *. apply IH. exact E.
Qed.

Lemma wfObject_tagInRange (obj : ASN1Object) :
  wfObject obj -> tagInRange (ObjectTag obj).
Proof.
  pattern obj. apply ASN1Object_induction; clear obj;
    try (intros; simpl; universal_tag).
  - intros v (Ht & _). exact Ht.
  - intros tag elements _ (Ht & _). exact Ht.
  - intros value id IH Hw. simpl in *. apply IH. exact Hw.
Qed.

Lemma asDecoded_OValue_primitive (obj : ASN1Object) :
  wfObject obj -> forall v, asDecoded obj = OValue v ->
  Constructed (ASN1Value_Tag v) = false.
Proof.
  pattern obj. apply ASN1Object_induction; clear obj; intros; simpl in *;
    try discriminate; try contradiction;
    try (match goal with
         | E : OValue _ = OValue _ |- _ => injection E as <-
         end; try reflexivity; tauto).
  eauto.
Qed.

(** The parts of a constructed encoding: its content decodes into elements
    that encode to that content again. *)
Lemma constructed_content (obj : ASN1Object) bs content :
  wfObject obj -> Encode obj = Ok bs -> len bs < 2 ^ 32 ->
  EncodeTLV (ObjectTag obj) content = Ok bs ->
  Constructed (ObjectTag obj) = true ->
  exists elements,
    decodeElements content = Ok (elements, None)
    /\ encodeElements elements [] = Ok content.
Proof.
  intros Hw E Hlen Et Hc.
  pose proof (wfObject_tagInRange obj Hw) as Hr.
  destruct (roundtrip_main obj Hw bs E Hlen) as (Ed & _ & _ & Hd).
  destruct (Hd []) as (val & D & _ & C).
  rewrite (TLV_roundtrip _ _ _ [] Hr Et Hlen) in D.
  apply Ok_pair_inj in D. destruct D as [<- _].
  rewrite convertToHighLevelObject_eq in C. simpl in C. rewrite Hc in C.
  destruct (decodeElements content) as [[elements [e|]]| |] eqn:De;
    try discriminate.
  - apply Ok_inj in C. symmetry in C.
    apply (asDecoded_OValue_primitive obj Hw) in C. simpl in C. congruence.
  - apply Ok_inj in C. exists elements. split; [reflexivity|].
    rewrite <- C in Ed. rewrite Encode_structured in Ed.
    destruct (encodeElements elements []) as [content'| |]; try discriminate.
    pose proof (TLV_roundtrip _ _ _ [] Hr Ed Hlen) as D1.
    pose proof (TLV_roundtrip _ _ _ [] Hr Et Hlen) as D2.
    rewrite D1 in D2. apply Ok_pair_inj in D2. destruct D2 as [D2 _].
    congruence.
Qed.

(** [replaceTag] on an object whose tag the decoder reads back and which,
    when constructed, round-trips. *)
Lemma replaceTag_spec (obj : ASN1Object) bs content tagNum :
  tagInRange (ObjectTag obj) ->
  (Constructed (ObjectTag obj) = true -> wfObject obj) ->
  Encode obj = Ok bs -> len bs < 2 ^ 32 ->
  EncodeTLV (ObjectTag obj) content = Ok bs ->
  exists tagged,
    replaceTag obj tagNum = Ok tagged
    /\ ObjectTag tagged = NewTag 2 (Constructed (ObjectTag obj)) tagNum
    /\ Encode tagged
       = EncodeTLV (NewTag 2 (Constructed (ObjectTag obj)) tagNum) content.
Proof.
  intros Hr Hw E Hlen Et.
  pose proof (TLV_roundtrip _ _ _ [] Hr Et Hlen) as D.
  rewrite app_nil_r in D.
  unfold replaceTag. rewrite E, D. cbn [ASN1Value_Tag ASN1Value_Value].
  cbn [Constructed].
  destruct (Constructed (ObjectTag obj)) eqn:Hc.
  - destruct (constructed_content obj bs content (Hw eq_refl) E Hlen Et Hc)
      as (elements & De & Ee).
    rewrite De. simpl bind. eexists. split; [reflexivity|].
    split; [reflexivity|]. rewrite Encode_structured, Ee. reflexivity.
  - eexists. split; [reflexivity|]. split; reflexivity.
Qed.

(** C4.  For a field whose descriptor carries [tag:N] (context tags in
    use), and a marshaled value [obj] whose tag is one the decoder reads
    back and which, when it is constructed, round-trips: with
    [explicit=false] the value's tag is replaced by the context-specific
    tag [N] with the constructed bit and the value octets kept; with
    [explicit=true] the value's whole TLV becomes the content of a
    context-specific constructed [N].  An [int64] field [integer,tag:0]
    holding 42 is emitted as [80 01 2A], and as [A0 03 02 01 2A] when
    explicit, inside the SEQUENCE of the record; both unmarshal to the
    record they came from. *)
Theorem context_tagging (opts : MarshalOptions) (info : fieldInfo)
    (obj : ASN1Object) (bs : list byte) :
  HasTag info = true -> UseContextTags opts = true ->
  tagInRange (ObjectTag obj) ->
  (Constructed (ObjectTag obj) = true -> wfObject obj) ->
  Encode obj = Ok bs -> len bs < 2 ^ 32 ->
  (exists content,
      EncodeTLV (ObjectTag obj) content = Ok bs
      /\ (Explicit info = false ->
          exists tagged,
            applyContextTag opts info obj = Ok tagged
            /\ ObjectTag tagged
               = NewTag 2 (Constructed (ObjectTag obj)) (fiTag info)
            /\ Encode tagged
               = EncodeTLV
                   (NewTag 2 (Constructed (ObjectTag obj)) (fiTag info))
                   content)
      /\ (Explicit info = true ->
          exists tagged,
            applyContextTag opts info obj = Ok tagged
            /\ ObjectTag tagged = NewTag 2 true (fiTag info)
            /\ Encode tagged = EncodeTLV (NewTag 2 true (fiTag info)) bs))
  /\ Marshal msgImplicit = Ok [x30; x03; x80; x01; x2a]
  /\ Marshal msgExplicit = Ok [x30; x05; xa0; x03; x02; x01; x2a]
  /\ Unmarshal [x30; x03; x80; x01; x2a] (zeroValue (typeOf msgImplicit))
     = Ok msgImplicit
  /\ Unmarshal [x30; x05; xa0; x03; x02; x01; x2a]
       (zeroValue (typeOf msgExplicit))
     = Ok msgExplicit.
Proof.
  intros Ht Hu Hr Hw E Hlen. split; [|repeat split; vm_compute; reflexivity].
  destruct (Encode_is_TLV obj bs E) as [content Et].
  exists content. split; [exact Et|]. split.
  - intros Hx. unfold applyContextTag. rewrite Ht, Hu, Hx. simpl.
    apply (replaceTag_spec obj bs content); assumption.
  - intros Hx. unfold applyContextTag. rewrite Ht, Hu, Hx. simpl.
    eexists. split; [reflexivity|]. split; [reflexivity|].
    change (Add (NewStructured (NewContextSpecificTag (fiTag info) true)) obj)
      with (OStructured (NewContextSpecificTag (fiTag info) true) [obj]).
    rewrite Encode_structured. simpl encodeElements. rewrite E. reflexivity.
Qed.

End ContextTagging.

(** ** Optional fields *)

Section OptionalFields.
Context `{GoTimeLib}.

(** C5.  In the field loop of [unmarshalStruct], for an exported field
    whose descriptor carries a context tag (context tags in use) and with a
    child under the cursor: when the child's tag is context-specific with
    the descriptor's number, the child is consumed (the cursor advances by
    one) and, unwrapped or with its tag restored, fed to the field; when it
    is not and the field is optional, the field is left as it is and the
    cursor stays; when it is not and the field is required, unmarshaling
    fails.  On marshaling, a nil optional pointer field adds nothing to the
    SEQUENCE.  So the record of S7 is emitted as [30 03 81 01 07] and read
    back with its nil field nil, while a record whose required field is
    tagged [0] does not unmarshal from those octets. *)
Theorem optional_field_handling (opts : MarshalOptions)
    (fieldType : structField) (info : fieldInfo)
    (elements : list ASN1Object) (elementIndex : Z) :
  IsExported fieldType = true ->
  bytes_eqb (asn1Tag fieldType) (B "-") = false ->
  fieldDescriptor fieldType = Ok info ->
  HasTag info = true -> UseContextTags opts = true ->
  0 <= elementIndex < len elements ->
  let element := nth (Z.to_nat elementIndex) elements ONull in
  let matches :=
    (Class (ObjectTag element) =? 2)
    && (Number (ObjectTag element) =? fiTag info) in
  let step := selectElement opts elements elementIndex fieldType in
  (matches = true ->
   step = (fed <- (if Explicit info
                   then Ok match element with
                           | OStructured _ [inner] => inner
                           | _ => element
                           end
                   else restoreTag element (fiType info)) ;;
           Ok (FeedField fed (elementIndex + 1))))
  /\ (matches = false -> Optional info = true -> step = Ok LeaveField)
  /\ (matches = false -> Optional info = false ->
      step = Err "field: expected tag [CONTEXT], got another")
  /\ (forall rec t rest field current done,
         step = Ok LeaveField ->
         unmarshalStruct_fields opts rec elements ((fieldType, t) :: rest)
           ((fieldType, field) :: current) elementIndex done
         = unmarshalStruct_fields opts rec elements rest current elementIndex
             (done ++ [(fieldType, field)]))
  /\ (forall rec t rest field current done fed next,
         step = Ok (FeedField fed next) ->
         unmarshalStruct_fields opts rec elements ((fieldType, t) :: rest)
           ((fieldType, field) :: current) elementIndex done
         = match wrapErr "field: " (rec t fed field) with
           | Ok field' =>
               unmarshalStruct_fields opts rec elements rest current next
                 (done ++ [(fieldType, field')])
           | Err e => Err e
           | Panic p => Panic p
           end)
  /\ (forall rec t rest current done e,
         step = Err e ->
         unmarshalStruct_fields opts rec elements ((fieldType, t) :: rest)
           current elementIndex done = Err e)
  /\ (forall mv mtv t rest seq,
         Optional info = true ->
         marshalStruct_fields opts mv mtv ((fieldType, VPtr t None) :: rest)
           seq
         = marshalStruct_fields opts mv mtv rest seq)
  /\ Marshal msgOptional = Ok [x30; x03; x81; x01; x07]
  /\ Unmarshal [x30; x03; x81; x01; x07] (zeroValue (typeOf msgOptional))
     = Ok msgOptional
  /\ Unmarshal [x30; x03; x81; x01; x07] (zeroValue (typeOf msgImplicit))
     = Err "field: expected tag [CONTEXT], got another".
Proof.
  intros Hex Hdash Hinfo Ht Hu Hidx element matches step.
  assert (Hstep : step
                  = if matches then
                      if Explicit info then
                        match element with
                        | OStructured _ [inner] =>
                            Ok (FeedField inner (elementIndex + 1))
                        | _ => Ok (FeedField element (elementIndex + 1))
                        end
                      else
                        element' <- restoreTag element (fiType info) ;;
                        Ok (FeedField element' (elementIndex + 1))
                    else if Optional info then Ok LeaveField
                         else Err "field: expected tag [CONTEXT], got another").
  { unfold step, selectElement. rewrite Hex, Hdash, Hinfo. simpl negb.
    cbv iota. simpl bind.
    assert (E : (elementIndex >=? len elements) = false) by lia.
    rewrite E, Ht, Hu. reflexivity. }
  split; [|split; [|split; [|split; [|split; [|split; [|split]]]]]].
  - intros Hm. rewrite Hstep, Hm. destruct (Explicit info); [|reflexivity].
    destruct element as [|tag [|inner [|? ?]]| | | | | | | | | | | | |];
      reflexivity.
  - intros Hm Ho. now rewrite Hstep, Hm, Ho.
  - intros Hm Ho. now rewrite Hstep, Hm, Ho.
  - intros rec t rest fld current done E. cbn [unmarshalStruct_fields].
    fold step. rewrite E. reflexivity.
  - intros rec t rest fld current done fed next E.
    cbn [unmarshalStruct_fields]. fold step. rewrite E. reflexivity.
  - intros rec t rest current done e E. cbn [unmarshalStruct_fields].
    fold step. rewrite E. reflexivity.
  - intros mv mtv t rest seq Ho. cbn [marshalStruct_fields].
    rewrite Hex, Hdash, Hinfo. simpl. now rewrite Ho.
  - repeat split; vm_compute; reflexivity.
Qed.

End OptionalFields.

(* ================================================================== *)
(** * More about the TLV codec *)
(* ================================================================== *)

(** [EncodeTLV] succeeds on every tag with a non-negative number. *)
Lemma EncodeTLV_total (t : Tag) (value : list byte) :
  0 <= Number t -> exists bs, EncodeTLV t value = Ok bs.
Proof.
  intros Hn. unfold EncodeTLV, EncodeTag, EncodeLength.
  assert (E : (Number t <? 0) = false) by lia. rewrite E.
  assert (E' : (len value <? 0) = false)
    by (pose proof (len_nonneg value); lia).
  rewrite E'.
  destruct (Number t <=? 30); simpl;
    destruct (len value <? 128); simpl; eexists; reflexivity.
Qed.

(** A length below [2^32] takes one to five octets. *)
Lemma EncodeLength_len_le (n : Z) (bs : list byte) :
  0 <= n < 2 ^ 32 -> EncodeLength n = Ok bs -> 1 <= len bs <= 5.
Proof.
  intros Hn E. destruct (Z.ltb_spec n 128) as [Hs|Hl].
  - rewrite EncodeLength_short in E by lia. apply Ok_inj in E.
    subst bs. change (len [byte_of_Z n]) with 1. lia.
  - rewrite EncodeLength_long in E by lia. apply Ok_inj in E.
    subst bs. rewrite len_cons.
    pose proof (digits_len_le 8 n 4 ltac:(lia) ltac:(simpl; lia)
                  ltac:(lia)).
    pose proof (len_nonneg (digits 8 n)). lia.
Qed.

(** X1.  [EncodeTLV] fails exactly for a negative tag number.  For a tag
    with class in [0..3] and a number below [2^32], and an encoding shorter
    than [2^32] octets, [DecodeTLV] reads the tag and the value back from
    the encoding, whatever follows it, and consumes exactly the encoding. *)
Theorem EncodeTLV_DecodeTLV (t : Tag) (value : list byte) :
  (Number t < 0 ->
   EncodeTLV t value
   = Err "failed to encode tag: tag number cannot be negative")
  /\ (0 <= Number t ->
      exists bs,
        EncodeTLV t value = Ok bs
        /\ len value + 2 <= len bs
        /\ (0 <= Class t <= 3 -> Number t < 2 ^ 32 -> len bs < 2 ^ 32 ->
            forall rest,
              DecodeTLV (bs ++ rest) = Ok (NewASN1Value t value, len bs))).
Proof.
  split.
  - intros Hn. unfold EncodeTLV, EncodeTag.
    assert (E : (Number t <? 0) = true) by lia. now rewrite E.
  - intros Hn.
    destruct (EncodeTLV_total t value Hn) as [bs E]. exists bs. split; [exact E|].
    split; [exact (EncodeTLV_len _ _ _ E)|].
    intros Hc Hb Hlen rest.
    apply TLV_roundtrip; [split; lia | exact E | exact Hlen].
Qed.

(** X2.  [EncodeLength] rejects a negative length.  A length below [2^32]
    is emitted in at most five octets and [DecodeLength] reads it back,
    whatever follows, consuming exactly those octets.  A length from [2^32]
    up to the largest [int] is emitted too, but [DecodeLength] rejects what
    was emitted. *)
Theorem EncodeLength_DecodeLength_agree (n : Z) :
  (n < 0 -> EncodeLength n = Err "length cannot be negative")
  /\ (0 <= n < 2 ^ 32 ->
      exists bs,
        EncodeLength n = Ok bs
        /\ 1 <= len bs <= 5
        /\ forall rest, DecodeLength (bs ++ rest) = Ok (n, len bs))
  /\ (2 ^ 32 <= n < 2 ^ 63 ->
      exists bs,
        EncodeLength n = Ok bs
        /\ forall rest, DecodeLength (bs ++ rest) = Err "length too large").
Proof.
  split; [|split].
  - intros Hn. unfold EncodeLength.
    assert (E : (n <? 0) = true) by lia. now rewrite E.
  - intros Hn.
    destruct (DecodeLength_EncodeLength n [] Hn) as (bs & E & _).
    exists bs. split; [exact E|]. split.
    + exact (EncodeLength_len_le n bs Hn E).
    + intros rest.
      destruct (DecodeLength_EncodeLength n rest Hn) as (bs' & E' & D).
      rewrite E in E'. apply Ok_inj in E'. subst bs'. exact D.
  - intros Hn. rewrite EncodeLength_long by lia. eexists.
    split; [reflexivity|]. intros rest.
    pose proof (digits_len 8 n ltac:(lia) ltac:(lia)) as [Hlo Hhi].
    assert (H5 : 5 <= len (digits 8 n)).
    { destruct (Z.le_gt_cases 5 (len (digits 8 n))) as [|Hlt]; [assumption|].
      exfalso.
      assert (2 ^ (8 * len (digits 8 n)) <= 2 ^ 32)
        by (apply Z.pow_le_mono_r; lia).
      lia. }
    assert (H8 : len (digits 8 n) <= 8)
      by (apply digits_len_le; simpl; lia).
    set (k := len (digits 8 n)) in *. simpl app.
    assert (Hk : k = 5 \/ k = 6 \/ k = 7 \/ k = 8) by lia.
    destruct Hk as [-> | [-> | [-> | ->]]]; reflexivity.
Qed.

(** ** What [DecodeTLV] reads *)

Lemma firstn_cons_eq {A} n (a : A) l l' :
  (0 < n)%nat -> firstn n l' = firstn n (a :: l) ->
  exists t, l' = a :: t /\ firstn (n - 1) t = firstn (n - 1) l.
Proof.
  intros Hn E. destruct n as [|n]; [lia|].
  destruct l' as [|a' t]; simpl in E; [discriminate|].
  injection E as -> E. exists t. split; [reflexivity|].
  now replace (S n - 1)%nat with n by lia.
Qed.

Lemma firstn_firstn_le {A} (a b : nat) (l l' : list A) :
  (a <= b)%nat -> firstn b l' = firstn b l -> firstn a l' = firstn a l.
Proof.
  intros Hab E.
  rewrite <- (Nat.min_l a b Hab), <- !firstn_firstn, E. reflexivity.
Qed.

Lemma DecodeTag_loop_offset l : forall a off r o,
  DecodeTag_loop l a off = Ok (r, o) -> off < o.
Proof.
  induction l as [|b rest IH]; intros a off r o E; [discriminate|].
  rewrite DecodeTag_loop_cons in E.
  destruct (a >? tagLimit); [discriminate|].
  destruct (Z_of_byte (band b x80) =? 0).
  - apply Ok_pair_inj in E. lia.
  - apply IH in E. lia.
Qed.

Lemma DecodeTag_loop_agree l : forall a off r o l',
  DecodeTag_loop l a off = Ok (r, o) ->
  firstn (Z.to_nat (o - off)) l' = firstn (Z.to_nat (o - off)) l ->
  DecodeTag_loop l' a off = Ok (r, o).
Proof.
  induction l as [|b rest IH]; intros a off r o l' E F; [discriminate|].
  pose proof (DecodeTag_loop_offset _ _ _ _ _ E) as Ho.
  assert (Hp : (0 < Z.to_nat (o - off))%nat) by lia.
  destruct (firstn_cons_eq _ _ _ _ Hp F) as (t & -> & F').
  rewrite DecodeTag_loop_cons in E. rewrite DecodeTag_loop_cons.
  destruct (a >? tagLimit); [discriminate|].
  destruct (Z_of_byte (band b x80) =? 0); [exact E|].
  apply IH; [exact E|].
  replace (Z.to_nat (o - (off + 1))) with (Z.to_nat (o - off) - 1)%nat by lia.
  exact F'.
Qed.

Lemma DecodeTag_agree data t n data' :
  DecodeTag data = Ok (t, n) ->
  firstn (Z.to_nat n) data' = firstn (Z.to_nat n) data ->
  DecodeTag data' = Ok (t, n).
Proof.
  intros E F. pose proof (DecodeTag_consumed _ _ _ E) as Hn.
  destruct data as [|b rest]; [discriminate|].
  assert (Hp : (0 < Z.to_nat n)%nat) by lia.
  destruct (firstn_cons_eq _ _ _ _ Hp F) as (t' & -> & F').
  unfold DecodeTag in *.
  destruct (negb (Z_of_byte (band b x1f) =? 31)); [exact E|].
  destruct (len (b :: rest) <? 2) eqn:E2; [discriminate|].
  unfold slice_from in *. simpl skipn in *.
  destruct (DecodeTag_loop rest 0 1) as [[r o]| |] eqn:L; try discriminate.
  simpl in E. apply Ok_pair_inj in E. destruct E as [<- <-].
  pose proof (DecodeTag_loop_offset _ _ _ _ _ L) as Ho.
  assert (L' : DecodeTag_loop t' 0 1 = Ok (r, o)).
  { apply (DecodeTag_loop_agree rest); [exact L|].
    replace (Z.to_nat (o - 1)) with (Z.to_nat o - 1)%nat by lia. exact F'. }
  assert (E2' : (len (b :: t') <? 2) = false).
  { destruct t'; [discriminate L'|]. rewrite !len_cons.
    pose proof (len_nonneg t'). lia. }
  rewrite E2', L'. reflexivity.
Qed.

Lemma slice_agree {A} (l l' : list A) a b n :
  0 <= a -> a <= b -> b <= n ->
  firstn (Z.to_nat n) l' = firstn (Z.to_nat n) l ->
  slice l' a b = slice l a b.
Proof.
  intros Ha Hab Hbn F. unfold slice.
  assert (G : firstn (Z.to_nat b) l' = firstn (Z.to_nat b) l)
    by (apply (firstn_firstn_le _ (Z.to_nat n)); [lia | exact F]).
  rewrite !firstn_skipn_comm.
  replace (Z.to_nat a + Z.to_nat (b - a))%nat with (Z.to_nat b) by lia.
  now rewrite G.
Qed.

Lemma firstn_all_len {A} (l l' : list A) n :
  firstn n l' = firstn n l -> (n <= List.length l)%nat ->
  (n <= List.length l')%nat.
Proof.
  intros F Hn. apply (f_equal (@List.length A)) in F.
  rewrite !length_firstn in F. lia.
Qed.

Lemma DecodeLength_agree data l n data' :
  DecodeLength data = Ok (l, n) ->
  firstn (Z.to_nat n) data' = firstn (Z.to_nat n) data ->
  DecodeLength data' = Ok (l, n).
Proof.
  intros E F. pose proof (DecodeLength_consumed _ _ _ E) as [Hn _].
  destruct data as [|b rest]; [discriminate|].
  assert (Hp : (0 < Z.to_nat n)%nat) by lia.
  destruct (firstn_cons_eq _ _ _ _ Hp F) as (t' & -> & F').
  destruct (Z.ltb_spec (Z_of_byte b) 128) as [Hs|Hl].
  - rewrite DecodeLength_short in * by exact Hs. exact E.
  - rewrite DecodeLength_long in * by exact Hl. cbv zeta in *.
    destruct (Z_of_byte b - 128 =? 0); [discriminate|].
    destruct (Z_of_byte b - 128 >? 4); [discriminate|].
    destruct (len (b :: rest) <? 1 + (Z_of_byte b - 128)) eqn:E1;
      [discriminate|].
    apply Ok_pair_inj in E. destruct E as [<- <-].
    assert (Hlen : (Z.to_nat (1 + (Z_of_byte b - 128))
                    <= List.length (b :: t'))%nat).
    { apply (firstn_all_len (b :: rest)); [exact F|].
      unfold len in E1. lia. }
    assert (E1' : (len (b :: t') <? 1 + (Z_of_byte b - 128)) = false)
      by (unfold len; lia).
    rewrite E1'.
    rewrite (slice_agree (b :: rest) (b :: t') 1 (1 + (Z_of_byte b - 128))
               (1 + (Z_of_byte b - 128))) by (try lia; exact F).
    reflexivity.
Qed.

Lemma firstn_skipn_agree {A} (l l' : list A) a n :
  (a <= n)%nat -> firstn n l' = firstn n l ->
  firstn (n - a) (skipn a l') = firstn (n - a) (skipn a l).
Proof.
  intros Han F.
  rewrite !firstn_skipn_comm.
  replace (a + (n - a))%nat with n by lia. now rewrite F.
Qed.

Lemma DecodeTLV_agree (data data' : list byte) (v : ASN1Value) (n : Z) :
  DecodeTLV data = Ok (v, n) ->
  firstn (Z.to_nat n) data' = firstn (Z.to_nat n) data ->
  DecodeTLV data' = Ok (v, n).
Proof.
  intros D. pose proof (DecodeTLV_consumed _ _ _ D) as Hc.
  destruct (DecodeTLV_inv _ _ _ D)
    as (tag & tagLen & length & lengthLen & Dt & Dl & Ht & Hl & Hn & Hfit
        & -> & ->).
  intros F. rewrite DecodeTLV_unfold.
  assert (Hl' : (Z.to_nat (tagLen + lengthLen + length)
                 <= List.length data')%nat).
  { apply (firstn_all_len data); [exact F | unfold len in Hfit; lia]. }
  assert (E0 : (len data' =? 0) = false) by (unfold len; lia).
  rewrite E0.
  rewrite (DecodeTag_agree data tag tagLen data' Dt)
    by (apply (firstn_firstn_le _ (Z.to_nat (tagLen + lengthLen + length)));
        [lia | exact F]).
  assert (E1 : (tagLen >=? len data') = false) by (unfold len; lia).
  rewrite E1.
  rewrite (DecodeLength_agree (slice_from data tagLen) length lengthLen).
  - assert (E2 : (tagLen + lengthLen + length >? len data') = false)
      by (unfold len; lia).
    rewrite E2.
    rewrite (slice_agree data data' (tagLen + lengthLen)
               (tagLen + lengthLen + length) (tagLen + lengthLen + length))
      by (try lia; exact F).
    reflexivity.
  - exact Dl.
  - unfold slice_from.
    pose proof (firstn_skipn_agree data data' (Z.to_nat tagLen)
                  (Z.to_nat (tagLen + lengthLen + length))
                  ltac:(lia) F) as G.
    apply (firstn_firstn_le _ (Z.to_nat (tagLen + lengthLen + length)
                               - Z.to_nat tagLen)); [lia | exact G].
Qed.

(** X3.  What [DecodeTLV] accepts, it reads from a prefix of the buffer: at
    least two octets and no more than the buffer holds are consumed, the
    value is the tail of the consumed octets, and any buffer that starts
    with the same consumed octets decodes to the same value and count. *)
Theorem DecodeTLV_reads_a_prefix (data : list byte) (v : ASN1Value) (n : Z) :
  DecodeTLV data = Ok (v, n) ->
  2 <= n <= len data
  /\ len (ASN1Value_Value v) + 2 <= n
  /\ ASN1Value_Value v = slice data (n - len (ASN1Value_Value v)) n
  /\ forall data',
       firstn (Z.to_nat n) data' = firstn (Z.to_nat n) data ->
       DecodeTLV data' = Ok (v, n).
Proof.
  intros D. pose proof (DecodeTLV_consumed _ _ _ D) as Hc.
  pose proof (DecodeTLV_value_length _ _ _ D) as Hv.
  split; [exact Hc|]. split; [exact Hv|].
  split; [|intros data' F; exact (DecodeTLV_agree data data' v n D F)].
  destruct (DecodeTLV_inv _ _ _ D)
    as (tag & tagLen & length & lengthLen & Dt & Dl & Ht & Hl & Hn & Hfit
        & -> & ->).
  cbn [ASN1Value_Value] in *.
  assert (Hlen : len (slice data (tagLen + lengthLen)
                        (tagLen + lengthLen + length)) = length).
  { rewrite len_slice by lia. lia. }
  rewrite Hlen. f_equal. lia.
Qed.

(** ** Batch decoding of what was encoded *)

Section BatchRoundTrip.
Context `{GoTimeLib}.

Lemma DecodeAll_loop_encoded (vs : list ASN1Value) (encs : list (list byte)) :
  Forall2 (fun v b => forall rest,
               DecodeTLV (b ++ rest) = Ok (v, len b)) vs encs ->
  forall fuel prefix acc,
    (List.length encs <= fuel)%nat ->
    DecodeAll_loop fuel (prefix ++ List.concat encs) (len prefix) acc
    = Some (Ok (acc ++ map OValue vs)).
Proof.
  intros HF. induction HF as [|v b vs encs Hb HF IH];
    intros fuel prefix acc Hf.
  - simpl List.concat. rewrite !app_nil_r.
    destruct fuel; simpl; rewrite Z.ltb_irrefl; reflexivity.
  - destruct fuel as [|fuel]; [simpl in Hf; lia|].
    simpl List.concat. pose proof (Hb (List.concat encs)) as D.
    pose proof (DecodeTLV_consumed _ _ _ D) as Hc.
    simpl DecodeAll_loop.
    assert (E : (len prefix <? len (prefix ++ b ++ List.concat encs)) = true).
    { rewrite !len_app. pose proof (len_nonneg (List.concat encs)). lia. }
    rewrite E, slice_from_app, D.
    replace (prefix ++ b ++ List.concat encs)
      with ((prefix ++ b) ++ List.concat encs) by (now rewrite app_assoc).
    rewrite <- len_app. rewrite IH by (simpl in Hf; lia).
    simpl map. now rewrite <- app_assoc.
Qed.

(** X4.  [DecodeAll] undoes the concatenation of encodings: when raw
    values with tags in the decoder's range are encoded one after the other
    (as the elements of a SEQUENCE are), each in fewer than [2^32] octets,
    [DecodeAll] of the concatenation returns those values, in order. *)
Theorem DecodeAll_concat (vs : list ASN1Value) (bs : list byte) :
  Forall (fun v => tagInRange (ASN1Value_Tag v)) vs ->
  encodeElements (map OValue vs) [] = Ok bs ->
  len bs < 2 ^ 32 ->
  DecodeAll bs = Ok (map OValue vs).
Proof.
  intros Hr E Hlen.
  destruct (encodeElements_inv _ _ _ E) as (encs & HF & ->).
  simpl app in *.
  assert (HD : Forall2 (fun v b => forall rest,
                            DecodeTLV (b ++ rest) = Ok (v, len b)) vs encs).
  { clear E. revert encs HF Hlen.
    induction Hr as [|v vs Hv Hr IH]; intros encs HF Hlen.
    - inversion HF. constructor.
    - inversion HF as [|o b os encs' Eb HF' Eo]. subst.
      simpl List.concat in Hlen. rewrite len_app in Hlen.
      pose proof (len_nonneg b). pose proof (len_nonneg (List.concat encs')).
      constructor.
      + intros rest. destruct v as [t value]. simpl in Eb, Hv.
        apply TLV_roundtrip; [exact Hv | exact Eb | lia].
      + apply IH; [exact HF' | lia]. }
  unfold DecodeAll.
  pose proof (DecodeAll_loop_encoded vs encs HD
                (List.length (List.concat encs)) [] []) as L.
  change (len (@nil byte)) with 0 in L. cbn [app] in L.
  rewrite L; [reflexivity|].
  assert (Hall : Forall (fun b => 1 <= len b) encs).
  { clear - HD. induction HD as [|v b vs encs Hb HD IH]; constructor; auto.
    pose proof (Hb []) as D. apply DecodeTLV_consumed in D.
    rewrite app_nil_r in D. lia. }
  apply concat_length_ge in Hall. unfold len in Hall. lia.
Qed.

End BatchRoundTrip.

(* ================================================================== *)
(** * More about INTEGER and ENUMERATED *)
(* ================================================================== *)

Lemma big_BitLen_spec x :
  x <> 0 -> 0 < big_BitLen x /\ 2 ^ (big_BitLen x - 1) <= Z.abs x < 2 ^ big_BitLen x.
Proof.
  intros Hx. unfold big_BitLen.
  assert (E : (x =? 0) = false) by lia. rewrite E.
  pose proof (Z.log2_nonneg (Z.abs x)).
  pose proof (Z.log2_spec (Z.abs x) ltac:(lia)) as [Hl Hu].
  replace (Z.log2 (Z.abs x) + 1 - 1) with (Z.log2 (Z.abs x)) by lia.
  replace (Z.log2 (Z.abs x) + 1) with (Z.succ (Z.log2 (Z.abs x))) by lia.
  split; [lia|]. split; assumption.
Qed.

(** Every integer is decoded back from the octets the ENUMERATED encoder
    emits. *)
Lemma DecodeIntegerValue_encode_enumerated value :
  DecodeIntegerValue (encodeIntegerValue value) = Ok value.
Proof.
  unfold encodeIntegerValue.
  destruct (Z.sgn value =? 0) eqn:E0.
  - assert (value = 0) by lia. subst. reflexivity.
  - destruct (Z.sgn value <? 0) eqn:En.
    + assert (Hv : value < 0) by lia. cbv zeta.
      destruct (big_BitLen_spec value ltac:(lia)) as (Hb & _ & Hu).
      set (bitLen := big_BitLen value) in *.
      assert (Hm : 8 * ((bitLen + 1 + 7) / 8) >= bitLen + 1).
      { pose proof (Z.div_mod (bitLen + 1 + 7) 8 ltac:(lia)).
        pose proof (Z.mod_pos_bound (bitLen + 1 + 7) 8 ltac:(lia)). lia. }
      apply DecodeIntegerValue_twosComp.
      * exact Hv.
      * apply Z.div_str_pos. lia.
      * apply Z.le_trans with (2 ^ bitLen); [lia|].
        apply Z.pow_le_mono_r; lia.
    + assert (Hv : 0 < value) by lia.
      rewrite big_Bytes_digits, Z.abs_eq by lia.
      pose proof (digits_value 8 value ltac:(lia) ltac:(lia)) as Hval.
      pose proof (digits_nonempty 8 value ltac:(lia) Hv) as Hne.
      destruct (digits 8 value) as [|d l] eqn:Ed; [congruence|].
      simpl hd. rewrite band_x80_zero.
      assert (Hlen : (len (d :: l) >? 0) = true).
      { rewrite len_cons. pose proof (len_nonneg l). lia. }
      rewrite Hlen. simpl andb.
      destruct (Z_of_byte d <? 128) eqn:Ed'.
      * simpl negb. cbv iota. rewrite DecodeIntegerValue_cons, Ed', Hval.
        reflexivity.
      * simpl negb. cbv iota. simpl app. rewrite DecodeIntegerValue_cons.
        change (Z_of_byte x00 <? 128) with true. cbv iota.
        change (beValue 8 (x00 :: d :: l) 0) with (beValue 8 (d :: l) 0).
        now rewrite Hval.
Qed.

(** X5.  Whatever the integer, however large, [DecodeIntegerValue] reads
    it back from the value octets of the INTEGER encoder and from those of
    the ENUMERATED encoder. *)
Theorem integer_value_roundtrip (value : Z) :
  DecodeIntegerValue (ASN1Integer_encodeIntegerValue value) = Ok value
  /\ DecodeIntegerValue (encodeIntegerValue value) = Ok value.
Proof.
  split.
  - apply DecodeIntegerValue_encode.
  - apply DecodeIntegerValue_encode_enumerated.
Qed.

Lemma Forall_byte_small (l : list byte) :
  Forall (fun d => Z_of_byte d < 2 ^ 8) l.
Proof.
  induction l as [|b l IH]; constructor; [|exact IH].
  pose proof (Z_of_byte_range b). change (2 ^ 8) with 256. lia.
Qed.

(** X6.  [DecodeIntegerValue] rejects the empty value and reads any other
    as a two's-complement number: the result lies in the range of that many
    octets and is congruent, modulo [2^(8 * length)], to the octets read as
    an unsigned big-endian number. *)
Theorem DecodeIntegerValue_twos_complement (data : list byte) :
  (data = [] -> DecodeIntegerValue data = Err "integer value cannot be empty")
  /\ (data <> [] ->
      exists value,
        DecodeIntegerValue data = Ok value
        /\ - 2 ^ (8 * len data - 1) <= value < 2 ^ (8 * len data - 1)
        /\ value mod 2 ^ (8 * len data) = big_SetBytes data).
Proof.
  split; [intros ->; reflexivity|].
  intros Hne. destruct data as [|b0 rest]; [congruence|].
  rewrite DecodeIntegerValue_cons, big_SetBytes_beValue.
  pose proof (beValue_bound 8 (b0 :: rest) ltac:(lia)
                (Forall_byte_small (b0 :: rest))) as [Hlo Hhi].
  assert (Hn : 0 < len (b0 :: rest))
    by (rewrite len_cons; pose proof (len_nonneg rest); lia).
  set (n := len (b0 :: rest)) in *.
  set (x := beValue 8 (b0 :: rest) 0) in *.
  assert (Hpow : 2 ^ (8 * n) = 2 * 2 ^ (8 * n - 1)).
  { rewrite <- Z.pow_succ_r by lia. f_equal. lia. }
  assert (Hpos : 0 < 2 ^ (8 * n - 1)) by (apply Z.pow_pos_nonneg; lia).
  destruct (Z_of_byte b0 <? 128) eqn:E.
  - exists x. split; [reflexivity|].
    assert (x < 2 ^ (8 * n - 1)).
    { destruct (Z.lt_ge_cases x (2 ^ (8 * n - 1))) as [|Hge]; [assumption|].
      pose proof (beValue_hd_high b0 rest Hge). lia. }
    split; [lia|]. apply Z.mod_small. lia.
  - exists (x - 2 ^ (8 * n)). split; [reflexivity|].
    assert (2 ^ (8 * n - 1) <= x).
    { destruct (Z.lt_ge_cases x (2 ^ (8 * n - 1))) as [Hlt|]; [|assumption].
      pose proof (beValue_hd_low b0 rest Hlt). lia. }
    split; [lia|].
    symmetry. apply Z.mod_unique with (q := -1); lia.
Qed.

(** ** How far the encoders are from minimal *)

Lemma beValue_two b0 b1 l :
  beValue 8 (b0 :: b1 :: l) 0
  = (Z_of_byte b0 * 256 + Z_of_byte b1) * 2 ^ (8 * len l) + beValue 8 l 0.
Proof.
  change (b0 :: b1 :: l) with ([b0; b1] ++ l).
  rewrite beValue_app, beValue_linear by lia. f_equal.
Qed.

(** The two's complement of a negative [value] on [byteLen >= 2] octets
    is minimal unless [value] fits in one octet less. *)
Lemma twosComp_minimal value byteLen :
  value < 0 -> 2 <= byteLen -> - value <= 2 ^ (8 * byteLen - 1) ->
  minimalTwosComplement
    (padFF byteLen (big_Bytes (Z.shiftl 1 (byteLen * 8) + value)))
  = negb (- value <=? 2 ^ (8 * byteLen - 9)).
Proof.
  intros Hv Hb Hfit. rewrite Z.shiftl_1_l.
  replace (byteLen * 8) with (8 * byteLen) by lia.
  set (x := 2 ^ (8 * byteLen) + value).
  assert (Hpow : 2 ^ (8 * byteLen) = 2 * 2 ^ (8 * byteLen - 1)).
  { rewrite <- Z.pow_succ_r by lia. f_equal. lia. }
  assert (Hx : 2 ^ (8 * byteLen - 1) <= x < 2 ^ (8 * byteLen))
    by (unfold x; lia).
  assert (Hxpos : 0 < x).
  { assert (0 < 2 ^ (8 * byteLen - 1)) by (apply Z.pow_pos_nonneg; lia). lia. }
  assert (Hlen : len (digits 8 x) = byteLen).
  { apply digits_len_exact; [lia|]. split; [|lia].
    apply Z.le_trans with (2 ^ (8 * byteLen - 1)); [|lia].
    apply Z.pow_le_mono_r; lia. }
  rewrite big_Bytes_digits, Z.abs_eq by lia.
  unfold padFF. rewrite Hlen, Z.sub_diag. simpl repeat. simpl app.
  pose proof (digits_value 8 x ltac:(lia) ltac:(lia)) as Hval.
  destruct (digits 8 x) as [|b0 [|b1 l]] eqn:Ed.
  - change (len (@nil byte)) with 0 in Hlen. lia.
  - change (len [b0]) with 1 in Hlen. lia.
  - rewrite !len_cons in Hlen.
    assert (Hd : 128 <= Z_of_byte b0).
    { apply (beValue_hd_high b0 (b1 :: l)). rewrite Hval, !len_cons.
      replace (1 + (1 + len l)) with byteLen by lia. lia. }
    rewrite beValue_two in Hval.
    pose proof (beValue_bound 8 l ltac:(lia) (Forall_byte_small l))
      as [Hr0 Hr1].
    set (P := 2 ^ (8 * len l)) in *.
    set (r := beValue 8 l 0) in *.
    assert (HP : 0 < P) by (apply Z.pow_pos_nonneg;
                            pose proof (len_nonneg l); lia).
    assert (H1 : 2 ^ (8 * byteLen) = 65536 * P).
    { unfold P. replace (8 * byteLen) with (16 + 8 * len l) by lia.
      rewrite Z.pow_add_r by (pose proof (len_nonneg l); lia).
      reflexivity. }
    assert (H2 : 2 ^ (8 * byteLen - 9) = 128 * P).
    { unfold P. replace (8 * byteLen - 9) with (7 + 8 * len l) by lia.
      rewrite Z.pow_add_r by (pose proof (len_nonneg l); lia).
      reflexivity. }
    pose proof (Z_of_byte_range b0). pose proof (Z_of_byte_range b1).
    unfold minimalTwosComplement.
    assert (E0 : (Z_of_byte b0 =? 0) = false) by lia. rewrite E0.
    cbn [andb negb].
    rewrite H2. unfold x in Hval. rewrite H1 in Hval.
    destruct (- value <=? 128 * P) eqn:Ec.
    + assert (Hq : 65408 <= Z_of_byte b0 * 256 + Z_of_byte b1) by nia.
      assert (Ea : (Z_of_byte b0 =? 255) = true) by lia.
      assert (Eb : (128 <=? Z_of_byte b1) = true) by lia.
      now rewrite Ea, Eb.
    + assert (Hq : Z_of_byte b0 * 256 + Z_of_byte b1 < 65408) by nia.
      destruct (Z_of_byte b0 =? 255) eqn:Ea; [|reflexivity].
      assert (Eb : (128 <=? Z_of_byte b1) = false) by lia.
      now rewrite Eb.
Qed.

Lemma positive_encoding_minimal value :
  0 < value ->
  minimalTwosComplement
    (let bytes := digits 8 value in
     if (len bytes >? 0) && negb (Z_of_byte (band (hd x00 bytes) x80) =? 0)
     then [x00] ++ bytes else bytes) = true.
Proof.
  intros Hv. cbv zeta.
  pose proof (digits_hd 8 value ltac:(lia) Hv) as Hhd.
  pose proof (digits_nonempty 8 value ltac:(lia) Hv) as Hne.
  destruct (digits 8 value) as [|d l] eqn:Ed; [congruence|].
  simpl hd in *. rewrite band_x80_zero.
  assert (Hlen : (len (d :: l) >? 0) = true).
  { rewrite len_cons. pose proof (len_nonneg l). lia. }
  rewrite Hlen. simpl andb.
  destruct (Z_of_byte d <? 128) eqn:E; simpl negb; cbv iota.
  - destruct l as [|d1 l]; [reflexivity|]. unfold minimalTwosComplement.
    assert (E0 : (Z_of_byte d =? 0) = false) by lia.
    assert (E1 : (Z_of_byte d =? 255) = false) by lia.
    now rewrite E0, E1.
  - simpl app. unfold minimalTwosComplement.
    change (Z_of_byte x00 =? 0) with true.
    change (Z_of_byte x00 =? 255) with false. rewrite E. reflexivity.
Qed.

Lemma pow2_8k_minus_1 k : 1 <= k -> 0 < 2 ^ (8 * k - 1).
Proof. intros Hk. apply Z.pow_pos_nonneg; lia. Qed.

Lemma big_BitLen_pow2 e : 0 <= e -> big_BitLen (- 2 ^ e) = e + 1.
Proof.
  intros He. unfold big_BitLen.
  assert (0 < 2 ^ e) by (apply Z.pow_pos_nonneg; lia).
  assert (E : (- 2 ^ e =? 0) = false) by lia. rewrite E.
  rewrite Z.abs_opp, Z.abs_eq by lia. now rewrite Z.log2_pow2.
Qed.

(** The outcome of the length computation of the INTEGER encoder. *)
Lemma integer_byteLen L :
  0 < L ->
  let bitLen := if L mod 8 =? 0 then L + 8 else (L / 8 + 1) * 8 in
  bitLen / 8 = L / 8 + 1.
Proof.
  intros HL. cbv zeta. destruct (L mod 8 =? 0) eqn:E.
  - apply Z.eqb_eq in E.
    replace (L + 8) with (L + 1 * 8) by lia.
    rewrite Z.div_add by lia. reflexivity.
  - rewrite Z.div_mul by lia. reflexivity.
Qed.

(** X7.  The value octets of the INTEGER encoder are minimal two's
    complement except for the numbers [-2^(8k-1)] with [k >= 2]
    ([-32768], [-8388608], ...), which get one octet [FF] too many.  The
    ENUMERATED encoder has the same exception, and [-128] in addition. *)
Theorem integer_encoders_minimal_except (value : Z) :
  (minimalTwosComplement (ASN1Integer_encodeIntegerValue value) = false
   <-> exists k, 2 <= k /\ value = - 2 ^ (8 * k - 1))
  /\ (minimalTwosComplement (encodeIntegerValue value) = false
      <-> exists k, 1 <= k /\ value = - 2 ^ (8 * k - 1)).
Proof.
  assert (Hpos : forall k, 1 <= k -> - 2 ^ (8 * k - 1) < 0).
  { intros k Hk. pose proof (pow2_8k_minus_1 k Hk). lia. }
  assert (Hexp : forall k, 2 <= k -> - 2 ^ (8 * k - 1) < -128).
  { intros k Hk.
    assert (2 ^ 15 <= 2 ^ (8 * k - 1)) by (apply Z.pow_le_mono_r; lia).
    change (2 ^ 15) with 32768 in *. lia. }
  (* the common part: a negative value on [L / 8 + 1] octets *)
  assert (Hcore : forall v, v < 0 -> 2 <= big_BitLen v / 8 + 1 ->
            (minimalTwosComplement
               (padFF (big_BitLen v / 8 + 1)
                  (big_Bytes (Z.shiftl 1 ((big_BitLen v / 8 + 1) * 8) + v)))
             = false
             <-> exists k, 1 <= k /\ v = - 2 ^ (8 * k - 1))).
  { intros v Hv Hm.
    destruct (big_BitLen_spec v ltac:(lia)) as (HL & Hlo & Hhi).
    set (L := big_BitLen v) in *.
    rewrite Z.abs_neq in Hlo, Hhi by lia.
    pose proof (Z.div_mod L 8 ltac:(lia)) as Hdm.
    pose proof (Z.mod_pos_bound L 8 ltac:(lia)) as Hmod.
    rewrite twosComp_minimal; try lia.
    2:{ apply Z.le_trans with (2 ^ L); [lia|].
        apply Z.pow_le_mono_r; lia. }
    replace (8 * (L / 8 + 1) - 9) with (8 * (L / 8) - 1) by lia.
    split.
    - intros Hf. apply negb_false_iff in Hf. apply Z.leb_le in Hf.
      exists (L / 8). split; [lia|].
      assert (L - 1 <= 8 * (L / 8) - 1).
      { destruct (Z.le_gt_cases (L - 1) (8 * (L / 8) - 1)); [assumption|].
        exfalso.
        assert (2 ^ (8 * (L / 8) - 1) < 2 ^ (L - 1))
          by (apply Z.pow_lt_mono_r; lia).
        lia. }
      assert (Heq : 8 * (L / 8) - 1 = L - 1) by lia.
      rewrite Heq in *. lia.
    - intros (k & Hk & ->).
      unfold L. rewrite big_BitLen_pow2 by lia.
      replace (8 * k - 1 + 1) with (k * 8) by lia.
      rewrite Z.div_mul by lia. rewrite Z.opp_involutive.
      apply negb_false_iff. apply Z.leb_le. lia. }
  split.
  - unfold ASN1Integer_encodeIntegerValue.
    destruct (Z.sgn value =? 0) eqn:E0.
    { split; [discriminate|]. intros (k & Hk & ->).
      specialize (Hpos k ltac:(lia)). lia. }
    destruct (Z.sgn value <? 0) eqn:En.
    + assert (Hv : value < 0) by lia.
      destruct ((value >=? -128) && (value <? 0)) eqn:Es.
      * split; [discriminate|]. intros (k & Hk & ->).
        specialize (Hexp k Hk). lia.
      * cbv zeta. rewrite Z.abs_neq by lia.
        destruct (big_BitLen_spec value ltac:(lia)) as (HL & Hlo & _).
        rewrite Z.abs_neq in Hlo by lia.
        assert (HL' : big_BitLen (- value) = big_BitLen value).
        { unfold big_BitLen. rewrite Z.abs_opp.
          assert (E1 : (- value =? 0) = false) by lia.
          assert (E2 : (value =? 0) = false) by lia.
          now rewrite E1, E2. }
        rewrite HL'.
        pose proof (integer_byteLen (big_BitLen value) HL) as Hbl.
        cbv zeta in Hbl. rewrite Hbl.
        assert (Hm : 2 <= big_BitLen value / 8 + 1).
        { assert (8 <= big_BitLen value).
          { destruct (Z.le_gt_cases 8 (big_BitLen value)); [assumption|].
            exfalso.
            assert (2 ^ big_BitLen value <= 2 ^ 7)
              by (apply Z.pow_le_mono_r; lia).
            destruct (big_BitLen_spec value ltac:(lia)) as (_ & _ & Hhi).
            rewrite Z.abs_neq in Hhi by lia.
            change (2 ^ 7) with 128 in *. lia. }
          assert (1 <= big_BitLen value / 8)
            by (apply Z.div_le_lower_bound; lia).
          lia. }
        rewrite (Hcore value Hv Hm).
        split; intros (k & Hk & ->).
        -- exists k. split; [|reflexivity].
           destruct (Z.le_gt_cases 2 k); [assumption|].
           assert (k = 1) by lia. subst k. simpl in Es. discriminate.
        -- exists k. split; [lia | reflexivity].
    + assert (Hv : 0 < value) by lia.
      assert (Hs : (Z.sgn value >? 0) = true) by lia. rewrite Hs.
      rewrite big_Bytes_digits, Z.abs_eq by lia.
      pose proof (positive_encoding_minimal value Hv) as Hmin.
      cbv zeta in Hmin. simpl andb.
      rewrite Hmin. split; [discriminate|]. intros (k & Hk & ->).
      specialize (Hpos k ltac:(lia)). lia.
  - unfold encodeIntegerValue.
    destruct (Z.sgn value =? 0) eqn:E0.
    { split; [discriminate|]. intros (k & Hk & ->).
      specialize (Hpos k ltac:(lia)). lia. }
    destruct (Z.sgn value <? 0) eqn:En.
    + assert (Hv : value < 0) by lia. cbv zeta.
      destruct (big_BitLen_spec value ltac:(lia)) as (HL & Hlo & Hhi).
      rewrite Z.abs_neq in Hlo, Hhi by lia.
      replace ((big_BitLen value + 1 + 7) / 8)
        with (big_BitLen value / 8 + 1).
      2:{ replace (big_BitLen value + 1 + 7)
            with (big_BitLen value + 1 * 8) by lia.
          now rewrite Z.div_add by lia. }
      destruct (Z.le_gt_cases 2 (big_BitLen value / 8 + 1)) as [Hm|Hm].
      * apply (Hcore value Hv Hm).
      * (* fewer than eight bits: one octet *)
        assert (Hd : big_BitLen value / 8 = 0).
        { pose proof (Z.div_pos (big_BitLen value) 8 ltac:(lia) ltac:(lia)).
          lia. }
        rewrite Hd. change (0 + 1) with 1.
        assert (HL8 : big_BitLen value < 8).
        { pose proof (Z.div_mod (big_BitLen value) 8 ltac:(lia)).
          pose proof (Z.mod_pos_bound (big_BitLen value) 8 ltac:(lia)). lia. }
        assert (Hsmall : - value < 128).
        { assert (2 ^ big_BitLen value <= 2 ^ 7)
            by (apply Z.pow_le_mono_r; lia).
          change (2 ^ 7) with 128 in *. lia. }
        destruct (DecodeIntegerValue_twosComp value 1 Hv ltac:(lia)
                    ltac:(simpl; lia)) as [Hlen1 _].
        cbv zeta in Hlen1.
        destruct (padFF 1 (big_Bytes (Z.shiftl 1 (1 * 8) + value)))
          as [|c0 [|c1 cs]] eqn:Ep.
        -- split; [discriminate|]. intros (k & Hk & ->).
           assert (2 ^ 7 <= 2 ^ (8 * k - 1)) by (apply Z.pow_le_mono_r; lia).
           change (2 ^ 7) with 128 in *. lia.
        -- split; [discriminate|]. intros (k & Hk & ->).
           assert (2 ^ 7 <= 2 ^ (8 * k - 1)) by (apply Z.pow_le_mono_r; lia).
           change (2 ^ 7) with 128 in *. lia.
        -- rewrite !len_cons in Hlen1. pose proof (len_nonneg cs). lia.
    + assert (Hv : 0 < value) by lia.
      rewrite big_Bytes_digits, Z.abs_eq by lia.
      pose proof (positive_encoding_minimal value Hv) as Hmin.
      cbv zeta in Hmin. rewrite Hmin.
      split; [discriminate|]. intros (k & Hk & ->).
      specialize (Hpos k ltac:(lia)). lia.
Qed.

(* ================================================================== *)
(** * OBJECT IDENTIFIER *)
(* ================================================================== *)

(** The loop of [decodeSubidentifier] is the loop of [DecodeTag]. *)
Lemma decodeSubidentifier_loop_as_tag l : forall a off r,
  DecodeTag_loop l a off = Ok r -> decodeSubidentifier_loop l a off = Ok r.
Proof.
  induction l as [|b rest IH]; intros a off r E; [discriminate|].
  rewrite DecodeTag_loop_cons in E. cbn [decodeSubidentifier_loop].
  fold tagLimit. destruct (a >? tagLimit); [discriminate|].
  destruct (Z_of_byte (band b x80) =? 0); [exact E|].
  apply IH. exact E.
Qed.

Lemma encodeSubidentifier_nonempty value :
  0 <= value -> 1 <= len (encodeSubidentifier value).
Proof.
  intros Hv. unfold encodeSubidentifier.
  destruct (value =? 0) eqn:E; [change (len [x00]) with 1; lia|].
  change (prependLoop 7 127 (loopFuel value) value []) with (digits 7 value).
  unfold len. rewrite setContinuation_length.
  assert (Hpos : 0 < value) by lia.
  pose proof (digits_nonempty 7 value ltac:(lia) Hpos).
  destruct (digits 7 value); [congruence|]. simpl. lia.
Qed.

(** A subidentifier below [2^32] is read back, whatever follows. *)
Lemma decodeSubidentifier_encode value rest :
  0 <= value < 2 ^ 32 ->
  decodeSubidentifier (encodeSubidentifier value ++ rest)
  = Ok (value, len (encodeSubidentifier value)).
Proof.
  intros Hv.
  pose proof (encodeSubidentifier_nonempty value ltac:(lia)) as Hne.
  unfold decodeSubidentifier.
  assert (E0 : (len (encodeSubidentifier value ++ rest) =? 0) = false).
  { rewrite len_app. pose proof (len_nonneg rest). lia. }
  rewrite E0. clear E0 Hne.
  apply decodeSubidentifier_loop_as_tag.
  unfold encodeSubidentifier.
  destruct (value =? 0) eqn:E.
  - apply Z.eqb_eq in E. subst value. reflexivity.
  - assert (Hpos : 0 < value) by lia.
    change (prependLoop 7 127 (loopFuel value) value [])
      with (digits 7 value).
    rewrite digits_step by lia. rewrite setContinuation_snoc.
    set (L := digits 7 (value / 2 ^ 7)).
    set (d := byte_of_Z (value mod 2 ^ 7)).
    assert (Hq : 0 <= value / 2 ^ 7) by (apply Z.div_pos; lia).
    assert (HL : Forall (fun d => Z_of_byte d < 128) L)
      by (apply (digits_small 7); lia).
    assert (Hb : beValue 7 L 0 = value / 2 ^ 7)
      by (apply digits_value; lia).
    assert (Hlim : value / 2 ^ 7 <= tagLimit).
    { unfold tagLimit. change (Z.shiftl 1 (32 - 7) - 1) with (2 ^ 25 - 1).
      assert (value / 2 ^ 7 < 2 ^ 25); [|lia].
      apply Z.div_lt_upper_bound; [lia|].
      change (2 ^ 7 * 2 ^ 25) with (2 ^ 32). lia. }
    pose proof (Z.mod_pos_bound value (2 ^ 7) ltac:(lia)) as Hm.
    assert (Hd : Z_of_byte d = value mod 2 ^ 7).
    { unfold d. apply Z_of_byte_of_Z. change (2 ^ 7) with 128 in *. lia. }
    rewrite <- app_assoc.
    rewrite DecodeTag_loop_prefix by (try assumption; lia).
    simpl app. rewrite DecodeTag_loop_last.
    + rewrite Hb, Hd. f_equal. f_equal.
      * pose proof (Z.div_mod value (2 ^ 7) ltac:(lia)). lia.
      * rewrite len_app. change (len [d]) with 1.
        unfold len at 2. rewrite length_map. fold (len L). lia.
    + rewrite Hd. change (2 ^ 7) with 128 in *. lia.
    + rewrite Hb. lia.
Qed.

Lemma DecodeObjectIdentifierValue_loop_encoded (cs : list Z) :
  Forall (fun c => 0 <= c < 2 ^ 32) cs ->
  forall fuel prefix acc,
    (List.length cs <= fuel)%nat ->
    DecodeObjectIdentifierValue_loop fuel
      (prefix ++ flat_map encodeSubidentifier cs) (len prefix) acc
    = Some (Ok (acc ++ cs)).
Proof.
  intros HF. induction HF as [|c cs Hc HF IH]; intros fuel prefix acc Hf.
  - simpl flat_map. rewrite !app_nil_r.
    destruct fuel; simpl; rewrite Z.ltb_irrefl; reflexivity.
  - destruct fuel as [|fuel]; [simpl in Hf; lia|].
    simpl flat_map.
    pose proof (encodeSubidentifier_nonempty c ltac:(lia)) as Hne.
    cbn [DecodeObjectIdentifierValue_loop].
    assert (E : (len prefix
                 <? len (prefix ++ encodeSubidentifier c
                         ++ flat_map encodeSubidentifier cs)) = true).
    { rewrite !len_app.
      pose proof (len_nonneg (flat_map encodeSubidentifier cs)). lia. }
    rewrite E, slice_from_app, decodeSubidentifier_encode by exact Hc.
    replace (prefix ++ encodeSubidentifier c
             ++ flat_map encodeSubidentifier cs)
      with ((prefix ++ encodeSubidentifier c)
            ++ flat_map encodeSubidentifier cs) by (now rewrite app_assoc).
    rewrite <- len_app. rewrite IH by (simpl in Hf; lia).
    now rewrite <- app_assoc.
Qed.

Lemma flat_map_length_ge (cs : list Z) :
  Forall (fun c => 0 <= c < 2 ^ 32) cs ->
  Z.of_nat (List.length cs) <= len (flat_map encodeSubidentifier cs).
Proof.
  induction 1 as [|c cs Hc HF IH]; [simpl; unfold len; simpl; lia|].
  simpl flat_map. rewrite len_app. simpl List.length.
  pose proof (encodeSubidentifier_nonempty c ltac:(lia)). lia.
Qed.

Section ObjectIdentifiers.
Context `{GoTimeLib}.

(** X8.  An OBJECT IDENTIFIER whose arcs the constructor accepts, all
    non-negative, with a first subidentifier [40 * arc0 + arc1] and further
    arcs below [2^32], is read back arc by arc: from its value octets by
    [DecodeObjectIdentifierValue], and from its encoding, whatever follows,
    by [DecodeObjectIdentifier]. *)
Theorem ObjectIdentifier_roundtrip (c0 c1 : Z) (more : list Z) :
  validArcs (c0 :: c1 :: more) = true ->
  0 <= c1 -> 40 * c0 + c1 < 2 ^ 32 ->
  Forall (fun c => 0 <= c < 2 ^ 32) more ->
  DecodeObjectIdentifierValue (ASN1ObjectIdentifier_content (c0 :: c1 :: more))
  = Ok (c0 :: c1 :: more)
  /\ forall bs rest,
       Encode (OObjectIdentifier (c0 :: c1 :: more)) = Ok bs ->
       len bs < 2 ^ 32 ->
       DecodeObjectIdentifier (bs ++ rest)
       = Ok (OObjectIdentifier (c0 :: c1 :: more), len bs).
Proof.
  intros Hv H1 Hfirst Hmore.
  assert (Hc0 : 0 <= c0 <= 2 /\ (c0 < 2 -> c1 <= 39)).
  { unfold validArcs in Hv. cbn [nth] in Hv.
    apply andb_prop in Hv. destruct Hv as [Hv H4].
    apply andb_prop in Hv. destruct Hv as [Hv H3].
    apply andb_prop in Hv. destruct Hv as [_ H2].
    apply orb_prop in H4. split; [lia|]. intros Hlt.
    destruct H4 as [H4|H4]; [lia|].
    apply andb_prop in H4. lia. }
  destruct Hc0 as [Hc0 Hc1].
  assert (Hval : DecodeObjectIdentifierValue
                   (ASN1ObjectIdentifier_content (c0 :: c1 :: more))
                 = Ok (c0 :: c1 :: more)).
  { unfold ASN1ObjectIdentifier_content. cbn [nth skipn].
    set (first := c0 * 40 + c1).
    assert (Hf : 0 <= first < 2 ^ 32) by (unfold first; lia).
    pose proof (encodeSubidentifier_nonempty first ltac:(lia)) as Hne.
    unfold DecodeObjectIdentifierValue.
    assert (E0 : (len (encodeSubidentifier first
                       ++ flat_map encodeSubidentifier more) =? 0) = false).
    { rewrite len_app.
      pose proof (len_nonneg (flat_map encodeSubidentifier more)). lia. }
    rewrite E0, slice_from_0, decodeSubidentifier_encode by exact Hf.
    cbn [wrapErr bind]. change (0 + len (encodeSubidentifier first))
      with (len (encodeSubidentifier first)).
    assert (Hsplit : (if first <? 40 then [0; first]
                      else if first <? 80 then [1; first - 40]
                      else [2; first - 80]) = [c0; c1]).
    { unfold first.
      assert (Hcase : c0 = 0 \/ c0 = 1 \/ c0 = 2) by lia.
      destruct Hcase as [-> | [-> | ->]].
      - assert (E : (0 * 40 + c1 <? 40) = true) by lia. rewrite E.
        f_equal.
      - assert (E : (1 * 40 + c1 <? 40) = false) by lia. rewrite E.
        assert (E' : (1 * 40 + c1 <? 80) = true) by lia. rewrite E'.
        f_equal. f_equal. lia.
      - assert (E : (2 * 40 + c1 <? 40) = false) by lia. rewrite E.
        assert (E' : (2 * 40 + c1 <? 80) = false) by lia. rewrite E'.
        f_equal. f_equal. lia. }
    rewrite Hsplit.
    rewrite DecodeObjectIdentifierValue_loop_encoded.
    - reflexivity.
    - exact Hmore.
    - rewrite length_app. pose proof (flat_map_length_ge more Hmore).
      unfold len in *. lia. }
  split; [exact Hval|].
  intros bs rest E Hlen. simpl in E.
  assert (E2 : (len (c0 :: c1 :: more) <? 2) = false).
  { rewrite !len_cons. pose proof (len_nonneg more). lia. }
  rewrite E2 in E.
  unfold DecodeObjectIdentifier.
  assert (Hr : tagInRange (NewUniversalTag TagOID false)) by universal_tag.
  rewrite (TLV_roundtrip _ _ _ rest Hr E Hlen).
  cbn [bind ASN1Value_Tag ASN1Value_Value NewUniversalTag Class Number].
  change ((negb (0 =? 0) || negb (TagOID =? TagOID))) with false.
  cbv iota. rewrite Hval. cbn [bind].
  rewrite NewObjectIdentifier_valid, Hv. reflexivity.
Qed.

(** X9.  [NewObjectIdentifier] checks the first two arcs only, and the
    encoder gives a negative arc no octet at all: an identifier with a
    negative arc after the second is accepted by the constructor and is
    encoded exactly like the identifier without that arc. *)
Theorem ObjectIdentifier_negative_arc_vanishes
    (c0 c1 : Z) (before after : list Z) (c : Z) :
  c < 0 ->
  (validArcs (c0 :: c1 :: before ++ after) = true ->
   NewObjectIdentifier (c0 :: c1 :: before ++ c :: after)
   = Ok (OObjectIdentifier (c0 :: c1 :: before ++ c :: after)))
  /\ Encode (OObjectIdentifier (c0 :: c1 :: before ++ c :: after))
     = Encode (OObjectIdentifier (c0 :: c1 :: before ++ after)).
Proof.
  intros Hc. split.
  - intros Hv. rewrite NewObjectIdentifier_valid.
    assert (Hv' : validArcs (c0 :: c1 :: before ++ c :: after) = true).
    { unfold validArcs in *. cbn [nth] in *. rewrite !len_cons in *.
      apply andb_prop in Hv. destruct Hv as [Hv H4].
      apply andb_prop in Hv. destruct Hv as [Hv H3].
      apply andb_prop in Hv. destruct Hv as [_ H2].
      rewrite H2, H3, H4.
      pose proof (len_nonneg (before ++ c :: after)).
      assert (E : (2 <=? 1 + (1 + len (before ++ c :: after))) = true) by lia.
      now rewrite E. }
    now rewrite Hv'.
  - simpl Encode.
    assert (E1 : (len (c0 :: c1 :: before ++ c :: after) <? 2) = false).
    { rewrite !len_cons. pose proof (len_nonneg (before ++ c :: after)). lia. }
    assert (E2 : (len (c0 :: c1 :: before ++ after) <? 2) = false).
    { rewrite !len_cons. pose proof (len_nonneg (before ++ after)). lia. }
    rewrite E1, E2. f_equal.
    unfold ASN1ObjectIdentifier_content. cbn [nth skipn]. f_equal.
    rewrite !flat_map_app. f_equal. simpl flat_map.
    assert (Ee : encodeSubidentifier c = []).
    { unfold encodeSubidentifier.
      assert (E : (c =? 0) = false) by lia. rewrite E.
      unfold loopFuel. rewrite Z.log2_nonpos by lia. simpl.
      assert (E' : (c >? 0) = false) by lia. now rewrite E'. }
    now rewrite Ee.
Qed.

End ObjectIdentifiers.

(* ================================================================== *)
(** * The decoders of the typed values *)
(* ================================================================== *)

Section TypedDecoders.
Context `{GoTimeLib}.

(** The TLV at the head of [bs ++ rest], for the encoding [bs] of a
    primitive with a universal tag. *)
Lemma universal_TLV number content bs rest :
  0 <= number < 2 ^ 32 ->
  EncodeTLV (NewUniversalTag number false) content = Ok bs ->
  len bs < 2 ^ 32 ->
  DecodeTLV (bs ++ rest)
  = Ok (NewASN1Value (NewUniversalTag number false) content, len bs).
Proof.
  intros Hn E Hlen. apply TLV_roundtrip; [|exact E|exact Hlen].
  apply tagInRange_universal. exact Hn.
Qed.

Ltac head_TLV number E Hlen :=
  rewrite (universal_TLV number _ _ _ ltac:(unfold number; lia) E Hlen);
  cbn [bind wrapErr ASN1Value_Tag ASN1Value_Value NewUniversalTag Class
       Number Constructed];
  rewrite ?Z.eqb_refl; cbn [negb orb].

Lemma DecodeInteger_encoded z bs rest :
  len bs < 2 ^ 32 -> Encode (OInteger z) = Ok bs ->
  DecodeInteger (bs ++ rest) = Ok (OInteger z, len bs).
Proof.
  intros Hlen E. simpl in E. unfold DecodeInteger.
  head_TLV TagInteger E Hlen.
  rewrite DecodeIntegerValue_encode. reflexivity.
Qed.

(** X10.  Each typed decoder reads back what the [Encode] method of its
    type emits, whatever follows the encoding, and reports the length of
    the encoding as consumed: BOOLEAN, INTEGER, ENUMERATED (whose name is
    not encoded and comes back empty), OCTET STRING, NULL, the three
    string types when they hold what their constructors accept, and
    BIT STRING with 0 to 7 unused bits and at least one octet (or none and
    no unused bit). *)
Theorem typed_decoders_roundtrip (bs rest : list byte) :
  len bs < 2 ^ 32 ->
  (forall b, Encode (OBoolean b) = Ok bs ->
             DecodeBoolean (bs ++ rest) = Ok (OBoolean b, len bs))
  /\ (forall z, Encode (OInteger z) = Ok bs ->
                DecodeInteger (bs ++ rest) = Ok (OInteger z, len bs))
  /\ (forall z name, Encode (OEnumerated z name) = Ok bs ->
                     DecodeEnumerated (bs ++ rest)
                     = Ok (OEnumerated z [], len bs))
  /\ (forall v, Encode (OOctetString v) = Ok bs ->
                DecodeOctetString (bs ++ rest) = Ok (OOctetString v, len bs))
  /\ (Encode ONull = Ok bs -> DecodeNull (bs ++ rest) = Ok (ONull, len bs))
  /\ (forall s, ValidString s = true -> Encode (OUTF8String s) = Ok bs ->
                DecodeUTF8String (bs ++ rest) = Ok (OUTF8String s, len bs))
  /\ (forall s, isPrintableString s = true ->
                Encode (OPrintableString s) = Ok bs ->
                DecodePrintableString (bs ++ rest)
                = Ok (OPrintableString s, len bs))
  /\ (forall s, isIA5String s = true -> Encode (OIA5String s) = Ok bs ->
                DecodeIA5String (bs ++ rest) = Ok (OIA5String s, len bs))
  /\ (forall v u, 0 <= u <= 7 -> (v <> [] \/ u = 0) ->
                  Encode (OBitString v u) = Ok bs ->
                  DecodeBitString (bs ++ rest) = Ok (OBitString v u, len bs)).
Proof.
  intros Hlen.
  split; [|split; [|split; [|split; [|split; [|split; [|split; [|split]]]]]]].
  - intros b E. simpl in E. unfold DecodeBoolean.
    head_TLV TagBoolean E Hlen. destruct b; reflexivity.
  - intros z E. exact (DecodeInteger_encoded z bs rest Hlen E).
  - intros z name E. simpl in E. unfold DecodeEnumerated.
    head_TLV TagEnumerated E Hlen.
    unfold DecodeEnumeratedValue.
    rewrite DecodeIntegerValue_encode_enumerated. reflexivity.
  - intros v E. simpl in E. unfold DecodeOctetString.
    head_TLV TagOctetString E Hlen. reflexivity.
  - intros E. simpl in E. unfold DecodeNull.
    head_TLV TagNull E Hlen. reflexivity.
  - intros s Hs E. simpl in E. unfold DecodeUTF8String.
    head_TLV TagUTF8String E Hlen. unfold NewUTF8String.
    rewrite Hs. reflexivity.
  - intros s Hs E. simpl in E. unfold DecodePrintableString.
    head_TLV TagPrintableString E Hlen. unfold NewPrintableString.
    rewrite Hs. reflexivity.
  - intros s Hs E. simpl in E. unfold DecodeIA5String.
    head_TLV TagIA5String E Hlen. unfold NewIA5String.
    rewrite Hs. reflexivity.
  - intros v u Hu Hv E. simpl in E. unfold DecodeBitString.
    head_TLV TagBitString E Hlen.
    unfold ASN1BitString_content, DecodeBitStringValue.
    rewrite Z_of_byte_of_Z by lia.
    assert (E7 : (u >? 7) = false) by lia. rewrite E7.
    destruct v as [|v0 v].
    + destruct Hv as [Hv | ->]; [congruence|]. reflexivity.
    + assert (E1 : (len (byte_of_Z u :: v0 :: v) =? 1) = false).
      { rewrite !len_cons. pose proof (len_nonneg v). lia. }
      rewrite E1. cbn [bind]. unfold NewBitString.
      assert (Eu : ((u <? 0) || (u >? 7)) = false) by lia.
      now rewrite Eu.
Qed.

(** X11.  The BIT STRING encoder and decoder disagree on one value: a bit
    string without octets but with 1 to 7 unused bits is accepted by
    [NewBitString] and encoded by [Encode], and [DecodeBitString] rejects
    that encoding. *)
Theorem BitString_empty_with_unused_bits (u : Z) (rest : list byte) :
  1 <= u <= 7 ->
  NewBitString [] u = Ok (OBitString [] u)
  /\ Encode (OBitString [] u) = Ok [x03; x01; byte_of_Z u]
  /\ DecodeBitString ([x03; x01; byte_of_Z u] ++ rest)
     = Err "unused bits must be 0 when no data bytes present".
Proof.
  intros Hu.
  assert (Hn : NewBitString [] u = Ok (OBitString [] u)).
  { unfold NewBitString.
    assert (E : ((u <? 0) || (u >? 7)) = false) by lia. now rewrite E. }
  assert (E : Encode (OBitString [] u) = Ok [x03; x01; byte_of_Z u])
    by reflexivity.
  split; [exact Hn|]. split; [exact E|].
  simpl in E. unfold DecodeBitString.
  assert (Hlen : len [x03; x01; byte_of_Z u] < 2 ^ 32) by reflexivity.
  head_TLV TagBitString E Hlen.
  unfold ASN1BitString_content, DecodeBitStringValue.
  rewrite Z_of_byte_of_Z by lia.
  assert (E7 : (u >? 7) = false) by lia. rewrite E7.
  change (len [byte_of_Z u] =? 1) with true. cbv iota.
  assert (E0 : (u =? 0) = false) by lia. now rewrite E0.
Qed.

(** X12.  [DecodeBoolean] takes any non-zero content octet for TRUE, as
    BER allows, and [Encode] always writes TRUE as [FF]: decoding and
    encoding again normalises a BOOLEAN. *)
Theorem DecodeBoolean_normalises (c : byte) (rest : list byte) :
  DecodeBoolean ([x01; x01; c] ++ rest)
  = Ok (OBoolean (negb (Z_of_byte c =? 0)), 3)
  /\ (Z_of_byte c <> 0 ->
      Encode (OBoolean (negb (Z_of_byte c =? 0))) = Ok [x01; x01; xff])
  /\ (Z_of_byte c = 0 ->
      Encode (OBoolean (negb (Z_of_byte c =? 0))) = Ok [x01; x01; c]).
Proof.
  split; [|split].
  - assert (E : EncodeTLV (NewUniversalTag TagBoolean false) [c]
                = Ok [x01; x01; c]) by reflexivity.
    assert (Hlen : len [x01; x01; c] < 2 ^ 32) by reflexivity.
    unfold DecodeBoolean. head_TLV TagBoolean E Hlen. reflexivity.
  - intros Hc. assert (E : (Z_of_byte c =? 0) = false) by lia.
    rewrite E. reflexivity.
  - intros Hc. assert (E : (Z_of_byte c =? 0) = true) by lia.
    rewrite E. simpl.
    assert (c = x00) by (apply Z_of_byte_inj; exact Hc). now subst.
Qed.

(** X13.  The decoders that test class and number only accept a primitive
    type flagged as constructed, [DecodeEnumerated] compares the whole tag
    and does not: with the constructed bit set in the first octet of its
    encoding, an INTEGER is still read back by [DecodeInteger], and an
    ENUMERATED is refused by [DecodeEnumerated]. *)
Theorem constructed_flag_on_primitives (z : Z) (rest : list byte) :
  len (ASN1Integer_encodeIntegerValue z) < 2 ^ 31 ->
  len (encodeIntegerValue z) < 2 ^ 31 ->
  (exists b0 tail,
      Encode (OInteger z) = Ok (b0 :: tail)
      /\ DecodeInteger (bor b0 x20 :: tail ++ rest)
         = Ok (OInteger z, len (b0 :: tail)))
  /\ (exists b0 tail,
         Encode (OEnumerated z []) = Ok (b0 :: tail)
         /\ DecodeEnumerated (bor b0 x20 :: tail ++ rest)
            = Err "expected ENUMERATED tag").
Proof.
  intros H1 H2.
  assert (Hgen : forall number content,
            0 <= number <= 30 -> len content < 2 ^ 31 ->
            exists tail,
              EncodeTLV (NewUniversalTag number false) content
              = Ok (byte_of_Z number :: tail)
              /\ EncodeTLV (NewUniversalTag number true) content
                 = Ok (bor (byte_of_Z number) x20 :: tail)
              /\ len (byte_of_Z number :: tail) < 2 ^ 32).
  { intros number content Hn Hl. unfold EncodeTLV, EncodeTag.
    cbn [NewUniversalTag Number Class Constructed].
    assert (E1 : (number <? 0) = false) by lia.
    assert (E2 : (number <=? 30) = true) by lia.
    rewrite E1, E2. cbn [wrapErr bind].
    assert (Eb : bor (byte_of_Z (Z.shiftl 0 6)) (byte_of_Z number)
                 = byte_of_Z number).
    { change (byte_of_Z (Z.shiftl 0 6)) with x00.
      generalize (byte_of_Z number). intros c. destruct c; reflexivity. }
    assert (Eb' : bor (bor (byte_of_Z (Z.shiftl 0 6)) x20) (byte_of_Z number)
                  = bor (byte_of_Z number) x20).
    { change (bor (byte_of_Z (Z.shiftl 0 6)) x20) with x20.
      generalize (byte_of_Z number). intros c. destruct c; reflexivity. }
    rewrite Eb, Eb'.
    destruct (EncodeLength (len content)) as [lb| |] eqn:El.
    - cbn [wrapErr bind]. exists (lb ++ content).
      split; [reflexivity|]. split; [reflexivity|].
      rewrite len_cons, len_app.
      assert (len lb <= 5).
      { pose proof (len_nonneg content).
        pose proof (EncodeLength_len_le (len content) lb ltac:(lia) El).
        lia. }
      lia.
    - exfalso. unfold EncodeLength in El.
      pose proof (len_nonneg content).
      assert (E : (len content <? 0) = false) by lia. rewrite E in El.
      destruct (len content <? 128); discriminate.
    - exfalso. unfold EncodeLength in El.
      destruct (len content <? 0); [discriminate|].
      destruct (len content <? 128); discriminate. }
  split.
  - destruct (Hgen TagInteger (ASN1Integer_encodeIntegerValue z)
                ltac:(unfold TagInteger; lia) H1) as (tail & Ep & Ec & Hl).
    exists (byte_of_Z TagInteger), tail. split; [exact Ep|].
    unfold DecodeInteger.
    change (bor (byte_of_Z TagInteger) x20 :: tail ++ rest)
      with ((bor (byte_of_Z TagInteger) x20 :: tail) ++ rest).
    assert (Hr : tagInRange (NewUniversalTag TagInteger true))
      by universal_tag.
    rewrite (TLV_roundtrip _ _ _ rest Hr Ec)
      by (rewrite len_cons in *; lia).
    cbn [bind ASN1Value_Tag ASN1Value_Value NewUniversalTag Class Number].
    rewrite Z.eqb_refl. cbn [Z.eqb negb orb].
    rewrite DecodeIntegerValue_encode. cbn [bind].
    rewrite !len_cons. reflexivity.
  - destruct (Hgen TagEnumerated (encodeIntegerValue z)
                ltac:(unfold TagEnumerated; lia) H2) as (tail & Ep & Ec & Hl).
    exists (byte_of_Z TagEnumerated), tail. split; [exact Ep|].
    unfold DecodeEnumerated.
    change (bor (byte_of_Z TagEnumerated) x20 :: tail ++ rest)
      with ((bor (byte_of_Z TagEnumerated) x20 :: tail) ++ rest).
    assert (Hr : tagInRange (NewUniversalTag TagEnumerated true))
      by universal_tag.
    rewrite (TLV_roundtrip _ _ _ rest Hr Ec)
      by (rewrite len_cons in *; lia).
    reflexivity.
Qed.

End TypedDecoders.

(* ================================================================== *)
(** * UTCTime and GeneralizedTime *)
(* ================================================================== *)

(** ** [strings.TrimSpace] and [strconv.Atoi] on what the parsers meet *)

Lemma spaceAtHead_visible b s : visible b = true -> spaceAtHead (b :: s) = 0%nat.
Proof.
  intros Hb. unfold visible in Hb. apply andb_prop in Hb.
  destruct Hb as [H1 H2]. unfold spaceAtHead, DecodeRune.
  assert (E : (Z_of_byte b <? 128) = true) by lia. rewrite E.
  set (r := Z_of_byte b) in *.
  assert (Hs : (((9 <=? r) && (r <=? 13)) || (r =? 32) || (r =? 133)
                || (r =? 160) || (r =? 5760)
                || ((8192 <=? r) && (r <=? 8202)) || (r =? 8232)
                || (r =? 8233) || (r =? 8239) || (r =? 8287)
                || (r =? 12288)) = false) by lia.
  now rewrite Hs.
Qed.

Lemma trimLeft_loop_visible fuel s :
  Forall (fun b => visible b = true) s -> trimLeft_loop fuel s = s.
Proof.
  intros Hs. destruct fuel; [reflexivity|]. simpl.
  destruct Hs as [|b s Hb Hs]; [reflexivity|].
  now rewrite spaceAtHead_visible.
Qed.

Lemma spaceAtHead_skipn_visible s k :
  Forall (fun b => visible b = true) s ->
  (0 < k)%nat -> (k <= List.length s)%nat ->
  spaceAtHead (skipn (List.length s - k) s) = 0%nat.
Proof.
  intros Hs Hk Hle.
  assert (Hv : Forall (fun b => visible b = true)
                 (skipn (List.length s - k) s)).
  { apply Forall_forall. intros x Hx. rewrite Forall_forall in Hs.
    apply Hs. rewrite <- (firstn_skipn (List.length s - k) s).
    apply in_or_app. now right. }
  destruct (skipn (List.length s - k) s) as [|b t] eqn:E.
  - apply (f_equal (@List.length byte)) in E. rewrite length_skipn in E.
    simpl in E. lia.
  - inversion Hv. now apply spaceAtHead_visible.
Qed.

Lemma spaceAtEnd_visible s :
  Forall (fun b => visible b = true) s -> spaceAtEnd s = 0%nat.
Proof.
  intros Hs. unfold spaceAtEnd.
  assert (Ht : forall k, (0 < k)%nat ->
             (Nat.leb k (List.length s)
              && Nat.eqb (spaceAtHead (skipn (List.length s - k) s)) k)
             = false).
  { intros k Hk. destruct (Nat.leb k (List.length s)) eqn:E; [|reflexivity].
    apply Nat.leb_le in E.
    rewrite spaceAtHead_skipn_visible by assumption.
    simpl. destruct k; [lia | reflexivity]. }
  rewrite !Ht by lia. reflexivity.
Qed.

Lemma TrimSpace_visible s :
  Forall (fun b => visible b = true) s -> TrimSpace s = s.
Proof.
  intros Hs. unfold TrimSpace. rewrite trimLeft_loop_visible by exact Hs.
  destruct (List.length s); [reflexivity|]. simpl.
  now rewrite spaceAtEnd_visible.
Qed.

Lemma In_upto n z :
  0 <= z < n -> In z (map Z.of_nat (seq 0 (Z.to_nat n))).
Proof.
  intros Hz. apply in_map_iff. exists (Z.to_nat z). split; [lia|].
  apply in_seq. lia.
Qed.

Lemma twoDigits_facts n :
  0 <= n < 100 ->
  Atoi (twoDigits n) = Some n
  /\ forallb visible (twoDigits n) = true.
Proof.
  intros Hn.
  assert (Hall : forallb (fun n => match Atoi (twoDigits n) with
                                   | Some m => (m =? n)
                                   | None => false
                                   end && forallb visible (twoDigits n))
                   (map Z.of_nat (seq 0 (Z.to_nat 100))) = true)
    by (vm_compute; reflexivity).
  rewrite forallb_forall in Hall.
  specialize (Hall n (In_upto 100 n ltac:(lia))).
  apply andb_prop in Hall. destruct Hall as [Ha Hv].
  split; [|exact Hv].
  destruct (Atoi (twoDigits n)) as [m|]; [|discriminate].
  apply Z.eqb_eq in Ha. now subst.
Qed.

Lemma Forall_visible_app (a b : list byte) :
  forallb visible a = true -> Forall (fun x => visible x = true) b ->
  Forall (fun x => visible x = true) (a ++ b).
Proof.
  intros Ha Hb. apply Forall_app. split; [|exact Hb].
  apply Forall_forall. now apply forallb_forall.
Qed.

Lemma twoDigits_shape n : exists a b, twoDigits n = [a; b].
Proof. unfold twoDigits. eauto. Qed.

(** Computes the slices [timeStr[a:b]] of a string given character by
    character. *)
Ltac take_substrings :=
  repeat match goal with
         | |- context [substr ?l ?a ?b] =>
             let v := eval cbv in (substr l a b) in
             change (substr l a b) with v
         end.

Section TimeParsing.
Context `{GoTimeLib}.

(** X14.  [parseUTCTime] tests for fewer than 11 characters but slices up
    to the twelfth: a time string of exactly 11 characters (after trimming)
    makes it panic.  The panic goes through [DecodeUTCTime], and through
    the conversion of a decoded UTCTime TLV into a typed object, which
    [Unmarshal] performs on its input. *)
Theorem UTCTime_of_eleven_characters_panics (timeStr : list byte) :
  len (TrimSpace timeStr) = 11 ->
  parseUTCTime timeStr = Panic "slice bounds out of range"
  /\ (forall data n,
         DecodeTLV data
         = Ok (NewASN1Value (NewUniversalTag TagUTCTime false) timeStr, n) ->
         DecodeUTCTime data = Panic "slice bounds out of range")
  /\ (len timeStr < 2 ^ 31 ->
      convertToHighLevelObject
        (NewASN1Value (NewUniversalTag TagUTCTime false) timeStr)
      = Panic "slice bounds out of range").
Proof.
  intros Hl.
  assert (Hp : parseUTCTime timeStr = Panic "slice bounds out of range").
  { unfold parseUTCTime. cbv zeta. rewrite Hl. reflexivity. }
  split; [exact Hp|]. split.
  - intros data n D. unfold DecodeUTCTime. rewrite D.
    cbn [wrapErr bind ASN1Value_Tag ASN1Value_Value].
    change (negb (Tag_eqb (NewUniversalTag TagUTCTime false)
                    (NewUniversalTag TagUTCTime false))) with false.
    cbv iota. rewrite Hp. reflexivity.
  - intros Hlen. rewrite convertToHighLevelObject_eq.
    cbn [ASN1Value_Tag NewUniversalTag Constructed].
    assert (Hc : convertPrimitiveValue
                   (NewASN1Value (NewUniversalTag TagUTCTime false) timeStr)
                 = match EncodeTLV (NewUniversalTag TagUTCTime false) timeStr
                   with
                   | Ok tlvData =>
                       match DecodeUTCTime tlvData with
                       | Ok (utcTime, _) => Ok utcTime
                       | Err _ =>
                           Ok (OValue (NewASN1Value
                                         (NewUniversalTag TagUTCTime false)
                                         timeStr))
                       | Panic p => Panic p
                       end
                   | Err _ =>
                       Ok (OValue (NewASN1Value
                                     (NewUniversalTag TagUTCTime false)
                                     timeStr))
                   | Panic p => Panic p
                   end) by reflexivity.
    cbv iota. fold (NewUniversalTag TagUTCTime false). rewrite Hc. clear Hc.
    destruct (EncodeTLV_total (NewUniversalTag TagUTCTime false) timeStr
                ltac:(simpl; unfold TagUTCTime; lia))
      as (bs & E).
    rewrite E.
    assert (Hbs : len bs < 2 ^ 32).
    { destruct (EncodeTLV_inv _ _ _ E) as (tb & lb & Et & El & ->).
      rewrite !len_app.
      assert (tb = [x17]) by (vm_compute in Et; congruence). subst tb.
      change (len [x17]) with 1.
      pose proof (len_nonneg timeStr).
      pose proof (EncodeLength_len_le (len timeStr) lb ltac:(lia) El).
      lia. }
    assert (Hr : tagInRange (NewUniversalTag TagUTCTime false))
      by universal_tag.
    pose proof (TLV_roundtrip _ _ _ [] Hr E Hbs) as D.
    rewrite app_nil_r in D.
    unfold DecodeUTCTime. rewrite D.
    cbn [wrapErr bind ASN1Value_Tag ASN1Value_Value].
    change (negb (Tag_eqb (NewUniversalTag TagUTCTime false)
                    (NewUniversalTag TagUTCTime false))) with false.
    cbv iota. rewrite Hp. reflexivity.
Qed.

Lemma fourDigits_Atoi year :
  0 <= year < 10000 ->
  Atoi (twoDigits (year / 100) ++ twoDigits (year mod 100)) = Some year.
Proof.
  intros Hy.
  assert (Hall : forallb (fun n => match Atoi (twoDigits (n / 100)
                                                ++ twoDigits (n mod 100)) with
                                   | Some m => (m =? n)
                                   | None => false
                                   end)
                   (map Z.of_nat (seq 0 (Z.to_nat 10000))) = true)
    by (vm_compute; reflexivity).
  rewrite forallb_forall in Hall.
  specialize (Hall year (In_upto 10000 year ltac:(lia))).
  destruct (Atoi _) as [m|]; [|discriminate].
  apply Z.eqb_eq in Hall. now subst.
Qed.

Lemma twelveDigits_visible yy mo d h mi s suffix :
  0 <= yy < 100 -> 0 <= mo < 100 -> 0 <= d < 100 ->
  0 <= h < 100 -> 0 <= mi < 100 -> 0 <= s < 100 ->
  Forall (fun b => visible b = true) suffix ->
  Forall (fun b => visible b = true) (twelveDigits yy mo d h mi s ++ suffix).
Proof.
  intros Hyy Hmo Hd Hh Hmi Hs Hsuf. unfold twelveDigits.
  rewrite <- !app_assoc.
  repeat (apply Forall_visible_app;
          [apply twoDigits_facts; assumption|]).
  exact Hsuf.
Qed.

(** X15.  [parseUTCTime] reads twelve digits [YYMMDDhhmmss], takes the
    year for [19YY] from 50 on and for [20YY] below, and hands the six
    numbers to [time.Date]; whatever follows the seconds, a [Z] or a time
    zone offset, is not looked at. *)
Theorem parseUTCTime_reads_twelve_digits (yy mo d h mi s : Z)
    (suffix : list byte) :
  0 <= yy < 100 -> 0 <= mo < 100 -> 0 <= d < 100 ->
  0 <= h < 100 -> 0 <= mi < 100 -> 0 <= s < 100 ->
  Forall (fun b => visible b = true) suffix ->
  parseUTCTime (twelveDigits yy mo d h mi s ++ suffix)
  = Ok (time_Date (utcYear yy) mo d h mi s).
Proof.
  intros Hyy Hmo Hd Hh Hmi Hs Hsuf.
  unfold parseUTCTime. cbv zeta.
  rewrite TrimSpace_visible by (apply twelveDigits_visible; assumption).
  destruct (twoDigits_facts yy Hyy) as [Ayy _].
  destruct (twoDigits_facts mo Hmo) as [Amo _].
  destruct (twoDigits_facts d Hd) as [Ad _].
  destruct (twoDigits_facts h Hh) as [Ah _].
  destruct (twoDigits_facts mi Hmi) as [Ami _].
  destruct (twoDigits_facts s Hs) as [As _].
  unfold twelveDigits.
  destruct (twoDigits_shape yy) as (y1 & y2 & Eyy).
  destruct (twoDigits_shape mo) as (m1 & m2 & Emo).
  destruct (twoDigits_shape d) as (d1 & d2 & Ed).
  destruct (twoDigits_shape h) as (h1 & h2 & Eh).
  destruct (twoDigits_shape mi) as (i1 & i2 & Emi).
  destruct (twoDigits_shape s) as (s1 & s2 & Es).
  rewrite Eyy, Emo, Ed, Eh, Emi, Es in *.
  cbn [app].
  assert (E11 : (len (y1 :: y2 :: m1 :: m2 :: d1 :: d2 :: h1 :: h2 :: i1
                      :: i2 :: s1 :: s2 :: suffix) <? 11) = false).
  { rewrite !len_cons. pose proof (len_nonneg suffix). lia. }
  assert (E12 : (len (y1 :: y2 :: m1 :: m2 :: d1 :: d2 :: h1 :: h2 :: i1
                      :: i2 :: s1 :: s2 :: suffix) <? 12) = false).
  { rewrite !len_cons. pose proof (len_nonneg suffix). lia. }
  rewrite E11, E12.
  take_substrings.
  rewrite Ayy, Amo, Ad, Ah, Ami, As. reflexivity.
Qed.

(** X16.  [parseGeneralizedTime] reads fourteen digits [YYYYMMDDhhmmss]
    and hands the six numbers to [time.Date] without looking at what
    follows; but it wants at least fifteen characters, so the fourteen
    digits alone are refused as too short. *)
Theorem parseGeneralizedTime_reads_fourteen_digits (year mo d h mi s : Z)
    (suffix : list byte) :
  0 <= year < 10000 -> 0 <= mo < 100 -> 0 <= d < 100 ->
  0 <= h < 100 -> 0 <= mi < 100 -> 0 <= s < 100 ->
  Forall (fun b => visible b = true) suffix ->
  (suffix <> [] ->
   parseGeneralizedTime (fourteenDigits year mo d h mi s ++ suffix)
   = Ok (time_Date year mo d h mi s))
  /\ parseGeneralizedTime (fourteenDigits year mo d h mi s)
     = Err "GeneralizedTime string too short".
Proof.
  intros Hy Hmo Hd Hh Hmi Hs Hsuf.
  assert (Hy1 : 0 <= year / 100 < 100).
  { split; [apply Z.div_pos; lia | apply Z.div_lt_upper_bound; lia]. }
  assert (Hy2 : 0 <= year mod 100 < 100) by (apply Z.mod_pos_bound; lia).
  assert (Hvis : forall suf, Forall (fun b => visible b = true) suf ->
            Forall (fun b => visible b = true)
              (fourteenDigits year mo d h mi s ++ suf)).
  { intros suf Hv. unfold fourteenDigits. rewrite <- app_assoc.
    apply Forall_visible_app; [apply twoDigits_facts; assumption|].
    apply twelveDigits_visible; assumption. }
  pose proof (fourDigits_Atoi year Hy) as Ay.
  destruct (twoDigits_facts mo Hmo) as [Amo _].
  destruct (twoDigits_facts d Hd) as [Ad _].
  destruct (twoDigits_facts h Hh) as [Ah _].
  destruct (twoDigits_facts mi Hmi) as [Ami _].
  destruct (twoDigits_facts s Hs) as [As _].
  destruct (twoDigits_shape (year / 100)) as (c1 & c2 & Ec).
  destruct (twoDigits_shape (year mod 100)) as (y1 & y2 & Eyy).
  destruct (twoDigits_shape mo) as (m1 & m2 & Emo).
  destruct (twoDigits_shape d) as (d1 & d2 & Ed).
  destruct (twoDigits_shape h) as (h1 & h2 & Eh).
  destruct (twoDigits_shape mi) as (i1 & i2 & Emi).
  destruct (twoDigits_shape s) as (s1 & s2 & Es).
  split.
  - intros Hne. unfold parseGeneralizedTime. cbv zeta.
    rewrite TrimSpace_visible by (apply Hvis; exact Hsuf).
    unfold fourteenDigits, twelveDigits.
    rewrite Ec, Eyy, Emo, Ed, Eh, Emi, Es in *. cbn [app] in *.
    assert (E15 : (len (c1 :: c2 :: y1 :: y2 :: m1 :: m2 :: d1 :: d2 :: h1
                        :: h2 :: i1 :: i2 :: s1 :: s2 :: suffix) <? 15)
                  = false).
    { rewrite !len_cons. destruct suffix; [congruence|].
      rewrite len_cons. pose proof (len_nonneg suffix). lia. }
    rewrite E15.
    take_substrings.
    rewrite Ay, Amo, Ad, Ah, Ami, As. reflexivity.
  - unfold parseGeneralizedTime. cbv zeta.
    rewrite <- (app_nil_r (fourteenDigits year mo d h mi s)).
    rewrite TrimSpace_visible by (apply Hvis; constructor).
    rewrite app_nil_r.
    unfold fourteenDigits, twelveDigits.
    rewrite Ec, Eyy, Emo, Ed, Eh, Emi, Es. reflexivity.
Qed.

End TimeParsing.

(* ================================================================== *)
(** * More about marshaling *)
(* ================================================================== *)

Section ImplicitTagging.
Context `{GoTimeLib}.

(** The value octets of a plain primitive, and their way back. *)
Lemma plainPrimitive_content (obj : ASN1Object) :
  plainPrimitive obj = true ->
  exists number content,
    ObjectTag obj = NewUniversalTag number false
    /\ 0 <= number <= 30
    /\ Encode obj = EncodeTLV (NewUniversalTag number false) content
    /\ convertPrimitiveValue
         (NewASN1Value (NewUniversalTag number false) content) = Ok obj.
Proof.
  destruct obj; try discriminate; intros Hp; simpl in Hp.
  - exists TagBoolean, (ASN1Boolean_content value).
    split; [reflexivity|]. split; [unfold TagBoolean; lia|].
    split; [reflexivity|]. destruct value; reflexivity.
  - exists TagInteger, (ASN1Integer_encodeIntegerValue value).
    split; [reflexivity|]. split; [unfold TagInteger; lia|].
    split; [reflexivity|]. unfold convertPrimitiveValue.
    cbn [ASN1Value_Tag ASN1Value_Value NewUniversalTag Class Number].
    change (0 =? 2) with false. change (negb (0 =? 0)) with false.
    change (TagInteger =? TagBoolean) with false.
    change (TagInteger =? TagInteger) with true. cbv iota.
    now rewrite DecodeIntegerValue_encode.
  - exists TagOctetString, value.
    split; [reflexivity|]. split; [unfold TagOctetString; lia|].
    split; reflexivity.
  - exists TagUTF8String, value.
    split; [reflexivity|]. split; [unfold TagUTF8String; lia|].
    split; [reflexivity|]. unfold convertPrimitiveValue.
    cbn [ASN1Value_Tag ASN1Value_Value NewUniversalTag Class Number].
    change (0 =? 2) with false. change (negb (0 =? 0)) with false.
    change (TagUTF8String =? TagBoolean) with false.
    change (TagUTF8String =? TagInteger) with false.
    change (TagUTF8String =? TagOctetString) with false.
    change (TagUTF8String =? TagUTF8String) with true. cbv iota.
    unfold NewUTF8String. now rewrite Hp.
  - exists TagPrintableString, value.
    split; [reflexivity|]. split; [unfold TagPrintableString; lia|].
    split; [reflexivity|]. unfold convertPrimitiveValue.
    cbn [ASN1Value_Tag ASN1Value_Value NewUniversalTag Class Number].
    change (0 =? 2) with false. change (negb (0 =? 0)) with false.
    change (TagPrintableString =? TagBoolean) with false.
    change (TagPrintableString =? TagInteger) with false.
    change (TagPrintableString =? TagOctetString) with false.
    change (TagPrintableString =? TagUTF8String) with false.
    change (TagPrintableString =? TagPrintableString) with true. cbv iota.
    unfold NewPrintableString. now rewrite Hp.
  - exists TagIA5String, value.
    split; [reflexivity|]. split; [unfold TagIA5String; lia|].
    split; [reflexivity|]. unfold convertPrimitiveValue.
    cbn [ASN1Value_Tag ASN1Value_Value NewUniversalTag Class Number].
    change (0 =? 2) with false. change (negb (0 =? 0)) with false.
    change (TagIA5String =? TagBoolean) with false.
    change (TagIA5String =? TagInteger) with false.
    change (TagIA5String =? TagOctetString) with false.
    change (TagIA5String =? TagUTF8String) with false.
    change (TagIA5String =? TagPrintableString) with false.
    change (TagIA5String =? TagIA5String) with true. cbv iota.
    unfold NewIA5String. now rewrite Hp.
Qed.

(** X17.  IMPLICIT tagging can be undone.  For a boolean, integer, octet
    string or string object that holds what its constructor accepts,
    [replaceTag] with a tag number below [2^32] gives a raw value with the
    context-specific tag; and [restoreTag], told the type the object had,
    gives the object back from it (the encodings being shorter than [2^32]
    octets). *)
Theorem implicit_tagging_roundtrip (obj : ASN1Object) (asn1Type : list byte)
    (tagNum : Z) (bs : list byte) :
  plainPrimitive obj = true ->
  universalOf asn1Type = Some (Number (ObjectTag obj), false) ->
  Encode obj = Ok bs -> len bs < 2 ^ 32 -> 0 <= tagNum < 2 ^ 32 ->
  exists tagged,
    replaceTag obj tagNum = Ok tagged
    /\ ObjectTag tagged = NewTag 2 false tagNum
    /\ forall bs',
         Encode tagged = Ok bs' -> len bs' < 2 ^ 32 ->
         restoreTag tagged asn1Type = Ok obj.
Proof.
  intros Hp Hu E Hlen Hn.
  destruct (plainPrimitive_content obj Hp)
    as (number & content & Ht & Hnum & Eo & Hconv).
  rewrite Ht in Hu. cbn [NewUniversalTag Number] in Hu.
  rewrite Eo in E.
  assert (Hr : tagInRange (NewUniversalTag number false))
    by (apply tagInRange_universal; lia).
  pose proof (TLV_roundtrip _ _ _ [] Hr E Hlen) as D.
  rewrite app_nil_r in D.
  exists (OValue (NewASN1Value (NewTag 2 false tagNum) content)).
  split; [|split].
  - unfold replaceTag. rewrite Eo, E, D. reflexivity.
  - reflexivity.
  - intros bs' E' Hlen'. simpl in E'.
    assert (Hr' : tagInRange (NewTag 2 false tagNum))
      by (unfold tagInRange; simpl; lia).
    pose proof (TLV_roundtrip _ _ _ [] Hr' E' Hlen') as D'.
    rewrite app_nil_r in D'.
    unfold restoreTag. cbn [Encode ASN1Value_Tag ASN1Value_Value].
    rewrite E', D', Hu. cbn [ASN1Value_Value].
    exact Hconv.
Qed.

End ImplicitTagging.

(** ** Structs of plain fields *)

Lemma wrapSigned_id bits z :
  0 < bits -> - 2 ^ (bits - 1) <= z < 2 ^ (bits - 1) -> wrapSigned bits z = z.
Proof.
  intros Hb Hz. unfold wrapSigned.
  assert (Hpow : 2 ^ bits = 2 * 2 ^ (bits - 1)).
  { rewrite <- Z.pow_succ_r by lia. f_equal. lia. }
  assert (Hpos : 0 < 2 ^ (bits - 1)) by (apply Z.pow_pos_nonneg; lia).
  destruct (Z.lt_ge_cases z 0) as [Hneg|Hnn].
  - assert (Hm : z mod 2 ^ bits = z + 2 ^ bits).
    { symmetry. apply Z.mod_unique with (q := -1); lia. }
    cbv zeta. rewrite Hm.
    assert (E : (z + 2 ^ bits <? 2 ^ (bits - 1)) = false) by lia.
    rewrite E. lia.
  - cbv zeta. rewrite Z.mod_small by lia.
    assert (E : (z <? 2 ^ (bits - 1)) = true) by lia. now rewrite E.
Qed.

Lemma bytes_eqb_eq (a b : list byte) : bytes_eqb a b = true -> a = b.
Proof.
  revert b. induction a as [|x a IH]; intros [|y b] E; simpl in E;
    try discriminate; [reflexivity|].
  apply andb_prop in E. destruct E as [E1 E2].
  apply Byte.byte_dec_bl in E1. f_equal; [exact E1 | now apply IH].
Qed.

Section PlainStructs.
Context `{GoTimeLib}.

Lemma pow_bits_le_64 bits : 0 < bits <= 64 -> 2 ^ (bits - 1) <= 2 ^ 63.
Proof. intros Hb. apply Z.pow_le_mono_r; lia. Qed.

Lemma marshalValue_plain opts (v : goValue) :
  plainValue v = true -> marshalValue opts v = Ok (objectOf v).
Proof.
  destruct v; try discriminate; intros Hp; cbn [plainValue] in Hp;
    cbn [marshalValue objectOf].
  - reflexivity.
  - reflexivity.
  - unfold NewInteger. f_equal. f_equal.
    apply wrapSigned_id; [lia|].
    repeat (apply andb_prop in Hp; destruct Hp as [Hp ?]).
    change (2 ^ (64 - 1)) with (2 ^ 63). lia.
  - unfold NewUTF8String. now rewrite Hp.
  - reflexivity.
Qed.

Lemma unmarshalValue_plain opts (v cur : goValue) :
  plainValue v = true ->
  unmarshalValue opts (typeOf v) (objectOf v) cur = Ok v.
Proof.
  destruct v; try discriminate; intros Hp; cbn [plainValue] in Hp;
    cbn [typeOf objectOf unmarshalValue].
  - reflexivity.
  - repeat (apply andb_prop in Hp; destruct Hp as [Hp ?]).
    pose proof (pow_bits_le_64 bits ltac:(lia)).
    unfold unmarshalInt, IsInt64.
    assert (E : ((- 2 ^ 63 <=? i) && (i <? 2 ^ 63)) = true) by lia.
    rewrite E. cbn [negb]. rewrite wrapSigned_id by lia. reflexivity.
  - repeat (apply andb_prop in Hp; destruct Hp as [Hp ?]).
    unfold unmarshalUint, IsUint64.
    assert (E0 : (Z.sgn u <? 0) = false) by lia. rewrite E0.
    assert (E : ((0 <=? u) && (u <? 2 ^ 64)) = true).
    { change (2 ^ 64) with (2 * 2 ^ 63). lia. }
    rewrite E. cbn [negb]. unfold wrapUnsigned.
    rewrite Z.mod_small by lia. reflexivity.
  - reflexivity.
  - reflexivity.
Qed.

Lemma typeOf_zeroValue_plain (v : goValue) :
  plainValue v = true -> typeOf (zeroValue (typeOf v)) = typeOf v.
Proof. destruct v; try discriminate; reflexivity. Qed.

Lemma plainField_parts (f : structField * goValue) :
  plainField f = true ->
  IsExported (fst f) = true /\ asn1Tag (fst f) = [] /\ plainValue (snd f) = true.
Proof.
  unfold plainField. intros Hp.
  apply andb_prop in Hp. destruct Hp as [Hp H3].
  apply andb_prop in Hp. destruct Hp as [H1 H2].
  apply bytes_eqb_eq in H2. auto.
Qed.

Lemma marshalStruct_fields_plain opts (fields : list (structField * goValue)) :
  forallb plainField fields = true ->
  forall tag els,
    marshalStruct_fields opts (marshalValue opts) (marshalTypedValue opts)
      fields (OStructured tag els)
    = Ok (OStructured tag (els ++ map (fun f => objectOf (snd f)) fields)).
Proof.
  induction fields as [|[fieldType field] rest IH]; intros Hp tag els.
  - simpl. now rewrite app_nil_r.
  - simpl in Hp. apply andb_prop in Hp. destruct Hp as [Hf Hrest].
    destruct (plainField_parts _ Hf) as (Hex & Htag & Hv). simpl in *.
    rewrite Hex. cbn [negb]. rewrite Htag.
    change (bytes_eqb [] (B "-")) with false. cbv iota.
    unfold fieldDescriptor. rewrite Htag.
    change (negb (bytes_eqb [] [])) with false. cbv iota.
    assert (En : isNilPtr field = false)
      by (destruct field; try discriminate; reflexivity).
    rewrite En.
    change (bytes_eqb (fiType (fieldInfoOfType (B "auto"))) (B "auto"))
      with true. cbv iota.
    rewrite marshalValue_plain by exact Hv. cbn [wrapErr].
    unfold applyContextTag.
    change (HasTag (fieldInfoOfType (B "auto"))) with false.
    cbn [andb]. cbv iota. cbn [Add].
    rewrite IH by exact Hrest. now rewrite <- app_assoc.
Qed.

Lemma nth_middle_len {A} (pre : list A) (x : A) (post : list A) (d : A) :
  nth (Z.to_nat (len pre)) (pre ++ x :: post) d = x.
Proof.
  unfold len. rewrite Nat2Z.id. apply nth_middle.
Qed.

Lemma unmarshalStruct_fields_plain opts
    (fields : list (structField * goValue)) :
  forallb plainField fields = true ->
  forall pre current done,
    unmarshalStruct_fields opts (unmarshalValue opts)
      (pre ++ map (fun f => objectOf (snd f)) fields)
      (map (fun f => (fst f, typeOf (snd f))) fields)
      current (len pre) done
    = Ok (done ++ fields).
Proof.
  induction fields as [|[fieldType field] rest IH];
    intros Hp pre current done.
  - simpl. now rewrite app_nil_r.
  - simpl in Hp. apply andb_prop in Hp. destruct Hp as [Hf Hrest].
    destruct (plainField_parts _ Hf) as (Hex & Htag & Hv). simpl in *.
    assert (Hsel : selectElement opts
                     (pre ++ objectOf field
                      :: map (fun f => objectOf (snd f)) rest)
                     (len pre) fieldType
                   = Ok (FeedField (objectOf field) (len pre + 1))).
    { unfold selectElement. rewrite Hex. cbn [negb]. rewrite Htag.
      change (bytes_eqb [] (B "-")) with false. cbv iota.
      unfold fieldDescriptor. rewrite Htag.
      change (negb (bytes_eqb [] [])) with false. cbv iota. cbn [bind].
      assert (E : (len pre >=? len (pre ++ objectOf field
                      :: map (fun f => objectOf (snd f)) rest)) = false).
      { rewrite len_app, len_cons.
        pose proof (len_nonneg (map (fun f => objectOf (snd f)) rest)).
        lia. }
      rewrite E.
      change (HasTag (fieldInfoOfType (B "auto"))) with false.
      cbn [andb]. cbv iota. rewrite nth_middle_len. reflexivity. }
    rewrite Hsel. rewrite unmarshalValue_plain by exact Hv. cbn [wrapErr].
    replace (pre ++ objectOf field :: map (fun f => objectOf (snd f)) rest)
      with ((pre ++ [objectOf field])
            ++ map (fun f => objectOf (snd f)) rest)
      by (now rewrite <- app_assoc).
    replace (len pre + 1) with (len (pre ++ [objectOf field]))
      by (rewrite len_app; reflexivity).
    rewrite IH by exact Hrest. now rewrite <- app_assoc.
Qed.

Lemma plain_objects_wf (fields : list (structField * goValue)) :
  forallb plainField fields = true ->
  wfObject (OStructured (NewUniversalTag TagSequence true)
              (map (fun f => objectOf (snd f)) fields))
  /\ map asDecoded (map (fun f => objectOf (snd f)) fields)
     = map (fun f => objectOf (snd f)) fields.
Proof.
  intros Hp.
  assert (Hall : Forall (fun o => wfObject o /\ asDecoded o = o)
                   (map (fun f => objectOf (snd f)) fields)).
  { induction fields as [|[ft v] rest IH]; [constructor|].
    simpl in Hp. apply andb_prop in Hp. destruct Hp as [Hf Hrest].
    destruct (plainField_parts _ Hf) as (_ & _ & Hv). simpl in *.
    constructor; [|apply IH; exact Hrest].
    destruct v; try discriminate; simpl; auto. }
  split.
  - cbn [wfObject]. split; [universal_tag|]. split; [reflexivity|].
    induction Hall as [|o os [Ho _] Hos IH]; [exact I|].
    split; [exact Ho | exact IH].
  - induction Hall as [|o os [_ Ho] Hos IH]; [reflexivity|].
    simpl. now rewrite Ho, IH.
Qed.

(** X18.  A struct whose fields are all exported, carry no [asn1] tag and
    hold plain values (a bool, a signed integer within its type, an
    unsigned one within its type and below [2^63], a valid UTF-8 string,
    a byte slice) is marshaled to a SEQUENCE of its fields in order, and
    [Unmarshal] into a zero struct of the same type gives the struct back
    (the encoding being shorter than [2^32] octets). *)
Theorem plain_struct_roundtrip (fields : list (structField * goValue))
    (bs : list byte) :
  forallb plainField fields = true ->
  Marshal (VStruct fields) = Ok bs -> len bs < 2 ^ 32 ->
  Encode (OStructured (NewUniversalTag TagSequence true)
            (map (fun f => objectOf (snd f)) fields)) = Ok bs
  /\ Unmarshal bs (zeroValue (typeOf (VStruct fields))) = Ok (VStruct fields).
Proof.
  intros Hp M Hlen.
  unfold Marshal, MarshalWithOptions in M. cbn [marshalValue] in M.
  unfold NewSequence in M.
  rewrite (marshalStruct_fields_plain _ fields Hp) in M.
  cbn [bind app] in M. split; [exact M|].
  destruct (plain_objects_wf fields Hp) as [Hw Hdec].
  destruct (roundtrip_main _ Hw bs M Hlen) as (_ & _ & _ & Hd).
  destruct (Hd []) as (val & D & Ht & C). rewrite app_nil_r in D.
  cbn [ObjectTag] in Ht.
  rewrite convertToHighLevelObject_eq, Ht in C.
  cbn [NewUniversalTag Constructed] in C.
  cbn [asDecoded] in C. rewrite Hdec in C.
  destruct (decodeElements (ASN1Value_Value val))
    as [[elements [e|]]| |] eqn:De; try discriminate.
  apply Ok_inj in C. injection C as Hel.
  unfold Unmarshal, UnmarshalWithOptions. rewrite D.
  cbn [wrapErr bind]. rewrite Ht. cbn [NewUniversalTag Constructed].
  rewrite De. cbn [bind]. rewrite Hel.
  assert (Hty : typeOf (zeroValue (typeOf (VStruct fields)))
                = TStruct (map (fun f => (fst f, typeOf (snd f))) fields)).
  { cbn [typeOf zeroValue]. f_equal. rewrite map_map.
    clear -Hp. induction fields as [|[ft v] rest IH]; [reflexivity|].
    simpl in Hp. apply andb_prop in Hp. destruct Hp as [Hf Hrest].
    destruct (plainField_parts _ Hf) as (_ & _ & Hv). simpl in *.
    rewrite typeOf_zeroValue_plain by exact Hv. f_equal.
    apply IH. exact Hrest. }
  rewrite Hty. cbn [unmarshalValue].
  pose proof (unmarshalStruct_fields_plain DefaultMarshalOptions fields Hp
                []) as U.
  cbn [app] in U. change (len (@nil ASN1Object)) with 0 in U.
  rewrite U. reflexivity.
Qed.

End PlainStructs.

(** ** Struct tags *)

Lemma optionIs_not_tag name part :
  HasPrefix (B name) (B "tag:") = false ->
  optionIs name part = true -> tagOption part = false.
Proof.
  unfold optionIs, tagOption. intros Hn E.
  apply bytes_eqb_eq in E. now rewrite E.
Qed.

Ltac finish_options :=
  cbn [existsb lastTag fold_left Optional Omitempty Explicit HasTag fiTag
       fiName fiType] in *;
  repeat match goal with
         | E : optionIs _ _ = _ |- _ => first [rewrite E | idtac]; clear E
         | E : tagOption _ = _ |- _ => first [rewrite E | idtac]; clear E
         | E : tagNumberOf _ = _ |- _ => first [rewrite E | idtac]; clear E
         end;
  cbn [orb] in *; rewrite ?orb_true_r in *; repeat split; assumption.

Lemma parseASN1Tag_options_spec (parts : list (list byte)) :
  forall info,
    (Exists (fun p => badTagOption p = true) parts ->
     parseASN1Tag_options parts info = Err "invalid tag number")
    /\ (Forall (fun p => badTagOption p = false) parts ->
        exists r,
          parseASN1Tag_options parts info = Ok r
          /\ fiName r = fiName info
          /\ fiType r = fiType info
          /\ Optional r = Optional info || existsb (optionIs "optional") parts
          /\ Omitempty r
             = Omitempty info || existsb (optionIs "omitempty") parts
          /\ Explicit r = Explicit info || existsb (optionIs "explicit") parts
          /\ HasTag r = HasTag info || existsb tagOption parts
          /\ fiTag r = lastTag parts (fiTag info)).
Proof.
  induction parts as [|part rest IH]; intros info.
  - split; [intros HE; inversion HE|]. intros _. exists info.
    simpl. rewrite !orb_false_r. repeat split; reflexivity.
  - cbn [parseASN1Tag_options]. cbv zeta.
    fold (optionIs "optional" part). fold (optionIs "omitempty" part).
    fold (optionIs "explicit" part). fold (tagOption part).
    fold (tagNumberOf part).
    destruct (optionIs "optional" part) eqn:E1.
    { pose proof (optionIs_not_tag "optional" part eq_refl E1) as Ent.
      assert (Enb : badTagOption part = false)
        by (unfold badTagOption; now rewrite Ent).
      assert (E2 : optionIs "omitempty" part = false).
      { unfold optionIs in *. apply bytes_eqb_eq in E1. now rewrite E1. }
      assert (E3 : optionIs "explicit" part = false).
      { unfold optionIs in *. apply bytes_eqb_eq in E1. now rewrite E1. }
      destruct (IH {| fiName := fiName info; fiType := fiType info;
                      Optional := true; fiTag := fiTag info;
                      HasTag := HasTag info; Omitempty := Omitempty info;
                      Explicit := Explicit info |}) as [IHe IHo].
      split.
      - intros HE. inversion HE as [? ? Hb|? ? Hb]; subst; [congruence|].
        now apply IHe.
      - intros HF. inversion HF as [|? ? _ HF']; subst.
        destruct (IHo HF') as (r & Er & R1 & R2 & R3 & R4 & R5 & R6 & R7).
        exists r. finish_options. }
    destruct (optionIs "omitempty" part) eqn:E2.
    { pose proof (optionIs_not_tag "omitempty" part eq_refl E2) as Ent.
      assert (Enb : badTagOption part = false)
        by (unfold badTagOption; now rewrite Ent).
      assert (E3 : optionIs "explicit" part = false).
      { unfold optionIs in *. apply bytes_eqb_eq in E2. now rewrite E2. }
      destruct (IH {| fiName := fiName info; fiType := fiType info;
                      Optional := Optional info; fiTag := fiTag info;
                      HasTag := HasTag info; Omitempty := true;
                      Explicit := Explicit info |}) as [IHe IHo].
      split.
      - intros HE. inversion HE as [? ? Hb|? ? Hb]; subst; [congruence|].
        now apply IHe.
      - intros HF. inversion HF as [|? ? _ HF']; subst.
        destruct (IHo HF') as (r & Er & R1 & R2 & R3 & R4 & R5 & R6 & R7).
        exists r. finish_options. }
    destruct (optionIs "explicit" part) eqn:E3.
    { pose proof (optionIs_not_tag "explicit" part eq_refl E3) as Ent.
      assert (Enb : badTagOption part = false)
        by (unfold badTagOption; now rewrite Ent).
      destruct (IH {| fiName := fiName info; fiType := fiType info;
                      Optional := Optional info; fiTag := fiTag info;
                      HasTag := HasTag info; Omitempty := Omitempty info;
                      Explicit := true |}) as [IHe IHo].
      split.
      - intros HE. inversion HE as [? ? Hb|? ? Hb]; subst; [congruence|].
        now apply IHe.
      - intros HF. inversion HF as [|? ? _ HF']; subst.
        destruct (IHo HF') as (r & Er & R1 & R2 & R3 & R4 & R5 & R6 & R7).
        exists r. finish_options. }
    destruct (tagOption part) eqn:E4.
    { destruct (tagNumberOf part) as [tagNum|] eqn:E5.
      - assert (Enb : badTagOption part = false)
          by (unfold badTagOption; now rewrite E4, E5).
        destruct (IH {| fiName := fiName info; fiType := fiType info;
                        Optional := Optional info; fiTag := tagNum;
                        HasTag := true; Omitempty := Omitempty info;
                        Explicit := Explicit info |}) as [IHe IHo].
        split.
        + intros HE. inversion HE as [? ? Hb|? ? Hb]; subst; [congruence|].
          now apply IHe.
        + intros HF. inversion HF as [|? ? _ HF']; subst.
          destruct (IHo HF') as (r & Er & R1 & R2 & R3 & R4 & R5 & R6 & R7).
          exists r. finish_options.
      - assert (Eb : badTagOption part = true)
          by (unfold badTagOption; now rewrite E4, E5).
        split; [reflexivity|].
        intros HF. inversion HF; subst. congruence. }
    assert (Enb : badTagOption part = false)
      by (unfold badTagOption; now rewrite E4).
    destruct (IH info) as [IHe IHo].
    split.
    + intros HE. inversion HE as [? ? Hb|? ? Hb]; subst; [congruence|].
      now apply IHe.
    + intros HF. inversion HF as [|? ? _ HF']; subst.
      destruct (IHo HF') as (r & Er & R1 & R2 & R3 & R4 & R5 & R6 & R7).
      exists r. finish_options.
Qed.

Lemma Split_loop_nonempty s cur : Split_loop s cur <> [].
Proof.
  revert cur. induction s as [|c rest IH]; intros cur; simpl.
  - discriminate.
  - destruct (Z_of_byte c =? 44); [discriminate | apply IH].
Qed.

(** X19.  What [parseASN1Tag] makes of a struct tag.  The empty tag is an
    error.  Otherwise the first comma-separated part, trimmed and in lower
    case, is the type; of the further parts, [optional], [omitempty] and
    [explicit] set their flag wherever they stand, the last [tag:N] gives
    the tag number, and any other word is passed over; the only failure is
    a [tag:] option whose number does not parse. *)
Theorem parseASN1Tag_spec (tag : list byte) :
  (tag = [] -> parseASN1Tag tag = Err "empty ASN.1 tag")
  /\ (tag <> [] ->
      let parts := tl (Split tag) in
      (Exists (fun p => badTagOption p = true) parts ->
       parseASN1Tag tag = Err "invalid tag number")
      /\ (Forall (fun p => badTagOption p = false) parts ->
          parseASN1Tag tag
          = Ok {| fiName := [];
                  fiType := ToLower (TrimSpace (hd [] (Split tag)));
                  Optional := existsb (optionIs "optional") parts;
                  fiTag := lastTag parts 0;
                  HasTag := existsb tagOption parts;
                  Omitempty := existsb (optionIs "omitempty") parts;
                  Explicit := existsb (optionIs "explicit") parts |})).
Proof.
  split; [intros ->; reflexivity|].
  intros Hne. cbv zeta. unfold parseASN1Tag.
  assert (E : bytes_eqb tag [] = false).
  { destruct tag; [congruence | reflexivity]. }
  rewrite E.
  pose proof (Split_loop_nonempty tag []) as Hs. fold (Split tag) in Hs.
  destruct (Split tag) as [|first parts]; [congruence|].
  cbn [tl hd].
  destruct (parseASN1Tag_options_spec parts
              (fieldInfoOfType (ToLower (TrimSpace first)))) as [He Ho].
  split; [exact He|].
  intros HF. destruct (Ho HF) as (r & Er & R1 & R2 & R3 & R4 & R5 & R6 & R7).
  rewrite Er. f_equal. destruct r. simpl in *. subst. reflexivity.
Qed.

(** ** Strings that are not what their type wants *)

Section HostileStrings.
Context `{GoTimeLib}.

(** X20.  A string that is not valid UTF-8 makes the marshaler panic, and
    a string TLV whose content its type does not allow makes [Unmarshal]
    panic, whatever the target: both hand the content to the panicking
    constructors without checking it. *)
Theorem invalid_strings_panic (opts : MarshalOptions) :
  (forall s, ValidString s = false ->
             MarshalWithOptions (VString s) opts
             = Panic "invalid UTF-8 string")
  /\ (forall data val n v,
         DecodeTLV data = Ok (val, n) ->
         Class (ASN1Value_Tag val) = 0 ->
         Constructed (ASN1Value_Tag val) = false ->
         (Number (ASN1Value_Tag val) = TagUTF8String ->
          ValidString (ASN1Value_Value val) = false ->
          UnmarshalWithOptions data v opts = Panic "invalid UTF-8 string")
         /\ (Number (ASN1Value_Tag val) = TagPrintableString ->
             isPrintableString (ASN1Value_Value val) = false ->
             UnmarshalWithOptions data v opts
             = Panic "string contains non-printable characters")
         /\ (Number (ASN1Value_Tag val) = TagIA5String ->
             isIA5String (ASN1Value_Value val) = false ->
             UnmarshalWithOptions data v opts
             = Panic "string contains non-IA5 characters")).
Proof.
  split.
  - intros s Hs. unfold MarshalWithOptions. cbn [marshalValue].
    unfold NewUTF8String. rewrite Hs. reflexivity.
  - intros data val n v D Hc Hp.
    assert (Hconv : convertToHighLevelObject val = convertPrimitiveValue val).
    { rewrite convertToHighLevelObject_eq, Hp. reflexivity. }
    assert (Hu : UnmarshalWithOptions data v opts
                 = (obj <- convertPrimitiveValue val ;;
                    unmarshalValue opts (typeOf v) obj v)).
    { unfold UnmarshalWithOptions. rewrite D. cbn [wrapErr bind].
      rewrite Hp, Hconv. reflexivity. }
    rewrite Hu. unfold convertPrimitiveValue. cbv zeta. rewrite Hc.
    change (0 =? 2) with false. change (negb (0 =? 0)) with false. cbv iota.
    split; [|split]; intros Hn Hbad; rewrite Hn.
    + change (TagUTF8String =? TagBoolean) with false.
      change (TagUTF8String =? TagInteger) with false.
      change (TagUTF8String =? TagOctetString) with false.
      change (TagUTF8String =? TagUTF8String) with true. cbv iota.
      unfold NewUTF8String. rewrite Hbad. reflexivity.
    + change (TagPrintableString =? TagBoolean) with false.
      change (TagPrintableString =? TagInteger) with false.
      change (TagPrintableString =? TagOctetString) with false.
      change (TagPrintableString =? TagUTF8String) with false.
      change (TagPrintableString =? TagPrintableString) with true. cbv iota.
      unfold NewPrintableString. rewrite Hbad. reflexivity.
    + change (TagIA5String =? TagBoolean) with false.
      change (TagIA5String =? TagInteger) with false.
      change (TagIA5String =? TagOctetString) with false.
      change (TagIA5String =? TagUTF8String) with false.
      change (TagIA5String =? TagPrintableString) with false.
      change (TagIA5String =? TagIA5String) with true. cbv iota.
      unfold NewIA5String. rewrite Hbad. reflexivity.
Qed.

(** X21.  An unsigned field holding [2^63] or more does not survive: the
    marshaler converts it to [int64], so it is written as the negative
    INTEGER [u - 2^64], which [Unmarshal] refuses to put into the unsigned
    field. *)
Theorem uint64_above_int64 (fieldType : structField) (u : Z) (bs : list byte) :
  IsExported fieldType = true -> asn1Tag fieldType = [] ->
  2 ^ 63 <= u < 2 ^ 64 ->
  Marshal (VStruct [(fieldType, VUint 64 u)]) = Ok bs -> len bs < 2 ^ 32 ->
  Encode (OStructured (NewUniversalTag TagSequence true)
            [OInteger (u - 2 ^ 64)]) = Ok bs
  /\ Unmarshal bs (VStruct [(fieldType, VUint 64 0)])
     = Err "field: cannot convert negative integer to unsigned".
Proof.
  intros Hex Htag Hu M Hlen.
  assert (Hw : wrapSigned 64 u = u - 2 ^ 64).
  { unfold wrapSigned. cbv zeta. rewrite Z.mod_small by lia.
    change (2 ^ (64 - 1)) with (2 ^ 63).
    assert (E : (u <? 2 ^ 63) = false) by lia. now rewrite E. }
  unfold Marshal, MarshalWithOptions in M.
  cbn [marshalValue marshalStruct_fields] in M.
  rewrite Hex, Htag in M. cbn [negb] in M.
  change (bytes_eqb [] (B "-")) with false in M. cbv iota in M.
  unfold fieldDescriptor in M. rewrite Htag in M.
  change (negb (bytes_eqb [] [])) with false in M. cbv iota in M.
  cbn [isNilPtr] in M.
  change (bytes_eqb (fiType (fieldInfoOfType (B "auto"))) (B "auto"))
    with true in M. cbv iota in M.
  cbn [marshalValue wrapErr] in M. unfold applyContextTag in M.
  change (HasTag (fieldInfoOfType (B "auto"))) with false in M.
  cbn [andb] in M. cbv iota in M.
  unfold NewSequence, NewInteger in M. cbn [Add app bind] in M.
  rewrite Hw in M. split; [exact M|].
  assert (Hz : u - 2 ^ 64 < 0) by lia.
  set (z := u - 2 ^ 64) in *. clearbody z.
  assert (Hwf : wfObject (OStructured (NewUniversalTag TagSequence true)
                            [OInteger z])).
  { cbn [wfObject]. split; [universal_tag|]. split; [reflexivity|].
    split; exact I. }
  destruct (roundtrip_main _ Hwf bs M Hlen) as (_ & _ & _ & Hd).
  destruct (Hd []) as (val & D & Ht & C). rewrite app_nil_r in D.
  cbn [ObjectTag] in Ht.
  rewrite convertToHighLevelObject_eq, Ht in C.
  cbn [NewUniversalTag Constructed asDecoded map] in C.
  destruct (decodeElements (ASN1Value_Value val))
    as [[elements [e|]]| |] eqn:De; try discriminate.
  apply Ok_inj in C. injection C as Hel.
  unfold Unmarshal, UnmarshalWithOptions. rewrite D.
  cbn [wrapErr bind]. rewrite Ht. cbn [NewUniversalTag Constructed].
  rewrite De. cbn [bind]. rewrite Hel.
  cbn [typeOf map fst snd unmarshalValue unmarshalStruct_fields].
  unfold selectElement. rewrite Hex, Htag. cbn [negb].
  change (bytes_eqb [] (B "-")) with false. cbv iota.
  unfold fieldDescriptor. rewrite Htag.
  change (negb (bytes_eqb [] [])) with false. cbv iota. cbn [bind].
  change (0 >=? len [OInteger z]) with false. cbv iota.
  change (HasTag (fieldInfoOfType (B "auto"))) with false.
  cbn [andb]. cbv iota.
  change (nth (Z.to_nat 0) [OInteger z] ONull)
    with (OInteger z).
  cbn [unmarshalValue]. unfold unmarshalUint.
  assert (E : (Z.sgn z <? 0) = true) by lia.
  rewrite E. reflexivity.
Qed.

End HostileStrings.

(* ================================================================== *)
(** * CHOICE *)
(* ================================================================== *)

Section Choice.
Context `{GoTimeLib}.

Lemma DecodeChoice_loop_first data
    (before : list (list byte -> result (ASN1Object * Z))) :
  forall decoder after obj n i lastErr,
    Forall (fun d => is_err (d data) = true) before ->
    decoder data = Ok (obj, n) ->
    DecodeChoice_loop data (before ++ decoder :: after) i lastErr
    = Ok (NewChoiceWithID obj (alternativeID (i + len before)), n).
Proof.
  induction before as [|d before IH];
    intros decoder after obj n i lastErr Hb Hd.
  - simpl. rewrite Hd. change (len (@nil (list byte -> result (ASN1Object * Z))))
      with 0. now rewrite Z.add_0_r.
  - inversion Hb as [|? ? Hd1 Hb']; subst. simpl.
    destruct (d data) as [[o c]|e|p]; try discriminate.
    rewrite (IH decoder after obj n (i + 1) (Some e) Hb' Hd).
    rewrite len_cons.
    replace (i + (1 + len before)) with (i + 1 + len before) by lia.
    reflexivity.
Qed.

Lemma DecodeChoice_loop_none data
    (alternatives : list (list byte -> result (ASN1Object * Z))) :
  forall i lastErr,
    Forall (fun d => is_err (d data) = true) alternatives ->
    is_err (DecodeChoice_loop data alternatives i lastErr) = true.
Proof.
  induction alternatives as [|d rest IH]; intros i lastErr Ha.
  - reflexivity.
  - inversion Ha as [|? ? Hd Hr]; subst. simpl.
    destruct (d data) as [[o c]|e|p]; try discriminate.
    apply IH. exact Hr.
Qed.

(** X22.  [DecodeChoice] tries its alternatives in order and takes the
    first that accepts the data: the result is that alternative's object,
    identified as [alternative_i], with its count of consumed octets, and
    the CHOICE is encoded again as that object alone.  When every
    alternative fails, or the data is empty, [DecodeChoice] fails.  So
    with [DecodeBoolean] and [DecodeInteger] as alternatives, the encoding
    of an INTEGER is decoded as alternative 1. *)
Theorem DecodeChoice_takes_first_match (data : list byte) :
  (forall alternatives, data = [] ->
                        DecodeChoice data alternatives = Err "empty data")
  /\ (forall before decoder after obj n,
         data <> [] ->
         Forall (fun d => is_err (d data) = true) before ->
         decoder data = Ok (obj, n) ->
         DecodeChoice data (before ++ decoder :: after)
         = Ok (OChoice (Some obj) (alternativeID (len before)), n)
         /\ Encode (OChoice (Some obj) (alternativeID (len before)))
            = Encode obj)
  /\ (forall alternatives,
         Forall (fun d => is_err (d data) = true) alternatives ->
         is_err (DecodeChoice data alternatives) = true)
  /\ (forall z, Encode (NewChoice (OInteger z)) = Ok data ->
                len data < 2 ^ 32 ->
                DecodeChoice data [DecodeBoolean; DecodeInteger]
                = Ok (OChoice (Some (OInteger z)) (B "alternative_1"),
                      len data)).
Proof.
  assert (Hfirst : forall before decoder after obj n,
             data <> [] ->
             Forall (fun d => is_err (d data) = true) before ->
             decoder data = Ok (obj, n) ->
             DecodeChoice data (before ++ decoder :: after)
             = Ok (OChoice (Some obj) (alternativeID (len before)), n)).
  { intros before decoder after obj n Hne Hb Hd. unfold DecodeChoice.
    assert (E : (len data =? 0) = false).
    { destruct data; [congruence|]. rewrite len_cons.
      pose proof (len_nonneg data). lia. }
    rewrite E. rewrite (DecodeChoice_loop_first data before decoder after
                          obj n 0 None Hb Hd).
    reflexivity. }
  split; [|split; [|split]].
  - intros alternatives ->. reflexivity.
  - intros before decoder after obj n Hne Hb Hd.
    split; [now apply Hfirst | reflexivity].
  - intros alternatives Ha. unfold DecodeChoice.
    destruct (len data =? 0); [reflexivity|].
    now apply DecodeChoice_loop_none.
  - intros z E Hlen. cbn [NewChoice Encode] in E.
    assert (Hne : data <> []).
    { intros ->. apply EncodeTLV_len in E.
      change (len (@nil byte)) with 0 in E.
      pose proof (len_nonneg (ASN1Integer_encodeIntegerValue z)). lia. }
    pose proof (DecodeInteger_encoded z data [] Hlen E) as Hint.
    rewrite app_nil_r in Hint.
    assert (Hb : is_err (DecodeBoolean data) = true).
    { unfold DecodeBoolean.
      assert (Hr : tagInRange (NewUniversalTag TagInteger false))
        by universal_tag.
      pose proof (TLV_roundtrip _ _ _ [] Hr E Hlen) as D.
      rewrite app_nil_r in D. rewrite D. reflexivity. }
    apply (Hfirst [DecodeBoolean] DecodeInteger [] (OInteger z) (len data)
             Hne); [|exact Hint].
    constructor; [exact Hb | constructor].
Qed.

Lemma tag_match_refl (tag : Tag) :
  ((Class tag =? Class tag)
   && Bool.eqb (Constructed tag) (Constructed tag)
   && (Number tag =? Number tag)) = true.
Proof. now rewrite !Z.eqb_refl, Bool.eqb_reflx. Qed.

Lemma tag_match_neq (tag t : Tag) :
  t <> tag ->
  ((Class tag =? Class t)
   && Bool.eqb (Constructed tag) (Constructed t)
   && (Number tag =? Number t)) = false.
Proof.
  intros Hne.
  destruct ((Class tag =? Class t)
            && Bool.eqb (Constructed tag) (Constructed t)
            && (Number tag =? Number t)) eqn:E; [|reflexivity].
  exfalso. apply Hne.
  apply andb_prop in E. destruct E as [E E3].
  apply andb_prop in E. destruct E as [E1 E2].
  apply Z.eqb_eq in E1. apply Z.eqb_eq in E3. apply Bool.eqb_prop in E2.
  destruct tag, t. simpl in *. now subst.
Qed.

Lemma DecodeChoiceWithTags_loop_select data tag
    (tagsBefore : list Tag) :
  forall decodersBefore decoder tagsAfter decodersAfter i,
    List.length tagsBefore = List.length decodersBefore ->
    Forall (fun t => t <> tag) tagsBefore ->
    DecodeChoiceWithTags_loop data tag (tagsBefore ++ tag :: tagsAfter)
      (decodersBefore ++ decoder :: decodersAfter) i
    = ('(obj, consumed) <- wrapErr "failed to decode alternative: "
                             (decoder data) ;;
       Ok (NewChoiceWithID obj (alternativeID (i + len tagsBefore)),
           consumed)).
Proof.
  induction tagsBefore as [|t tagsBefore IH];
    intros decodersBefore decoder tagsAfter decodersAfter i Hl Hn.
  - destruct decodersBefore; [|discriminate Hl]. simpl.
    rewrite tag_match_refl. change (len (@nil Tag)) with 0.
    now rewrite Z.add_0_r.
  - destruct decodersBefore as [|d decodersBefore]; [discriminate Hl|].
    inversion Hn as [|? ? Ht Hn']; subst. simpl.
    rewrite tag_match_neq by exact Ht.
    rewrite IH by (try assumption; simpl in Hl; lia).
    rewrite len_cons. replace (i + 1 + len tagsBefore)
      with (i + (1 + len tagsBefore)) by lia. reflexivity.
Qed.

Lemma DecodeChoiceWithTags_loop_none data tag (tags : list Tag) :
  forall decoders i,
    Forall (fun t => t <> tag) tags ->
    DecodeChoiceWithTags_loop data tag tags decoders i
    = Err "no matching tag found for choice".
Proof.
  induction tags as [|t tags IH]; intros decoders i Hn.
  - reflexivity.
  - inversion Hn as [|? ? Ht Hn']; subst. simpl.
    destruct decoders as [|d decoders]; [reflexivity|].
    rewrite tag_match_neq by exact Ht. now apply IH.
Qed.

(** X23.  [DecodeChoiceWithTags] decodes the tag of the data and hands the
    data to the decoder of the first expected tag equal to it, and to no
    other: when that decoder fails the whole fails, even if a later
    alternative has the same tag; when no expected tag is equal, or the
    two lists differ in length, it fails without calling any decoder. *)
Theorem DecodeChoiceWithTags_selects_by_tag (data : list byte) (tag : Tag)
    (tagLen : Z) :
  DecodeTag data = Ok (tag, tagLen) ->
  (forall tagsBefore decodersBefore decoder tagsAfter decodersAfter,
      List.length tagsBefore = List.length decodersBefore ->
      List.length tagsAfter = List.length decodersAfter ->
      Forall (fun t => t <> tag) tagsBefore ->
      DecodeChoiceWithTags data (tagsBefore ++ tag :: tagsAfter)
        (decodersBefore ++ decoder :: decodersAfter)
      = match decoder data with
        | Ok (obj, consumed) =>
            Ok (OChoice (Some obj) (alternativeID (len tagsBefore)),
                consumed)
        | Err e => Err ("failed to decode alternative: " ++ e)%string
        | Panic p => Panic p
        end)
  /\ (forall tags decoders,
         List.length tags = List.length decoders ->
         Forall (fun t => t <> tag) tags ->
         DecodeChoiceWithTags data tags decoders
         = Err "no matching tag found for choice")
  /\ (forall tags decoders,
         List.length tags <> List.length decoders ->
         DecodeChoiceWithTags data tags decoders
         = Err "number of expected tags must match number of decoders").
Proof.
  intros Dt.
  assert (E0 : (len data =? 0) = false).
  { destruct data; [discriminate Dt|]. rewrite len_cons.
    pose proof (len_nonneg data). lia. }
  split; [|split].
  - intros tagsBefore decodersBefore decoder tagsAfter decodersAfter
      Hl1 Hl2 Hn.
    unfold DecodeChoiceWithTags. rewrite E0.
    assert (El : (len (tagsBefore ++ tag :: tagsAfter)
                  =? len (decodersBefore ++ decoder :: decodersAfter)) = true).
    { assert (Hl : List.length (tagsBefore ++ tag :: tagsAfter)
                   = List.length (decodersBefore ++ decoder :: decodersAfter))
        by (rewrite !length_app; simpl; lia).
      unfold len. rewrite Hl. apply Z.eqb_refl. }
    rewrite El, Dt. cbn [negb wrapErr bind].
    rewrite DecodeChoiceWithTags_loop_select by assumption.
    destruct (decoder data) as [[obj consumed]|e|p]; reflexivity.
  - intros tags decoders Hl Hn. unfold DecodeChoiceWithTags. rewrite E0.
    assert (El : (len tags =? len decoders) = true) by (unfold len; lia).
    rewrite El, Dt. cbn [negb wrapErr bind].
    now apply DecodeChoiceWithTags_loop_none.
  - intros tags decoders Hl. unfold DecodeChoiceWithTags. rewrite E0.
    assert (El : (len tags =? len decoders) = false) by (unfold len; lia).
    now rewrite El.
Qed.

End Choice.

(* ================================================================== *)
(** * Structured values and strings *)
(* ================================================================== *)

Section StructuredEncoding.
Context `{GoTimeLib}.

Lemma encodeElements_failure (before : list ASN1Object) :
  forall encs bad after e acc,
    Forall2 (fun o b => Encode o = Ok b) before encs ->
    Encode bad = Err e ->
    encodeElements (before ++ bad :: after) acc
    = Err ("failed to encode element: " ++ e)%string.
Proof.
  induction before as [|o before IH]; intros encs bad after e acc HF Hb.
  - simpl. now rewrite Hb.
  - inversion HF as [|? b ? encs' Eo HF']; subst. simpl. rewrite Eo.
    now apply (IH encs').
Qed.

(** X24.  The content of a structured value is the concatenation of the
    encodings of its elements, in the order they were added; and when an
    element cannot be encoded (an empty CHOICE, say), the structured value
    cannot either, and the error names the failing element's error. *)
Theorem Structured_encoding_is_concatenation (tag : Tag) :
  (forall elements encs,
      Forall2 (fun o b => Encode o = Ok b) elements encs ->
      Encode (OStructured tag elements) = EncodeTLV tag (List.concat encs)
      /\ forall element b,
           Encode element = Ok b ->
           Encode (Add (OStructured tag elements) element)
           = EncodeTLV tag (List.concat encs ++ b))
  /\ (forall before encs bad after e,
         Forall2 (fun o b => Encode o = Ok b) before encs ->
         Encode bad = Err e ->
         Encode (OStructured tag (before ++ bad :: after))
         = Err ("failed to encode element: " ++ e)%string).
Proof.
  split.
  - intros elements encs HF.
    assert (Hc : Encode (OStructured tag elements)
                 = EncodeTLV tag (List.concat encs)).
    { rewrite Encode_structured, (encodeElements_ok _ encs) by exact HF.
      reflexivity. }
    split; [exact Hc|]. intros element b Eb. cbn [Add].
    rewrite Encode_structured.
    rewrite (encodeElements_ok _ (encs ++ [b])).
    + cbn [app]. rewrite concat_app. simpl List.concat.
      now rewrite app_nil_r.
    + apply Forall2_app; [exact HF|]. constructor; [exact Eb | constructor].
  - intros before encs bad after e HF Hb.
    rewrite Encode_structured.
    now rewrite (encodeElements_failure before encs bad after e []).
Qed.

End StructuredEncoding.

(** ** The three string types *)

Lemma ascii_runes_valid fuel : forall s,
  forallb (fun r => negb ((r <? 0) || (r >? 127))) (runes_loop fuel s) = true ->
  ValidString_loop fuel s = true.
Proof.
  induction fuel as [|fuel IH]; intros s Hr; [reflexivity|].
  simpl in *. destruct (DecodeRune s) as [[r size]|]; [|reflexivity].
  simpl in Hr. apply andb_prop in Hr. destruct Hr as [Hr1 Hr2].
  assert (E : (r =? RuneError) = false) by (unfold RuneError; lia).
  rewrite E. cbn [andb]. apply IH. exact Hr2.
Qed.

Lemma isPrintableChar_ascii r :
  isPrintableChar r = true -> negb ((r <? 0) || (r >? 127)) = true.
Proof.
  unfold isPrintableChar. intros Hp.
  destruct (((65 <=? r) && (r <=? 90)) || ((97 <=? r) && (r <=? 122))
            || ((48 <=? r) && (r <=? 57))) eqn:E1; [lia|].
  destruct ((r =? 32) || (r =? 39) || (r =? 40) || (r =? 41) || (r =? 43)
            || (r =? 44) || (r =? 45) || (r =? 46) || (r =? 47) || (r =? 58)
            || (r =? 61) || (r =? 63)) eqn:E2; [lia | discriminate].
Qed.

Section StringTypes.
Context `{GoTimeLib}.

(** X25.  The three string types are nested: what [NewPrintableString]
    accepts, [NewIA5String] accepts, and what [NewIA5String] accepts,
    [NewUTF8String] accepts; none of the three constructors panics on a
    PrintableString. *)
Theorem string_types_are_nested (s : list byte) :
  (isPrintableString s = true -> isIA5String s = true)
  /\ (isIA5String s = true -> ValidString s = true)
  /\ (isPrintableString s = true ->
      NewPrintableString s = Ok (OPrintableString s)
      /\ NewIA5String s = Ok (OIA5String s)
      /\ NewUTF8String s = Ok (OUTF8String s)).
Proof.
  assert (H1 : isPrintableString s = true -> isIA5String s = true).
  { unfold isPrintableString, isIA5String. intros Hp.
    rewrite forallb_forall in *. intros r Hr.
    apply isPrintableChar_ascii. now apply Hp. }
  assert (H2 : isIA5String s = true -> ValidString s = true).
  { unfold isIA5String, ValidString, runes. apply ascii_runes_valid. }
  split; [exact H1|]. split; [exact H2|].
  intros Hp. unfold NewPrintableString, NewIA5String, NewUTF8String.
  rewrite Hp, (H1 Hp), (H2 (H1 Hp)). repeat split; reflexivity.
Qed.

End StringTypes.

(** ** Sequences longer or shorter than the struct *)

Section ElementCount.
Context `{GoTimeLib}.

Lemma selectElement_plain opts (pre : list ASN1Object) (obj : ASN1Object)
    (post : list ASN1Object) (fieldType : structField) :
  IsExported fieldType = true -> asn1Tag fieldType = [] ->
  selectElement opts (pre ++ obj :: post) (len pre) fieldType
  = Ok (FeedField obj (len pre + 1)).
Proof.
  intros Hex Htag. unfold selectElement. rewrite Hex. cbn [negb].
  rewrite Htag. change (bytes_eqb [] (B "-")) with false. cbv iota.
  unfold fieldDescriptor. rewrite Htag.
  change (negb (bytes_eqb [] [])) with false. cbv iota. cbn [bind].
  assert (E : (len pre >=? len (pre ++ obj :: post)) = false).
  { rewrite len_app, len_cons. pose proof (len_nonneg post). lia. }
  rewrite E. change (HasTag (fieldInfoOfType (B "auto"))) with false.
  cbn [andb]. cbv iota. rewrite nth_middle_len. reflexivity.
Qed.

Lemma unmarshalStruct_fields_plain_prefix opts
    (fields : list (structField * goValue)) :
  forallb plainField fields = true ->
  forall pre extra moreTypes current done,
    unmarshalStruct_fields opts (unmarshalValue opts)
      (pre ++ map (fun f => objectOf (snd f)) fields ++ extra)
      (map (fun f => (fst f, typeOf (snd f))) fields ++ moreTypes)
      current (len pre) done
    = unmarshalStruct_fields opts (unmarshalValue opts)
        (pre ++ map (fun f => objectOf (snd f)) fields ++ extra)
        moreTypes (skipn (List.length fields) current)
        (len pre + len fields) (done ++ fields).
Proof.
  induction fields as [|[fieldType field] rest IH];
    intros Hp pre extra moreTypes current done.
  - simpl. change (len (@nil (structField * goValue))) with 0.
    now rewrite Z.add_0_r, app_nil_r.
  - simpl in Hp. apply andb_prop in Hp. destruct Hp as [Hf Hrest].
    destruct (plainField_parts _ Hf) as (Hex & Htag & Hv).
    cbn [fst snd] in *. cbn [map app unmarshalStruct_fields fst snd].
    rewrite selectElement_plain by assumption.
    rewrite unmarshalValue_plain by exact Hv. cbn [wrapErr].
    replace (pre ++ objectOf field
             :: map (fun f => objectOf (snd f)) rest ++ extra)
      with ((pre ++ [objectOf field])
            ++ map (fun f => objectOf (snd f)) rest ++ extra)
      by (now rewrite <- app_assoc).
    replace (len pre + 1) with (len (pre ++ [objectOf field]))
      by (rewrite len_app; reflexivity).
    rewrite IH by exact Hrest.
    f_equal.
    + destruct current; [now rewrite skipn_nil | reflexivity].
    + rewrite len_app, (len_cons (fieldType, field)).
      change (len [objectOf field]) with 1. lia.
    + now rewrite <- app_assoc.
Qed.

(** X26.  [unmarshalStruct] does not compare the number of elements with
    the number of fields.  Elements beyond the last field are ignored: a
    SEQUENCE that continues after the values of all the plain fields is
    unmarshaled as if it stopped there.  A SEQUENCE that stops before a
    plain field (which is required) is an error. *)
Theorem unmarshalStruct_element_count (opts : MarshalOptions)
    (fields : list (structField * goValue)) (tag : Tag) (cur : goValue) :
  forallb plainField fields = true ->
  (forall extra,
      unmarshalValue opts (typeOf (VStruct fields))
        (OStructured tag (map (fun f => objectOf (snd f)) fields ++ extra))
        cur
      = Ok (VStruct fields))
  /\ (forall missing more,
         plainField missing = true ->
         unmarshalValue opts (typeOf (VStruct (fields ++ missing :: more)))
           (OStructured tag (map (fun f => objectOf (snd f)) fields))
           cur
         = Err "not enough elements for required field").
Proof.
  intros Hp. split.
  - intros extra. cbn [typeOf unmarshalValue].
    pose proof (unmarshalStruct_fields_plain_prefix opts fields Hp
                  [] extra []) as U.
    cbn [app] in U. rewrite app_nil_r in U.
    change (len (@nil ASN1Object)) with 0 in U.
    rewrite U. cbn [unmarshalStruct_fields]. reflexivity.
  - intros missing more Hm. cbn [typeOf unmarshalValue].
    rewrite map_app. cbn [map].
    pose proof (unmarshalStruct_fields_plain_prefix opts fields Hp
                  [] []) as U.
    cbn [app] in U. rewrite app_nil_r in U.
    change (len (@nil ASN1Object)) with 0 in U.
    rewrite U. cbn [unmarshalStruct_fields].
    destruct (plainField_parts _ Hm) as (Hex & Htag & Hv).
    unfold selectElement. rewrite Hex. cbn [negb fst]. rewrite Htag.
    change (bytes_eqb [] (B "-")) with false. cbv iota.
    unfold fieldDescriptor. rewrite Htag.
    change (negb (bytes_eqb [] [])) with false. cbv iota. cbn [bind].
    assert (E : (0 + len fields
                 >=? len (map (fun f => objectOf (snd f)) fields)) = true).
    { unfold len. rewrite length_map. lia. }
    rewrite E. reflexivity.
Qed.

End ElementCount.

(** ** The option [omitempty] *)

Lemma Split_loop_comma s w : forall cur,
  Split_loop (s ++ x2c :: w) cur = Split_loop s cur ++ Split_loop w [].
Proof.
  induction s as [|c s IH]; intros cur.
  - reflexivity.
  - simpl. destruct (Z_of_byte c =? 44).
    + simpl. f_equal. apply IH.
    + apply IH.
Qed.

Lemma parseASN1Tag_options_omitempty parts : forall info,
  parseASN1Tag_options (parts ++ [B "omitempty"]) info
  = (r <- parseASN1Tag_options parts info ;; Ok (withOmitempty r)).
Proof.
  induction parts as [|part rest IH]; intros info.
  - reflexivity.
  - cbn [app parseASN1Tag_options]. cbv zeta.
    destruct (bytes_eqb (TrimSpace part) (B "optional")); [apply IH|].
    destruct (bytes_eqb (TrimSpace part) (B "omitempty")); [apply IH|].
    destruct (bytes_eqb (TrimSpace part) (B "explicit")); [apply IH|].
    destruct (HasPrefix (TrimSpace part) (B "tag:")); [|apply IH].
    destruct (Atoi (TrimPrefix (TrimSpace part) (B "tag:")));
      [apply IH | reflexivity].
Qed.

Lemma parseASN1Tag_omitempty tag :
  tag <> [] ->
  parseASN1Tag (tag ++ B ",omitempty")
  = (r <- parseASN1Tag tag ;; Ok (withOmitempty r)).
Proof.
  intros Hne. unfold parseASN1Tag.
  assert (E : bytes_eqb tag [] = false)
    by (destruct tag; [congruence | reflexivity]).
  assert (E' : bytes_eqb (tag ++ B ",omitempty") [] = false)
    by (destruct tag; [congruence | reflexivity]).
  rewrite E, E'. unfold Split.
  change (B ",omitempty") with (x2c :: B "omitempty").
  rewrite Split_loop_comma.
  change (Split_loop (B "omitempty") []) with [B "omitempty"].
  pose proof (Split_loop_nonempty tag []) as Hs.
  destruct (Split_loop tag []) as [|first parts]; [congruence|].
  cbn [app]. apply parseASN1Tag_options_omitempty.
Qed.

Section Omitempty.
Context `{GoTimeLib}.

Lemma marshalTypedValue_by_type opts : forall (v : goValue) info info',
  fiType info = fiType info' ->
  marshalTypedValue opts v info = marshalTypedValue opts v info'.
Proof.
  fix IH 1. intros v info info' Ht.
  destruct v as [b|bits i|bits u|s|bs|elem xs|elem [target|]|fields|dyn|t|z];
    try (simpl; rewrite Ht; reflexivity).
  - simpl. apply IH. exact Ht.
  - reflexivity.
Qed.

(** X27.  The option [omitempty] is parsed and then never looked at.
    Adding it to a field's tag (one that is neither empty nor [-]) sets
    the flag in the parsed descriptor and changes nothing else: the field
    is marshaled to the same object, a zero value included, and on
    unmarshaling the same element is selected for it. *)
Theorem omitempty_changes_nothing (opts : MarshalOptions)
    (fieldType : structField) :
  asn1Tag fieldType <> [] -> asn1Tag fieldType <> B "-" ->
  fieldDescriptor (addOmitempty fieldType)
  = (info <- fieldDescriptor fieldType ;; Ok (withOmitempty info))
  /\ (forall field rest seq,
         marshalStruct_fields opts (marshalValue opts)
           (marshalTypedValue opts)
           ((addOmitempty fieldType, field) :: rest) seq
         = marshalStruct_fields opts (marshalValue opts)
             (marshalTypedValue opts) ((fieldType, field) :: rest) seq)
  /\ (forall elements elementIndex,
         selectElement opts elements elementIndex (addOmitempty fieldType)
         = selectElement opts elements elementIndex fieldType).
Proof.
  intros Hne Hdash.
  assert (Hd : fieldDescriptor (addOmitempty fieldType)
               = (info <- fieldDescriptor fieldType ;;
                  Ok (withOmitempty info))).
  { unfold fieldDescriptor, addOmitempty. cbn [asn1Tag].
    assert (E : bytes_eqb (asn1Tag fieldType) [] = false)
      by (destruct (asn1Tag fieldType); [congruence | reflexivity]).
    assert (E' : bytes_eqb (asn1Tag fieldType ++ B ",omitempty") [] = false)
      by (destruct (asn1Tag fieldType); [congruence | reflexivity]).
    rewrite E, E'. cbn [negb]. rewrite parseASN1Tag_omitempty by exact Hne.
    destruct (parseASN1Tag (asn1Tag fieldType)); reflexivity. }
  assert (Hd1 : bytes_eqb (asn1Tag fieldType) (B "-") = false).
  { destruct (bytes_eqb (asn1Tag fieldType) (B "-")) eqn:E; [|reflexivity].
    apply bytes_eqb_eq in E. congruence. }
  assert (Hd2 : bytes_eqb (asn1Tag (addOmitempty fieldType)) (B "-") = false).
  { unfold addOmitempty. cbn [asn1Tag].
    destruct (asn1Tag fieldType) as [|c [|c' t]]; [congruence| |];
      simpl; now rewrite andb_false_r. }
  split; [exact Hd|]. split.
  - intros field rest seq. cbn [marshalStruct_fields].
    change (IsExported (addOmitempty fieldType)) with (IsExported fieldType).
    rewrite Hd1, Hd2, Hd.
    destruct (fieldDescriptor fieldType) as [info| |]; cbn [bind];
      try reflexivity.
    change (Optional (withOmitempty info)) with (Optional info).
    change (fiType (withOmitempty info)) with (fiType info).
    rewrite (marshalTypedValue_by_type opts field (withOmitempty info) info)
      by reflexivity.
    reflexivity.
  - intros elements elementIndex. unfold selectElement.
    change (IsExported (addOmitempty fieldType)) with (IsExported fieldType).
    rewrite Hd1, Hd2, Hd.
    destruct (fieldDescriptor fieldType) as [info| |]; reflexivity.
Qed.

End Omitempty.

(* ================================================================== *)
(** * Slices, and truncated input *)
(* ================================================================== *)

Section PlainSlices.
Context `{GoTimeLib}.

Lemma marshalSlice_elems_plain opts (xs : list goValue) :
  Forall (fun x => plainValue x = true) xs ->
  forall tag els,
    marshalSlice_elems (marshalValue opts) xs (OStructured tag els)
    = Ok (OStructured tag (els ++ map objectOf xs)).
Proof.
  induction 1 as [|x xs Hx Hxs IH]; intros tag els.
  - simpl. now rewrite app_nil_r.
  - cbn [marshalSlice_elems map]. rewrite marshalValue_plain by exact Hx.
    cbn [wrapErr Add]. rewrite IH. now rewrite <- app_assoc.
Qed.

Lemma unmarshalSlice_elems_plain opts elem (xs : list goValue) :
  Forall (fun x => plainValue x = true /\ typeOf x = elem) xs ->
  forall acc,
    unmarshalSlice_elems (unmarshalValue opts) elem (map objectOf xs) acc
    = Ok (acc ++ xs).
Proof.
  induction 1 as [|x xs [Hx Ht] Hxs IH]; intros acc.
  - simpl. now rewrite app_nil_r.
  - cbn [map unmarshalSlice_elems]. rewrite <- Ht at 1.
    rewrite unmarshalValue_plain by exact Hx. cbn [wrapErr].
    rewrite IH. now rewrite <- app_assoc.
Qed.

Lemma plain_values_wf (xs : list goValue) :
  Forall (fun x => plainValue x = true) xs ->
  wfObject (OStructured (NewUniversalTag TagSequence true) (map objectOf xs))
  /\ map asDecoded (map objectOf xs) = map objectOf xs.
Proof.
  intros Hp.
  assert (Hall : Forall (fun o => wfObject o /\ asDecoded o = o)
                   (map objectOf xs)).
  { induction Hp as [|x xs Hx Hxs IH]; [constructor|].
    constructor; [|exact IH].
    destruct x; try discriminate; simpl; auto. }
  split.
  - cbn [wfObject]. split; [universal_tag|]. split; [reflexivity|].
    induction Hall as [|o os [Ho _] Hos IH]; [exact I|].
    split; [exact Ho | exact IH].
  - induction Hall as [|o os [_ Ho] Hos IH]; [reflexivity|].
    simpl. now rewrite Ho, IH.
Qed.

(** X28.  A slice of plain values of one type (not a byte slice, which is
    an OCTET STRING) is marshaled to a SEQUENCE OF its elements in order,
    and [Unmarshal] into an empty slice of that type gives the slice back
    (the encoding being shorter than [2^32] octets). *)
Theorem plain_slice_roundtrip (elem : goType) (xs : list goValue)
    (bs : list byte) :
  elem <> TUint 8 ->
  Forall (fun x => plainValue x = true /\ typeOf x = elem) xs ->
  Marshal (VSlice elem xs) = Ok bs -> len bs < 2 ^ 32 ->
  Encode (OStructured (NewUniversalTag TagSequence true) (map objectOf xs))
  = Ok bs
  /\ Unmarshal bs (VSlice elem []) = Ok (VSlice elem xs).
Proof.
  intros _ Hxs M Hlen.
  assert (Hp : Forall (fun x => plainValue x = true) xs).
  { apply Forall_forall. intros x Hx. rewrite Forall_forall in Hxs.
    now apply Hxs. }
  unfold Marshal, MarshalWithOptions in M. cbn [marshalValue] in M.
  unfold NewSequence in M.
  rewrite (marshalSlice_elems_plain _ xs Hp) in M.
  cbn [bind app] in M. split; [exact M|].
  destruct (plain_values_wf xs Hp) as [Hw Hdec].
  destruct (roundtrip_main _ Hw bs M Hlen) as (_ & _ & _ & Hd).
  destruct (Hd []) as (val & D & Ht & C). rewrite app_nil_r in D.
  cbn [ObjectTag] in Ht.
  rewrite convertToHighLevelObject_eq, Ht in C.
  cbn [NewUniversalTag Constructed] in C.
  cbn [asDecoded] in C. rewrite Hdec in C.
  destruct (decodeElements (ASN1Value_Value val))
    as [[elements [e|]]| |] eqn:De; try discriminate.
  apply Ok_inj in C. injection C as Hel.
  unfold Unmarshal, UnmarshalWithOptions. rewrite D.
  cbn [wrapErr bind]. rewrite Ht. cbn [NewUniversalTag Constructed].
  rewrite De. cbn [bind]. rewrite Hel.
  cbn [typeOf unmarshalValue].
  rewrite (unmarshalSlice_elems_plain _ elem xs Hxs []). reflexivity.
Qed.

End PlainSlices.

(** ** Truncated encodings *)

Lemma firstn_firstn_min {A} (n k : nat) (l : list A) :
  (n <= k)%nat -> firstn n (firstn k l) = firstn n l.
Proof. intros H. rewrite firstn_firstn. now rewrite Nat.min_l. Qed.

(** X29.  A truncated encoding is never taken for a value: of the octets
    [EncodeTLV] emits (tag in the decoder's range, fewer than [2^32]
    octets), no proper prefix is accepted by [DecodeTLV]. *)
Theorem truncated_encoding_is_rejected (t : Tag) (value bs : list byte)
    (k : nat) :
  tagInRange t -> EncodeTLV t value = Ok bs -> len bs < 2 ^ 32 ->
  (k < List.length bs)%nat ->
  is_err (DecodeTLV (firstn k bs)) = true.
Proof.
  intros Hr E Hlen Hk.
  pose proof (TLV_roundtrip _ _ _ [] Hr E Hlen) as D.
  rewrite app_nil_r in D.
  destruct (DecodeTLV (firstn k bs)) as [[v n]|e|p] eqn:Dk.
  - exfalso.
    pose proof (DecodeTLV_consumed _ _ _ Dk) as Hn.
    assert (Hlk : len (firstn k bs) = Z.of_nat k).
    { unfold len. rewrite length_firstn. lia. }
    pose proof (DecodeTLV_agree (firstn k bs) bs v n Dk) as Hpre.
    rewrite firstn_firstn_min in Hpre by lia.
    specialize (Hpre eq_refl). rewrite D in Hpre.
    apply Ok_pair_inj in Hpre. destruct Hpre as [_ Hn'].
    unfold len in *. lia.
  - reflexivity.
  - exfalso. eapply DecodeTLV_no_panic. exact Dk.
Qed.

(* ================================================================== *)
(** * The theorems at concrete inputs *)
(* ================================================================== *)

(** From here on the [time] library is the concrete [civilTime]. *)
#[local] Existing Instance civilTime.

(** ** Round trip *)



(** What the other conditions of [roundTrips] are for: a raw BOOLEAN with
    the content octet [01] is read as TRUE, which is encoded with [FF]. *)
Lemma raw_boolean_is_normalised :
  Encode (OValue (NewASN1Value (NewUniversalTag TagBoolean false) [x01]))
  = Ok [x01; x01; x01]
  /\ DecodeTLV [x01; x01; x01]
     = Ok (NewASN1Value (NewUniversalTag TagBoolean false) [x01], 3)
  /\ convertToHighLevelObject
       (NewASN1Value (NewUniversalTag TagBoolean false) [x01])
     = Ok (OBoolean true)
  /\ Encode (OBoolean true) = Ok [x01; x01; xff]
  /\ ~ roundTrips
         (OValue (NewASN1Value (NewUniversalTag TagBoolean false) [x01])).
Proof.
  split; [reflexivity|]. split; [reflexivity|].
  split; [rewrite convertToHighLevelObject_eq; reflexivity|].
  split; [reflexivity|].
  intros [_ Hk]. specialize (Hk eq_refl).
  destruct Hk as [Hk | [Hk | Hk]]; [apply Hk; reflexivity | |];
    discriminate Hk.
Qed.

(** A structured object made with a primitive tag comes back as a raw
    value: its elements are not read again. *)
Lemma structured_needs_constructed_tag :
  Encode (OStructured (NewUniversalTag TagSequence false) [OInteger 42])
  = Ok [x10; x03; x02; x01; x2a]
  /\ DecodeTLV [x10; x03; x02; x01; x2a]
     = Ok (NewASN1Value (NewUniversalTag TagSequence false) [x02; x01; x2a],
           5)
  /\ convertToHighLevelObject
       (NewASN1Value (NewUniversalTag TagSequence false) [x02; x01; x2a])
     = Ok (OValue (NewASN1Value (NewUniversalTag TagSequence false)
                     [x02; x01; x2a]))
  /\ ~ sameValue
         (OStructured (NewUniversalTag TagSequence false) [OInteger 42])
         (OValue (NewASN1Value (NewUniversalTag TagSequence false)
                    [x02; x01; x2a])).
Proof.
  split; [reflexivity|]. split; [reflexivity|].
  split; [rewrite convertToHighLevelObject_eq; reflexivity|].
  intros [].
Qed.

(** ** Times of the calendar *)

Lemma utcYear_mod yy : 0 <= yy < 100 -> utcYear yy mod 100 = yy.
Proof.
  intros Hy. unfold utcYear. destruct (yy >=? 50).
  - replace (yy + 1900) with (yy + 19 * 100) by lia.
    rewrite Z.mod_add by lia. apply Z.mod_small. exact Hy.
  - replace (yy + 2000) with (yy + 20 * 100) by lia.
    rewrite Z.mod_add by lia. apply Z.mod_small. exact Hy.
Qed.

Lemma parseUTCTime_civil yy mo d h mi s :
  0 <= yy < 100 -> 0 <= mo < 100 -> 0 <= d < 100 ->
  0 <= h < 100 -> 0 <= mi < 100 -> 0 <= s < 100 ->
  parseUTCTime (twoDigits yy ++ twoDigits mo ++ twoDigits d ++ twoDigits h
                ++ twoDigits mi ++ twoDigits s ++ [x5a])
  = Ok {| year := utcYear yy; month := mo; day := d;
          hour := h; minute := mi; second := s |}.
Proof.
  intros Hyy Hmo Hd Hh Hmi Hs.
  assert (Hv : Forall (fun b => visible b = true)
                 (twoDigits yy ++ twoDigits mo ++ twoDigits d ++ twoDigits h
                  ++ twoDigits mi ++ twoDigits s ++ [x5a])).
  { repeat (apply Forall_visible_app;
            [apply twoDigits_facts; assumption|]).
    repeat constructor. }
  unfold parseUTCTime. cbv zeta. rewrite TrimSpace_visible by exact Hv.
  clear Hv.
  destruct (twoDigits_facts yy Hyy) as [Ayy _].
  destruct (twoDigits_facts mo Hmo) as [Amo _].
  destruct (twoDigits_facts d Hd) as [Ad _].
  destruct (twoDigits_facts h Hh) as [Ah _].
  destruct (twoDigits_facts mi Hmi) as [Ami _].
  destruct (twoDigits_facts s Hs) as [As _].
  destruct (twoDigits_shape yy) as (y1 & y2 & Eyy).
  destruct (twoDigits_shape mo) as (m1 & m2 & Emo).
  destruct (twoDigits_shape d) as (d1 & d2 & Ed).
  destruct (twoDigits_shape h) as (h1 & h2 & Eh).
  destruct (twoDigits_shape mi) as (i1 & i2 & Emi).
  destruct (twoDigits_shape s) as (s1 & s2 & Es).
  rewrite Eyy, Emo, Ed, Eh, Emi, Es in *. cbn [app].
  change (len [y1; y2; m1; m2; d1; d2; h1; h2; i1; i2; s1; s2; x5a] <? 11)
    with false.
  change (len [y1; y2; m1; m2; d1; d2; h1; h2; i1; i2; s1; s2; x5a] <? 12)
    with false.
  cbv iota. take_substrings.
  rewrite Ayy, Amo, Ad, Ah, Ami, As. reflexivity.
Qed.

Lemma parseGeneralizedTime_civil y mo d h mi s :
  0 <= y < 10000 -> 0 <= mo < 100 -> 0 <= d < 100 ->
  0 <= h < 100 -> 0 <= mi < 100 -> 0 <= s < 100 ->
  parseGeneralizedTime
    (twoDigits (y / 100) ++ twoDigits (y mod 100) ++ twoDigits mo
     ++ twoDigits d ++ twoDigits h ++ twoDigits mi ++ twoDigits s ++ [x5a])
  = Ok {| year := y; month := mo; day := d;
          hour := h; minute := mi; second := s |}.
Proof.
  intros Hy Hmo Hd Hh Hmi Hs.
  assert (Hy1 : 0 <= y / 100 < 100).
  { split; [apply Z.div_pos; lia | apply Z.div_lt_upper_bound; lia]. }
  assert (Hy2 : 0 <= y mod 100 < 100) by (apply Z.mod_pos_bound; lia).
  assert (Hv : Forall (fun b => visible b = true)
                 (twoDigits (y / 100) ++ twoDigits (y mod 100)
                  ++ twoDigits mo ++ twoDigits d ++ twoDigits h
                  ++ twoDigits mi ++ twoDigits s ++ [x5a])).
  { repeat (apply Forall_visible_app;
            [apply twoDigits_facts; assumption|]).
    repeat constructor. }
  unfold parseGeneralizedTime. cbv zeta.
  rewrite TrimSpace_visible by exact Hv. clear Hv.
  pose proof (fourDigits_Atoi y Hy) as Ay.
  destruct (twoDigits_facts mo Hmo) as [Amo _].
  destruct (twoDigits_facts d Hd) as [Ad _].
  destruct (twoDigits_facts h Hh) as [Ah _].
  destruct (twoDigits_facts mi Hmi) as [Ami _].
  destruct (twoDigits_facts s Hs) as [As _].
  destruct (twoDigits_shape (y / 100)) as (c1 & c2 & Ec).
  destruct (twoDigits_shape (y mod 100)) as (y1 & y2 & Eyy).
  destruct (twoDigits_shape mo) as (m1 & m2 & Emo).
  destruct (twoDigits_shape d) as (d1 & d2 & Ed).
  destruct (twoDigits_shape h) as (h1 & h2 & Eh).
  destruct (twoDigits_shape mi) as (i1 & i2 & Emi).
  destruct (twoDigits_shape s) as (s1 & s2 & Es).
  rewrite Ec, Eyy, Emo, Ed, Eh, Emi, Es in *. cbn [app] in *.
  change (len [c1; c2; y1; y2; m1; m2; d1; d2; h1; h2; i1; i2; s1; s2; x5a]
          <? 15) with false.
  cbv iota. take_substrings.
  rewrite Ay, Amo, Ad, Ah, Ami, As. reflexivity.
Qed.

(** [Format] on a calendar time, for the two layouts. *)
Ltac civil_format :=
  change (@time_Format civilTime) with civilFormat;
  change (@time_UTC civilTime) with (fun t : CivilTime => t);
  unfold civilFormat;
  change ("060102150405Z" =? "060102150405Z")%string with true;
  change ("20060102150405Z" =? "060102150405Z")%string with false;
  change ("20060102150405Z" =? "20060102150405Z")%string with true;
  cbv beta iota; cbn [year month day hour minute second];
  rewrite <- ?app_assoc.

(** Over the calendar times every time node is in the family of the round
    trip: a UTCTime whatever its year (the parser reads the year of the same
    two digits in 1950..2049, so the same time when the year is in that
    range), a GeneralizedTime with a year of four digits, which is read
    back as the same time. *)
Lemma civil_times_round_trip (t : CivilTime) :
  0 <= month t < 100 -> 0 <= day t < 100 -> 0 <= hour t < 100 ->
  0 <= minute t < 100 -> 0 <= second t < 100 ->
  roundTrips (OUTCTime t)
  /\ (1950 <= year t < 2050 ->
      parseUTCTime (time_Format t "060102150405Z") = Ok t)
  /\ (0 <= year t < 10000 ->
      roundTrips (OGeneralizedTime t)
      /\ parseGeneralizedTime (time_Format t "20060102150405Z") = Ok t).
Proof.
  destruct t as [y mo d h mi s]. cbn [year month day hour minute second].
  intros Hmo Hd Hh Hmi Hs.
  assert (Hyy : 0 <= y mod 100 < 100) by (apply Z.mod_pos_bound; lia).
  pose proof (parseUTCTime_civil (y mod 100) mo d h mi s
                Hyy Hmo Hd Hh Hmi Hs) as PU.
  split; [|split].
  - cbn [roundTrips]. unfold timeKept.
    civil_format.
    rewrite PU.
    civil_format. now rewrite utcYear_mod.
  - intros Hy.
    civil_format.
    rewrite PU.
    assert (Ey : utcYear (y mod 100) = y).
    { unfold utcYear. pose proof (Z.div_mod y 100 ltac:(lia)) as Hdm.
      set (q := y / 100) in *. set (r := y mod 100) in *.
      destruct (Z.geb_spec r 50); lia. }
    now rewrite Ey.
  - intros Hy.
    pose proof (parseGeneralizedTime_civil y mo d h mi s
                  Hy Hmo Hd Hh Hmi Hs) as PG.
    split.
    + cbn [roundTrips]. unfold timeKept.
      civil_format.
      rewrite PG. civil_format. reflexivity.
    + civil_format. exact PG.
Qed.

(** ** Re-encoding *)

(** An OCTET STRING in the short form goes through
    [reencode_minimal_header]. *)
Lemma reencode_minimal_header_witness :
  DecodeTLV [x04; x01; xaa; x05; x00]
  = Ok (NewASN1Value (NewUniversalTag TagOctetString false) [xaa], 3)
  /\ minimalHeader [x04; x01; xaa; x05; x00] = true
  /\ Encode (OValue (NewASN1Value (NewUniversalTag TagOctetString false)
                       [xaa]))
     = Ok (firstn (Z.to_nat 3) [x04; x01; xaa; x05; x00]).
Proof.
  split; [reflexivity|]. split; [reflexivity|].
  apply (reencode_minimal_header [x04; x01; xaa; x05; x00]
           (NewASN1Value (NewUniversalTag TagOctetString false) [xaa]) 3).
  - reflexivity.
  - reflexivity.
Defined.

(** The same OCTET STRING with its length in the long form is accepted by
    [DecodeTLV], and encoded again it is one octet shorter. *)
Lemma reencode_changes_long_form_length :
  DecodeTLV [x04; x81; x01; xaa]
  = Ok (NewASN1Value (NewUniversalTag TagOctetString false) [xaa], 4)
  /\ Encode (OValue (NewASN1Value (NewUniversalTag TagOctetString false)
                       [xaa]))
     = Ok [x04; x01; xaa]
  /\ [x04; x01; xaa] <> [x04; x81; x01; xaa].
Proof.
  split; [reflexivity|]. split; [reflexivity|]. discriminate.
Qed.

(** ** Context tags *)

(** INTEGER 42 under the descriptor [integer,tag:0,explicit] goes through
    [context_tagging]. *)
Lemma context_tagging_witness :
  parseASN1Tag (B "integer,tag:0,explicit")
  = Ok {| fiName := []; fiType := B "integer"; Optional := false;
          fiTag := 0; HasTag := true; Omitempty := false;
          Explicit := true |}
  /\ UseContextTags DefaultMarshalOptions = true
  /\ tagInRange (ObjectTag (NewInteger 42))
  /\ Constructed (ObjectTag (NewInteger 42)) = false
  /\ Encode (NewInteger 42) = Ok [x02; x01; x2a]
  /\ exists tagged,
       applyContextTag DefaultMarshalOptions
         {| fiName := []; fiType := B "integer"; Optional := false;
            fiTag := 0; HasTag := true; Omitempty := false;
            Explicit := true |}
         (NewInteger 42) = Ok tagged
       /\ ObjectTag tagged = NewTag 2 true 0
       /\ Encode tagged = Ok [xa0; x03; x02; x01; x2a].
Proof.
  assert (Hr : tagInRange (ObjectTag (NewInteger 42))) by universal_tag.
  split; [reflexivity|]. split; [reflexivity|]. split; [exact Hr|].
  split; [reflexivity|]. split; [reflexivity|].
  destruct (context_tagging DefaultMarshalOptions
              {| fiName := []; fiType := B "integer"; Optional := false;
                 fiTag := 0; HasTag := true; Omitempty := false;
                 Explicit := true |}
              (NewInteger 42) [x02; x01; x2a]
              eq_refl eq_refl Hr (fun _ => I) eq_refl eq_refl)
    as [(content & _ & _ & Hexp) _].
  destruct (Hexp eq_refl) as (tagged & Ea & Htag & Eenc).
  exists tagged. split; [exact Ea|]. split; [exact Htag|].
  rewrite Eenc. reflexivity.
Defined.

(** ** Optional fields *)

(** An optional field [tag:0] facing a child tagged [1] goes through
    [optional_field_handling]: the field is left alone. *)
Lemma optional_field_handling_witness :
  fieldDescriptor
    {| Name := B "Note"; IsExported := true;
       asn1Tag := B "utf8string,optional,tag:0" |}
  = Ok {| fiName := []; fiType := B "utf8string"; Optional := true;
          fiTag := 0; HasTag := true; Omitempty := false;
          Explicit := false |}
  /\ 0 <= 0 < len [OValue (NewASN1Value (NewTag 2 false 1) [x07])]
  /\ selectElement DefaultMarshalOptions
       [OValue (NewASN1Value (NewTag 2 false 1) [x07])] 0
       {| Name := B "Note"; IsExported := true;
          asn1Tag := B "utf8string,optional,tag:0" |}
     = Ok LeaveField.
Proof.
  split; [reflexivity|].
  assert (Hi : 0 <= 0 < len [OValue (NewASN1Value (NewTag 2 false 1) [x07])])
    by (split; [discriminate | reflexivity]).
  split; [exact Hi|].
  apply (optional_field_handling DefaultMarshalOptions
           {| Name := B "Note"; IsExported := true;
              asn1Tag := B "utf8string,optional,tag:0" |}
           {| fiName := []; fiType := B "utf8string"; Optional := true;
              fiTag := 0; HasTag := true; Omitempty := false;
              Explicit := false |}
           [OValue (NewASN1Value (NewTag 2 false 1) [x07])] 0
           eq_refl eq_refl eq_refl eq_refl eq_refl
           Hi).
  - reflexivity.
  - reflexivity.
Defined.

(** ** Depth of nesting *)

(** Three SEQUENCEs one inside the other go through
    [depth_is_unbounded]. *)
Lemma depth_is_unbounded_witness :
  Encode (nested 2) = Ok [x30; x04; x30; x02; x30; x00]
  /\ exists val,
       DecodeTLV [x30; x04; x30; x02; x30; x00]
       = Ok (val, len [x30; x04; x30; x02; x30; x00])
       /\ convertToHighLevelObject val = Ok (nested 2)
       /\ depth (nested 2) = 3%nat.
Proof.
  split; [reflexivity|].
  apply (proj2 depth_is_unbounded 2%nat [x30; x04; x30; x02; x30; x00]).
  - reflexivity.
  - reflexivity.
Defined.

(** Sixty-six SEQUENCEs one inside the other, two more levels than a
    limit of 64 would allow, are decoded and converted without error:
    there is no depth limit. *)
Lemma deep_nesting_is_accepted :
  (bs <- Encode (nested 65) ;;
   '(val, _) <- DecodeTLV bs ;;
   obj <- convertToHighLevelObject val ;;
   Ok (depth obj))
  = Ok 66%nat.
Proof. vm_compute. reflexivity. Qed.

(** ** Length decoding *)

(** An OCTET STRING announcing five octets where one follows goes through
    [length_decoding_limits]. *)
Lemma length_decoding_limits_witness :
  DecodeTag [x04; x05; xaa] = Ok (NewUniversalTag TagOctetString false, 1)
  /\ DecodeLength (slice_from [x04; x05; xaa] 1) = Ok (5, 1)
  /\ len [x04; x05; xaa] < 1 + 1 + 5
  /\ DecodeTLV [x04; x05; xaa] = Err "insufficient data for value".
Proof.
  split; [reflexivity|]. split; [reflexivity|]. split; [reflexivity|].
  apply (proj2 (proj2 (proj2 length_decoding_limits))
           [x04; x05; xaa] (NewUniversalTag TagOctetString false) 1 5 1).
  - reflexivity.
  - reflexivity.
  - reflexivity.
Defined.

(** ** Tags *)

(** The context-specific constructed tag 1000 goes through
    [tag_roundtrip]. *)
Lemma tag_roundtrip_witness :
  0 <= Class (NewTag 2 true 1000) <= 3
  /\ 0 <= Number (NewTag 2 true 1000)
  /\ Number (NewTag 2 true 1000) < 2 ^ 32
  /\ exists bs,
       EncodeTag (NewTag 2 true 1000) = Ok bs
       /\ forall rest,
            DecodeTag (bs ++ rest) = Ok (NewTag 2 true 1000, len bs).
Proof.
  assert (Hc : 0 <= Class (NewTag 2 true 1000) <= 3)
    by (split; discriminate).
  assert (Hn : 0 <= Number (NewTag 2 true 1000)) by discriminate.
  assert (Hb : Number (NewTag 2 true 1000) < 2 ^ 32) by reflexivity.
  split; [exact Hc|]. split; [exact Hn|]. split; [exact Hb|].
  exact (proj1 (proj2 (proj2 (tag_roundtrip (NewTag 2 true 1000) Hc Hn)))
           Hb).
Defined.

(** The tag number [2^30], thirty-two times [2^25], is encoded and decoded
    back: a number above [2^25] is not a decode error. *)
Lemma tag_number_above_2_25_decodes :
  EncodeTag (NewTag 2 false (2 ^ 30)) = Ok [x9f; x84; x80; x80; x80; x00]
  /\ DecodeTag [x9f; x84; x80; x80; x80; x00]
     = Ok (NewTag 2 false (2 ^ 30), 6)
  /\ 2 ^ 25 < 2 ^ 30.
Proof. repeat split; vm_compute; reflexivity. Qed.

(** ** Validation *)

(** A UTF8String TLV holding the octet [FF] goes through
    [validation_outcomes]: the decoder returns an error. *)
Lemma validation_outcomes_witness :
  DecodeTLV [x0c; x01; xff]
  = Ok (NewASN1Value (NewUniversalTag TagUTF8String false) [xff], 3)
  /\ ValidString [xff] = false
  /\ DecodeUTF8String [x0c; x01; xff] = Err "invalid UTF-8 string".
Proof.
  split; [reflexivity|]. split; [reflexivity|].
  apply (proj1 (proj2 (proj2 (proj2 (proj2 (proj2 validation_outcomes)))))
           [x0c; x01; xff]
           (NewASN1Value (NewUniversalTag TagUTF8String false) [xff]) 3).
  - reflexivity.
  - reflexivity.
  - reflexivity.
Defined.

(** The constructor of a UTF8String handed the octet [FF] panics; it
    returns no error. *)
Lemma constructor_panics_on_invalid_utf8 :
  NewUTF8String [xff] = Panic "invalid UTF-8 string"
  /\ is_panic (NewUTF8String [xff]) = true
  /\ is_panic (NewPrintableString (B "a*b")) = true
  /\ is_panic (NewIA5String [xff]) = true
  /\ is_panic (NewBitString [x00] 8) = true
  /\ is_panic (NewObjectIdentifier [3; 1]) = true.
Proof. repeat split; vm_compute; reflexivity. Qed.

(** ** Batch decoding *)

(** A NULL followed by a BOOLEAN goes through [DecodeAll_whole_buffer]. *)
Lemma DecodeAll_whole_buffer_witness :
  exists objs,
    DecodeAll [x05; x00; x01; x01; xff] = Ok objs
    /\ TLVsFrom [x05; x00; x01; x01; xff] 0 objs
    /\ objs <> [].
Proof.
  destruct (proj2 (proj2 DecodeAll_whole_buffer) [x05; x00; x01; x01; xff])
    as [[e He]|(objs & Ho & Ht & Hne)].
  - discriminate He.
  - exists objs. split; [exact Ho|]. split; [exact Ht|].
    intros E. apply Hne in E. discriminate E.
Defined.

(** ** The further theorems at concrete inputs *)

(** The OCTET STRING [AA]. *)
Lemma EncodeTLV_DecodeTLV_witness :
  0 <= Number (NewTag 0 false 4)
  /\ EncodeTLV (NewTag 0 false 4) [xaa] = Ok [x04; x01; xaa]
  /\ forall rest,
       DecodeTLV ([x04; x01; xaa] ++ rest)
       = Ok (NewASN1Value (NewTag 0 false 4) [xaa], len [x04; x01; xaa]).
Proof.
  assert (H0 : 0 <= Number (NewTag 0 false 4)) by (simpl; lia).
  split; [exact H0|]. split; [reflexivity|].
  destruct (proj2 (EncodeTLV_DecodeTLV (NewTag 0 false 4) [xaa]) H0)
    as (bs & E & _ & D).
  vm_compute in E. apply Ok_inj in E. subst bs.
  apply D.
  - simpl; lia.
  - simpl; lia.
  - reflexivity.
Defined.

(** The length 300. *)
Lemma EncodeLength_DecodeLength_agree_witness :
  0 <= 300 < 2 ^ 32
  /\ EncodeLength 300 = Ok [x82; x01; x2c]
  /\ forall rest, DecodeLength ([x82; x01; x2c] ++ rest) = Ok (300, 3).
Proof.
  assert (H0 : 0 <= 300 < 2 ^ 32) by lia.
  split; [exact H0|]. split; [reflexivity|].
  destruct (proj1 (proj2 (EncodeLength_DecodeLength_agree 300)) H0)
    as (bs & E & _ & D).
  vm_compute in E. apply Ok_inj in E. subst bs. exact D.
Defined.

(** An OCTET STRING followed by a NULL, and the OCTET STRING alone. *)
Lemma DecodeTLV_reads_a_prefix_witness :
  DecodeTLV [x04; x01; xaa; x05; x00]
  = Ok (NewASN1Value (NewTag 0 false 4) [xaa], 3)
  /\ DecodeTLV [x04; x01; xaa]
     = Ok (NewASN1Value (NewTag 0 false 4) [xaa], 3).
Proof.
  assert (D : DecodeTLV [x04; x01; xaa; x05; x00]
              = Ok (NewASN1Value (NewTag 0 false 4) [xaa], 3))
    by reflexivity.
  split; [exact D|].
  destruct (DecodeTLV_reads_a_prefix _ _ _ D) as (_ & _ & _ & P).
  apply P. reflexivity.
Defined.

(** An INTEGER and a context-tagged value, one after the other. *)
Lemma DecodeAll_concat_witness :
  Forall (fun v => tagInRange (ASN1Value_Tag v))
    [NewASN1Value (NewTag 0 false 2) [x2a]; NewASN1Value (NewTag 2 false 1) []]
  /\ DecodeAll [x02; x01; x2a; x81; x00]
     = Ok [OValue (NewASN1Value (NewTag 0 false 2) [x2a]);
           OValue (NewASN1Value (NewTag 2 false 1) [])].
Proof.
  assert (Hr : Forall (fun v => tagInRange (ASN1Value_Tag v))
                 [NewASN1Value (NewTag 0 false 2) [x2a];
                  NewASN1Value (NewTag 2 false 1) []]).
  { repeat constructor; simpl; lia. }
  split; [exact Hr|].
  apply (DecodeAll_concat _ [x02; x01; x2a; x81; x00] Hr).
  - reflexivity.
  - reflexivity.
Defined.

(** The octets [FF 7F] are [-129]. *)
Lemma DecodeIntegerValue_twos_complement_witness :
  [xff; x7f] <> []
  /\ exists value,
       DecodeIntegerValue [xff; x7f] = Ok value
       /\ - 2 ^ (8 * len [xff; x7f] - 1) <= value < 2 ^ (8 * len [xff; x7f] - 1)
       /\ value mod 2 ^ (8 * len [xff; x7f]) = big_SetBytes [xff; x7f].
Proof.
  assert (Hn : [xff; x7f] <> []) by discriminate.
  split; [exact Hn|].
  exact (proj2 (DecodeIntegerValue_twos_complement [xff; x7f]) Hn).
Defined.

(** [-32768] is [-2^(8*2-1)]. *)
Lemma integer_encoders_minimal_except_witness :
  (exists k, 2 <= k /\ -32768 = - 2 ^ (8 * k - 1))
  /\ minimalTwosComplement (ASN1Integer_encodeIntegerValue (-32768)) = false.
Proof.
  assert (Hk : exists k, 2 <= k /\ -32768 = - 2 ^ (8 * k - 1)).
  { exists 2. split; [lia | reflexivity]. }
  split; [exact Hk|].
  exact (proj2 (proj1 (integer_encoders_minimal_except (-32768))) Hk).
Defined.

(** The identifier 1.2.840.113549. *)
Lemma ObjectIdentifier_roundtrip_witness :
  validArcs [1; 2; 840; 113549] = true
  /\ DecodeObjectIdentifierValue
       (ASN1ObjectIdentifier_content [1; 2; 840; 113549])
     = Ok [1; 2; 840; 113549].
Proof.
  split; [reflexivity|].
  apply (ObjectIdentifier_roundtrip 1 2 [840; 113549]).
  - reflexivity.
  - lia.
  - lia.
  - repeat constructor; lia.
Defined.

(** The identifier 1.2.3.(-5).4 is encoded as 1.2.3.4. *)
Lemma ObjectIdentifier_negative_arc_vanishes_witness :
  -5 < 0
  /\ NewObjectIdentifier [1; 2; 3; -5; 4] = Ok (OObjectIdentifier [1; 2; 3; -5; 4])
  /\ Encode (OObjectIdentifier [1; 2; 3; -5; 4])
     = Encode (OObjectIdentifier [1; 2; 3; 4]).
Proof.
  assert (H0 : -5 < 0) by lia.
  split; [exact H0|].
  destruct (ObjectIdentifier_negative_arc_vanishes 1 2 [3] [4] (-5) H0)
    as [N E].
  split; [apply N; reflexivity | exact E].
Defined.

(** INTEGER 42 followed by a NULL. *)
Lemma typed_decoders_roundtrip_witness :
  len [x02; x01; x2a] < 2 ^ 32
  /\ Encode (OInteger 42) = Ok [x02; x01; x2a]
  /\ DecodeInteger ([x02; x01; x2a] ++ [x05; x00])
     = Ok (OInteger 42, len [x02; x01; x2a]).
Proof.
  assert (Hl : len [x02; x01; x2a] < 2 ^ 32) by (vm_compute; reflexivity).
  split; [exact Hl|]. split; [reflexivity|].
  destruct (typed_decoders_roundtrip [x02; x01; x2a] [x05; x00] Hl)
    as (_ & I & _).
  apply I. reflexivity.
Defined.

(** No octets and three unused bits. *)
Lemma BitString_empty_with_unused_bits_witness :
  1 <= 3 <= 7
  /\ NewBitString [] 3 = Ok (OBitString [] 3)
  /\ Encode (OBitString [] 3) = Ok [x03; x01; byte_of_Z 3]
  /\ DecodeBitString ([x03; x01; byte_of_Z 3] ++ [])
     = Err "unused bits must be 0 when no data bytes present".
Proof.
  assert (H0 : 1 <= 3 <= 7) by lia.
  split; [exact H0|].
  exact (BitString_empty_with_unused_bits 3 [] H0).
Defined.

(** The BOOLEAN octet [01] comes back as [FF]. *)
Lemma DecodeBoolean_normalises_witness :
  Z_of_byte x01 <> 0
  /\ DecodeBoolean ([x01; x01; x01] ++ [])
     = Ok (OBoolean (negb (Z_of_byte x01 =? 0)), 3)
  /\ Encode (OBoolean (negb (Z_of_byte x01 =? 0))) = Ok [x01; x01; xff].
Proof.
  assert (H0 : Z_of_byte x01 <> 0) by discriminate.
  split; [exact H0|].
  destruct (DecodeBoolean_normalises x01 []) as (D & E & _).
  split; [exact D | exact (E H0)].
Defined.

(** The number 5 with the constructed bit set. *)
Lemma constructed_flag_on_primitives_witness :
  len (ASN1Integer_encodeIntegerValue 5) < 2 ^ 31
  /\ len (encodeIntegerValue 5) < 2 ^ 31
  /\ (exists b0 tail,
         Encode (OInteger 5) = Ok (b0 :: tail)
         /\ DecodeInteger (bor b0 x20 :: tail ++ [])
            = Ok (OInteger 5, len (b0 :: tail)))
  /\ (exists b0 tail,
         Encode (OEnumerated 5 []) = Ok (b0 :: tail)
         /\ DecodeEnumerated (bor b0 x20 :: tail ++ [])
            = Err "expected ENUMERATED tag").
Proof.
  assert (H1 : len (ASN1Integer_encodeIntegerValue 5) < 2 ^ 31)
    by (vm_compute; reflexivity).
  assert (H2 : len (encodeIntegerValue 5) < 2 ^ 31)
    by (vm_compute; reflexivity).
  split; [exact H1|]. split; [exact H2|].
  exact (constructed_flag_on_primitives 5 [] H1 H2).
Defined.

(** Eleven characters: a UTCTime without its last digit. *)
Lemma UTCTime_of_eleven_characters_panics_witness :
  len (TrimSpace (B "25010112000")) = 11
  /\ parseUTCTime (B "25010112000") = Panic "slice bounds out of range".
Proof.
  assert (H0 : len (TrimSpace (B "25010112000")) = 11) by reflexivity.
  split; [exact H0|].
  exact (proj1 (UTCTime_of_eleven_characters_panics (B "25010112000") H0)).
Defined.

(** 1 March 2025, 12:30:45, followed by [Z]. *)
Lemma parseUTCTime_reads_twelve_digits_witness :
  Forall (fun b => visible b = true) (B "Z")
  /\ parseUTCTime (twelveDigits 25 3 1 12 30 45 ++ B "Z")
     = Ok (time_Date (utcYear 25) 3 1 12 30 45).
Proof.
  assert (Hs : Forall (fun b => visible b = true) (B "Z"))
    by (repeat constructor).
  split; [exact Hs|].
  apply (parseUTCTime_reads_twelve_digits 25 3 1 12 30 45 (B "Z"));
    try lia.
  exact Hs.
Defined.

(** The same instant as a GeneralizedTime, with and without the [Z]. *)
Lemma parseGeneralizedTime_reads_fourteen_digits_witness :
  Forall (fun b => visible b = true) (B "Z")
  /\ B "Z" <> []
  /\ parseGeneralizedTime (fourteenDigits 2025 3 1 12 30 45 ++ B "Z")
     = Ok (time_Date 2025 3 1 12 30 45)
  /\ parseGeneralizedTime (fourteenDigits 2025 3 1 12 30 45)
     = Err "GeneralizedTime string too short".
Proof.
  assert (Hs : Forall (fun b => visible b = true) (B "Z"))
    by (repeat constructor).
  assert (Hn : B "Z" <> []) by discriminate.
  split; [exact Hs|]. split; [exact Hn|].
  destruct (parseGeneralizedTime_reads_fourteen_digits 2025 3 1 12 30 45
              (B "Z") ltac:(lia) ltac:(lia) ltac:(lia) ltac:(lia) ltac:(lia)
              ltac:(lia) Hs) as [P S].
  split; [exact (P Hn) | exact S].
Defined.

(** INTEGER 42 under the implicit tag [0]. *)
Lemma implicit_tagging_roundtrip_witness :
  plainPrimitive (OInteger 42) = true
  /\ universalOf (B "integer") = Some (Number (ObjectTag (OInteger 42)), false)
  /\ Encode (OInteger 42) = Ok [x02; x01; x2a]
  /\ exists tagged,
       replaceTag (OInteger 42) 0 = Ok tagged
       /\ ObjectTag tagged = NewTag 2 false 0
       /\ forall bs',
            Encode tagged = Ok bs' -> len bs' < 2 ^ 32 ->
            restoreTag tagged (B "integer") = Ok (OInteger 42).
Proof.
  split; [reflexivity|]. split; [reflexivity|]. split; [reflexivity|].
  apply (implicit_tagging_roundtrip (OInteger 42) (B "integer") 0
           [x02; x01; x2a]).
  - reflexivity.
  - reflexivity.
  - reflexivity.
  - reflexivity.
  - lia.
Defined.

(** [struct { ID int64; Name string }] holding 42 and [hi]. *)
Lemma plain_struct_roundtrip_witness :
  forallb plainField
    [({| Name := B "ID"; IsExported := true; asn1Tag := [] |}, VInt 64 42);
     ({| Name := B "Name"; IsExported := true; asn1Tag := [] |},
      VString (B "hi"))] = true
  /\ Marshal
       (VStruct
          [({| Name := B "ID"; IsExported := true; asn1Tag := [] |},
            VInt 64 42);
           ({| Name := B "Name"; IsExported := true; asn1Tag := [] |},
            VString (B "hi"))])
     = Ok [x30; x07; x02; x01; x2a; x0c; x02; x68; x69]
  /\ Unmarshal [x30; x07; x02; x01; x2a; x0c; x02; x68; x69]
       (VStruct
          [({| Name := B "ID"; IsExported := true; asn1Tag := [] |},
            VInt 64 0);
           ({| Name := B "Name"; IsExported := true; asn1Tag := [] |},
            VString [])])
     = Ok (VStruct
             [({| Name := B "ID"; IsExported := true; asn1Tag := [] |},
               VInt 64 42);
              ({| Name := B "Name"; IsExported := true; asn1Tag := [] |},
               VString (B "hi"))]).
Proof.
  split; [reflexivity|]. split; [reflexivity|].
  apply (plain_struct_roundtrip
           [({| Name := B "ID"; IsExported := true; asn1Tag := [] |},
             VInt 64 42);
            ({| Name := B "Name"; IsExported := true; asn1Tag := [] |},
             VString (B "hi"))]
           [x30; x07; x02; x01; x2a; x0c; x02; x68; x69]).
  - reflexivity.
  - reflexivity.
  - reflexivity.
Defined.

(** The tag [integer,optional,tag:5]. *)
Lemma parseASN1Tag_spec_witness :
  B "integer,optional,tag:5" <> []
  /\ Forall (fun p => badTagOption p = false)
       (tl (Split (B "integer,optional,tag:5")))
  /\ parseASN1Tag (B "integer,optional,tag:5")
     = Ok {| fiName := []; fiType := B "integer"; Optional := true;
             fiTag := 5; HasTag := true; Omitempty := false;
             Explicit := false |}.
Proof.
  assert (Hn : B "integer,optional,tag:5" <> []) by discriminate.
  assert (Hf : Forall (fun p => badTagOption p = false)
                 (tl (Split (B "integer,optional,tag:5"))))
    by (repeat constructor).
  split; [exact Hn|]. split; [exact Hf|].
  exact (proj2 (proj2 (parseASN1Tag_spec (B "integer,optional,tag:5")) Hn) Hf).
Defined.

(** The string of the one octet [FF]. *)
Lemma invalid_strings_panic_witness :
  ValidString [xff] = false
  /\ MarshalWithOptions (VString [xff]) DefaultMarshalOptions
     = Panic "invalid UTF-8 string".
Proof.
  split; [reflexivity|].
  apply (proj1 (invalid_strings_panic DefaultMarshalOptions)).
  reflexivity.
Defined.

(** The largest [uint64]. *)
Lemma uint64_above_int64_witness :
  2 ^ 63 <= 2 ^ 64 - 1 < 2 ^ 64
  /\ Marshal (VStruct [({| Name := B "N"; IsExported := true; asn1Tag := [] |},
                        VUint 64 (2 ^ 64 - 1))])
     = Ok [x30; x03; x02; x01; xff]
  /\ Unmarshal [x30; x03; x02; x01; xff]
       (VStruct [({| Name := B "N"; IsExported := true; asn1Tag := [] |},
                  VUint 64 0)])
     = Err "field: cannot convert negative integer to unsigned".
Proof.
  assert (H0 : 2 ^ 63 <= 2 ^ 64 - 1 < 2 ^ 64) by lia.
  split; [exact H0|]. split; [reflexivity|].
  apply (uint64_above_int64
           {| Name := B "N"; IsExported := true; asn1Tag := [] |}
           (2 ^ 64 - 1) [x30; x03; x02; x01; xff]).
  - reflexivity.
  - reflexivity.
  - exact H0.
  - reflexivity.
  - reflexivity.
Defined.

(** INTEGER 42 offered to a BOOLEAN and then to an INTEGER decoder. *)
Lemma DecodeChoice_takes_first_match_witness :
  Forall (fun d => is_err (d [x02; x01; x2a]) = true) [DecodeBoolean]
  /\ DecodeChoice [x02; x01; x2a] ([DecodeBoolean] ++ DecodeInteger :: [])
     = Ok (OChoice (Some (OInteger 42)) (alternativeID (len [DecodeBoolean])),
           3).
Proof.
  assert (Hb : Forall (fun d => is_err (d [x02; x01; x2a]) = true)
                 [DecodeBoolean])
    by (repeat constructor).
  split; [exact Hb|].
  destruct (DecodeChoice_takes_first_match [x02; x01; x2a]) as (_ & F & _).
  apply (F [DecodeBoolean] DecodeInteger [] (OInteger 42) 3).
  - discriminate.
  - exact Hb.
  - reflexivity.
Defined.

(** The same, with the expected tags given. *)
Lemma DecodeChoiceWithTags_selects_by_tag_witness :
  DecodeTag [x02; x01; x2a] = Ok (NewTag 0 false 2, 1)
  /\ DecodeChoiceWithTags [x02; x01; x2a]
       ([NewTag 0 false 1] ++ NewTag 0 false 2 :: [])
       ([DecodeBoolean] ++ DecodeInteger :: [])
     = Ok (OChoice (Some (OInteger 42)) (alternativeID 1), 3).
Proof.
  assert (Ht : DecodeTag [x02; x01; x2a] = Ok (NewTag 0 false 2, 1))
    by reflexivity.
  split; [exact Ht|].
  destruct (DecodeChoiceWithTags_selects_by_tag _ _ _ Ht) as (S & _).
  apply (S [NewTag 0 false 1] [DecodeBoolean] DecodeInteger [] []).
  - reflexivity.
  - reflexivity.
  - repeat constructor. discriminate.
Defined.

(** A SEQUENCE of INTEGER 42, and BOOLEAN true added to it. *)
Lemma Structured_encoding_is_concatenation_witness :
  Forall2 (fun o b => Encode o = Ok b) [OInteger 42] [[x02; x01; x2a]]
  /\ Encode (OStructured (NewUniversalTag TagSequence true) [OInteger 42])
     = EncodeTLV (NewUniversalTag TagSequence true)
         (List.concat [[x02; x01; x2a]])
  /\ Encode (Add (OStructured (NewUniversalTag TagSequence true) [OInteger 42])
               (OBoolean true))
     = EncodeTLV (NewUniversalTag TagSequence true)
         (List.concat [[x02; x01; x2a]] ++ [x01; x01; xff]).
Proof.
  assert (Hf : Forall2 (fun o b => Encode o = Ok b)
                 [OInteger 42] [[x02; x01; x2a]])
    by (repeat constructor).
  split; [exact Hf|].
  destruct (proj1 (Structured_encoding_is_concatenation
                     (NewUniversalTag TagSequence true)) _ _ Hf) as [E A].
  split; [exact E|]. apply A. reflexivity.
Defined.

(** The PrintableString [Hello]. *)
Lemma string_types_are_nested_witness :
  isPrintableString (B "Hello") = true
  /\ isIA5String (B "Hello") = true
  /\ NewUTF8String (B "Hello") = Ok (OUTF8String (B "Hello")).
Proof.
  assert (Hp : isPrintableString (B "Hello") = true) by reflexivity.
  split; [exact Hp|].
  destruct (string_types_are_nested (B "Hello")) as (I & _ & N).
  split; [exact (I Hp)|]. exact (proj2 (proj2 (N Hp))).
Defined.

(** A SEQUENCE of three elements unmarshaled into a struct of two
    fields. *)
Lemma unmarshalStruct_element_count_witness :
  forallb plainField
    [({| Name := B "ID"; IsExported := true; asn1Tag := [] |}, VInt 64 42);
     ({| Name := B "Ok"; IsExported := true; asn1Tag := [] |}, VBool true)]
  = true
  /\ unmarshalValue DefaultMarshalOptions
       (TStruct
          [({| Name := B "ID"; IsExported := true; asn1Tag := [] |}, TInt 64);
           ({| Name := B "Ok"; IsExported := true; asn1Tag := [] |}, TBool)])
       (OStructured (NewUniversalTag TagSequence true)
          [OInteger 42; OBoolean true; ONull])
       (VStruct [])
     = Ok (VStruct
             [({| Name := B "ID"; IsExported := true; asn1Tag := [] |},
               VInt 64 42);
              ({| Name := B "Ok"; IsExported := true; asn1Tag := [] |},
               VBool true)]).
Proof.
  split; [reflexivity|].
  apply (proj1 (unmarshalStruct_element_count DefaultMarshalOptions
                  [({| Name := B "ID"; IsExported := true; asn1Tag := [] |},
                    VInt 64 42);
                   ({| Name := B "Ok"; IsExported := true; asn1Tag := [] |},
                    VBool true)]
                  (NewUniversalTag TagSequence true) (VStruct [])
                  eq_refl) [ONull]).
Defined.

(** The field [ID int64 `asn1:"integer"`]. *)
Lemma omitempty_changes_nothing_witness :
  B "integer" <> [] /\ B "integer" <> B "-"
  /\ fieldDescriptor
       {| Name := B "ID"; IsExported := true;
          asn1Tag := B "integer" ++ B ",omitempty" |}
     = Ok (withOmitempty (fieldInfoOfType (B "integer"))).
Proof.
  assert (H1 : B "integer" <> []) by discriminate.
  assert (H2 : B "integer" <> B "-") by discriminate.
  split; [exact H1|]. split; [exact H2|].
  exact (proj1 (omitempty_changes_nothing DefaultMarshalOptions
                  {| Name := B "ID"; IsExported := true;
                     asn1Tag := B "integer" |} H1 H2)).
Defined.

(** The slice [[]int64{1, 2}]. *)
Lemma plain_slice_roundtrip_witness :
  TInt 64 <> TUint 8
  /\ Forall (fun x => plainValue x = true /\ typeOf x = TInt 64)
       [VInt 64 1; VInt 64 2]
  /\ Marshal (VSlice (TInt 64) [VInt 64 1; VInt 64 2])
     = Ok [x30; x06; x02; x01; x01; x02; x01; x02]
  /\ Unmarshal [x30; x06; x02; x01; x01; x02; x01; x02] (VSlice (TInt 64) [])
     = Ok (VSlice (TInt 64) [VInt 64 1; VInt 64 2]).
Proof.
  assert (H1 : TInt 64 <> TUint 8) by discriminate.
  assert (H2 : Forall (fun x => plainValue x = true /\ typeOf x = TInt 64)
                 [VInt 64 1; VInt 64 2])
    by (repeat constructor).
  split; [exact H1|]. split; [exact H2|]. split; [reflexivity|].
  apply (plain_slice_roundtrip (TInt 64) [VInt 64 1; VInt 64 2]
           [x30; x06; x02; x01; x01; x02; x01; x02] H1 H2).
  - reflexivity.
  - reflexivity.
Defined.

(** An OCTET STRING of two octets, cut after the first. *)
Lemma truncated_encoding_is_rejected_witness :
  tagInRange (NewTag 0 false 4)
  /\ EncodeTLV (NewTag 0 false 4) [xaa; xbb] = Ok [x04; x02; xaa; xbb]
  /\ is_err (DecodeTLV (firstn 3 [x04; x02; xaa; xbb])) = true.
Proof.
  assert (Hr : tagInRange (NewTag 0 false 4)) by (split; simpl; lia).
  split; [exact Hr|]. split; [reflexivity|].
  apply (truncated_encoding_is_rejected (NewTag 0 false 4) [xaa; xbb]
           [x04; x02; xaa; xbb] 3 Hr).
  - reflexivity.
  - reflexivity.
  - simpl. lia.
Defined.
